(* ===== verification/_CoqProject ===== *)
-Q . S2P
Prelude.v
PyText.v
Json.v
Float.v
FloatArith.v
JsonDump.v
JsonLoad.v
JsonDict.v
JsonRoundtrip.v
Extract.v
Structure.v
ScoreFloat.v
Semantic.v
Select.v
Refine.v
Pipeline.v
Main.v
