(* ===== verification/Prelude.v ===== *)
(** * A verification development of Adobe1B's section ranker

    The program, [src/src/main.py], reads a persona, a task and a list of
    PDF file names from [input.json]; for every PDF it scores each text
    span by layout and by similarity to "persona task", keeps the best
    span, and writes it with a cleaned excerpt of the text below it,
    ranked in input order, to [output.json].

    ** Parts, files and correspondence with the code

    Files, in dependency order ([_CoqProject]):
    - [Prelude] (this file): Python [str] as [text] = [list N] of code
      points; [qltb] = float [<] on [Q]; the result monad [result]
      ([Ok]/[Err], notation [x <- c ;; k]) for exceptions that abort the
      run; [enumerate]; shared list lemmas; the hint databases [pyhints]
      (auto) and [pyrw] (autorewrite); tactics [qcase], [py_simpl],
      [rbind_ok_step], [text_case] (split on [text_eqb]), [nbool] and
      [decide_cmp] (character tests as arithmetic on code points, decided
      one comparison at a time by [lia]).
    - [PyText]: the CPython string operations the code calls:
      [py_strip] ([str.strip], line 28), [py_contains] ([in], line 44),
      [py_isupper] ([str.isupper], line 46, CPython's loop with its
      one-character fast path), [py_join] (line 64), [py_replace1]
      (line 68), [re_sub_nonprint] and [re_sub_ws] (lines 70-71).  White
      space is [Py_UNICODE_ISSPACE] ([py_isspace]).  The case tables are
      the type class [UnicodeDB], pinned to ASCII by its laws, with the
      instances [ascii_db] and [latin1_db] (CPython's tables on
      Latin-1).
    - [Json]: the values [json.load] returns ([json]), the exceptions
      of the program ([PyExn]: [IndexError], [ValueError],
      [FileDataError], [KeyError], [TypeError], [ZeroDivisionError],
      [JSONDecodeError] and the errors of [mkdir] and [open]), dict subscript [py_getitem] (a repeated key keeps its
      last value), iteration [py_iter] (a dict yields its keys, a string
      its characters), comprehensions that may raise [py_map_result],
      Python floats [pyfloat] (finite, infinite, NaN),
      and [str] of a value in an f-string ([py_str]); the induction
      principle [json_nested_ind] through lists and dicts.
    - [Float]: [float(s)] of a decimal numeral, as [json.load] calls it
      on a number with a fraction or an exponent: [round_double] rounds
      the exact value to the nearest IEEE 754 double, ties to the even
      significand ([round_half_even]), with subnormals from [2^-1074]
      ([double_exp]) and overflow to an infinity, as CPython's
      correctly rounded [_Py_dg_strtod] does.  Rounding is monotone
      ([round_double_mono], Python's [<=] is [float_le]).
    - [FloatArith]: Python's float [+], [-], [/] and [<] ([float_add],
      [float_sub], [float_div], [float_lt]: IEEE 754 with NaN and
      infinities, and [ZeroDivisionError] on a zero divisor); rounding
      depends on the value only (the [Proper] instance
      [round_double_proper]), leaves a double unchanged
      ([round_double_double]) and errs by at most [|q| 2^-53 + 2^-1075]
      ([round_double_error]).
    - [JsonDump]: [json.dump(output_data, f, indent=2)] (line 153), the
      pure-Python encoder CPython runs with an indent: [escape_char] and
      [encode_basestring_ascii] ([ensure_ascii], [\uXXXX] and surrogate
      pairs), [int_repr], [float_str] ([NaN], [Infinity]; [repr] of a
      finite float is a parameter [float_repr]), and [dump] (one item
      per line, [newline_indent]); [json_dump] is the text written.
    - [JsonLoad]: [json.load(f)] (line 112) as CPython's scanner:
      [skip_ws], [scan_string] (escapes, surrogate pairs, control
      characters refused), [scan_number] (the number regex; [int], or
      [float] rounded by [round_double]), the constants, and the mutually recursive
      [scan_value]/[scan_elements]/[scan_members] with fuel; objects
      become [dict(pairs)] ([dict_of_pairs]); [json_loads] refuses a
      leading byte-order mark and extra data.
    - [JsonDict]: keys of [dict(pairs)], [dict_lookup] on it, and the
      shape [wf_json] of decoded values.
    - [JsonRoundtrip]: what [json.load] makes of what [json.dump]
      wrote: [dumpable] values (scalar-value strings, distinct keys, no
      finite float) read back; the written text is ASCII.
    - [Extract]: the parser's output ([Document] of [Page]s of [RawBlock]s
      of [Line]s of [Span]s) and [extract_blocks] (lines 17-39) as four
      nested [fold_left]s over the accumulator [(blocks, all_sizes)].
    - [Structure]: Python's [min]/[max] ([py_min], [py_max], line 80),
      and the real-number reading of the score the spec describes
      ([size_score], [score_block]): the specification the code's score
      is measured against, not the code.
    - [ScoreFloat]: the score as the code computes it, in doubles
      ([size_score_f], line 42; [add_bonuses_f], lines 44-49;
      [score_block_f], lines 41-50), the literals [1e-5], [0.5], [0.3]
      as the doubles [float()] reads, and [structure_scores] (lines
      80-83: [min]/[max], [ValueError] on no size, then the loop).
    - [Semantic]: the embedding model as the type class
      [EmbeddingBackend] ([encode], [cos_sim], law: cosine in [-1,1]),
      [py_query] (line 85), [similarities] (lines 86-88), [attach_scores]
      (lines 90-92, the total a float sum), composed in
      [score_document].
    - [Select]: [py_sorted lt key] = [sorted(l, key=key)] as a stable
      insertion sort ([ins]) comparing keys with [lt]; [select_top] =
      [sorted(...)[0]] (line 94) with Python's float [<] on the key
      [-total_score].
    - [Refine]: [in_window] (lines 57-60, with the float addition
      [top.y0 + 250]) and [refine_context] (lines 52-65),
      [clean_refined_text] (lines 67-72).
    - [Pipeline]: [process_pdf] (lines 74-104), and [main_decoded]
      (lines 114-149), [main] after [json.load]: the reads of the
      decoded value ([read_input], lines 114-119),
      then the loop over the decoded entries [main_entries], whose step
      [loop_entry] computes the entry's file name ([entry_filename], line
      131) and runs [visit_doc] on it (lines 132-149).  Over a list of
      names the same loop is [main_loop] = [fold_left loop_step]; the
      output lists and rank counter are [DriverState], and [emit] is
      lines 138-149.  The file system is the
      record [FileSystem] ([fs_exists] = [Path.exists], [fs_open] =
      [fitz.open], [None] when it raises).  The same loop is the step
      relation [drive_step] with closure [drive_star].  The paths of
      lines 9-12 and 131 are lists of components: [input_pdf_dir] under
      the parameter [BASE_DIR], [pdf_path] the pathlib join with a file
      name ([path_components], an absolute name replacing the
      directory), [resolve] the operating system's reading of [..].
    - [Main]: [output_data] as the JSON value [output_json] (lines
      117-126, entries of lines 138-148) and [main] (lines 106-155) from
      the existence and text of [input.json] to the text written to
      [output.json]: [json_loads], [main_decoded], [json_dump]; and the
      script around it (lines 13, 151-153, 157-158) on the [Disk]
      record of [OUTPUT_DIR] and [output.json]: [mkdir_exist_ok],
      [write_output], [script].

    The components interact only through values: [process_pdf] calls
    extraction, scoring, selection and refinement in that order, and
    [main] threads [DriverState] through the files.  The dicts the code
    mutates in place (adding scores to each block) are modelled as the
    record [ScoredBlock]; the only reader of the mutated dicts,
    [refine_context], reads the fields extraction set, so no aliasing is
    observable.  [fitz.open] is called by [visit_doc] just before
    [process_pdf] rather than inside it: the exception it raises
    propagates out of [main] in both.  [main] composes the JSON decoder,
    the driver and the JSON encoder; an exception anywhere is an [Err]
    and, as in the code, nothing is written, since [output.json] is
    opened only after the loop.

    ** Theorems

    The headline theorems carry a doc comment with their claim id; each
    rests on lemmas of its file that later proofs reuse.
    - Selection: when no total is NaN, [select_top] picks the first
      block of greatest total score under Python's [<]; the head of
      [py_sorted] is the scan [argmin_first] (refinement); on rational
      keys [py_sorted] is sorted, a permutation and stable, and the
      unique such list, and on finite float totals it is that sort
      ([py_sorted_totals]), hence the output of any stable sort,
      CPython's Timsort included.
    - Pipeline: one section exactly for a document with a non-blank span,
      none otherwise, no [IndexError]; for a document whose font sizes
      differ by less than [2^1023] every total is a finite double and
      the section is that of the first block of greatest total
      ([process_pdf_first_max]); ranks are [1..n] without gaps and
      follow input order; the invariant holds on every reachable state of
      [drive_star] (rule induction); missing files are skipped; an
      unreadable file aborts the run; [main]'s output lists every
      configured file name in its metadata.  Liveness: when
      every existing file can be parsed, the final configuration of
      [drive_star] is reachable from every reachable one and the loop
      ends there.  Paths: a relative name without [..] is read under
      [BASE_DIR/input]; a [..] or an absolute name escapes it.
    - Input: [main] on decoded JSON refines [main_loop] on the file
      names when the fields are strings; a missing [filename] raises
      [KeyError] before any file is touched; a [documents] value that
      is not a list gives an empty run when it is an empty dict or
      string and [TypeError] otherwise; a non-string [filename] raises
      [TypeError] only when the loop reaches it, after the files before
      it (whose exceptions come first).
    - Files: [output.json] reads back with [json.load] as the JSON value
      of what [main] computed; it is ASCII, so writing it cannot fail on
      encoding; a byte-order mark in [input.json] makes [main] raise
      [JSONDecodeError]; the script leaves exactly [main]'s text in
      [output.json] after [mkdir(exist_ok=True)], and an exception
      leaves an earlier [output.json] untouched.
    - JSON: [json.load] inverts [json.dump] on [dumpable] values (a
      serialiser/deserialiser round trip, proved piece by piece with the
      text after each piece left over) and joins two lone surrogates
      into one character otherwise; the scanner terminates with fuel
      above the text length and its result does not depend on the fuel;
      decoded dicts have distinct keys and answer subscripts as the
      pairs do with the last one winning; every float it returns is NaN,
      an infinity or a double.
    - Floats: a finite [round_double] is a double ([m * 2^e], [|m| <=
      2^53], [e >= -1074], below [2^1024]) within half a unit in the
      last place of the exact value; an infinity only from a magnitude
      of at least [2^1024 - 2^970].
    - Refinement: the window is the open interval of the spec up to one
      rounding of [top.y0 + 250], and exactly when that sum is a double;
      the rounding can leave out a block less than 250 units below
      ([in_window_rounding]); the excerpt is the
      [" ".join] of the top text and the window; cleaned text is
      printable ASCII, single-spaced, stripped, and cleaning is
      idempotent; a tab between words glues them.
    - Scoring, in the code's doubles ([ScoreFloat]): monotonicity in
      the font size and no exception for sizes between the document's
      extremes, a size score of exactly [0.0] when all sizes are equal,
      no [ZeroDivisionError] for any [min <= max], bounds [[0, 2.1]]
      with [2.1] the double [1.0 + 0.5 + 0.3 + 0.3] evaluates to, no
      upper-case bonus for a text without a letter, and the double
      score within [2^-48] of the real-number score of [Structure] (a
      refinement of the spec's formula); rounding can tie two blocks
      whose real scores differ ([score_block_f_tie]).  Over the reals
      ([Structure]): bounds [[0,2.1)], monotonicity, the [1e-5] guard,
      [min]/[max] correctness.
    - Extraction: the loops equal a declarative [flat_map]
      specification; blocks are non-empty, stripped, on pages [1..n], in
      page order; the empty-document condition; one size per block.
    - Text: [strip] trims, [in] is substring occurrence, [isupper] is
      "some upper, no lower or title case character", and on ASCII text
      it does not depend on the case tables; [\s+] collapse.
    Witnesses at the end of each file run the theorems on fixtures
    ([fixture_doc], [fixture_fs], the ASCII tables [ascii_db], the
    stand-in backend [length_backend]).

    ** Numbers, bounds, fuel

    [json.load] reads a float as CPython does, to the nearest double
    ([Float]); the sign of a zero is not kept.  The arithmetic of the
    pipeline is the code's: every float [-], [+] and [/] of lines 42-49,
    the total of line 92 and the bound of line 59 round to the nearest
    double, and the comparisons of lines 48, 58-59 and 94 are Python's
    [<] on the values.  Font sizes, coordinates and similarities are
    rationals: the values PyMuPDF and [.item()] return are doubles, a
    subset.  The theorems that need finite scores assume font sizes
    within [2^1023] of each other, which keeps every intermediate
    result finite (an overflow would give [inf - inf = nan]); without
    that assumption the model still computes what IEEE 754 does.  The
    real-number score of [Structure] is the specification:
    [score_block_f_error] bounds its distance to the code's by [2^-48]
    (from [|round q - q| <= |q| 2^-53 + 2^-1075],
    [FloatArith.round_double_error]), and [score_block_f_tie] shows
    that rounding can tie blocks whose real scores differ.  Integers
    are read and written without CPython 3.11's limit of 4300 digits
    for [int] <-> [str] conversions ([sys.int_info]); the numbers the
    program writes (ranks, page numbers) stay far below it.  Page
    numbers and ranks are [nat], written as [int]s.  Every loop of the
    program is a [for] over a finite list, modelled by structural
    recursion.  The JSON scanner recurses on the nesting of the text,
    not on a structure: it takes fuel, and [json_loads] gives it one
    more than the length of the text.  Each call consumes at least one
    character before it recurses ([scan_length]), so that fuel is never
    exhausted ([scan_fuel]), and more fuel changes nothing
    ([scan_mono]): a [JSONDecodeError] is a rejection, never a lack of
    fuel.

    ** Not modelled

    Not modelled: PyMuPDF itself (its output is the input type
    [Document]), the embedding network (the [EmbeddingBackend]
    interface), Unicode case tables beyond ASCII (the [UnicodeDB]
    interface), [print], the timestamp (an argument), the decoding of
    the bytes of [input.json] into a text by [open] and the encoding of
    the written text (the model reads and writes texts), [repr] of a
    float written to [output.json] (the parameter [float_repr]),
    Python's recursion limit on deeply nested JSON, and [str] of a
    non-string persona or task (the parameter [repr_other]), and the
    loading of the model (line 15).  The float32 similarity of the
    network is outside the model: [.item()] turns it into a float equal
    to it, which the [EmbeddingBackend] interface provides.  With a NaN
    total the order CPython's sort returns depends on its merge
    strategy and is not modelled (the insertion sort is one stable
    sort); NaN needs font sizes more than [2^1023] apart. *)

From Stdlib Require Export List Bool Arith Lia QArith Lqa NArith Permutation Sorted.
From Stdlib Require Import String Ascii.
Export String.StringSyntax.
Export ListNotations.
Close Scope Q_scope.

Declare Scope py_scope.
Delimit Scope py_scope with py.
Open Scope py_scope.

(** ** Characters and text *)

(** A Python 3 [str] is a sequence of Unicode code points. *)
Definition char := N.
Definition text := list char.

(** A string literal of the source, written in ASCII. *)
Definition lit (s : string) : text :=
  map (fun a => N_of_ascii a) (list_ascii_of_string s).

Definition SPACE : char := 32%N.
Definition NEWLINE : char := 10%N.
Definition BULLET : char := 8226%N.  (* "•" *)

Notation "‹ s ›" := (lit s%string) (format "‹ s ›") : py_scope.

(** Python's [==] on two strings. *)
Fixpoint text_eqb (a b : text) : bool :=
  match a, b with
  | [], [] => true
  | x :: a', y :: b' => (x =? y)%N && text_eqb a' b'
  | _, _ => false
  end.

Lemma text_eqb_eq (a b : text) : text_eqb a b = true <-> a = b.
Proof.
  revert b. induction a as [|x a IH]; intros [|y b]; simpl; try (split; congruence).
  rewrite andb_true_iff, N.eqb_eq, IH. split; [intros [-> ->]; reflexivity|].
  intros E. injection E as -> ->. auto.
Qed.

Lemma text_eqb_refl (a : text) : text_eqb a a = true.
Proof. now apply text_eqb_eq. Qed.

Lemma text_eqb_neq (a b : text) : text_eqb a b = false <-> a <> b.
Proof. rewrite <- text_eqb_eq. destruct (text_eqb a b); split; congruence. Qed.

(** [text_case a b] splits on [a == b] for a variable [b]: when equal,
    [b] is replaced by [a]; otherwise [a <> b] is kept. *)
Ltac text_case a b :=
  let E := fresh "Et" in
  destruct (text_eqb a b) eqn:E; [apply text_eqb_eq in E; subst b|apply text_eqb_neq in E].

(** Turns the boolean character tests into arithmetic on code points. *)
Ltac nbool :=
  repeat match goal with
  | H : _ || _ = true |- _ => apply orb_true_iff in H as [H|H]
  | H : _ && _ = true |- _ => apply andb_true_iff in H as [? ?]
  | H : _ || _ = false |- _ => apply orb_false_iff in H as [? ?]
  | H : (_ <=? _)%N = true |- _ => apply N.leb_le in H
  | H : (_ <=? _)%N = false |- _ => apply N.leb_gt in H
  | H : (_ =? _)%N = true |- _ => apply N.eqb_eq in H
  | H : (_ =? _)%N = false |- _ => apply N.eqb_neq in H
  end.

(** [decide_cmp] evaluates every comparison of [N] in the goal that
    [lia] decides from the hypotheses, one comparison at a time. *)
Ltac decide_cmp :=
  repeat match goal with
  | |- context [(?a <=? ?b)%N] =>
      first [ replace (a <=? b)%N with true by (symmetry; apply N.leb_le; lia)
            | replace (a <=? b)%N with false by (symmetry; apply N.leb_gt; lia) ]
  | |- context [(?a =? ?b)%N] =>
      first [ replace (a =? b)%N with true by (symmetry; apply N.eqb_eq; lia)
            | replace (a =? b)%N with false by (symmetry; apply N.eqb_neq; lia) ]
  end; cbn [andb orb negb].

(** ** Comparisons of rationals, as the code's float comparisons *)

(** Python's [a < b] on two floats. *)
Definition qltb (a b : Q) : bool :=
  match Qcompare a b with Lt => true | _ => false end.

Infix "<?" := qltb (at level 70, no associativity) : py_scope.

Lemma qltb_true (a b : Q) : qltb a b = true <-> (a < b)%Q.
Proof.
  unfold qltb. rewrite Qlt_alt. destruct (a ?= b)%Q; split; congruence.
Qed.

Lemma qltb_false (a b : Q) : qltb a b = false <-> (b <= a)%Q.
Proof.
  split; intros H.
  - apply Qnot_lt_le. intros Hlt. apply qltb_true in Hlt. congruence.
  - destruct (qltb a b) eqn:E; [|reflexivity].
    apply qltb_true in E. exfalso. exact (Qle_not_lt _ _ H E).
Qed.

(** [qcase] splits on a comparison of the code and turns both branches
    into hypotheses [lra] reads. *)
Ltac qcase a b :=
  let H := fresh "Hq" in
  destruct (qltb a b) eqn:H; try rewrite H in *;
  [apply qltb_true in H | apply qltb_false in H].

(** ** Exceptions that abort the run *)

(** A computation of the code either returns a value or raises. *)
Inductive result (E A : Type) : Type :=
| Ok (a : A)
| Err (e : E).
Arguments Ok {E A} a.
Arguments Err {E A} e.

Definition rbind {E A B} (c : result E A) (k : A -> result E B) : result E B :=
  match c with Ok a => k a | Err e => Err e end.

Notation "x <- c ;; k" := (rbind c (fun x => k))
  (at level 60, c at next level, right associativity) : py_scope.

(** Case analysis on the first computation of a chain of binds in an
    equation [chain = Ok _]: its [Err] case is refuted. *)
Ltac rbind_ok_step :=
  match goal with
  | |- rbind ?c _ = Ok _ -> _ => destruct c eqn:?; cbn [rbind]; [|discriminate]
  end.

Lemma rbind_Ok {E A B} (c : result E A) (k : A -> result E B) b :
  rbind c k = Ok b <-> exists a, c = Ok a /\ k a = Ok b.
Proof.
  destruct c as [a|e]; simpl; split.
  - eauto.
  - intros (a' & Ha & Hk). congruence.
  - discriminate.
  - intros (a' & Ha & _). discriminate.
Qed.

(** ** Shared list lemmas *)

Create HintDb pyhints discriminated.
Create Rewrite HintDb pyrw.

(** The same for a loop whose step appends to two accumulators. *)
Lemma fold_left_pair_step {A B C} (step : list B * list C -> A -> list B * list C)
      (f : A -> list B) (g : A -> list C) (l : list A) (st : list B * list C) :
  (forall st x, step st x = (fst st ++ f x, snd st ++ g x)) ->
  fold_left step l st = (fst st ++ flat_map f l, snd st ++ flat_map g l).
Proof.
  intros Hstep. revert st. induction l as [|x l IH]; intros st; simpl.
  - rewrite !app_nil_r. now destruct st.
  - rewrite IH, Hstep. simpl. now rewrite !app_assoc.
Qed.

Lemma flat_map_map_comm {A B C} (f : A -> list B) (g : A -> list C) (h : B -> C)
      (l : list A) :
  (forall x, g x = map h (f x)) -> flat_map g l = map h (flat_map f l).
Proof.
  intros Hg. induction l as [|x l IH]; simpl; [reflexivity|].
  now rewrite map_app, IH, Hg.
Qed.

Lemma filter_Forall_all {A} (p : A -> bool) (l : list A) :
  Forall (fun x => p x = true) l -> filter p l = l.
Proof. induction 1; simpl; [reflexivity|]. now rewrite H, IHForall. Qed.

Lemma filter_Forall_none {A} (p : A -> bool) (l : list A) :
  Forall (fun x => p x = false) l -> filter p l = [].
Proof. induction 1; simpl; [reflexivity|]. now rewrite H. Qed.

(** [enumerate] and sortedness of concatenations. *)
Definition enumerate {A} (k : nat) (l : list A) : list (nat * A) :=
  combine (seq k (List.length l)) l.

Lemma enumerate_cons {A} (k : nat) (x : A) (l : list A) :
  enumerate k (x :: l) = (k, x) :: enumerate (S k) l.
Proof. reflexivity. Qed.

Lemma in_enumerate {A} (k n : nat) (x : A) (l : list A) :
  In (n, x) (enumerate k l) -> k <= n < k + List.length l /\ In x l.
Proof.
  unfold enumerate. intros H. split.
  - apply in_combine_l, in_seq in H. lia.
  - exact (in_combine_r _ _ _ _ H).
Qed.

Lemma Sorted_app {A} (R : A -> A -> Prop) (a b : list A) :
  Sorted R a -> Sorted R b -> (forall x y, In x a -> In y b -> R x y) ->
  Sorted R (a ++ b).
Proof.
  intros Ha Hb Hab. induction Ha as [|x a Ha IH Hx]; simpl; [exact Hb|].
  constructor; [apply IH; intros; apply Hab; simpl; auto|].
  destruct a as [|y a]; simpl.
  - destruct b as [|z b]; constructor. apply Hab; simpl; auto.
  - inversion Hx; subst. now constructor.
Qed.

(** The list identities the accumulator proofs rewrite with. *)
#[export] Hint Rewrite @app_nil_r @map_app @length_app @filter_app : pyrw.
#[export] Hint Resolve filter_Forall_all filter_Forall_none Qle_refl : pyhints.
#[export] Hint Constructors Forall : pyhints.

(** [py_simpl] unfolds the code's boolean tests into propositions. *)
Ltac py_simpl :=
  repeat match goal with
  | H : _ && _ = true |- _ => apply andb_true_iff in H as [? ?]
  | H : _ || _ = false |- _ => apply orb_false_iff in H as [? ?]
  | H : negb _ = true |- _ => apply negb_true_iff in H
  | H : negb _ = false |- _ => apply negb_false_iff in H
  | H : qltb _ _ = true |- _ => apply qltb_true in H
  | H : qltb _ _ = false |- _ => apply qltb_false in H
  | H : N.eqb _ _ = true |- _ => apply N.eqb_eq in H
  | H : Nat.eqb _ _ = true |- _ => apply Nat.eqb_eq in H
  end.
