(* ===== verification/PyText.v ===== *)
(** * Python string primitives called by main.py

    [str.strip] (lines 28, 71), [str.isupper] (line 46), the [in]
    operator on strings (line 44), [str.replace] of one character
    (line 68), [" ".join] (line 64) and the substitutions
    [re.sub(r'[^\x20-\x7E]', '', _)] (line 70) and [re.sub(r'\s+', ' ', _)]
    (line 71), on texts of Unicode code points.  White space is CPython's
    [Py_UNICODE_ISSPACE], which both [str.strip] and the [\s] class of
    [re] use on [str] patterns.  The Unicode case tables are an
    interface, [UnicodeDB], fixed on ASCII. *)

From S2P Require Import Prelude.

(** ** White space and stripping *)

(** [Py_UNICODE_ISSPACE]: the ASCII separators 0x09-0x0D and 0x1C-0x20,
    and the Unicode space separators and line/paragraph separators. *)
Definition py_isspace (c : char) : bool :=
  ((9 <=? c)%N && (c <=? 13)%N) || ((28 <=? c)%N && (c <=? 32)%N)
  || (c =? 133)%N || (c =? 160)%N || (c =? 5760)%N
  || ((8192 <=? c)%N && (c <=? 8202)%N)
  || (c =? 8232)%N || (c =? 8233)%N || (c =? 8239)%N || (c =? 8287)%N
  || (c =? 12288)%N.

Fixpoint py_lstrip (s : text) : text :=
  match s with
  | [] => []
  | c :: s' => if py_isspace c then py_lstrip s' else s
  end.

Definition py_rstrip (s : text) : text := rev (py_lstrip (rev s)).

(** [s.strip()]: white space removed at both ends. *)
Definition py_strip (s : text) : text := py_rstrip (py_lstrip s).

(** ** The [in] operator *)

Fixpoint starts_with (p s : text) : bool :=
  match p, s with
  | [], _ => true
  | _ :: _, [] => false
  | a :: p', b :: s' => (a =? b)%N && starts_with p' s'
  end.

(** [sub in s]: [sub] occurs at some position of [s]. *)
Fixpoint py_contains (sub s : text) : bool :=
  starts_with sub s ||
  match s with
  | [] => false
  | _ :: s' => py_contains sub s'
  end.

(** ** Case: [str.isupper] *)

(** The Unicode database flags CPython's [isupper] reads: upper, lower
    and title case.  On ASCII they are the letters' cases; a character
    is never both upper and lower or title case. *)
Class UnicodeDB := {
  uc_isupper : char -> bool;
  uc_islower : char -> bool;
  uc_istitle : char -> bool;
  uc_ascii_upper : forall c, (c < 128)%N -> uc_isupper c = ((65 <=? c)%N && (c <=? 90)%N);
  uc_ascii_lower : forall c, (c < 128)%N -> uc_islower c = ((97 <=? c)%N && (c <=? 122)%N);
  uc_ascii_title : forall c, (c < 128)%N -> uc_istitle c = false;
  uc_upper_excl : forall c, uc_isupper c = true ->
                   uc_islower c = false /\ uc_istitle c = false
}.

(** The tables restricted to ASCII: every other character is uncased. *)
Definition ascii_db : UnicodeDB.
Proof.
  refine {| uc_isupper c := (65 <=? c)%N && (c <=? 90)%N;
            uc_islower c := (97 <=? c)%N && (c <=? 122)%N;
            uc_istitle c := false |}; intros c; auto.
  intros H. py_simpl. rewrite N.leb_le in *. split; [|reflexivity].
  apply andb_false_iff. left. apply N.leb_gt. lia.
Defined.

(** The tables of CPython 3.11 on Latin-1 ([U+0000..U+00FF]):
    [str.isupper] holds of [A-Z], [U+00C0..U+00D6] and
    [U+00D8..U+00DE]; [str.islower] of [a-z], [ª], [µ], [º],
    [U+00DF..U+00F6] and [U+00F8..U+00FF]; no character of the range is
    title case.  Every character above [U+00FF] is taken as uncased. *)
Definition latin1_db : UnicodeDB.
Proof.
  refine {| uc_isupper c := ((65 <=? c) && (c <=? 90)) || ((192 <=? c) && (c <=? 214)) ||
                            ((216 <=? c) && (c <=? 222));
            uc_islower c := ((97 <=? c) && (c <=? 122)) || (c =? 170) || (c =? 181) || (c =? 186) ||
                            ((223 <=? c) && (c <=? 246)) || ((248 <=? c) && (c <=? 255));
            uc_istitle c := false |}%N; intros c.
  - intros Hc. decide_cmp. now rewrite !orb_false_r.
  - intros Hc. decide_cmp. now rewrite !orb_false_r.
  - reflexivity.
  - intros Hu. split; [|reflexivity]. nbool; decide_cmp; reflexivity.
Defined.

Section Case.
Context `{UnicodeDB}.

(** The loop of [unicode_isupper_impl]: fail on a lower or title case
    character, remember whether an upper case one was seen. *)
Fixpoint isupper_scan (cased : bool) (s : text) : bool :=
  match s with
  | [] => cased
  | c :: s' =>
      if uc_islower c || uc_istitle c then false
      else isupper_scan (cased || uc_isupper c) s'
  end.

(** [s.isupper()], with CPython's fast path for one character. *)
Definition py_isupper (s : text) : bool :=
  match s with
  | [c] => uc_isupper c
  | _ => isupper_scan false s
  end.

End Case.

(** ** Joining, replacing, and the two substitutions *)

(** [sep.join(xs)]. *)
Fixpoint py_join (sep : text) (xs : list text) : text :=
  match xs with
  | [] => []
  | [x] => x
  | x :: xs' => x ++ sep ++ py_join sep xs'
  end.

(** [s.replace(old, new)] for one-character [old] and [new]. *)
Definition py_replace1 (old new : char) (s : text) : text :=
  map (fun c => if (c =? old)%N then new else c) s.

Definition is_printable_ascii (c : char) : bool := (32 <=? c)%N && (c <=? 126)%N.

(** [re.sub(r'[^\x20-\x7E]', '', s)]: every character outside
    0x20-0x7E is deleted. *)
Definition re_sub_nonprint (s : text) : text := filter is_printable_ascii s.

(** [re.sub(r'\s+', ' ', s)]: a left-to-right scan; [in_run] says that
    the previous character belonged to a run of white space already
    replaced by one space. *)
Fixpoint collapse_ws (in_run : bool) (s : text) : text :=
  match s with
  | [] => []
  | c :: s' =>
      if py_isspace c then
        if in_run then collapse_ws true s' else SPACE :: collapse_ws true s'
      else c :: collapse_ws false s'
  end.

Definition re_sub_ws (s : text) : text := collapse_ws false s.

(** The normal form [re_sub_ws] produces: the only white space is
    [SPACE], and no two white-space characters are adjacent. *)
Fixpoint ws_normal (s : text) : bool :=
  match s with
  | [] => true
  | c :: s' =>
      (negb (py_isspace c) || ((c =? SPACE)%N &&
         match s' with [] => true | d :: _ => negb (py_isspace d) end))
      && ws_normal s'
  end.

(** ** Theorems *)


(** The only printable ASCII white space is the space itself. *)
Lemma printable_space (c : char) :
  is_printable_ascii c = true -> py_isspace c = true -> c = SPACE.
Proof.
  unfold is_printable_ascii, py_isspace, SPACE. intros Hp Hs. nbool; lia.
Qed.

Lemma space_not_printable_but_space (c : char) :
  py_isspace c = true -> c <> SPACE -> is_printable_ascii c = false.
Proof.
  intros Hs Hne. destruct (is_printable_ascii c) eqn:E; [|reflexivity].
  exfalso. exact (Hne (printable_space c E Hs)).
Qed.

Definition head_not_space (s : text) : Prop :=
  forall c s', s = c :: s' -> py_isspace c = false.

Lemma lstrip_split (s : text) :
  exists a, s = a ++ py_lstrip s /\ Forall (fun c => py_isspace c = true) a.
Proof.
  induction s as [|c s (a & Ha & Hsp)]; simpl.
  - now exists [].
  - destruct (py_isspace c) eqn:E.
    + exists (c :: a). simpl. rewrite <- Ha. auto.
    + now exists [].
Qed.

Lemma lstrip_head (s : text) : head_not_space (py_lstrip s).
Proof.
  induction s as [|c s IH]; simpl; intros d s' Heq; [discriminate|].
  destruct (py_isspace c) eqn:E; [exact (IH d s' Heq)|congruence].
Qed.

Lemma lstrip_id (s : text) : head_not_space s -> py_lstrip s = s.
Proof.
  destruct s as [|c s]; intros H; [reflexivity|]. simpl.
  now rewrite (H c s eq_refl).
Qed.

Lemma head_not_space_app (a b : text) :
  head_not_space (a ++ b) -> a <> [] -> head_not_space a.
Proof.
  destruct a as [|c a]; [congruence|]. intros H _ d s' E.
  injection E as -> ->. exact (H d (s' ++ b) eq_refl).
Qed.

(** [strip] removes white space at both ends and nothing else: its result
    is an infix of its argument, and begins and ends with a non-space. *)
Lemma strip_infix (s : text) :
  exists a b, s = a ++ py_strip s ++ b.
Proof.
  destruct (lstrip_split s) as (a & Ha & _).
  destruct (lstrip_split (rev (py_lstrip s))) as (b & Hb & _).
  exists a, (rev b). unfold py_strip, py_rstrip.
  rewrite <- rev_app_distr, <- Hb, rev_involutive. exact Ha.
Qed.

(** A text that [strip] leaves alone: no white space at either end. *)
Definition trimmed (s : text) : Prop :=
  head_not_space s /\ head_not_space (rev s).

(** [strip] leaves no white space at either end. *)
Lemma py_strip_trimmed (s : text) : trimmed (py_strip s).
Proof.
  unfold py_strip, py_rstrip. split; [|rewrite rev_involutive; apply lstrip_head].
  destruct (lstrip_split (rev (py_lstrip s))) as (b & Hb & _).
  destruct (rev (py_lstrip (rev (py_lstrip s)))) as [|c r] eqn:E.
  { intros ? ? H; discriminate. }
  apply (head_not_space_app _ (rev b)); [|discriminate].
  rewrite <- E, <- rev_app_distr, <- Hb, rev_involutive. apply lstrip_head.
Qed.

(** [s.strip()] removes white space at both ends and nothing else:
    [s] is the result surrounded by white space only, and the result
    neither begins nor ends with white space. *)
Theorem strip_spec (s : text) :
  exists a b, s = a ++ py_strip s ++ b /\ Forall (fun c => py_isspace c = true) a /\
    Forall (fun c => py_isspace c = true) b /\ trimmed (py_strip s).
Proof.
  destruct (lstrip_split s) as (a & Ha & Hsa).
  destruct (lstrip_split (rev (py_lstrip s))) as (b & Hb & Hsb).
  exists a, (rev b). split; [|split; [exact Hsa|split; [now apply Forall_rev|apply py_strip_trimmed]]].
  unfold py_strip, py_rstrip. rewrite <- rev_app_distr, <- Hb, rev_involutive. exact Ha.
Qed.

Lemma strip_id (s : text) : trimmed s -> py_strip s = s.
Proof.
  intros [Hh Ht]. unfold py_strip, py_rstrip.
  now rewrite (lstrip_id s Hh), (lstrip_id (rev s) Ht), rev_involutive.
Qed.

Lemma strip_idempotent (s : text) : py_strip (py_strip s) = py_strip s.
Proof. apply strip_id, py_strip_trimmed. Qed.

Lemma starts_with_spec (p s : text) :
  starts_with p s = true <-> exists b, s = p ++ b.
Proof.
  revert s. induction p as [|a p IH]; intros [|c s]; simpl.
  - split; eauto.
  - split; eauto.
  - split; [discriminate|]. intros (b & Hb). discriminate.
  - rewrite andb_true_iff, N.eqb_eq, IH. split.
    + intros (-> & b & ->). eauto.
    + intros (b & Hb). injection Hb as -> ->. eauto.
Qed.

(** [sub in s] holds exactly when [s] splits around an occurrence of
    [sub]. *)
Lemma py_contains_spec (sub s : text) :
  py_contains sub s = true <-> exists a b, s = a ++ sub ++ b.
Proof.
  induction s as [|c s IH]; simpl; rewrite orb_true_iff, starts_with_spec.
  - split.
    + intros [(b & Hb)|H]; [exists [], b; exact Hb|discriminate].
    + intros ([|x a] & b & H); [left; eauto|discriminate].
  - rewrite IH. split.
    + intros [(b & Hb)|(a & b & Hab)]; [exists [], b; exact Hb|].
      exists (c :: a), b. now rewrite Hab.
    + intros ([|x a] & b & H); [left; eauto|].
      injection H as -> ->. right. eauto.
Qed.

Section CaseTheory.
Context `{UnicodeDB}.

Definition uncased_ok (c : char) : Prop :=
  uc_islower c = false /\ uc_istitle c = false.

Lemma isupper_scan_spec (b : bool) (s : text) :
  isupper_scan b s = true <->
  (b = true \/ Exists (fun c => uc_isupper c = true) s) /\ Forall uncased_ok s.
Proof.
  revert b. induction s as [|c s IH]; intros b; simpl.
  - split; [intros ->; auto|]. intros [[Hb|Hx] _]; [exact Hb|inversion Hx].
  - unfold uncased_ok at 1. destruct (uc_islower c || uc_istitle c) eqn:E.
    + split; [discriminate|]. intros [_ Hf]. inversion Hf as [|? ? [H1 H2]]; subst.
      rewrite H1, H2 in E. discriminate.
    + apply orb_false_iff in E as [E1 E2]. rewrite IH, orb_true_iff.
      rewrite Exists_cons, Forall_cons_iff. unfold uncased_ok. tauto.
Qed.

(** CPython's one-character fast path agrees with its loop. *)
Lemma py_isupper_scan (s : text) : py_isupper s = isupper_scan false s.
Proof.
  destruct s as [|c [|d s]]; try reflexivity. simpl.
  destruct (uc_isupper c) eqn:Hu.
  - destruct (uc_upper_excl c Hu) as [-> ->]. reflexivity.
  - destruct (uc_islower c || uc_istitle c); reflexivity.
Qed.

(** [s.isupper()] is true exactly when [s] has an upper case character
    and no lower or title case one. *)
Theorem py_isupper_spec (s : text) :
  py_isupper s = true <->
  Exists (fun c => uc_isupper c = true) s /\ Forall uncased_ok s.
Proof. rewrite py_isupper_scan, isupper_scan_spec. intuition discriminate. Qed.

(** A string made of ASCII characters that are not letters (digits,
    punctuation, white space) is not upper case. *)
Lemma py_isupper_ascii_uncased (s : text) :
  Forall (fun c => (c < 65 \/ 90 < c < 97 \/ 122 < c < 128)%N) s ->
  py_isupper s = false.
Proof.
  intros Hs. destruct (py_isupper s) eqn:E; [|reflexivity].
  rewrite py_isupper_scan, isupper_scan_spec in E. destruct E as [[Hf|Hx] _]; [discriminate|]. exfalso.
  apply Exists_exists in Hx as (c & Hin & Hu).
  rewrite Forall_forall in Hs. specialize (Hs c Hin).
  rewrite uc_ascii_upper in Hu by lia. nbool. lia.
Qed.

End CaseTheory.

(** On ASCII characters the laws of [UnicodeDB] fix the tables: the
    loop of [isupper] runs the same under any two instances. *)
Lemma isupper_scan_ascii_agree (db1 db2 : UnicodeDB) (cased : bool) (s : text) :
  Forall (fun c => (c < 128)%N) s -> @isupper_scan db1 cased s = @isupper_scan db2 cased s.
Proof.
  intros Hs. revert cased. induction Hs as [|c s Hc _ IH]; intros cased; [reflexivity|]. cbn [isupper_scan].
  rewrite !uc_ascii_lower, !uc_ascii_title, !uc_ascii_upper by exact Hc.
  destruct (_ || false); [reflexivity|apply IH].
Qed.

(** On a text of ASCII characters [str.isupper] does not depend on
    the Unicode tables beyond ASCII: any two instances of [UnicodeDB]
    give the same answer, so the upper-case bonus of a block with an
    ASCII text is the same whatever the tables of the interpreter. *)
Theorem py_isupper_ascii_agree (db1 db2 : UnicodeDB) (s : text) :
  Forall (fun c => (c < 128)%N) s -> @py_isupper db1 s = @py_isupper db2 s.
Proof. intros Hs. rewrite !py_isupper_scan. now apply isupper_scan_ascii_agree. Qed.

(** ** The white-space substitution *)

Lemma collapse_run_head (s : text) : head_not_space (collapse_ws true s).
Proof.
  induction s as [|c s IH]; simpl; intros d s' E; [discriminate|].
  destruct (py_isspace c) eqn:Hc; [exact (IH d s' E)|congruence].
Qed.

Lemma collapse_ws_normal (b : bool) (s : text) : ws_normal (collapse_ws b s) = true.
Proof.
  revert b. induction s as [|c s IH]; intros b; simpl; [reflexivity|].
  destruct (py_isspace c) eqn:Hc; [destruct b; [apply IH|]|]; simpl.
  - rewrite IH, andb_true_r.
    destruct (collapse_ws true s) as [|d r] eqn:E; [reflexivity|].
    rewrite (collapse_run_head s d r E). reflexivity.
  - now rewrite Hc, IH.
Qed.

Lemma collapse_ws_id (s : text) :
  ws_normal s = true ->
  collapse_ws false s = s /\ (head_not_space s -> collapse_ws true s = s).
Proof.
  induction s as [|c s IH]; simpl; [auto|]. intros Hn.
  apply andb_true_iff in Hn as [Hc Hs]. destruct (IH Hs) as [IH1 IH2].
  destruct (py_isspace c) eqn:E.
  - apply orb_true_iff in Hc as [Hc|Hc]; [discriminate|].
    apply andb_true_iff in Hc as [Hc Hd]. apply N.eqb_eq in Hc. subst c.
    split; [|intros Hh; rewrite (Hh _ s eq_refl) in E; discriminate].
    rewrite IH2; [reflexivity|]. intros d s' ->. now apply negb_true_iff.
  - now rewrite IH1.
Qed.

(** [re.sub(r'\s+', ' ', _)] produces the normal form and leaves a text
    in normal form unchanged. *)
Lemma re_sub_ws_normal (s : text) : ws_normal (re_sub_ws s) = true.
Proof. apply collapse_ws_normal. Qed.

Lemma re_sub_ws_id (s : text) : ws_normal s = true -> re_sub_ws s = s.
Proof. intros H. apply (collapse_ws_id s H). Qed.

Lemma ws_normal_app (a b : text) :
  ws_normal (a ++ b) = true -> ws_normal a = true /\ ws_normal b = true.
Proof.
  induction a as [|c a IH]; simpl; [auto|]. intros H.
  apply andb_true_iff in H as [Hc Hab]. destruct (IH Hab) as [Ha Hb].
  rewrite Ha, Hb. split; [|reflexivity]. rewrite andb_true_r.
  destruct a; [|exact Hc]. destruct (py_isspace c); [|reflexivity].
  simpl in *.
  apply andb_true_iff in Hc as [-> _]. reflexivity.
Qed.

(** ** Witnesses *)

(** A year is not upper case. *)
Lemma py_isupper_ascii_uncased_witness :
  Forall (fun c => (c < 65 \/ 90 < c < 97 \/ 122 < c < 128)%N) ‹"2024"› /\
  @py_isupper ascii_db ‹"2024"› = false.
Proof.
  assert (H : Forall (fun c => (c < 65 \/ 90 < c < 97 \/ 122 < c < 128)%N) ‹"2024"›)
    by (repeat (apply Forall_cons; [simpl; lia|]); apply Forall_nil).
  split; [exact H|]. exact (@py_isupper_ascii_uncased ascii_db ‹"2024"› H).
Defined.

(** The title [PDF 2024] is ASCII: both tables agree on it.  The
    Latin-1 title [É] is not, and there the tables differ. *)
Lemma py_isupper_ascii_agree_witness :
  Forall (fun c => (c < 128)%N) ‹"PDF 2024"› /\
  @py_isupper ascii_db ‹"PDF 2024"› = @py_isupper latin1_db ‹"PDF 2024"› /\
  @py_isupper latin1_db [201]%N = true /\ @py_isupper ascii_db [201]%N = false.
Proof.
  assert (H : Forall (fun c => (c < 128)%N) ‹"PDF 2024"›)
    by (repeat (apply Forall_cons; [simpl; lia|]); apply Forall_nil).
  split; [exact H|split; [exact (py_isupper_ascii_agree ascii_db latin1_db _ H)|split; reflexivity]].
Defined.
