(* ===== verification/Json.v ===== *)
(** * Decoded JSON values and the Python operations [main] applies to them

    [json.load] (main.py, line 112) turns [input.json] into Python values:
    objects become dicts (a repeated key keeps its last value), arrays
    lists, strings [str].  [main] subscripts them ([input_data["persona"]],
    lines 114-115, 119, 131) and iterates over them (lines 119, 130).
    [py_getitem] and [py_iter] are those two operations, with the
    exceptions they raise: [KeyError] for a missing key, [TypeError] for
    a value that is not a dict or not iterable.  [PyExn] collects every
    exception the modelled code raises. *)

From S2P Require Import Prelude PyText.

(** The exceptions of the modelled code. *)
Inductive PyExn :=
| IndexError                 (* a list index out of range, lines 91, 94 *)
| ValueError                 (* [min] or [max] of an empty list, line 80 *)
| FileDataError (f : text)   (* [fitz.open] rejects an existing file, line 18 *)
| KeyError (k : text)        (* a missing dict key, lines 114-115, 119, 131 *)
| TypeError                  (* subscript or iteration of the wrong type *)
| ZeroDivisionError          (* float division by zero, line 42 *)
| FileExistsError            (* [mkdir] on a path that is not a directory, line 13 *)
| FileNotFoundError          (* [open(..., "w")] in a missing directory, line 152 *)
| NotADirectoryError         (* [open(..., "w")] under a file, line 152 *)
| JSONDecodeError.           (* [json.load] rejects the text, line 112 *)

(** A Python [float]: a finite value, an infinity with its sign, or
    NaN.  [Float.is_double] says which finite values are doubles. *)
Inductive pyfloat :=
| PFinite (q : Q)
| PInf (neg : bool)
| PNaN.

(** A value produced by [json.load]: [None], [bool], [int], [float],
    [str], [list], and [dict] as the list of its items in insertion
    order. *)
#[warnings="-register-all"]
Inductive json :=
| JNull
| JBool (b : bool)
| JInt (z : Z)
| JFloat (f : pyfloat)
| JStr (s : text)
| JArr (xs : list json)
| JObj (kvs : list (text * json)).

(** The value of key [k] in the dict built from the pairs [kvs]: the
    last pair with that key wins. *)
Fixpoint dict_lookup (k : text) (kvs : list (text * json)) : option json :=
  match kvs with
  | [] => None
  | (k', v) :: rest =>
      match dict_lookup k rest with
      | Some w => Some w
      | None => if text_eqb k' k then Some v else None
      end
  end.

(** [v[k]] for a string key [k]. *)
Definition py_getitem (v : json) (k : text) : result PyExn json :=
  match v with
  | JObj kvs => match dict_lookup k kvs with Some w => Ok w | None => Err (KeyError k) end
  | _ => Err TypeError
  end.

(** [for x in v]: a list yields its items, a dict its keys, a string its
    characters; other values are not iterable. *)
Definition py_iter (v : json) : result PyExn (list json) :=
  match v with
  | JArr xs => Ok xs
  | JObj kvs => Ok (map (fun kv => JStr (fst kv)) kvs)
  | JStr s => Ok (map (fun c => JStr [c]) s)
  | _ => Err TypeError
  end.

(** [[f(x) for x in xs]] with an [f] that may raise: the first exception
    stops the comprehension. *)
Fixpoint py_map_result {A B} (f : A -> result PyExn B) (xs : list A) : result PyExn (list B) :=
  match xs with
  | [] => Ok []
  | x :: xs' => y <- f x ;; ys <- py_map_result f xs' ;; Ok (y :: ys)
  end.

(** [str(v)], as the f-string of line 85 applies it: a string is itself.
    The text of any other value is its Python [repr], which is not
    modelled: it is the parameter [repr_other]. *)
Definition py_str (repr_other : json -> text) (v : json) : text :=
  match v with JStr s => s | _ => repr_other v end.

(** ** Lemmas *)

(** Induction on [json] with a hypothesis for every item of a list or
    a dict. *)
Section JsonInd.
Variable P : json -> Prop.
Hypothesis HNull : P JNull.
Hypothesis HBool : forall b, P (JBool b).
Hypothesis HInt : forall z, P (JInt z).
Hypothesis HFloat : forall f, P (JFloat f).
Hypothesis HStr : forall s, P (JStr s).
Hypothesis HArr : forall xs, Forall P xs -> P (JArr xs).
Hypothesis HObj : forall kvs, Forall (fun kv => P (snd kv)) kvs -> P (JObj kvs).

Fixpoint json_nested_ind (v : json) : P v :=
  match v with
  | JNull => HNull
  | JBool b => HBool b
  | JInt z => HInt z
  | JFloat f => HFloat f
  | JStr s => HStr s
  | JArr xs =>
      HArr xs ((fix go (l : list json) : Forall P l :=
                  match l with
                  | [] => Forall_nil P
                  | x :: r => Forall_cons x (json_nested_ind x) (go r)
                  end) xs)
  | JObj kvs =>
      HObj kvs ((fix go (l : list (text * json)) : Forall (fun kv => P (snd kv)) l :=
                   match l with
                   | [] => Forall_nil _
                   | (k, w) :: r => Forall_cons (k, w) (json_nested_ind w) (go r)
                   end) kvs)
  end.

End JsonInd.

Lemma dict_lookup_last (k : text) (v : json) (kvs : list (text * json)) :
  dict_lookup k (kvs ++ [(k, v)]) = Some v.
Proof.
  induction kvs as [|[k' w] kvs IH]; simpl.
  - assert (E : text_eqb k k = true) by (apply text_eqb_eq; reflexivity). now rewrite E.
  - now rewrite IH.
Qed.

Lemma dict_lookup_none (k : text) (kvs : list (text * json)) :
  dict_lookup k kvs = None <-> ~ In k (map fst kvs).
Proof.
  induction kvs as [|[k' w] kvs IH]; simpl; [tauto|].
  destruct (dict_lookup k kvs) as [u|]; [split; [discriminate|]; intros Hn; exfalso|].
  - destruct IH as [_ IH]. enough (Some u = None) by discriminate. apply IH. tauto.
  - destruct (text_eqb k' k) eqn:E; [apply text_eqb_eq in E|].
    + split; [discriminate|]. intros Hn. now exfalso; apply Hn; left.
    + split; [|reflexivity]. intros _ [->|Hin]; [|now apply IH].
      assert (text_eqb k k = true) by (apply text_eqb_eq; reflexivity). congruence.
Qed.

Lemma py_map_result_ok {A B} (f : A -> result PyExn B) (xs : list A) (ys : list B) :
  py_map_result f xs = Ok ys <-> Forall2 (fun x y => f x = Ok y) xs ys.
Proof.
  revert ys. induction xs as [|x xs IH]; intros ys; simpl.
  - split; [intros E; injection E as <-; constructor|intros H; inversion H; reflexivity].
  - destruct (f x) as [y|e] eqn:Hfx; simpl.
    + destruct (py_map_result f xs) as [ys'|e]; simpl.
      * split; [intros E; injection E as <-; constructor; [exact Hfx|now apply IH]|].
        intros H; inversion H as [|? ? ? ? Hy Hys]; subst. rewrite Hfx in Hy.
        injection Hy as ->. apply IH in Hys. injection Hys as ->. reflexivity.
      * split; [discriminate|]. intros H; inversion H as [|? ? ? ? _ Hys]; subst.
        apply IH in Hys. discriminate.
    + split; [discriminate|]. intros H; inversion H; congruence.
Qed.

Lemma py_map_result_err {A B} (f : A -> result PyExn B) (pre : list A) (x : A) (post : list A)
      (ys : list B) (e : PyExn) :
  py_map_result f pre = Ok ys -> f x = Err e -> py_map_result f (pre ++ x :: post) = Err e.
Proof.
  revert ys. induction pre as [|a pre IH]; intros ys Hpre Hx; simpl in *.
  - now rewrite Hx.
  - destruct (f a); [|discriminate]. simpl in *.
    destruct (py_map_result f pre) as [ys'|]; [|discriminate]. now rewrite (IH ys').
Qed.

Lemma py_map_result_total {A B} (f : A -> result PyExn B) (xs : list A) :
  Forall (fun x => exists y, f x = Ok y) xs -> exists ys, py_map_result f xs = Ok ys.
Proof.
  induction 1 as [|x xs (y & Hy) _ (ys & Hys)]; [now exists []|].
  exists (y :: ys). simpl. now rewrite Hy, Hys.
Qed.
