(* ===== verification/Float.v ===== *)
(** * [float(s)] of a decimal numeral: rounding to a double

    [json.load] turns a number with a fraction or an exponent into a
    Python [float] with [float(integer + frac + exp)] (CPython's
    [json/scanner.py], [py_make_scanner]).  CPython's [float] of a
    string is correctly rounded ([dtoa.c], [_Py_dg_strtod]): the exact
    value of the numeral is rounded to the nearest IEEE 754 binary64
    number, ties to the even significand; a value past the largest
    double gives an infinity, one below the least subnormal gives
    zero.  [round_double] computes this from the exact rational value.
    The sign of a zero is not kept: [-0.0] is [0]. *)

From S2P Require Import Prelude PyText Json.
From Stdlib Require Import ZArith QArith Qabs.
Close Scope Q_scope.
Local Open Scope Z_scope.

(** The integer nearest to [n / d] ([d > 0]), ties to even. *)
Definition round_half_even (n d : Z) : Z :=
  let q := n / d in
  let r := n mod d in
  if 2 * r <? d then q
  else if d <? 2 * r then q + 1
  else if Z.even q then q else q + 1.

(** [floor (log2 (n / d))] for [n, d > 0]. *)
Definition binary_exp (n d : Z) : Z :=
  let t := Z.log2 n - Z.log2 d in
  if n * 2 ^ Z.max 0 (- t) <? d * 2 ^ Z.max 0 t then t - 1 else t.

(** The exponent of the last bit of the double nearest to [n / d]: 53
    significant bits, at most [2^-1074] (subnormals). *)
Definition double_exp (n d : Z) : Z := Z.max (binary_exp n d - 52) (-1074).

(** [n / d * 2^-e], rounded. *)
Definition scaled_round (n d e : Z) : Z := round_half_even (n * 2 ^ Z.max 0 (- e)) (d * 2 ^ Z.max 0 e).

(** [m * 2^e] as a rational. *)
Definition dyadic (m e : Z) : Q := Qmake (m * 2 ^ Z.max 0 e) (Z.to_pos (2 ^ Z.max 0 (- e))).

(** [float(s)] of a numeral of exact value [q]. *)
Definition round_double (q : Q) : pyfloat :=
  let n := Qnum q in
  let d := Zpos (Qden q) in
  if n =? 0 then PFinite 0
  else
    let a := Z.abs n in
    let e := double_exp a d in
    let m := scaled_round a d e in
    if 2 ^ 1024 <=? m * 2 ^ Z.max 0 e then PInf (n <? 0)
    else PFinite (dyadic (if n <? 0 then - m else m) e).

(** ** Integer lemmas *)

Lemma pow2_pos (x : Z) : 0 < 2 ^ x \/ x < 0.
Proof. destruct (Z.ltb_spec x 0); [right; lia|left; apply Z.pow_pos_nonneg; lia]. Qed.

Lemma pow2_max_pos (x : Z) : 0 < 2 ^ Z.max 0 x.
Proof. apply Z.pow_pos_nonneg; lia. Qed.

(** [round_half_even n d] is within half of [n / d]. *)
Lemma round_half_even_spec (n d : Z) : 0 < d -> 2 * Z.abs (n - round_half_even n d * d) <= d.
Proof.
  intros Hd. unfold round_half_even.
  pose proof (Z.div_mod n d ltac:(lia)) as Hn. pose proof (Z.mod_pos_bound n d Hd) as Hr.
  set (q := n / d) in *. set (r := n mod d) in *. clearbody q r.
  destruct (Z.ltb_spec (2 * r) d); [|destruct (Z.ltb_spec d (2 * r)); [|destruct (Z.even q)]]; nia.
Qed.

(** Rounding does not pass an integer bound of the quotient. *)
Lemma round_half_even_le (n d k : Z) : 0 < d -> n <= k * d -> round_half_even n d <= k.
Proof.
  intros Hd Hn. unfold round_half_even.
  pose proof (Z.div_mod n d ltac:(lia)) as Hnd. pose proof (Z.mod_pos_bound n d Hd) as Hr.
  set (q := n / d) in *. set (r := n mod d) in *. clearbody q r.
  assert (q <= k) by nia. assert (q = k -> r = 0) by nia.
  destruct (Z.ltb_spec (2 * r) d); [|destruct (Z.ltb_spec d (2 * r)); [|destruct (Z.even q)]];
    try lia; destruct (Z.eq_dec q k); nia.
Qed.

Lemma round_half_even_nonneg (n d : Z) : 0 < d -> 0 <= n -> 0 <= round_half_even n d.
Proof.
  intros Hd Hn. unfold round_half_even. pose proof (Z.div_pos n d Hn Hd).
  destruct (_ <? _); [lia|]. destruct (_ <? _); [lia|]. destruct (Z.even _); lia.
Qed.

(** On a tie, the result is even. *)
Lemma round_half_even_tie (n d : Z) : 0 < d ->
  2 * Z.abs (n - round_half_even n d * d) = d -> Z.even (round_half_even n d) = true.
Proof.
  intros Hd. unfold round_half_even.
  pose proof (Z.div_mod n d ltac:(lia)) as Hn. pose proof (Z.mod_pos_bound n d Hd) as Hr.
  set (q := n / d) in *. set (r := n mod d) in *. clearbody q r.
  destruct (Z.ltb_spec (2 * r) d); [nia|]. destruct (Z.ltb_spec d (2 * r)); [nia|].
  intros _. destruct (Z.even q) eqn:E; [exact E|]. rewrite Z.even_add, E. reflexivity.
Qed.

(** Rounding does not go below an integer bound of the quotient. *)
Lemma round_half_even_ge (n d k : Z) : 0 < d -> k * d <= n -> k <= round_half_even n d.
Proof.
  intros Hd Hn. unfold round_half_even.
  pose proof (Z.div_mod n d ltac:(lia)) as Hnd. pose proof (Z.mod_pos_bound n d Hd) as Hr.
  set (q := n / d) in *. set (r := n mod d) in *. clearbody q r. assert (k <= q) by nia.
  destruct (_ <? _); [lia|]. destruct (_ <? _); [lia|]. destruct (Z.even q); lia.
Qed.

(** Rounding to nearest, ties to even, is monotone in the quotient. *)
Lemma round_half_even_mono (n1 d1 n2 d2 : Z) : 0 < d1 -> 0 < d2 -> n1 * d2 <= n2 * d1 ->
  round_half_even n1 d1 <= round_half_even n2 d2.
Proof.
  intros H1 H2 Hle. pose proof (round_half_even_spec n1 d1 H1) as S1.
  pose proof (round_half_even_spec n2 d2 H2) as S2.
  pose proof (round_half_even_tie n1 d1 H1) as T1. pose proof (round_half_even_tie n2 d2 H2) as T2.
  set (r1 := round_half_even n1 d1) in *. set (r2 := round_half_even n2 d2) in *.
  destruct (Z.le_gt_cases r1 r2) as [|Hgt]; [assumption|exfalso].
  assert (A1 : (2 * r1 - 1) * d1 <= 2 * n1) by lia. assert (A2 : 2 * n2 <= (2 * r2 + 1) * d2) by lia.
  assert (B : (2 * r2 + 1) * d1 <= (2 * r1 - 1) * d1) by nia.
  assert (C1 : (2 * r1 - 1) * d1 * d2 <= 2 * n1 * d2) by nia.
  assert (C2 : 2 * n2 * d1 <= (2 * r2 + 1) * d2 * d1) by nia.
  assert (r1 = r2 + 1) by nia. assert (2 * n1 = (2 * r1 - 1) * d1) by nia.
  assert (2 * n2 = (2 * r2 + 1) * d2) by nia.
  specialize (T1 ltac:(lia)). specialize (T2 ltac:(lia)).
  replace r1 with (Z.succ r2) in T1 by lia. rewrite Z.even_succ, <- Z.negb_even, T2 in T1. discriminate.
Qed.

(** ** Comparing [n / d] with powers of two

    [below n d x] states [n / d < 2^x] in integers, the way
    [binary_exp] tests it. *)

Definition below (n d x : Z) : Prop := n * 2 ^ Z.max 0 (- x) < d * 2 ^ Z.max 0 x.

Lemma pow_shift (x K : Z) : 0 <= K -> x <= K ->
  2 ^ Z.max 0 (- x) * 2 ^ (K - Z.max 0 x) = 2 ^ (K - x) /\
  2 ^ Z.max 0 x * 2 ^ (K - Z.max 0 x) = 2 ^ K.
Proof. intros. rewrite <- !Z.pow_add_r by lia. split; f_equal; lia. Qed.

(** [below n d x] at a common exponent [K]. *)
Lemma below_shift (n d x K : Z) : 0 <= K -> x <= K ->
  below n d x <-> n * 2 ^ (K - x) < d * 2 ^ K.
Proof.
  intros HK Hx. unfold below. destruct (pow_shift x K HK Hx) as [E1 E2].
  assert (0 < 2 ^ (K - Z.max 0 x)) by (apply Z.pow_pos_nonneg; lia).
  rewrite <- E1, <- E2, !Z.mul_assoc. apply Z.mul_lt_mono_pos_r; assumption.
Qed.

Lemma below_mono (n d x y : Z) : 0 <= n -> x <= y -> below n d x -> below n d y.
Proof.
  intros Hn Hxy Hb. set (K := Z.max 0 y).
  apply (below_shift _ _ _ K) in Hb; [|lia|lia]. apply (below_shift _ _ _ K); [lia|lia|].
  assert (2 ^ (K - y) <= 2 ^ (K - x)) by (apply Z.pow_le_mono_r; lia). nia.
Qed.

(** [n / d < 2^(e + k)] bounds the scaled numerator of [scaled_round]. *)
Lemma below_scale (n d e k : Z) : 0 <= k -> below n d (e + k) ->
  n * 2 ^ Z.max 0 (- e) < 2 ^ k * (d * 2 ^ Z.max 0 e).
Proof.
  intros Hk Hb. apply (below_shift _ _ _ (k + Z.max 0 e)) in Hb; [|lia|lia].
  replace (k + Z.max 0 e - (e + k)) with (Z.max 0 (- e)) in Hb by lia.
  rewrite Z.pow_add_r in Hb by lia. lia.
Qed.

(** The two bounds of [binary_exp] from those of [Z.log2]. *)
Lemma log2_ratio (n d : Z) : 0 < n -> 0 < d ->
  ~ below n d (Z.log2 n - Z.log2 d - 1) /\ below n d (Z.log2 n - Z.log2 d + 1).
Proof.
  intros Hn Hd.
  destruct (Z.log2_spec n Hn) as [Hn1 Hn2]. destruct (Z.log2_spec d Hd) as [Hd1 Hd2].
  pose proof (Z.log2_nonneg n). pose proof (Z.log2_nonneg d).
  set (ln := Z.log2 n) in *. set (ld := Z.log2 d) in *. set (K := ln + ld + 2).
  rewrite !(below_shift _ _ _ K) by lia.
  replace (K - (ln - ld - 1)) with (ld + (ld + 3)) by lia.
  replace (K - (ln - ld + 1)) with (ld + (ld + 1)) by lia.
  replace K with (ln + 1 + (ld + 1)) by lia.
  rewrite !Z.pow_add_r by lia. rewrite Z.pow_succ_r in Hn2, Hd2 by lia.
  change (2 ^ 3) with 8. change (2 ^ 1) with 2.
  pose proof (Z.pow_pos_nonneg 2 ln ltac:(lia) ltac:(lia)).
  pose proof (Z.pow_pos_nonneg 2 ld ltac:(lia) ltac:(lia)).
  set (P := 2 ^ ln) in *. set (Q := 2 ^ ld) in *. clearbody P Q.
  assert (d * P * Q < 2 * Q * n * Q) by (apply Z.mul_lt_mono_pos_r; nia).
  assert (n * Q * Q < 2 * P * d * Q) by (apply Z.mul_lt_mono_pos_r; nia).
  split; lia.
Qed.

(** [binary_exp n d] is [floor (log2 (n / d))]. *)
Lemma binary_exp_spec (n d : Z) : 0 < n -> 0 < d ->
  ~ below n d (binary_exp n d) /\ below n d (binary_exp n d + 1).
Proof.
  intros Hn Hd. destruct (log2_ratio n d Hn Hd) as [Hlo Hhi]. unfold binary_exp.
  destruct (Z.ltb_spec (n * 2 ^ Z.max 0 (- (Z.log2 n - Z.log2 d)))
                       (d * 2 ^ Z.max 0 (Z.log2 n - Z.log2 d))) as [H|H].
  - split; [|replace (_ - 1 + 1) with (Z.log2 n - Z.log2 d) by lia; exact H]. exact Hlo.
  - split; [unfold below; lia|exact Hhi].
Qed.

(** The significand fits in 53 bits. *)
Lemma scaled_round_bound (a d : Z) : 0 < a -> 0 < d ->
  0 <= scaled_round a d (double_exp a d) <= 2 ^ 53.
Proof.
  intros Ha Hd. unfold scaled_round. pose proof (pow2_max_pos (double_exp a d)).
  pose proof (pow2_max_pos (- double_exp a d)). split; [apply round_half_even_nonneg; nia|].
  apply round_half_even_le; [nia|]. apply Z.lt_le_incl, below_scale; [lia|].
  apply (below_mono _ _ (binary_exp a d + 1)); [lia|unfold double_exp; lia|].
  apply binary_exp_spec; assumption.
Qed.

(** [below] moves to a smaller ratio [n1 / d1 <= n2 / d2]. *)
Lemma below_transfer (n1 d1 n2 d2 x : Z) : 0 < d1 -> 0 < d2 -> n1 * d2 <= n2 * d1 ->
  below n2 d2 x -> below n1 d1 x.
Proof.
  unfold below. intros H1 H2 Hle Hb. pose proof (pow2_max_pos x). pose proof (pow2_max_pos (- x)).
  set (P := 2 ^ Z.max 0 x) in *. set (N := 2 ^ Z.max 0 (- x)) in *. clearbody P N.
  assert (n1 * N * d2 < d1 * P * d2) by nia. nia.
Qed.

(** [below n d (e + k)] in the scaled integers of [scaled_round]. *)
Lemma below_scale_iff (n d e k : Z) : 0 <= k ->
  below n d (e + k) <-> n * 2 ^ Z.max 0 (- e) < 2 ^ k * (d * 2 ^ Z.max 0 e).
Proof.
  intros Hk. rewrite (below_shift _ _ _ (k + Z.max 0 e)) by lia.
  replace (k + Z.max 0 e - (e + k)) with (Z.max 0 (- e)) by lia.
  rewrite Z.pow_add_r by lia. split; lia.
Qed.

Lemma binary_exp_mono (n1 d1 n2 d2 : Z) : 0 < n1 -> 0 < d1 -> 0 < n2 -> 0 < d2 ->
  n1 * d2 <= n2 * d1 -> binary_exp n1 d1 <= binary_exp n2 d2.
Proof.
  intros. destruct (binary_exp_spec n1 d1) as [Hlo _]; [assumption..|].
  destruct (binary_exp_spec n2 d2) as [_ Hhi]; [assumption..|].
  destruct (Z.le_gt_cases (binary_exp n1 d1) (binary_exp n2 d2)) as [|Hgt]; [assumption|].
  exfalso. apply Hlo, (below_transfer _ _ n2 d2); [assumption..|].
  apply (below_mono _ _ (binary_exp n2 d2 + 1)); [lia|lia|exact Hhi].
Qed.

Lemma double_exp_mono (n1 d1 n2 d2 : Z) : 0 < n1 -> 0 < d1 -> 0 < n2 -> 0 < d2 ->
  n1 * d2 <= n2 * d1 -> double_exp n1 d1 <= double_exp n2 d2.
Proof. intros. unfold double_exp. pose proof (binary_exp_mono n1 d1 n2 d2). lia. Qed.

(** Above the subnormals the significand has its 53rd bit set. *)
Lemma scaled_round_normal (a d : Z) : 0 < a -> 0 < d -> -1074 < double_exp a d ->
  2 ^ 52 <= scaled_round a d (double_exp a d).
Proof.
  intros Ha Hd He. destruct (binary_exp_spec a d Ha Hd) as [Hlo _]. unfold scaled_round.
  assert (E : double_exp a d + 52 = binary_exp a d) by (unfold double_exp in *; lia).
  rewrite <- E, below_scale_iff in Hlo by lia.
  apply round_half_even_ge; [pose proof (pow2_max_pos (double_exp a d)); lia|lia].
Qed.

(** The rounded value [m * 2^e], compared at a common exponent [K]. *)
Definition scaled_value (a d K : Z) : Z :=
  scaled_round a d (double_exp a d) * 2 ^ (double_exp a d - K).

(** Rounding is monotone on positive ratios, before any overflow test. *)
Lemma scaled_value_mono (a1 d1 a2 d2 : Z) : 0 < a1 -> 0 < d1 -> 0 < a2 -> 0 < d2 ->
  a1 * d2 <= a2 * d1 -> scaled_value a1 d1 (double_exp a1 d1) <= scaled_value a2 d2 (double_exp a1 d1).
Proof.
  intros. unfold scaled_value. pose proof (double_exp_mono a1 d1 a2 d2) as Hm.
  set (e1 := double_exp a1 d1) in *. set (e2 := double_exp a2 d2) in *.
  rewrite Z.sub_diag, Z.mul_1_r.
  destruct (Z.eq_dec e1 e2) as [Ee|Ne].
  - rewrite <- Ee, Z.sub_diag, Z.mul_1_r. unfold scaled_round.
    pose proof (pow2_max_pos e1). pose proof (pow2_max_pos (- e1)).
    apply round_half_even_mono; nia.
  - pose proof (scaled_round_bound a1 d1 ltac:(lia) ltac:(lia)) as B1.
    pose proof (scaled_round_normal a2 d2 ltac:(lia) ltac:(lia)
                  ltac:(unfold e1, e2, double_exp in *; lia)) as B2.
    fold e1 in B1. fold e2 in B2.
    assert (2 ^ 1 <= 2 ^ (e2 - e1)) by (apply Z.pow_le_mono_r; lia).
    change (2 ^ 53) with (2 ^ 52 * 2 ^ 1) in B1. nia.
Qed.

(** An overflowing significand has an exponent of at least [971]. *)
Lemma overflow_exp (a d : Z) : 0 < a -> 0 < d ->
  2 ^ 1024 <= scaled_round a d (double_exp a d) * 2 ^ Z.max 0 (double_exp a d) ->
  971 <= double_exp a d.
Proof.
  intros Ha Hd E. pose proof (scaled_round_bound a d Ha Hd) as Hm.
  destruct (Z.leb_spec 971 (double_exp a d)) as [|Hlt]; [assumption|].
  assert (2 ^ Z.max 0 (double_exp a d) <= 2 ^ 970) by (apply Z.pow_le_mono_r; lia).
  assert (2 ^ 1024 = 2 ^ 53 * 2 ^ 970 * 2) as E2 by reflexivity.
  pose proof (Z.pow_pos_nonneg 2 970 ltac:(lia) ltac:(lia)). nia.
Qed.

(** The overflow test of [round_double] is monotone. *)
Lemma overflow_mono (a1 d1 a2 d2 : Z) : 0 < a1 -> 0 < d1 -> 0 < a2 -> 0 < d2 -> a1 * d2 <= a2 * d1 ->
  2 ^ 1024 <= scaled_round a1 d1 (double_exp a1 d1) * 2 ^ Z.max 0 (double_exp a1 d1) ->
  2 ^ 1024 <= scaled_round a2 d2 (double_exp a2 d2) * 2 ^ Z.max 0 (double_exp a2 d2).
Proof.
  intros H1 H2 H3 H4 Hle E. pose proof (overflow_exp a1 d1 H1 H2 E) as He1.
  pose proof (double_exp_mono a1 d1 a2 d2 H1 H2 H3 H4 Hle) as He.
  pose proof (scaled_value_mono a1 d1 a2 d2 H1 H2 H3 H4 Hle) as Hv. unfold scaled_value in Hv.
  rewrite Z.sub_diag, Z.mul_1_r in Hv. rewrite Z.max_r in * by lia.
  replace (double_exp a2 d2) with (double_exp a2 d2 - double_exp a1 d1 + double_exp a1 d1) at 2 by lia.
  rewrite Z.pow_add_r by lia. pose proof (Z.pow_pos_nonneg 2 (double_exp a1 d1) ltac:(lia) ltac:(lia)). nia.
Qed.

(** Two dyadic numbers compared at the smaller of their exponents. *)
Lemma dyadic_le_iff (m1 e1 m2 e2 K : Z) : K <= e1 -> K <= e2 -> K = e1 \/ K = e2 ->
  (dyadic m1 e1 <= dyadic m2 e2)%Q <-> m1 * 2 ^ (e1 - K) <= m2 * 2 ^ (e2 - K).
Proof.
  intros HK1 HK2 HK. unfold Qle, dyadic. cbn [Qnum Qden].
  rewrite !Z2Pos.id by apply pow2_max_pos.
  assert (Hc : 0 <= K + Z.max 0 (- e1) + Z.max 0 (- e2)) by lia.
  assert (E1 : 2 ^ Z.max 0 e1 * 2 ^ Z.max 0 (- e2) = 2 ^ (e1 - K) * 2 ^ (K + Z.max 0 (- e1) + Z.max 0 (- e2)))
    by (rewrite <- !Z.pow_add_r by lia; f_equal; lia).
  assert (E2 : 2 ^ Z.max 0 e2 * 2 ^ Z.max 0 (- e1) = 2 ^ (e2 - K) * 2 ^ (K + Z.max 0 (- e1) + Z.max 0 (- e2)))
    by (rewrite <- !Z.pow_add_r by lia; f_equal; lia).
  rewrite <- !Z.mul_assoc, E1, E2, !Z.mul_assoc. symmetry. apply Z.mul_le_mono_pos_r, Z.pow_pos_nonneg; lia.
Qed.

(** ** The double [round_double] returns *)

(** Half a unit of [2^e] bounds the distance to [k * 2^e] in [Q] when it
    does in the scaled integers. *)
Lemma dyadic_dist (n : Z) (dd : positive) (k e : Z) :
  2 * Z.abs (n * 2 ^ Z.max 0 (- e) - k * (Zpos dd * 2 ^ Z.max 0 e)) <= Zpos dd * 2 ^ Z.max 0 e ->
  (2 * Qabs ((n # dd) - dyadic k e) <= dyadic 1 e)%Q.
Proof.
  intros H. unfold Qle, Qminus, Qplus, Qopp, Qmult, Qabs, dyadic. cbn [Qnum Qden].
  pose proof (pow2_max_pos e). pose proof (pow2_max_pos (- e)).
  rewrite !Pos2Z.inj_mul, Z2Pos.id by lia.
  set (N := 2 ^ Z.max 0 (- e)) in *. set (P := 2 ^ Z.max 0 e) in *.
  replace (n * N + - (k * P) * Zpos dd) with (n * N - k * (Zpos dd * P)) by ring. nia.
Qed.

(** The two results of [round_double] that are finite. *)
Lemma round_double_finite_inv (q x : Q) : round_double q = PFinite x ->
  (Qnum q = 0 /\ x = dyadic 0 0) \/
  (Qnum q <> 0 /\
   x = dyadic (if Qnum q <? 0 then - scaled_round (Z.abs (Qnum q)) (Zpos (Qden q))
                                      (double_exp (Z.abs (Qnum q)) (Zpos (Qden q)))
               else scaled_round (Z.abs (Qnum q)) (Zpos (Qden q))
                      (double_exp (Z.abs (Qnum q)) (Zpos (Qden q))))
              (double_exp (Z.abs (Qnum q)) (Zpos (Qden q))) /\
   scaled_round (Z.abs (Qnum q)) (Zpos (Qden q)) (double_exp (Z.abs (Qnum q)) (Zpos (Qden q)))
     * 2 ^ Z.max 0 (double_exp (Z.abs (Qnum q)) (Zpos (Qden q))) < 2 ^ 1024).
Proof.
  unfold round_double. intros H.
  destruct (Z.eqb_spec (Qnum q) 0); [left; split; [assumption|]; injection H; intros <-; reflexivity|].
  right. destruct (2 ^ 1024 <=? _) eqn:E; [discriminate|]. apply Z.leb_gt in E.
  injection H; intros <-. auto.
Qed.

(** Representability: a finite result is [m * 2^e] with a significand
    of at most 53 bits, an exponent not below the least subnormal's, and
    a magnitude below [2^1024]. *)
Theorem round_double_representable (q x : Q) : round_double q = PFinite x ->
  exists m e, x = dyadic m e /\ Z.abs m <= 2 ^ 53 /\ -1074 <= e /\ Z.abs m * 2 ^ Z.max 0 e < 2 ^ 1024.
Proof.
  intros H. destruct (round_double_finite_inv q x H) as [[_ ->]|[Hn [-> Hb]]].
  - exists 0, 0. repeat split; lia.
  - eexists _, _. split; [reflexivity|].
    pose proof (scaled_round_bound (Z.abs (Qnum q)) (Zpos (Qden q)) ltac:(lia) ltac:(lia)).
    unfold double_exp at 3. destruct (Qnum q <? 0); rewrite ?Z.abs_opp, Z.abs_eq by lia; lia.
Qed.

(** The rounded significand with the numeral's sign is within half a
    unit of [2^e] of the numeral. *)
Lemma signed_dist (n : Z) (dd : positive) :
  let e := double_exp (Z.abs n) (Zpos dd) in let m := scaled_round (Z.abs n) (Zpos dd) e in
  (2 * Qabs ((n # dd) - dyadic (if n <? 0 then - m else m) e) <= dyadic 1 e)%Q.
Proof.
  intros e m. apply dyadic_dist.
  pose proof (round_half_even_spec (Z.abs n * 2 ^ Z.max 0 (- e)) (Zpos dd * 2 ^ Z.max 0 e)
                ltac:(pose proof (pow2_max_pos e); lia)) as Hs.
  fold (scaled_round (Z.abs n) (Zpos dd) e) in Hs. fold m in Hs.
  destruct (Z.ltb_spec n 0); [rewrite (Z.abs_neq n) in Hs by lia|rewrite (Z.abs_eq n) in Hs by lia];
    [rewrite <- Z.abs_opp|]; (etransitivity; [|exact Hs]); apply Z.eq_le_incl; f_equal; f_equal; ring.
Qed.

(** Nearest: a finite result is within half a unit of its last place of
    the exact value. *)
Theorem round_double_nearest (q x : Q) : round_double q = PFinite x ->
  (2 * Qabs (q - x) <= dyadic 1 (double_exp (Z.abs (Qnum q)) (Zpos (Qden q))))%Q.
Proof.
  intros H. destruct q as [n dd]. cbn [Qnum Qden] in *.
  destruct (round_double_finite_inv _ x H) as [[Hn ->]|[Hn [-> _]]]; cbn [Qnum Qden] in *.
  - subst n. unfold Qle, Qminus, Qplus, Qopp, Qmult, Qabs, dyadic. cbn [Qnum Qden].
    pose proof (pow2_max_pos (double_exp 0 (Zpos dd))). lia.
  - apply signed_dist.
Qed.

(** The magnitude of an overflowing ratio [a / d]. *)
Lemma overflow_value (a d : Z) : 0 < a -> 0 < d ->
  2 ^ 1024 <= scaled_round a d (double_exp a d) * 2 ^ Z.max 0 (double_exp a d) ->
  (2 ^ 1024 - 2 ^ 970) * d <= a.
Proof.
  intros Ha Hd E. pose proof (scaled_round_bound a d Ha Hd) as Hm.
  destruct (binary_exp_spec a d Ha Hd) as [Hlo _].
  pose proof (round_half_even_spec (a * 2 ^ Z.max 0 (- double_exp a d)) (d * 2 ^ Z.max 0 (double_exp a d))
    ltac:(pose proof (pow2_max_pos (double_exp a d)); lia)) as Hs.
  fold (scaled_round a d (double_exp a d)) in Hs. pose proof (overflow_exp a d Ha Hd E) as He.
  unfold double_exp in *. set (B := binary_exp _ _) in *. set (e := Z.max (B - 52) (-1074)) in *.
  set (m := scaled_round _ _ _) in *.
  assert (H53 : 2 ^ 1024 = 2 ^ 53 * 2 ^ 971) by (rewrite <- Z.pow_add_r; lia).
  assert (H70 : 2 ^ 971 = 2 * 2 ^ 970) by (rewrite <- Z.pow_succ_r; lia).
  unfold below in Hlo. rewrite (Z.max_l 0 (- B)), (Z.max_r 0 B) in Hlo by lia.
  rewrite (Z.max_l 0 (- e)), (Z.max_r 0 e) in * by lia. change (2 ^ 0) with 1 in *.
  destruct (Z.eqb_spec e 971) as [He'|He'].
  - rewrite He' in *. assert (m = 2 ^ 53) by nia. subst m. nia.
  - assert (2 ^ 1024 <= 2 ^ B) by (apply Z.pow_le_mono_r; lia).
    pose proof (Z.pow_pos_nonneg 2 970 ltac:(lia) ltac:(lia)). nia.
Qed.

(** Overflow: [round_double] gives an infinity, of the sign of the
    numeral, only for a magnitude of at least [2^1024 - 2^970], the
    midpoint between the largest double and [2^1024]. *)
Theorem round_double_overflow (q : Q) (neg : bool) : round_double q = PInf neg ->
  neg = (Qnum q <? 0) /\ (inject_Z (2 ^ 1024 - 2 ^ 970) <= Qabs q)%Q.
Proof.
  intros H. destruct q as [n dd]. unfold round_double in H. cbn [Qnum Qden] in *.
  destruct (Z.eqb_spec n 0); [discriminate|].
  destruct (2 ^ 1024 <=? _) eqn:E; [|discriminate]. apply Z.leb_le in E.
  injection H as <-. split; [reflexivity|]. unfold Qle, Qabs, inject_Z. cbn [Qnum Qden].
  pose proof (overflow_value (Z.abs n) (Zpos dd) ltac:(lia) ltac:(lia) E). lia.
Qed.

(** Below the overflow threshold, [round_double] is finite. *)
Lemma round_double_finite (q : Q) : (Qabs q < inject_Z (2 ^ 1024 - 2 ^ 970))%Q ->
  exists v, round_double q = PFinite v.
Proof.
  destruct q as [n dd]. unfold Qlt, Qabs, inject_Z, round_double. cbn [Qnum Qden]. intros Hq.
  destruct (Z.eqb_spec n 0); [eexists; reflexivity|].
  destruct (2 ^ 1024 <=? _) eqn:E; [|eexists; reflexivity]. apply Z.leb_le in E.
  pose proof (overflow_value (Z.abs n) (Zpos dd) ltac:(lia) ltac:(lia) E). lia.
Qed.

(** A Python [float]: NaN, an infinity, or a finite double. *)
Definition is_double (f : pyfloat) : Prop :=
  match f with
  | PFinite x => exists m e, x = dyadic m e /\ Z.abs m <= 2 ^ 53 /\ -1074 <= e /\
                   Z.abs m * 2 ^ Z.max 0 e < 2 ^ 1024
  | PInf _ | PNaN => True
  end.

Lemma round_double_is_double (q : Q) : is_double (round_double q).
Proof.
  destruct (round_double q) as [x| |] eqn:E; cbn [is_double]; [|exact I|exact I].
  destruct (round_double_finite_inv q x E) as [[_ ->]|[Hn [-> Hb]]]; [exists 0, 0; repeat split; lia|].
  eexists _, _. split; [reflexivity|].
  pose proof (scaled_round_bound (Z.abs (Qnum q)) (Zpos (Qden q)) ltac:(lia) ltac:(lia)).
  unfold double_exp at 3. destruct (Qnum q <? 0); rewrite ?Z.abs_opp, Z.abs_eq by lia; lia.
Qed.

(** ** Monotonicity *)

(** Python's [x <= y] on floats: false when either is NaN. *)
Definition float_le (x y : pyfloat) : Prop :=
  match x, y with
  | PNaN, _ | _, PNaN => False
  | PInf true, _ | _, PInf false => True
  | PInf false, _ | _, PInf true => False
  | PFinite a, PFinite b => (a <= b)%Q
  end.

Lemma float_le_trans (x y z : pyfloat) : float_le x y -> float_le y z -> float_le x z.
Proof.
  destruct x as [a|[]|], y as [b|[]|], z as [c|[]|]; cbn; try tauto. apply Qle_trans.
Qed.

Lemma round_double_pos (n : Z) (dd : positive) : 0 < n ->
  round_double (n # dd) =
    if 2 ^ 1024 <=? scaled_round n (Zpos dd) (double_exp n (Zpos dd)) * 2 ^ Z.max 0 (double_exp n (Zpos dd))
    then PInf false else PFinite (dyadic (scaled_round n (Zpos dd) (double_exp n (Zpos dd))) (double_exp n (Zpos dd))).
Proof.
  intros Hn. unfold round_double. cbn [Qnum Qden].
  replace (n =? 0) with false by lia. replace (n <? 0) with false by lia. rewrite Z.abs_eq by lia. reflexivity.
Qed.

Lemma round_double_neg (n : Z) (dd : positive) : n < 0 ->
  round_double (n # dd) =
    if 2 ^ 1024 <=? scaled_round (- n) (Zpos dd) (double_exp (- n) (Zpos dd)) * 2 ^ Z.max 0 (double_exp (- n) (Zpos dd))
    then PInf true else PFinite (dyadic (- scaled_round (- n) (Zpos dd) (double_exp (- n) (Zpos dd))) (double_exp (- n) (Zpos dd))).
Proof.
  intros Hn. unfold round_double. cbn [Qnum Qden].
  replace (n =? 0) with false by lia. replace (n <? 0) with true by lia. rewrite Z.abs_neq by lia. reflexivity.
Qed.

(** Positive ratios: the two roundings compare as the ratios do. *)
Lemma round_pos_mono (n1 n2 : Z) (d1 d2 : positive) : 0 < n1 -> 0 < n2 -> n1 * Zpos d2 <= n2 * Zpos d1 ->
  (2 ^ 1024 <= scaled_round n1 (Zpos d1) (double_exp n1 (Zpos d1)) * 2 ^ Z.max 0 (double_exp n1 (Zpos d1)) ->
   2 ^ 1024 <= scaled_round n2 (Zpos d2) (double_exp n2 (Zpos d2)) * 2 ^ Z.max 0 (double_exp n2 (Zpos d2))) /\
  (dyadic (scaled_round n1 (Zpos d1) (double_exp n1 (Zpos d1))) (double_exp n1 (Zpos d1))
     <= dyadic (scaled_round n2 (Zpos d2) (double_exp n2 (Zpos d2))) (double_exp n2 (Zpos d2)))%Q.
Proof.
  intros H1 H2 Hle. split; [apply overflow_mono; lia|].
  pose proof (double_exp_mono n1 (Zpos d1) n2 (Zpos d2) H1 ltac:(lia) H2 ltac:(lia) Hle).
  apply (dyadic_le_iff _ _ _ _ (double_exp n1 (Zpos d1))); [lia|lia|left; reflexivity|].
  exact (scaled_value_mono n1 (Zpos d1) n2 (Zpos d2) H1 ltac:(lia) H2 ltac:(lia) Hle).
Qed.

Lemma round_double_ge0 (n : Z) (dd : positive) : 0 <= n -> float_le (PFinite 0) (round_double (n # dd)).
Proof.
  intros Hn. destruct (Z.eq_dec n 0) as [->|Hn0]; [apply Qle_refl|].
  rewrite round_double_pos by lia. destruct (_ <=? _); cbn; [exact I|].
  unfold Qle, dyadic. cbn [Qnum Qden]. pose proof (pow2_max_pos (double_exp n (Zpos dd))).
  pose proof (scaled_round_bound n (Zpos dd) ltac:(lia) ltac:(lia)). nia.
Qed.

Lemma round_double_le0 (n : Z) (dd : positive) : n <= 0 -> float_le (round_double (n # dd)) (PFinite 0).
Proof.
  intros Hn. destruct (Z.eq_dec n 0) as [->|Hn0]; [apply Qle_refl|].
  rewrite round_double_neg by lia. destruct (_ <=? _); cbn; [exact I|].
  unfold Qle, dyadic. cbn [Qnum Qden]. pose proof (pow2_max_pos (double_exp (- n) (Zpos dd))).
  pose proof (scaled_round_bound (- n) (Zpos dd) ltac:(lia) ltac:(lia)). nia.
Qed.

(** Case analysis on the overflow tests of two roundings. *)
Ltac split_tests B1 B2 :=
  match goal with
  | |- float_le (if ?t1 then _ else _) (if ?t2 then _ else _) => destruct t1 eqn:B1, t2 eqn:B2
  end.

(** [float()] is monotone: a larger numeral never gives a smaller
    float. *)
Theorem round_double_mono (q1 q2 : Q) : (q1 <= q2)%Q -> float_le (round_double q1) (round_double q2).
Proof.
  destruct q1 as [n1 d1], q2 as [n2 d2]. unfold Qle. cbn [Qnum Qden]. intros Hle.
  assert (0 < Zpos d1) by lia. assert (0 < Zpos d2) by lia.
  destruct (Z.lt_trichotomy n1 0) as [N1|[Z1|P1]].
  - destruct (Z.lt_ge_cases n2 0) as [N2|P2].
    + rewrite !round_double_neg by assumption.
      destruct (round_pos_mono (- n2) (- n1) d2 d1) as [Ho Hd]; [lia|lia|nia|].
      split_tests B1 B2; cbn; try exact I; [apply Z.leb_le in B2; apply Z.leb_gt in B1; lia|].
      unfold Qle, dyadic in *. cbn [Qnum Qden] in *. lia.
    + apply (float_le_trans _ (PFinite 0)); [apply round_double_le0|apply round_double_ge0]; lia.
  - apply (float_le_trans _ (PFinite 0)); [apply round_double_le0; lia|].
    apply round_double_ge0. subst n1. nia.
  - assert (P2 : 0 < n2) by nia. rewrite !round_double_pos by assumption.
    destruct (round_pos_mono n1 n2 d1 d2 P1 P2 Hle) as [Ho Hd].
    split_tests B1 B2; cbn; try exact I; [apply Z.leb_le in B1; apply Z.leb_gt in B2; lia|]. exact Hd.
Qed.

(** ** Witnesses *)

(** [float("0.1")] is [7205759403792794 * 2^-56]. *)
Lemma round_double_representable_witness :
  round_double (1 # 10) = PFinite (dyadic 7205759403792794 (-56)) /\
  exists m e, dyadic 7205759403792794 (-56) = dyadic m e /\ Z.abs m <= 2 ^ 53 /\ -1074 <= e /\
    Z.abs m * 2 ^ Z.max 0 e < 2 ^ 1024.
Proof.
  assert (H : round_double (1 # 10) = PFinite (dyadic 7205759403792794 (-56))) by (vm_compute; reflexivity).
  split; [exact H|exact (round_double_representable _ _ H)].
Defined.

(** [float("1e23")] is the double below [10^23], half an ulp from it at
    most. *)
Lemma round_double_nearest_witness :
  round_double (100000000000000000000000 # 1) = PFinite (dyadic 5960464477539062 24) /\
  (2 * Qabs ((100000000000000000000000 # 1) - dyadic 5960464477539062 24)
     <= dyadic 1 (double_exp 100000000000000000000000 1))%Q.
Proof.
  assert (H : round_double (100000000000000000000000 # 1) = PFinite (dyadic 5960464477539062 24))
    by (vm_compute; reflexivity).
  split; [exact H|exact (round_double_nearest _ _ H)].
Defined.

(** [float("1e309")] overflows to [inf]. *)
Lemma round_double_overflow_witness :
  round_double (inject_Z (10 ^ 309)) = PInf false /\
  false = (Qnum (inject_Z (10 ^ 309)) <? 0) /\
  (inject_Z (2 ^ 1024 - 2 ^ 970) <= Qabs (inject_Z (10 ^ 309)))%Q.
Proof.
  assert (H : round_double (inject_Z (10 ^ 309)) = PInf false) by (vm_compute; reflexivity).
  split; [exact H|exact (round_double_overflow _ _ H)].
Defined.
