(* ===== verification/FloatArith.v ===== *)
(** * Python float arithmetic

    CPython's [float.__add__], [float.__sub__] and [float.__truediv__]
    ([Objects/floatobject.c]) compute in C doubles: IEEE 754 binary64
    with rounding to nearest, ties to even.  On finite operands the
    result is the exact result rounded, [round_double] of [Float]; the
    infinities and NaN follow IEEE 754; and [float_div] raises
    [ZeroDivisionError] on a zero divisor before looking at the
    dividend.  Two facts of [round_double] come first: it depends on
    the rational value only ([round_double_proper], a [Proper] instance
    for setoid rewriting with [Qeq]), and a double is rounded to itself
    ([round_double_double]).  The lemmas then give the monotonicity of
    each operation in its first operand, bounds by evaluation, and the
    relative error of rounding ([round_double_error]: [|round q - q| <=
    |q| 2^-53 + 2^-1075], with literal constants in [near_round] and the
    error of a quotient in [quot_near]), on which the double-precision
    structural score of [ScoreFloat] rests. *)

From S2P Require Import Prelude PyText Json Float.
From Stdlib Require Import ZArith QArith Qabs Lqa Morphisms.
Local Open Scope Z_scope.

(** ** Rounding depends on the value only *)

Lemma scaled_round_eq (n1 d1 n2 d2 : Z) : 0 < n1 -> 0 < d1 -> 0 < n2 -> 0 < d2 -> n1 * d2 = n2 * d1 ->
  double_exp n1 d1 = double_exp n2 d2 /\
  scaled_round n1 d1 (double_exp n1 d1) = scaled_round n2 d2 (double_exp n2 d2).
Proof.
  intros H1 H2 H3 H4 He.
  pose proof (double_exp_mono n1 d1 n2 d2 H1 H2 H3 H4 ltac:(lia)).
  pose proof (double_exp_mono n2 d2 n1 d1 H3 H4 H1 H2 ltac:(lia)).
  assert (E : double_exp n1 d1 = double_exp n2 d2) by lia. split; [exact E|].
  unfold scaled_round. rewrite <- E. pose proof (pow2_max_pos (double_exp n1 d1)).
  pose proof (pow2_max_pos (- double_exp n1 d1)).
  apply Z.le_antisymm; apply round_half_even_mono; nia.
Qed.

(** [round_double] of equal rationals is the same float. *)
#[export] Instance round_double_proper : Proper (Qeq ==> eq) round_double.
Proof.
  intros [n1 d1] [n2 d2] Hq. unfold Qeq in Hq. cbn [Qnum Qden] in Hq.
  destruct (Z.lt_trichotomy n1 0) as [N1|[Z1|P1]].
  - assert (n2 < 0) by nia. rewrite !round_double_neg by assumption.
    destruct (scaled_round_eq (- n1) (Zpos d1) (- n2) (Zpos d2)) as [E1 E2]; try nia.
    rewrite E2, E1. reflexivity.
  - subst n1. assert (n2 = 0) by nia. subst n2. reflexivity.
  - assert (0 < n2) by nia. rewrite !round_double_pos by assumption.
    destruct (scaled_round_eq n1 (Zpos d1) n2 (Zpos d2)) as [E1 E2]; try nia.
    rewrite E2, E1. reflexivity.
Qed.

(** ** Doubles are rounded to themselves *)

Lemma round_half_even_exact (k d : Z) : 0 < d -> round_half_even (k * d) d = k.
Proof.
  intros Hd. unfold round_half_even. rewrite Z.div_mul, Z.mod_mul by lia.
  replace (2 * 0 <? d) with true by lia. reflexivity.
Qed.

(** The exponent and significand [round_double] finds for [m * 2^e]. *)
Lemma exact_core (m e : Z) : 0 < m -> m < 2 ^ 53 -> -1074 <= e ->
  let n := m * 2 ^ Z.max 0 e in let d := 2 ^ Z.max 0 (- e) in
  double_exp n d <= e /\ scaled_round n d (double_exp n d) = m * 2 ^ (e - double_exp n d).
Proof.
  intros Hm Hm53 He n d. pose proof (pow2_max_pos e). pose proof (pow2_max_pos (- e)).
  assert (Hn : 0 < n) by (unfold n; nia). assert (Hd : 0 < d) by (unfold d; lia).
  destruct (binary_exp_spec n d Hn Hd) as [Hlo _].
  assert (Hb : below n d (e + 53)).
  { apply below_scale_iff; [lia|]. unfold n, d. nia. }
  assert (HB : binary_exp n d < e + 53).
  { destruct (Z.lt_ge_cases (binary_exp n d) (e + 53)) as [|Hge]; [assumption|].
    exfalso. apply Hlo, (below_mono _ _ (e + 53)); [lia|exact Hge|exact Hb]. }
  assert (He' : double_exp n d <= e) by (unfold double_exp; lia). split; [exact He'|].
  set (e' := double_exp n d) in *. unfold scaled_round.
  assert (E : n * 2 ^ Z.max 0 (- e') = m * 2 ^ (e - e') * (d * 2 ^ Z.max 0 e'))
    by (unfold n, d; rewrite <- !Z.mul_assoc, <- !Z.pow_add_r by lia; f_equal; f_equal; lia).
  rewrite E.
  apply round_half_even_exact. pose proof (pow2_max_pos e'). lia.
Qed.

Lemma exact_pos (m e : Z) (dd : positive) : 0 < m -> m < 2 ^ 53 -> -1074 <= e ->
  m * 2 ^ Z.max 0 e < 2 ^ 1024 -> Zpos dd = 2 ^ Z.max 0 (- e) ->
  let n := m * 2 ^ Z.max 0 e in
  (2 ^ 1024 <=? scaled_round n (Zpos dd) (double_exp n (Zpos dd)) * 2 ^ Z.max 0 (double_exp n (Zpos dd))) = false /\
  (dyadic (scaled_round n (Zpos dd) (double_exp n (Zpos dd))) (double_exp n (Zpos dd)) == dyadic m e)%Q.
Proof.
  intros Hm Hm53 He Hov Hdd n. pose proof (pow2_max_pos e).
  pose proof (scaled_round_bound n (Zpos dd) ltac:(unfold n; nia) ltac:(lia)) as Hb.
  rewrite Hdd in *. destruct (exact_core m e Hm Hm53 He) as [He' Hs].
  fold n in He', Hs. set (e' := double_exp n _) in *. split.
  - apply Z.leb_gt. destruct (Z.le_gt_cases 0 e') as [Hp|Hn].
    + rewrite Hs, (Z.max_r 0 e') by lia. rewrite (Z.max_r 0 e) in Hov by lia.
      rewrite <- Z.mul_assoc, <- Z.pow_add_r by lia. replace (e - e' + e') with e by lia. exact Hov.
    + rewrite (Z.max_l 0 e') by lia. change (2 ^ 0) with 1. rewrite Z.mul_1_r.
      assert (2 ^ 53 < 2 ^ 1024) by (apply Z.pow_lt_mono_r; lia). lia.
  - rewrite Hs. pose proof (Z.pow_pos_nonneg 2 (e - e') ltac:(lia) ltac:(lia)).
    apply Qle_antisym.
    + apply (dyadic_le_iff _ _ _ _ e'); [lia|lia|left; reflexivity|].
      rewrite Z.sub_diag, Z.mul_1_r. lia.
    + apply (dyadic_le_iff _ _ _ _ e'); [lia|lia|right; reflexivity|].
      rewrite Z.sub_diag, Z.mul_1_r. lia.
Qed.

(** A double is rounded to itself: [round_double] of [m * 2^e] with a
    significand below [2^53], an exponent from [-1074] and a magnitude
    below [2^1024] is that value. *)
Lemma round_double_exact (m e : Z) : Z.abs m < 2 ^ 53 -> -1074 <= e -> Z.abs m * 2 ^ Z.max 0 e < 2 ^ 1024 ->
  exists y, round_double (dyadic m e) = PFinite y /\ (y == dyadic m e)%Q.
Proof.
  intros Hm He Hov. pose proof (pow2_max_pos e). pose proof (pow2_max_pos (- e)).
  assert (Hdd : Zpos (Z.to_pos (2 ^ Z.max 0 (- e))) = 2 ^ Z.max 0 (- e)) by (apply Z2Pos.id; lia).
  destruct (Z.lt_trichotomy m 0) as [N|[Z0|P]].
  - unfold dyadic at 1. rewrite round_double_neg by nia.
    replace (- (m * 2 ^ Z.max 0 e)) with (- m * 2 ^ Z.max 0 e) by ring.
    destruct (exact_pos (- m) e _ ltac:(lia) ltac:(lia) He ltac:(lia) Hdd) as [-> Hq].
    eexists; split; [reflexivity|]. revert Hq. unfold Qeq, dyadic. cbn [Qnum Qden]. lia.
  - subst m. exists 0%Q. split; [reflexivity|]. unfold Qeq, dyadic. cbn [Qnum Qden]. lia.
  - unfold dyadic at 1. rewrite round_double_pos by nia.
    destruct (exact_pos m e _ P ltac:(lia) He ltac:(lia) Hdd) as [-> Hq].
    eexists; split; [reflexivity|exact Hq].
Qed.


Lemma dyadic_half (k e : Z) : (dyadic (2 * k) e == dyadic k (e + 1))%Q.
Proof.
  apply Qle_antisym; apply (dyadic_le_iff _ _ _ _ e); try lia;
    rewrite Z.sub_diag, Z.mul_1_r; replace (e + 1 - e) with 1 by lia; lia.
Qed.

(** Every finite double, [2^53 * 2^e] included, is rounded to itself. *)
Lemma round_double_double (x : Q) : is_double (PFinite x) ->
  exists y, round_double x = PFinite y /\ (y == x)%Q.
Proof.
  intros (m & e & -> & Hm & He & Hov).
  destruct (Z.eq_dec (Z.abs m) (2 ^ 53)) as [E|NE]; [|apply round_double_exact; lia].
  assert (Hk : exists k, m = 2 * k /\ Z.abs k = 2 ^ 52)
    by (destruct (Z.abs_spec m) as [[_ Ea]|[_ Ea]]; [exists (2 ^ 52)|exists (- 2 ^ 52)]; lia).
  destruct Hk as (k & -> & Hk).
  destruct (round_double_exact k (e + 1)) as (y & Hy & Hq); [lia|lia| |].
  - pose proof (pow2_max_pos e). rewrite Hk. destruct (Z.le_gt_cases 0 e).
    + rewrite (Z.max_r 0 (e + 1)) by lia. rewrite (Z.max_r 0 e) in Hov by lia.
      rewrite Z.pow_add_r by lia. change (2 ^ 1) with 2. rewrite E in Hov.
      change (2 ^ 53) with (2 ^ 52 * 2) in Hov. lia.
    + assert (2 ^ Z.max 0 (e + 1) <= 2 ^ 1) by (apply Z.pow_le_mono_r; lia).
      assert (2 ^ 52 * 2 ^ 1 < 2 ^ 1024) by (rewrite <- Z.pow_add_r by lia; apply Z.pow_lt_mono_r; lia).
      nia.
  - exists y. split; [rewrite (round_double_proper _ _ (dyadic_half k e)); exact Hy|].
    apply (Qeq_trans _ _ _ Hq), Qeq_sym, dyadic_half.
Qed.

(** ** Relative error *)

Lemma dyadic_mul (a b e1 e2 : Z) : (dyadic a e1 * dyadic b e2 == dyadic (a * b) (e1 + e2))%Q.
Proof.
  unfold Qeq, Qmult, dyadic. cbn [Qnum Qden]. rewrite !Pos2Z.inj_mul, !Z2Pos.id by apply pow2_max_pos.
  assert (E : 2 ^ Z.max 0 e1 * 2 ^ Z.max 0 e2 * 2 ^ Z.max 0 (- (e1 + e2)) =
              2 ^ Z.max 0 (e1 + e2) * (2 ^ Z.max 0 (- e1) * 2 ^ Z.max 0 (- e2)))
    by (rewrite <- !Z.pow_add_r by lia; f_equal; lia).
  transitivity (a * b * (2 ^ Z.max 0 e1 * 2 ^ Z.max 0 e2 * 2 ^ Z.max 0 (- (e1 + e2)))); [ring|].
  rewrite E. ring.
Qed.

(** [round_double] errs by at most [2^-53] of the value, or by [2^-1075]
    among the subnormals. *)
Lemma round_double_error (q x : Q) : round_double q = PFinite x ->
  (Qabs (x - q) <= Qabs q * dyadic 1 (-53) + dyadic 1 (-1075))%Q.
Proof.
  intros H. assert (P53 : (0 <= dyadic 1 (-53))%Q) by (apply Qle_bool_imp_le; vm_compute; reflexivity).
  assert (P75 : (0 <= dyadic 1 (-1075))%Q) by (apply Qle_bool_imp_le; vm_compute; reflexivity).
  assert (HA : (0 <= Qabs q * dyadic 1 (-53))%Q) by (apply Qmult_le_0_compat; [apply Qabs_nonneg|exact P53]).
  destruct q as [n dd]. destruct (round_double_finite_inv _ x H) as [[Hn ->]|[Hn [-> _]]]; cbn [Qnum Qden] in *.
  - subst n. unfold Qle, Qabs, Qminus, Qplus, Qopp, Qmult, dyadic in *. cbn [Qnum Qden] in *. nia.
  - pose proof (signed_dist n dd) as D. cbn zeta in D.
    set (E := double_exp (Z.abs n) (Zpos dd)) in *. set (X := dyadic _ E) in *.
    rewrite Qabs_Qminus.
    destruct (binary_exp_spec (Z.abs n) (Zpos dd) ltac:(lia) ltac:(lia)) as [Hlo _].
    unfold E, double_exp in D |- *. set (B := binary_exp _ _) in *.
    destruct (Z.max_spec (B - 52) (-1074)) as [[_ M]|[_ M]]; rewrite M in D.
    + assert (F : (2 * dyadic 1 (-1075) == dyadic 1 (-1074))%Q) by (vm_compute; reflexivity).
      rewrite <- F in D. apply Qmult_le_l in D; [|reflexivity]. lra.
    + assert (F1 : (dyadic 1 B <= Qabs (n # dd))%Q).
      { unfold below in Hlo. unfold Qle, Qabs, dyadic. cbn [Qnum Qden].
        rewrite Z2Pos.id by apply pow2_max_pos. lia. }
      assert (F2 : (dyadic 1 (B - 52) == dyadic 1 B * (2 * dyadic 1 (-53)))%Q).
      { assert (G : (2 * dyadic 1 (-53) == dyadic 1 (-52))%Q) by (vm_compute; reflexivity).
        rewrite G, dyadic_mul. reflexivity. }
      rewrite F2 in D.
      assert (F3 : (dyadic 1 B * (2 * dyadic 1 (-53)) <= Qabs (n # dd) * (2 * dyadic 1 (-53)))%Q)
        by (apply Qmult_le_compat_r; [exact F1|lra]).
      lra.
Qed.

Open Scope Q_scope.



(** ** Operations *)

(** [-x] *)
Definition float_neg (x : pyfloat) : pyfloat :=
  match x with
  | PFinite a => PFinite (- a)
  | PInf s => PInf (negb s)
  | PNaN => PNaN
  end.

(** [x + y]: [inf + -inf] is NaN. *)
Definition float_add (x y : pyfloat) : pyfloat :=
  match x, y with
  | PNaN, _ | _, PNaN => PNaN
  | PInf s, PInf t => if Bool.eqb s t then PInf s else PNaN
  | PInf s, PFinite _ | PFinite _, PInf s => PInf s
  | PFinite a, PFinite b => round_double (a + b)
  end.

(** [x - y] is [x + (-y)] in IEEE 754. *)
Definition float_sub (x y : pyfloat) : pyfloat := float_add x (float_neg y).

(** [x / y] ([float_div] of [floatobject.c]): a zero divisor raises
    [ZeroDivisionError], whatever the dividend; a finite number divided
    by an infinity is zero. *)
Definition float_div (x y : pyfloat) : result PyExn pyfloat :=
  match y with
  | PFinite b =>
      if Qeq_bool b 0 then Err ZeroDivisionError
      else Ok (match x with
               | PFinite a => round_double (a / b)
               | PInf s => PInf (xorb s (qltb b 0))
               | PNaN => PNaN
               end)
  | PInf _ => Ok (match x with PFinite _ => PFinite 0 | _ => PNaN end)
  | PNaN => Ok PNaN
  end.

(** ** Lemmas *)

(** [x <= y] for some [y]: [x] is not NaN. *)
Definition not_nan (x : pyfloat) : Prop := match x with PNaN => False | _ => True end.

Lemma float_le_refl (x : pyfloat) : not_nan x -> float_le x x.
Proof. destruct x as [a|[]|]; cbn; intros; try tauto. apply Qle_refl. Qed.

Lemma float_le_not_nan_l (x y : pyfloat) : float_le x y -> not_nan x.
Proof. destruct x as [a|[]|], y as [b|[]|]; cbn; tauto. Qed.

Lemma float_le_not_nan_r (x y : pyfloat) : float_le x y -> not_nan y.
Proof. destruct x as [a|[]|], y as [b|[]|]; cbn; tauto. Qed.

Lemma round_double_not_nan (q : Q) : not_nan (round_double q).
Proof. unfold round_double. destruct (_ =? _)%Z; [exact I|]. destruct (_ <=? _)%Z; exact I. Qed.

(** Python's [x < y] on floats ([float_richcompare]): false as soon as
    one side is NaN, [-inf] below and [inf] above every other value. *)
Definition float_lt (x y : pyfloat) : bool :=
  match x, y with
  | PNaN, _ | _, PNaN => false
  | PInf false, _ | _, PInf true => false
  | PInf true, _ | _, PInf false => true
  | PFinite a, PFinite b => qltb a b
  end.

(** Without NaN, [<] is the strict order of the extended reals: it is
    the negation of the converse [<=], transitive, and [a < c] puts
    every [b] above [a] or below [c]. *)
Lemma float_lt_false (x y : pyfloat) : not_nan x -> not_nan y -> float_lt x y = false <-> float_le y x.
Proof.
  destruct x as [a|[]|], y as [b|[]|]; cbn; intros Nx Ny; try tauto; try (split; intros; (congruence || tauto)).
  rewrite <- not_true_iff_false, qltb_true. split; [apply Qnot_lt_le|apply Qle_not_lt].
Qed.

Lemma float_lt_trans (x y z : pyfloat) : float_lt x y = true -> float_lt y z = true -> float_lt x z = true.
Proof.
  destruct x as [a|[]|], y as [b|[]|], z as [c|[]|]; cbn; try congruence.
  rewrite !qltb_true. apply Qlt_trans.
Qed.

Lemma float_lt_weak (x y z : pyfloat) : not_nan y -> float_lt x z = true ->
  float_lt x y = true \/ float_lt y z = true.
Proof.
  destruct x as [a|[]|], y as [b|[]|], z as [c|[]|]; cbn; try tauto; try (intros; now left); try (intros; now right).
  rewrite !qltb_true. intros _ H. destruct (Qlt_le_dec a b); [now left|right; eapply Qle_lt_trans; eauto].
Qed.

(** Negation reverses [<] ([-x] is exact). *)
Lemma float_lt_neg (x y : pyfloat) : float_lt (float_neg x) (float_neg y) = float_lt y x.
Proof.
  destruct x as [a|[]|], y as [b|[]|]; cbn; try reflexivity.
  apply eq_iff_eq_true. rewrite !qltb_true. split; intros; lra.
Qed.

Lemma float_le_neg (x y : pyfloat) : float_le (float_neg x) (float_neg y) <-> float_le y x.
Proof. destruct x as [a|[]|], y as [b|[]|]; cbn; try tauto. split; intros; lra. Qed.

Lemma float_neg_not_nan (x : pyfloat) : not_nan x -> not_nan (float_neg x).
Proof. destruct x; cbn; tauto. Qed.

(** Case analysis on a rounding in the goal. *)
Ltac destr_round :=
  match goal with
  | |- context [round_double ?q] => pose proof (round_double_not_nan q); destruct (round_double q) as [?|[]|]
  end.

(** Adding a finite number is monotone. *)
Lemma float_add_mono_l (x1 x2 : pyfloat) (c : Q) : float_le x1 x2 ->
  float_le (float_add x1 (PFinite c)) (float_add x2 (PFinite c)).
Proof.
  intros H. pose proof (float_le_not_nan_r _ _ H) as N2.
  destruct x1 as [a|[]|], x2 as [b|[]|]; cbn in H |- *; try tauto;
    first [ apply round_double_mono, Qplus_le_l, H | destr_round; cbn; tauto ].
Qed.

Lemma float_sub_mono_l (x1 x2 : pyfloat) (c : Q) : float_le x1 x2 ->
  float_le (float_sub x1 (PFinite c)) (float_sub x2 (PFinite c)).
Proof. apply float_add_mono_l. Qed.

(** Dividing by a positive number is monotone, and never raises. *)
Lemma float_div_pos_mono (x1 x2 : pyfloat) (d : Q) : 0 < d -> float_le x1 x2 ->
  exists y1 y2, float_div x1 (PFinite d) = Ok y1 /\ float_div x2 (PFinite d) = Ok y2 /\ float_le y1 y2.
Proof.
  intros Hd H. unfold float_div.
  replace (Qeq_bool d 0) with false
    by (symmetry; apply not_true_iff_false; intros E; apply Qeq_bool_eq in E; rewrite E in Hd;
        exact (Qlt_irrefl 0 Hd)).
  replace (qltb d 0) with false
    by (symmetry; apply not_true_iff_false; rewrite qltb_true; intros E;
        exact (Qlt_irrefl 0 (Qlt_trans _ _ _ Hd E))).
  eexists _, _. split; [reflexivity|]. split; [reflexivity|].
  destruct x1 as [a|[]|], x2 as [b|[]|]; cbn in H |- *; try tauto;
    first [ apply round_double_mono, Qmult_le_r; [now apply Qinv_lt_0_compat|exact H]
          | destr_round; cbn; tauto ].
Qed.

Lemma float_between (x : pyfloat) (lo hi : Q) : float_le (PFinite lo) x -> float_le x (PFinite hi) ->
  exists v, x = PFinite v /\ lo <= v <= hi.
Proof. destruct x as [v|[]|]; cbn; intros; try tauto. eauto. Qed.

(** A rounding between two roundings that are finite. *)
Lemma round_double_range (q lo hi lo' hi' : Q) : lo <= q -> q <= hi ->
  round_double lo = PFinite lo' -> round_double hi = PFinite hi' ->
  exists v, round_double q = PFinite v /\ lo' <= v <= hi'.
Proof.
  intros H1 H2 E1 E2. apply float_between.
  - rewrite <- E1. exact (round_double_mono _ _ H1).
  - rewrite <- E2. exact (round_double_mono _ _ H2).
Qed.

(** Rounding [x + c] for a double [x] and [c >= 0] gives at least [x]. *)
Lemma round_double_add_ge (x c : Q) : is_double (PFinite x) -> 0 <= c ->
  float_le (PFinite x) (round_double (x + c)).
Proof.
  intros Hx Hc. destruct (round_double_double x Hx) as (y & Ey & Qy).
  apply (float_le_trans _ (PFinite y)); [cbn; rewrite Qy; apply Qle_refl|].
  rewrite <- Ey. apply round_double_mono.
  rewrite <- (Qplus_0_r x) at 1. now apply Qplus_le_r.
Qed.

Lemma float_div_pos (a d : Q) : 0 < d -> float_div (PFinite a) (PFinite d) = Ok (round_double (a / d)).
Proof.
  intros Hd. unfold float_div.
  replace (Qeq_bool d 0) with false; [reflexivity|].
  symmetry. apply not_true_iff_false. intros E. apply Qeq_bool_eq in E. rewrite E in Hd.
  exact (Qlt_irrefl 0 Hd).
Qed.

(** Adding [c >= 0] to a rounding in [[0, hi]], or not adding it, stays
    in [[0, hi']] when [hi + c] rounds to [hi' >= hi]. *)
Lemma add_bonus_bound (cond : bool) (s c hi hi' : Q) : 0 <= s <= hi -> 0 <= c ->
  round_double (hi + c) = PFinite hi' -> hi <= hi' ->
  exists s', (if cond then float_add (PFinite s) (PFinite c) else PFinite s) = PFinite s' /\ 0 <= s' <= hi'.
Proof.
  intros [Hs0 Hs1] Hc Ehi Hle. destruct cond; [|exists s; split; [reflexivity|split; [exact Hs0|exact (Qle_trans _ _ _ Hs1 Hle)]]].
  cbn [float_add]. apply (round_double_range _ 0 (hi + c)).
  - rewrite <- (Qplus_0_l 0). apply Qplus_le_compat; assumption.
  - apply (proj2 (Qplus_le_l _ _ _)), Hs1.
  - reflexivity.
  - exact Ehi.
Qed.

(** A quotient whose numerator and denominator are within [k] of [A]
    and [c] (relative to [c]) is within [4 k] of [A / c]. *)
Lemma quot_near (a A D c k : Q) : 0 < c -> 0 <= A <= c -> 0 <= k <= 1 # 4 ->
  Qabs (a - A) <= k * c -> Qabs (D - c) <= k * c -> Qabs (a / D - A / c) <= 4 * k.
Proof.
  intros Hc HA Hk Ha HD.
  apply Qabs_Qle_condition in Ha as [Ha1 Ha2]. apply Qabs_Qle_condition in HD as [HD1 HD2].
  assert (Hkc : 0 <= k * c) by (apply Qmult_le_0_compat; lra).
  assert (HDp : (3 # 4) * c <= D) by nra.
  assert (HcD : 0 < c * D) by (apply Qmult_lt_0_compat; lra).
  assert (Ex : D * (a / D) == a) by (field; intro E; rewrite E in HDp; lra).
  assert (Ey : c * (A / c) == A) by (field; intro E; rewrite E in Hc; discriminate).
  set (X := a / D) in *. set (Y := A / c) in *. clearbody X Y.
  assert (P1 : c * D * (X - Y) == c * (a - A) - A * (D - c)) by (rewrite <- Ex, <- Ey; ring).
  assert (P2 : c * (a - A) <= c * (k * c)) by (apply Qmult_le_l; lra).
  assert (P2' : c * (- (k * c)) <= c * (a - A)) by (apply Qmult_le_l; lra).
  assert (P3 : A * (- (D - c)) <= A * (k * c)) by (rewrite !(Qmult_comm A); apply Qmult_le_compat_r; lra).
  assert (P3' : A * (- (k * c)) <= A * (- (D - c))) by (rewrite !(Qmult_comm A); apply Qmult_le_compat_r; lra).
  assert (P4 : A * (k * c) <= c * (k * c)) by (apply Qmult_le_compat_r; lra).
  assert (P5 : 2 * (c * (k * c)) <= c * D * (4 * k)) by nra.
  apply Qabs_Qle_condition. split.
  - apply (Qmult_le_l _ _ (c * D)); [exact HcD|]. lra.
  - apply (Qmult_le_l _ _ (c * D)); [exact HcD|]. lra.
Qed.

(** [2^-53] and a bound of [2^-1075], as literals that [lra] reads. *)
Definition u53 : Q := 1 # 9007199254740992.
Definition eta100 : Q := 1 # 1267650600228229401496703205376.

(** [round_double_error] with literal constants. *)
Lemma near_round (q x : Q) : round_double q = PFinite x -> Qabs (x - q) <= Qabs q * u53 + eta100.
Proof.
  intros H. apply round_double_error in H.
  assert (E : dyadic 1 (-53) == u53) by (vm_compute; reflexivity).
  assert (F : dyadic 1 (-1075) <= eta100) by (apply Qle_bool_imp_le; vm_compute; reflexivity).
  rewrite E in H. lra.
Qed.
