(* ===== verification/JsonDump.v ===== *)
(** * [json.dump(output_data, f, indent=2)] (main.py, line 153)

    With an [indent], [json.dump] runs the pure-Python encoder
    [_make_iterencode] of CPython's [json/encoder.py] with the default
    options: separators [","] and [": "], [ensure_ascii=True] (strings
    through [py_encode_basestring_ascii]), [allow_nan=True] (floats
    through [floatstr]), keys in insertion order.  [json_dump] is the
    concatenation of the chunks it yields.  [repr] of a finite float is
    the parameter [float_repr]. *)

From S2P Require Import Prelude PyText Json.
Close Scope Q_scope.
Local Open Scope N_scope.

(** ** Strings: [py_encode_basestring_ascii] *)

(** A digit of ['{0:04x}'], lower case. *)
Definition hex_digit (n : N) : char := if n <? 10 then 48 + n else 87 + n.

(** ['{0:04x}'.format(n)] for [n < 0x10000]. *)
Definition hex4 (n : N) : text :=
  map (fun k => hex_digit ((n / 16 ^ k) mod 16)) [3; 2; 1; 0].

Definition u_escape (n : N) : text := [92; 117] ++ hex4 n.

(** [replace] of [ESCAPE_ASCII.sub]: [ESCAPE_DCT] for the quote, the
    backslash and the controls, the character itself in [' '..'~'],
    [\uXXXX] below [0x10000], a surrogate pair above. *)
Definition escape_char (c : char) : text :=
  if c =? 34 then [92; 34]
  else if c =? 92 then [92; 92]
  else if (32 <=? c) && (c <=? 126) then [c]
  else if c =? 8 then [92; 98]
  else if c =? 12 then [92; 102]
  else if c =? 10 then [92; 110]
  else if c =? 13 then [92; 114]
  else if c =? 9 then [92; 116]
  else if c <? 65536 then u_escape c
  else let n := c - 65536 in
       u_escape (N.lor 55296 (N.land (N.shiftr n 10) 1023)) ++
       u_escape (N.lor 56320 (N.land n 1023)).

Definition encode_basestring_ascii (s : text) : text :=
  [34] ++ flat_map escape_char s ++ [34].

(** ** Numbers *)

(** The decimal digits of a [Decimal.uint]. *)
Fixpoint uint_text (d : Decimal.uint) : text :=
  match d with
  | Decimal.Nil => []
  | Decimal.D0 d => 48 :: uint_text d
  | Decimal.D1 d => 49 :: uint_text d
  | Decimal.D2 d => 50 :: uint_text d
  | Decimal.D3 d => 51 :: uint_text d
  | Decimal.D4 d => 52 :: uint_text d
  | Decimal.D5 d => 53 :: uint_text d
  | Decimal.D6 d => 54 :: uint_text d
  | Decimal.D7 d => 55 :: uint_text d
  | Decimal.D8 d => 56 :: uint_text d
  | Decimal.D9 d => 57 :: uint_text d
  end.

(** [int.__repr__]. *)
Definition int_repr (z : Z) : text :=
  match z with
  | Z0 => [48]
  | Zpos p => uint_text (N.to_uint (Npos p))
  | Zneg p => 45 :: uint_text (N.to_uint (Npos p))
  end.

(** [floatstr] with [allow_nan=True]. *)
Definition float_str (float_repr : Q -> text) (f : pyfloat) : text :=
  match f with
  | PNaN => ‹"NaN"›
  | PInf false => ‹"Infinity"›
  | PInf true => ‹"-Infinity"›
  | PFinite q => float_repr q
  end.

(** ** [_iterencode] with [indent=2] *)

(** ['\n' + _indent * _current_indent_level]. *)
Definition newline_indent (lvl : nat) : text := NEWLINE :: repeat SPACE (2 * lvl).

Section Dump.
Variable float_repr : Q -> text.

(** [_iterencode(o, _current_indent_level)]: a list or a dict is
    written one item per line, one level deeper, with the closing
    bracket on a line of its own; empty ones are [[]] and [{}]. *)
Fixpoint dump (lvl : nat) (v : json) {struct v} : text :=
  match v with
  | JNull => ‹"null"›
  | JBool true => ‹"true"›
  | JBool false => ‹"false"›
  | JInt z => int_repr z
  | JFloat f => float_str float_repr f
  | JStr s => encode_basestring_ascii s
  | JArr [] => ‹"[]"›
  | JArr xs =>
      [91] ++ newline_indent (S lvl) ++
      py_join ([44] ++ newline_indent (S lvl)) (map (dump (S lvl)) xs) ++
      newline_indent lvl ++ [93]
  | JObj [] => ‹"{}"›
  | JObj kvs =>
      [123] ++ newline_indent (S lvl) ++
      py_join ([44] ++ newline_indent (S lvl))
        (map (fun '(k, w) => encode_basestring_ascii k ++ ‹": "› ++ dump (S lvl) w) kvs) ++
      newline_indent lvl ++ [125]
  end.

(** The text [json.dump] writes. *)
Definition json_dump (v : json) : text := dump 0 v.

End Dump.
