(* ===== verification/JsonLoad.v ===== *)
(** * [json.load(f)] (main.py, line 112)

    [json.load] reads the file and calls [json.loads], which runs
    [JSONDecoder.decode] with CPython's C scanner ([Modules/_json.c]):
    [scan_value] is [scan_once_unicode], [scan_string] is
    [scanstring_unicode] in strict mode, [scan_number] is
    [_match_number_unicode], [scan_elements] and [scan_members] are the
    loops of [_parse_array_unicode] and [_parse_object_unicode].  Every
    error it raises is [JSONDecodeError]; the message and position are
    not modelled.  The scanner recurses on the remaining text, not on a
    structure: it takes fuel, and [NoFuel] is the outcome that the
    termination theorem shows never happens with the fuel [json_loads]
    gives it. *)

From S2P Require Import Prelude PyText Json Float.
Close Scope Q_scope.
Local Open Scope N_scope.

(** The outcome of a scan: a value and the text after it, an error, or
    fuel exhausted. *)
Inductive scan (A : Type) :=
| Scanned (a : A) (rest : text)
| Invalid
| NoFuel.
Arguments Scanned {A} a rest.
Arguments Invalid {A}.
Arguments NoFuel {A}.

(** [WHITESPACE = r'[ \t\n\r]*'] *)
Definition is_ws (c : char) : bool := (c =? 32) || (c =? 9) || (c =? 10) || (c =? 13).

Fixpoint skip_ws (s : text) : text :=
  match s with
  | c :: r => if is_ws c then skip_ws r else s
  | [] => []
  end.

Definition is_digit (c : char) : bool := (48 <=? c) && (c <=? 57).

(** The text after the character [c], when the text starts with it. *)
Definition eat (c : char) (s : text) : option text :=
  match s with
  | d :: r => if d =? c then Some r else None
  | [] => None
  end.

(** ** Strings *)

Definition hex_val (c : char) : option N :=
  if is_digit c then Some (c - 48)
  else if (97 <=? c) && (c <=? 102) then Some (c - 87)
  else if (65 <=? c) && (c <=? 70) then Some (c - 55)
  else None.

(** The four hex digits of a [\uXXXX] escape. *)
Definition hex4_val (a b c d : char) : option N :=
  match hex_val a, hex_val b, hex_val c, hex_val d with
  | Some a, Some b, Some c, Some d => Some (((a * 16 + b) * 16 + c) * 16 + d)
  | _, _, _, _ => None
  end.

Definition is_high_surrogate (u : N) : bool := (55296 <=? u) && (u <=? 56319).
Definition is_low_surrogate (u : N) : bool := (56320 <=? u) && (u <=? 57343).

(** [Py_UNICODE_JOIN_SURROGATES]. *)
Definition join_surrogates (hi lo : N) : N := 65536 + N.lor (N.shiftl (hi - 55296) 10) (lo - 56320).

(** The one-character escapes: quote, backslash, slash, [b], [f], [n], [r], [t]. *)
Definition simple_escape (e : char) : option char :=
  if e =? 34 then Some 34
  else if e =? 92 then Some 92
  else if e =? 47 then Some 47
  else if e =? 98 then Some 8
  else if e =? 102 then Some 12
  else if e =? 110 then Some 10
  else if e =? 114 then Some 13
  else if e =? 116 then Some 9
  else None.

Definition cons_fst (c : char) (r : option (text * text)) : option (text * text) :=
  option_map (fun '(t, rest) => (c :: t, rest)) r.

(** [scanstring_unicode(s, end, strict=1)], after the opening quote:
    the decoded characters and the text after the closing quote.  A
    high surrogate escape followed by a low surrogate escape is one
    character. *)
Fixpoint scan_string (s : text) : option (text * text) :=
  match s with
  | [] => None
  | c :: r =>
      if c =? 34 then Some ([], r)
      else if c =? 92 then
        match r with
        | e :: r0 =>
            if e =? 117 then
              match r0 with
              | a :: b :: c' :: d :: r' =>
                  match hex4_val a b c' d with
                  | None => None
                  | Some u =>
                      if is_high_surrogate u then
                        match r' with
                        | x :: y :: a2 :: b2 :: c2 :: d2 :: r'' =>
                            if (x =? 92) && (y =? 117) then
                              match hex4_val a2 b2 c2 d2 with
                              | None => None
                              | Some u2 =>
                                  if is_low_surrogate u2
                                  then cons_fst (join_surrogates u u2) (scan_string r'')
                                  else cons_fst u (scan_string r')
                              end
                            else cons_fst u (scan_string r')
                        | _ => cons_fst u (scan_string r')
                        end
                      else cons_fst u (scan_string r')
                  end
              | _ => None
              end
            else match simple_escape e with
                 | Some ch => cons_fst ch (scan_string r0)
                 | None => None
                 end
        | [] => None
        end
      else if c <? 32 then None
      else cons_fst c (scan_string r)
  end.

(** ** Numbers *)

(** The longest prefix of digits, and the rest. *)
Fixpoint span_digits (s : text) : text * text :=
  match s with
  | c :: r => if is_digit c then let (ds, rest) := span_digits r in (c :: ds, rest) else ([], s)
  | [] => ([], [])
  end.

Fixpoint text_uint (ds : text) : Decimal.uint :=
  match ds with
  | [] => Decimal.Nil
  | c :: r =>
      let d := text_uint r in
      match c - 48 with
      | 0 => Decimal.D0 d | 1 => Decimal.D1 d | 2 => Decimal.D2 d | 3 => Decimal.D3 d
      | 4 => Decimal.D4 d | 5 => Decimal.D5 d | 6 => Decimal.D6 d | 7 => Decimal.D7 d
      | 8 => Decimal.D8 d | _ => Decimal.D9 d
      end
  end.

(** The value of a string of decimal digits, as [int(s)] reads it. *)
Definition digits_value (ds : text) : N := N.of_uint (text_uint ds).

(** The integer part: ["0"] or a non-zero digit and all the digits
    after it. *)
Definition scan_int_part (s : text) : option (text * text) :=
  match s with
  | c :: r =>
      if c =? 48 then Some ([48], r)
      else if (49 <=? c) && (c <=? 57) then let (ds, rest) := span_digits r in Some (c :: ds, rest)
      else None
  | [] => None
  end.

(** The fraction: a dot followed by at least one digit, else nothing. *)
Definition scan_frac (s : text) : text * text :=
  match s with
  | x :: d :: r => if (x =? 46) && is_digit d then span_digits (d :: r) else ([], s)
  | _ => ([], s)
  end.

(** The exponent: [e] or [E], a sign, at least one digit; otherwise
    the scanner backtracks to before the [e]. *)
Definition scan_exp (s : text) : option (bool * text) * text :=
  match s with
  | e :: r =>
      if (e =? 101) || (e =? 69) then
        let '(neg, r1) := match r with
                          | x :: r1 => if x =? 45 then (true, r1)
                                       else if x =? 43 then (false, r1) else (false, r)
                          | [] => (false, r)
                          end in
        match span_digits r1 with
        | ([], _) => (None, s)
        | (ds, rest) => (Some (neg, ds), rest)
        end
      else (None, s)
  | [] => (None, s)
  end.

(** The exact value of the numeral [sign int.frac e exp]; [float] of it
    is [round_double] of this value. *)
Definition float_value (neg : bool) (ip fp : text) (exp : option (bool * text)) : Q :=
  let m := Z.of_N (digits_value (ip ++ fp)) in
  let e := match exp with
           | Some (eneg, ds) => if eneg then (- Z.of_N (digits_value ds))%Z else Z.of_N (digits_value ds)
           | None => 0%Z
           end in
  let q := (inject_Z m * Qpower 10 (e - Z.of_nat (length fp)))%Q in
  if neg then (- q)%Q else q.

(** [_match_number_unicode]: an [int] without fraction and exponent, a
    [float] otherwise. *)
Definition scan_number (s : text) : option (json * text) :=
  let '(neg, s1) := match s with x :: r => if x =? 45 then (true, r) else (false, s)
                                | [] => (false, s) end in
  match scan_int_part s1 with
  | None => None
  | Some (ip, r1) =>
      let (fp, r2) := scan_frac r1 in
      let (exp, r3) := scan_exp r2 in
      match fp, exp with
      | [], None =>
          let n := Z.of_N (digits_value ip) in Some (JInt (if neg then (- n)%Z else n), r3)
      | _, _ => Some (JFloat (round_double (float_value neg ip fp exp)), r3)
      end
  end.

(** ** Values *)

(** [dict(pairs)]: a repeated key keeps its first position and takes
    the last value. *)
Fixpoint dict_set (k : text) (v : json) (kvs : list (text * json)) : list (text * json) :=
  match kvs with
  | [] => [(k, v)]
  | (k', w) :: r => if text_eqb k' k then (k', v) :: r else (k', w) :: dict_set k v r
  end.

Definition dict_of_pairs (pairs : list (text * json)) : list (text * json) :=
  fold_left (fun d '(k, v) => dict_set k v d) pairs [].

(** [scan_once_unicode]: the named constants by their first character,
    then a number. *)
Fixpoint scan_value (fuel : nat) (s : text) {struct fuel} : scan json :=
  match fuel with
  | O => NoFuel
  | S f =>
      match s with
      | [] => Invalid
      | c :: r =>
          if c =? 34 then
            match scan_string r with Some (t, r') => Scanned (JStr t) r' | None => Invalid end
          else if c =? 123 then
            match eat 125 (skip_ws r) with
            | Some r' => Scanned (JObj []) r'
            | None => match eat 34 (skip_ws r) with
                      | Some r' => scan_members f [] r'
                      | None => Invalid
                      end
            end
          else if c =? 91 then
            match eat 93 (skip_ws r) with
            | Some r' => Scanned (JArr []) r'
            | None => match scan_value f (skip_ws r) with
                      | Scanned v r'' => scan_elements f [v] r''
                      | Invalid => Invalid
                      | NoFuel => NoFuel
                      end
            end
          else if starts_with ‹"null"› s then Scanned JNull (skipn 4 s)
          else if starts_with ‹"true"› s then Scanned (JBool true) (skipn 4 s)
          else if starts_with ‹"false"› s then Scanned (JBool false) (skipn 5 s)
          else if starts_with ‹"NaN"› s then Scanned (JFloat PNaN) (skipn 3 s)
          else if starts_with ‹"Infinity"› s then Scanned (JFloat (PInf false)) (skipn 8 s)
          else if starts_with ‹"-Infinity"› s then Scanned (JFloat (PInf true)) (skipn 9 s)
          else match scan_number s with Some (v, r') => Scanned v r' | None => Invalid end
      end
  end

(** The loop of [_parse_array_unicode] after an item: [,] and the next
    item, or the closing bracket. *)
with scan_elements (fuel : nat) (acc : list json) (s : text) {struct fuel} : scan json :=
  match fuel with
  | O => NoFuel
  | S f =>
      match eat 93 (skip_ws s) with
      | Some r => Scanned (JArr (rev acc)) r
      | None =>
          match eat 44 (skip_ws s) with
          | Some r =>
              match scan_value f (skip_ws r) with
              | Scanned v r' => scan_elements f (v :: acc) r'
              | Invalid => Invalid
              | NoFuel => NoFuel
              end
          | None => Invalid
          end
      end
  end

(** The loop of [_parse_object_unicode], after the opening quote of a
    key: the key, [:], the value, then [,] and the next key or the
    closing brace. *)
with scan_members (fuel : nat) (acc : list (text * json)) (s : text) {struct fuel} : scan json :=
  match fuel with
  | O => NoFuel
  | S f =>
      match scan_string s with
      | None => Invalid
      | Some (k, r) =>
          match eat 58 (skip_ws r) with
          | None => Invalid
          | Some r' =>
              match scan_value f (skip_ws r') with
              | Scanned v r'' =>
                  match eat 125 (skip_ws r'') with
                  | Some r3 => Scanned (JObj (dict_of_pairs (rev ((k, v) :: acc)))) r3
                  | None =>
                      match eat 44 (skip_ws r'') with
                      | Some r3 =>
                          match eat 34 (skip_ws r3) with
                          | Some r4 => scan_members f ((k, v) :: acc) r4
                          | None => Invalid
                          end
                      | None => Invalid
                      end
                  end
              | Invalid => Invalid
              | NoFuel => NoFuel
              end
          end
      end
  end.

(** [json.loads(s)]: a leading byte-order mark is refused, white space
    around the value is skipped, and anything else after it is "Extra
    data". *)
Definition json_loads (s : text) : result PyExn json :=
  if starts_with [65279] s then Err JSONDecodeError
  else match scan_value (S (length s)) (skip_ws s) with
       | Scanned v r => match skip_ws r with [] => Ok v | _ => Err JSONDecodeError end
       | _ => Err JSONDecodeError
       end.

(** ** Termination *)

(** Case analysis on the first [match] or [if] of hypothesis [H]. *)
Ltac destr_in H :=
  match type of H with
  | context [match ?x with _ => _ end] => destruct x eqn:?
  end.

Lemma skip_ws_length (s : text) : (length (skip_ws s) <= length s)%nat.
Proof. induction s as [|c s IH]; simpl; [lia|]. destruct (is_ws c); simpl; lia. Qed.

Lemma eat_length (c : char) (s r : text) : eat c s = Some r -> (length r < length s)%nat.
Proof. destruct s as [|d s]; simpl; [discriminate|]. destruct (d =? c); intros E; [injection E as <-; lia|discriminate]. Qed.

Lemma cons_fst_some (c : char) (o : option (text * text)) (t r : text) :
  cons_fst c o = Some (t, r) -> exists t', o = Some (t', r).
Proof. destruct o as [[t' r']|]; simpl; [intros E; injection E as _ ->; eauto|discriminate]. Qed.

Lemma scan_string_length (s t r : text) :
  scan_string s = Some (t, r) -> (length r < length s)%nat.
Proof.
  remember (length s) as n eqn:En. revert s t r En.
  induction n as [n IH] using lt_wf_ind. intros s t r En Hs.
  destruct s as [|c s0]; simpl in Hs; [discriminate|].
  repeat (destr_in Hs; try discriminate);
    try (injection Hs as _ <-; simpl in *; lia);
    apply cons_fst_some in Hs as (t' & Hs); eapply IH in Hs; simpl in *; try reflexivity; lia.
Qed.

Lemma span_digits_length (s ds r : text) :
  span_digits s = (ds, r) -> length s = (length ds + length r)%nat.
Proof.
  revert ds r. induction s as [|c s IH]; intros ds r; simpl; [intros E; injection E as <- <-; reflexivity|].
  destruct (is_digit c); [|intros E; injection E as <- <-; reflexivity].
  destruct (span_digits s) as [ds' r'] eqn:E'. intros E; injection E as <- <-.
  simpl. rewrite (IH _ _ eq_refl). reflexivity.
Qed.

Lemma scan_int_part_length (s ip r : text) :
  scan_int_part s = Some (ip, r) -> (length r < length s)%nat.
Proof.
  unfold scan_int_part. destruct s as [|c s]; [discriminate|].
  destruct (c =? 48); [intros E; injection E as _ <-; simpl; lia|].
  destruct ((49 <=? c) && (c <=? 57)); [|discriminate].
  destruct (span_digits s) as [ds rest] eqn:E; intros E'; injection E' as _ <-.
  apply span_digits_length in E. simpl. lia.
Qed.

Lemma scan_frac_length (s : text) : (length (snd (scan_frac s)) <= length s)%nat.
Proof.
  unfold scan_frac. destruct s as [|x [|d r]]; simpl; try lia.
  destruct ((x =? 46) && is_digit d); simpl; [|lia].
  destruct (is_digit d); [|simpl; lia].
  destruct (span_digits r) as [ds rest] eqn:E. apply span_digits_length in E. simpl. lia.
Qed.

Lemma scan_exp_length (s : text) : (length (snd (scan_exp s)) <= length s)%nat.
Proof.
  unfold scan_exp. destruct s as [|e r]; simpl; [lia|].
  destruct ((e =? 101) || (e =? 69)); simpl; [|lia].
  assert (Hr : forall neg r1, (match r with [] => (false, r) | x :: r1 => if x =? 45 then (true, r1)
            else if x =? 43 then (false, r1) else (false, r) end) = (neg, r1) -> (length r1 <= length r)%nat).
  { intros neg r1. destruct r as [|x r]; [intros E; injection E as _ <-; lia|].
    destruct (x =? 45); [intros E; injection E as _ <-; simpl; lia|].
    destruct (x =? 43); intros E; injection E as _ <-; simpl; lia. }
  destruct (match r with [] => (false, r) | x :: r1 => if x =? 45 then (true, r1)
            else if x =? 43 then (false, r1) else (false, r) end) as [neg r1] eqn:E1.
  specialize (Hr _ _ eq_refl).
  destruct (span_digits r1) as [[|d ds] rest] eqn:E2; simpl; [lia|].
  apply span_digits_length in E2. simpl in E2. lia.
Qed.

Lemma scan_number_length (s : text) (v : json) (r : text) :
  scan_number s = Some (v, r) -> (length r < length s)%nat.
Proof.
  unfold scan_number. intros Hs.
  assert (Hneg : forall neg s1, (match s with x :: r0 => if x =? 45 then (true, r0) else (false, s)
            | [] => (false, s) end) = (neg, s1) -> (length s1 <= length s)%nat).
  { intros neg s1. destruct s as [|x r0]; [intros E; injection E as _ <-; lia|].
    destruct (x =? 45); intros E; injection E as _ <-; simpl; lia. }
  destruct (match s with x :: r0 => if x =? 45 then (true, r0) else (false, s)
            | [] => (false, s) end) as [neg s1] eqn:E1.
  specialize (Hneg _ _ eq_refl).
  destruct (scan_int_part s1) as [[ip r1]|] eqn:E2; [|discriminate].
  apply scan_int_part_length in E2.
  pose proof (scan_frac_length r1) as E3. destruct (scan_frac r1) as [fp r2].
  pose proof (scan_exp_length r2) as E4. destruct (scan_exp r2) as [exp r3].
  simpl in E3, E4. destruct fp, exp; injection Hs as _ <-; lia.
Qed.

Lemma starts_with_skipn (p s : text) :
  starts_with p s = true -> p <> [] -> (length (skipn (length p) s) < length s)%nat.
Proof.
  intros Hp Hne. rewrite length_skipn.
  assert (length p <= length s)%nat.
  { clear Hne. revert s Hp. induction p as [|a p IH]; intros [|b s] Hp; simpl in *; try lia; try discriminate.
    apply andb_true_iff in Hp as [_ Hp]. specialize (IH s Hp). lia. }
  destruct p; [congruence|simpl in *; lia].
Qed.

(** Turns the equations a case analysis of the scanner leaves into
    facts on lengths; [IHv], [IHe], [IHm] bound the recursive calls. *)
Ltac scan_lengths IHv IHe IHm :=
  repeat match goal with
  | H : scan_string _ = Some (_, _) |- _ => apply scan_string_length in H
  | H : eat _ _ = Some _ |- _ => apply eat_length in H
  | H : scan_number _ = Some (_, _) |- _ => apply scan_number_length in H
  | H : starts_with ?p _ = true |- _ =>
      apply starts_with_skipn in H; [|discriminate]; simpl length in H
  | H : Scanned _ _ = Scanned _ _ |- _ => injection H as _ <-
  | H : scan_value _ _ = Scanned _ _ |- _ => apply IHv in H
  | H : scan_elements _ _ _ = Scanned _ _ |- _ => apply IHe in H
  | H : scan_members _ _ _ = Scanned _ _ |- _ => apply IHm in H
  end;
  repeat match goal with
  | H : context [length (skip_ws ?x)] |- _ =>
      lazymatch goal with
      | _ : (length (skip_ws x) <= length x)%nat |- _ => fail
      | _ => pose proof (skip_ws_length x)
      end
  | |- context [length (skip_ws ?x)] =>
      lazymatch goal with
      | _ : (length (skip_ws x) <= length x)%nat |- _ => fail
      | _ => pose proof (skip_ws_length x)
      end
  end.

(** Every scan that succeeds consumes some of the text. *)
Lemma scan_length (f : nat) :
  (forall s v r, scan_value f s = Scanned v r -> (length r < length s)%nat) /\
  (forall acc s v r, scan_elements f acc s = Scanned v r -> (length r < length s)%nat) /\
  (forall acc s v r, scan_members f acc s = Scanned v r -> (length r < length s)%nat).
Proof.
  induction f as [|f (IHv & IHe & IHm)]; [repeat split; intros; discriminate|].
  repeat split.
  - intros s v r Hs. destruct s as [|c r0]; [discriminate|]. cbn [scan_value] in Hs.
    repeat (destr_in Hs; try discriminate); scan_lengths IHv IHe IHm; simpl in *; lia.
  - intros acc s v r Hs. cbn [scan_elements] in Hs.
    repeat (destr_in Hs; try discriminate); scan_lengths IHv IHe IHm; simpl in *; lia.
  - intros acc s v r Hs. cbn [scan_members] in Hs.
    repeat (destr_in Hs; try discriminate); scan_lengths IHv IHe IHm; simpl in *; lia.
Qed.

(** Fuel greater than the length of the text is never exhausted. *)
Lemma scan_fuel (f : nat) :
  (forall s, (length s < f)%nat -> scan_value f s <> NoFuel) /\
  (forall acc s, (length s < f)%nat -> scan_elements f acc s <> NoFuel) /\
  (forall acc s, (length s < f)%nat -> scan_members f acc s <> NoFuel).
Proof.
  induction f as [|f (IHv & IHe & IHm)]; [repeat split; intros; lia|].
  destruct (scan_length f) as (Lv & Le & Lm).
  repeat split; [intros s|intros acc s|intros acc s]; intros Hlen Hs;
    [destruct s as [|c r0]; [discriminate|]; cbn [scan_value] in Hs
    |cbn [scan_elements] in Hs|cbn [scan_members] in Hs];
    repeat (destr_in Hs; try discriminate);
    match goal with
    | H : scan_value _ _ = NoFuel |- _ => revert H; apply IHv
    | H : scan_elements _ _ _ = NoFuel |- _ => revert H; apply IHe
    | H : scan_members _ _ _ = NoFuel |- _ => revert H; apply IHm
    end; scan_lengths Lv Le Lm; simpl in *; lia.
Qed.

(** More fuel does not change a scan that did not run out of it. *)
Lemma scan_mono (f : nat) :
  (forall s res, scan_value f s = res -> res <> NoFuel ->
     forall f', (f <= f')%nat -> scan_value f' s = res) /\
  (forall acc s res, scan_elements f acc s = res -> res <> NoFuel ->
     forall f', (f <= f')%nat -> scan_elements f' acc s = res) /\
  (forall acc s res, scan_members f acc s = res -> res <> NoFuel ->
     forall f', (f <= f')%nat -> scan_members f' acc s = res).
Proof.
  induction f as [|f (IHv & IHe & IHm)]; [repeat split; intros; subst; simpl in *; congruence|].
  repeat split; [intros s|intros acc s|intros acc s]; intros res H Hres [|f'] Hle; try lia.
  all: assert (Hf : (f <= f')%nat) by lia.
  all: [> destruct s as [|c r0]; [exact H|]; cbn [scan_value] in H |- *
       | cbn [scan_elements] in H |- * | cbn [scan_members] in H |- *].
  all: repeat (destr_in H; try (subst; congruence)).
  all: repeat match goal with
         | E : scan_value ?g ?x = ?r |- context [scan_value ?g' ?x] =>
             assert_fails (constr_eq g g');
             rewrite (IHv x r E ltac:(discriminate) g' Hf)
         | E : ?x = _ |- context [?x] => rewrite E
         end.
  all: first [ reflexivity
             | exact (IHe _ _ _ H Hres f' Hf)
             | exact (IHm _ _ _ H Hres f' Hf) ].
Qed.

(** A scan with enough fuel gives the answer of any scan with more. *)
Lemma scan_value_enough (s : text) (f : nat) :
  (length s < f)%nat -> scan_value f s = scan_value (S (length s)) s.
Proof.
  intros Hf. destruct (scan_fuel (S (length s))) as (Hv & _).
  destruct (scan_mono (S (length s))) as (M & _).
  exact (M s _ eq_refl (Hv s ltac:(lia)) f ltac:(lia)).
Qed.

(** Termination: with more fuel than characters the scanner never runs
    out, and what it returns does not depend on the fuel.  So the fuel
    [json_loads] gives is enough, and each [JSONDecodeError] it returns
    is a rejection by the scanner. *)
Theorem scan_value_terminates (s : text) (f : nat) :
  (length s < f)%nat -> scan_value f s <> NoFuel /\ scan_value f s = scan_value (S (length s)) s.
Proof.
  intros Hf. split; [exact (proj1 (scan_fuel f) s Hf)|exact (scan_value_enough s f Hf)].
Qed.

(** The text [[1, {"a": null}]] scans with fuel 40. *)
Lemma scan_value_terminates_witness :
  let s := [91; 49; 44; 32; 123; 34; 97; 34; 58; 32] ++ ‹"null"› ++ [125; 93] in
  (length s < 40)%nat /\ scan_value 40 s <> NoFuel /\ scan_value 40 s = scan_value (S (length s)) s.
Proof.
  intros s. assert (H : (length s < 40)%nat) by (apply Nat.ltb_lt; reflexivity).
  split; [exact H|exact (scan_value_terminates s 40 H)].
Defined.

(** [json.loads] accepts a text when some scan of it, with any fuel,
    ends in white space. *)
Lemma json_loads_scanned (s : text) (f : nat) (v : json) (r : text) :
  starts_with [65279] s = false -> scan_value f (skip_ws s) = Scanned v r -> skip_ws r = [] ->
  json_loads s = Ok v.
Proof.
  intros Hbom Hs Hr. unfold json_loads. rewrite Hbom.
  assert (Hl : (length (skip_ws s) < S (length s))%nat) by (pose proof (skip_ws_length s); lia).
  destruct (scan_mono f) as (M & _).
  destruct (Nat.le_gt_cases f (S (length s))) as [Hle|Hgt].
  - rewrite (M _ _ Hs ltac:(discriminate) _ Hle), Hr. reflexivity.
  - rewrite (scan_value_enough _ (S (length s)) Hl), <- (scan_value_enough (skip_ws s) f ltac:(lia)), Hs, Hr.
    reflexivity.
Qed.

(** ** Every float [json.load] returns is a double *)

(** All the floats in a value are doubles ([Float.is_double]). *)
Fixpoint json_doubles (v : json) : Prop :=
  match v with
  | JFloat f => is_double f
  | JArr xs => (fix go (l : list json) : Prop :=
                  match l with [] => True | x :: r => json_doubles x /\ go r end) xs
  | JObj kvs => (fix go (l : list (text * json)) : Prop :=
                   match l with [] => True | (_, w) :: r => json_doubles w /\ go r end) kvs
  | _ => True
  end.

Lemma json_doubles_arr (xs : list json) : Forall json_doubles xs -> json_doubles (JArr xs).
Proof. induction 1; cbn; tauto. Qed.

Lemma json_doubles_obj (kvs : list (text * json)) :
  Forall (fun kv => json_doubles (snd kv)) kvs -> json_doubles (JObj kvs).
Proof. induction 1 as [|[k w]]; cbn in *; tauto. Qed.

Lemma dict_set_values (P : json -> Prop) (k : text) (v : json) (d : list (text * json)) :
  P v -> Forall (fun kv => P (snd kv)) d -> Forall (fun kv => P (snd kv)) (dict_set k v d).
Proof.
  intros Hv. induction 1 as [|[k' w] d Hw Hd IH]; cbn; [auto|].
  destruct (text_eqb k' k); constructor; auto.
Qed.

Lemma dict_of_pairs_values (P : json -> Prop) (pairs : list (text * json)) :
  Forall (fun kv => P (snd kv)) pairs -> Forall (fun kv => P (snd kv)) (dict_of_pairs pairs).
Proof.
  unfold dict_of_pairs. intros Hp.
  assert (Hd : Forall (fun kv => P (snd kv)) (@nil (text * json))) by constructor. revert Hd.
  generalize (@nil (text * json)) as d.
  induction Hp as [|[k v] pairs Hv _ IH]; intros d Hd; cbn; [exact Hd|].
  apply IH, dict_set_values; assumption.
Qed.

Lemma scan_number_doubles (s : text) (v : json) (r : text) :
  scan_number s = Some (v, r) -> json_doubles v.
Proof.
  unfold scan_number. intros H. repeat (destr_in H; try discriminate);
    injection H as <- _; first [exact I | apply round_double_is_double].
Qed.

Lemma scan_doubles (f : nat) :
  (forall s v r, scan_value f s = Scanned v r -> json_doubles v) /\
  (forall acc s v r, Forall json_doubles acc -> scan_elements f acc s = Scanned v r -> json_doubles v) /\
  (forall acc s v r, Forall (fun kv => json_doubles (snd kv)) acc ->
     scan_members f acc s = Scanned v r -> json_doubles v).
Proof.
  induction f as [|f (IHv & IHe & IHm)]; [repeat split; intros; discriminate|].
  repeat split; [intros s|intros acc s|intros acc s]; intros v r; [|intros Hacc..]; intros Hs;
    [destruct s as [|c r0]; [discriminate|]; cbn [scan_value] in Hs
    |cbn [scan_elements] in Hs|cbn [scan_members] in Hs];
    repeat (destr_in Hs; try discriminate).
  all: try (injection Hs as <- _).
  all: try match goal with H : scan_number _ = Some _ |- _ => exact (scan_number_doubles _ _ _ H) end.
  all: try exact I.
  all: try (apply json_doubles_arr; first [constructor | apply Forall_rev; assumption]).
  all: try (apply json_doubles_obj, dict_of_pairs_values, Forall_app;
            split; [apply Forall_rev; assumption|repeat constructor; eapply IHv; eassumption]).
  all: first [ eapply IHe; [|eassumption]; constructor; [eapply IHv|]; eauto
             | eapply IHm; [|eassumption]; constructor; [eapply IHv|]; eauto
             | eapply IHm; [constructor|eassumption]
             | eapply IHv; eassumption ].
Qed.

(** Every float of a value [json.load] returns is NaN, an infinity, or
    a double: [m * 2^e] with a 53-bit significand, an exponent not below
    the least subnormal's and a magnitude below [2^1024]. *)
Theorem json_loads_doubles (s : text) (v : json) : json_loads s = Ok v -> json_doubles v.
Proof.
  unfold json_loads. intros H. repeat (destr_in H; try discriminate).
  injection H as <-. exact (proj1 (scan_doubles _) _ _ _ Heqs0).
Qed.

(** [[0.1, 1e400]] loads as the double nearest to [0.1] and [inf]. *)
Lemma json_loads_doubles_witness :
  json_loads (‹"[0.1, 1e400]"›) =
    Ok (JArr [JFloat (PFinite (dyadic 7205759403792794 (-56))); JFloat (PInf false)]) /\
  json_doubles (JArr [JFloat (PFinite (dyadic 7205759403792794 (-56))); JFloat (PInf false)]).
Proof.
  assert (H : json_loads (‹"[0.1, 1e400]"›) =
    Ok (JArr [JFloat (PFinite (dyadic 7205759403792794 (-56))); JFloat (PInf false)]))
    by (vm_compute; reflexivity).
  split; [exact H|exact (json_loads_doubles _ _ H)].
Defined.
