(* ===== verification/JsonDict.v ===== *)
(** * The dicts [json.load] builds, and the shape of decoded values

    [_parse_object_unicode] collects the pairs of an object in order and
    returns [dict(pairs)]: [dict_of_pairs] of [JsonLoad].  A repeated
    key keeps the position of its first pair and the value of its last.
    This file shows that the dict so built has distinct keys and
    answers every subscript as the pairs do under [dict_lookup] (the
    last pair with the key wins), so the subscripts [main] applies to
    [input_data] (lines 114-119) read what the file says.  [wf_json]
    is the shape every decoded value has: each of its dicts has
    distinct keys. *)

From S2P Require Import Prelude PyText Json JsonLoad.
Close Scope Q_scope.
Local Open Scope N_scope.

(** No key occurs twice among the pairs: the items of a Python dict. *)
Fixpoint distinct_keys (kvs : list (text * json)) : bool :=
  match kvs with
  | [] => true
  | (k, _) :: r => negb (existsb (fun kv => text_eqb (fst kv) k) r) && distinct_keys r
  end.

(** Every dict of the value, at any depth, has distinct keys. *)
Fixpoint wf_json (v : json) : bool :=
  match v with
  | JArr xs => forallb wf_json xs
  | JObj kvs => distinct_keys kvs && forallb (fun kv => wf_json (snd kv)) kvs
  | _ => true
  end.

(** ** Keys *)

Lemma distinct_keys_cons (k : text) (v : json) (r : list (text * json)) :
  distinct_keys ((k, v) :: r) = true <-> ~ In k (map fst r) /\ distinct_keys r = true.
Proof.
  simpl. rewrite andb_true_iff, negb_true_iff. split; intros [H1 H2]; split; auto.
  - intros Hin. apply in_map_iff in Hin as ([k' w] & <- & Hin).
    assert (existsb (fun kv => text_eqb (fst kv) k') r = true) by
      (apply existsb_exists; exists (k', w); split; [exact Hin|apply text_eqb_refl]).
    simpl in H1. congruence.
  - apply not_true_iff_false. intros Hex. apply existsb_exists in Hex as ([k' w] & Hin & E).
    apply text_eqb_eq in E. simpl in E. subst. apply H1, in_map_iff. exists (k, w). auto.
Qed.

Lemma dict_set_new (k : text) (v : json) (d : list (text * json)) :
  ~ In k (map fst d) -> dict_set k v d = d ++ [(k, v)].
Proof.
  induction d as [|[k' w] d IH]; simpl; intros Hk; [reflexivity|].
  text_case k' k; [tauto|]. rewrite IH by tauto. reflexivity.
Qed.

(** [d[k] = v] adds [k] to the keys, and nothing else. *)
Lemma dict_set_keys (k k' : text) (v : json) (d : list (text * json)) :
  In k' (map fst (dict_set k v d)) <-> k' = k \/ In k' (map fst d).
Proof.
  induction d as [|[k0 w] d IH]; simpl; [intuition congruence|].
  text_case k0 k; simpl; [intuition congruence|]. rewrite IH. tauto.
Qed.

Lemma dict_set_distinct (k : text) (v : json) (d : list (text * json)) :
  distinct_keys d = true -> distinct_keys (dict_set k v d) = true.
Proof.
  induction d as [|[k0 w] d IH]; simpl dict_set; intros Hd; [reflexivity|].
  apply distinct_keys_cons in Hd as [Hk0 Hd].
  text_case k0 k; apply distinct_keys_cons; split; auto.
  rewrite dict_set_keys. intros [->|Hin]; [congruence|contradiction].
Qed.

(** [d[k] = v] then [d[k']]: [v] when the keys are equal, the old
    value otherwise. *)
Lemma dict_lookup_set (k k' : text) (v : json) (d : list (text * json)) :
  distinct_keys d = true ->
  dict_lookup k' (dict_set k v d) = if text_eqb k k' then Some v else dict_lookup k' d.
Proof.
  induction d as [|[k0 w] d IH]; intros Hd; simpl dict_set.
  - simpl. destruct (text_eqb k k'); reflexivity.
  - apply distinct_keys_cons in Hd as [Hk0 Hd].
    text_case k0 k; simpl dict_lookup.
    + text_case k0 k'; [|reflexivity].
      assert (Hn : dict_lookup k0 d = None) by now apply dict_lookup_none.
      now rewrite Hn.
    + rewrite (IH Hd). now destruct (text_eqb k k').
Qed.

(** The loop of [dict(pairs)] from a dict [d] with distinct keys. *)
Lemma fold_dict_set_lookup (kvs d : list (text * json)) (k : text) :
  distinct_keys d = true ->
  distinct_keys (fold_left (fun d '(k, v) => dict_set k v d) kvs d) = true /\
  dict_lookup k (fold_left (fun d '(k, v) => dict_set k v d) kvs d) =
    match dict_lookup k kvs with Some w => Some w | None => dict_lookup k d end.
Proof.
  revert d. induction kvs as [|[k0 v0] kvs IH]; intros d Hd; simpl; [auto|].
  destruct (IH (dict_set k0 v0 d) (dict_set_distinct _ _ _ Hd)) as [H1 H2].
  split; [exact H1|]. rewrite H2, (dict_lookup_set _ _ _ _ Hd).
  destruct (dict_lookup k kvs); [reflexivity|]. destruct (text_eqb k0 k); reflexivity.
Qed.

Lemma dict_of_pairs_distinct_keys (kvs : list (text * json)) :
  distinct_keys (dict_of_pairs kvs) = true.
Proof. exact (proj1 (fold_dict_set_lookup kvs [] [] eq_refl)). Qed.

Lemma fold_dict_set (kvs d : list (text * json)) :
  distinct_keys kvs = true -> (forall k, In k (map fst kvs) -> ~ In k (map fst d)) ->
  fold_left (fun d '(k, v) => dict_set k v d) kvs d = d ++ kvs.
Proof.
  revert d. induction kvs as [|[k v] kvs IH]; intros d Hd Hdis; simpl; [now rewrite app_nil_r|].
  apply distinct_keys_cons in Hd as [Hk Hd].
  rewrite dict_set_new by (apply Hdis; left; reflexivity).
  rewrite IH; [now rewrite <- app_assoc|exact Hd|].
  intros k' Hk'. rewrite map_app, in_app_iff. simpl. intros [Hin|[<-|[]]]; [|contradiction].
  apply (Hdis k'); [right; exact Hk'|exact Hin].
Qed.

(** [dict(pairs)] of pairs with distinct keys keeps them all, in order. *)
Lemma dict_of_pairs_distinct (kvs : list (text * json)) :
  distinct_keys kvs = true -> dict_of_pairs kvs = kvs.
Proof. intros Hd. unfold dict_of_pairs. rewrite fold_dict_set; auto. Qed.

(** ** Values *)

Lemma forallb_rev {A} (p : A -> bool) (l : list A) : forallb p (rev l) = forallb p l.
Proof.
  induction l as [|x l IH]; simpl; [reflexivity|].
  rewrite forallb_app, IH. simpl. now rewrite andb_true_r, andb_comm.
Qed.

(** [dict(pairs)] holds only values of the pairs. *)
(** [dict_of_pairs_values] of [JsonLoad] for a boolean test. *)
Lemma dict_of_pairs_forallb (P : json -> bool) (kvs : list (text * json)) :
  forallb (fun kv => P (snd kv)) kvs = true -> forallb (fun kv => P (snd kv)) (dict_of_pairs kvs) = true.
Proof.
  rewrite !forallb_forall, <- !Forall_forall. apply (dict_of_pairs_values (fun w => P w = true)).
Qed.

Lemma scan_number_wf (s : text) (v : json) (r : text) : scan_number s = Some (v, r) -> wf_json v = true.
Proof.
  unfold scan_number. intros Hs. repeat (destr_in Hs; try discriminate); injection Hs as <- _; reflexivity.
Qed.

(** Turns the equations a case analysis of the scanner leaves into the
    shape of the values it returns; [IHv], [IHe], [IHm] are the shapes
    of the recursive calls. *)
Ltac scan_shapes IHv IHe IHm :=
  repeat match goal with
  | H : scan_value _ _ = Scanned _ _ |- _ => apply IHv in H
  | H : scan_number _ = Some (_, _) |- _ => apply scan_number_wf in H
  | H : Scanned _ _ = Scanned _ _ |- _ => injection H as <- _
  | H : scan_elements _ _ _ = Scanned _ _ |- _ => revert H; apply IHe
  | H : scan_members _ _ _ = Scanned _ _ |- _ => revert H; apply IHm
  end;
  cbn [wf_json forallb snd] in *; rewrite ?andb_true_iff in *;
  repeat split; try apply dict_of_pairs_forallb; rewrite ?forallb_app, ?forallb_rev; cbn [forallb snd];
  rewrite ?andb_true_r, ?andb_true_iff; auto using dict_of_pairs_distinct_keys.

(** Every value the scanner returns has distinct keys in each dict. *)
Lemma scan_wf (f : nat) :
  (forall s v r, scan_value f s = Scanned v r -> wf_json v = true) /\
  (forall acc s v r, forallb wf_json acc = true -> scan_elements f acc s = Scanned v r -> wf_json v = true) /\
  (forall acc s v r, forallb (fun kv => wf_json (snd kv)) acc = true ->
     scan_members f acc s = Scanned v r -> wf_json v = true).
Proof.
  induction f as [|f (IHv & IHe & IHm)]; [repeat split; intros; discriminate|].
  repeat split.
  - intros s v r Hs. destruct s as [|c r0]; [discriminate|]. cbn [scan_value] in Hs.
    repeat (destr_in Hs; try discriminate); scan_shapes IHv IHe IHm.
  - intros acc s v r Hacc Hs. cbn [scan_elements] in Hs.
    repeat (destr_in Hs; try discriminate); scan_shapes IHv IHe IHm.
  - intros acc s v r Hacc Hs. cbn [scan_members] in Hs.
    repeat (destr_in Hs; try discriminate); scan_shapes IHv IHe IHm.
Qed.

(** ** What [json.load] returns *)

(** [dict(pairs)] is a dict: its keys are distinct, and a subscript
    [d[k]] finds the value of the last pair with key [k], or fails
    exactly when no pair has that key. *)
Theorem dict_of_pairs_spec (kvs : list (text * json)) :
  distinct_keys (dict_of_pairs kvs) = true /\
  forall k, dict_lookup k (dict_of_pairs kvs) = dict_lookup k kvs.
Proof.
  split; [apply dict_of_pairs_distinct_keys|]. intros k.
  unfold dict_of_pairs. rewrite (proj2 (fold_dict_set_lookup kvs [] k eq_refl)).
  now destruct (dict_lookup k kvs).
Qed.

(** Every value [json.load] returns is well formed: each of its
    dicts, at any depth, has distinct keys. *)
Theorem json_loads_wf (s : text) (v : json) : json_loads s = Ok v -> wf_json v = true.
Proof.
  unfold json_loads. destruct (starts_with [65279] s); [discriminate|].
  destruct (scan_value _ _) as [v' r| |] eqn:Hs; try discriminate.
  destruct (skip_ws r); [|discriminate]. intros E. injection E as <-.
  exact (proj1 (scan_wf _) _ _ _ Hs).
Qed.

(** The text [{"a": 1, "a": 2}]. *)
Definition repeated_key_text : text := [123; 34; 97; 34; 58; 32; 49; 44; 32; 34; 97; 34; 58; 32; 50; 125].

Lemma json_loads_wf_witness :
  json_loads repeated_key_text = Ok (JObj [(‹"a"›, JInt 2)]) /\ wf_json (JObj [(‹"a"›, JInt 2)]) = true.
Proof.
  assert (H : json_loads repeated_key_text = Ok (JObj [(‹"a"›, JInt 2)])) by (vm_compute; reflexivity).
  split; [exact H|exact (json_loads_wf _ _ H)].
Defined.
