(* ===== verification/JsonRoundtrip.v ===== *)
(** * [json.load] reads back what [json.dump] writes

    The round trip [json_loads (json_dump v) = Ok v] holds for every
    value [dumpable] accepts: its strings are sequences of Unicode scalar
    values (no surrogate code point, below [0x110000]), its dicts have
    distinct keys (as Python dicts do), and it has no finite float (whose
    text is [float_repr], not modelled).  The proof follows the
    encoder: each piece it writes is scanned back with the text after
    it left over, as in a serialiser/deserialiser pair.  The written text
    is also printable ASCII and newlines only, for every value. *)

From S2P Require Import Prelude PyText Json JsonDump JsonLoad JsonDict.
From Stdlib Require DecimalFacts DecimalPos DecimalN.
Close Scope Q_scope.
Local Open Scope N_scope.

(** ** What the round trip needs *)

(** A Unicode scalar value. *)
Definition scalar_value (c : char) : bool :=
  (c <? 1114112) && negb ((55296 <=? c) && (c <=? 57343)).

Definition valid_text (s : text) : bool := forallb scalar_value s.

Fixpoint dumpable (v : json) : bool :=
  match v with
  | JFloat (PFinite _) => false
  | JStr s => valid_text s
  | JArr xs => forallb dumpable xs
  | JObj kvs =>
      distinct_keys kvs && forallb (fun '(k, w) => valid_text k && dumpable w) kvs
  | _ => true
  end.

(** A printable ASCII character or a newline. *)
Definition ascii_out (c : char) : Prop := c = 10 \/ (32 <= c <= 126).

(** ** Hex escapes *)

Lemma hex_val_digit (d : N) : d < 16 -> hex_val (hex_digit d) = Some d.
Proof.
  intros Hd. unfold hex_digit, hex_val, is_digit.
  destruct (N.ltb_spec d 10).
  - replace ((48 <=? 48 + d) && (48 + d <=? 57)) with true by (symmetry; apply andb_true_iff; split; apply N.leb_le; lia).
    f_equal. lia.
  - replace ((48 <=? 87 + d) && (87 + d <=? 57)) with false
      by (symmetry; apply andb_false_iff; right; apply N.leb_gt; lia).
    replace ((97 <=? 87 + d) && (87 + d <=? 102)) with true by (symmetry; apply andb_true_iff; split; apply N.leb_le; lia).
    f_equal. lia.
Qed.

Lemma hex_digit_ascii (d : N) : d < 16 -> 48 <= hex_digit d <= 102.
Proof. intros Hd. unfold hex_digit. destruct (N.ltb_spec d 10); lia. Qed.

(** The four digits of [hex4 n] read back as [n]. *)
Lemma hex4_spec (n : N) :
  n < 65536 -> exists a b c d, hex4 n = [a; b; c; d] /\ hex4_val a b c d = Some n.
Proof.
  intros Hn. do 4 eexists. split; [reflexivity|]. unfold hex4_val.
  cbn [N.pow Pos.pow Pos.iter N.mul Pos.mul].
  rewrite !hex_val_digit by (apply N.mod_lt; discriminate).
  f_equal.
  assert (E1 := N.div_mod n 16 ltac:(discriminate)).
  assert (E2 := N.div_mod (n / 16) 16 ltac:(discriminate)).
  assert (E3 := N.div_mod (n / 256) 16 ltac:(discriminate)).
  rewrite N.Div0.div_div in E2, E3.
  replace (16 * 16) with 256 in E2 by reflexivity. replace (256 * 16) with 4096 in E3 by reflexivity.
  assert (H4 : n / 4096 < 16) by (apply N.Div0.div_lt_upper_bound; lia).
  rewrite (N.mod_small (n / 4096) 16 H4). rewrite N.div_1_r. lia.
Qed.

Lemma hex4_ascii (n : N) : Forall ascii_out (hex4 n).
Proof.
  unfold hex4. simpl map.
  repeat apply Forall_cons; try apply Forall_nil; right;
    match goal with |- context [hex_digit ?d] =>
      assert (Hd := hex_digit_ascii d (N.mod_lt _ 16 ltac:(discriminate))); lia end.
Qed.

(** [y << k | x] is [y << k + x] when [x] fits in [k] bits. *)
Lemma lor_shiftl_small (y x k : N) : x < 2 ^ k -> N.lor (N.shiftl y k) x = N.shiftl y k + x.
Proof.
  intros Hx.
  assert (H0 : N.land (N.shiftl y k) x = 0).
  { apply N.bits_inj_0. intros m. rewrite N.land_spec.
    destruct (N.ltb_spec m k) as [Hm|Hm].
    - rewrite N.shiftl_spec_low by exact Hm. reflexivity.
    - destruct (N.eq_dec x 0) as [->|Hx0]; [rewrite N.bits_0; apply andb_false_r|].
      rewrite (N.bits_above_log2 x m); [apply andb_false_r|].
      apply N.log2_lt_pow2 in Hx; lia. }
  rewrite N.add_nocarry_lxor by exact H0. symmetry. apply N.lxor_lor, H0.
Qed.

(** The surrogate pair [escape_char] writes for [0x10000 + n] is a high
    and a low surrogate that [Py_UNICODE_JOIN_SURROGATES] joins back. *)
Lemma surrogates_spec (n : N) : n < 1048576 ->
  let hi := N.lor 55296 (N.land (N.shiftr n 10) 1023) in
  let lo := N.lor 56320 (N.land n 1023) in
  hi < 65536 /\ lo < 65536 /\ is_high_surrogate hi = true /\ is_low_surrogate lo = true /\
  join_surrogates hi lo = 65536 + n.
Proof.
  intros Hn hi lo.
  assert (Hd : n / 1024 < 1024) by (apply N.Div0.div_lt_upper_bound; lia).
  assert (Hm : n mod 1024 < 1024) by (apply N.mod_lt; discriminate).
  assert (Ehi : hi = 55296 + n / 1024).
  { unfold hi. change 1023 with (N.ones 10). rewrite N.land_ones, N.shiftr_div_pow2.
    change (2 ^ 10) with 1024. rewrite N.mod_small by exact Hd.
    change 55296 with (N.shiftl 54 10). apply lor_shiftl_small. exact Hd. }
  assert (Elo : lo = 56320 + n mod 1024).
  { unfold lo. change 1023 with (N.ones 10). rewrite N.land_ones. change (2 ^ 10) with 1024.
    change 56320 with (N.shiftl 55 10). apply lor_shiftl_small. exact Hm. }
  rewrite Ehi, Elo. unfold is_high_surrogate, is_low_surrogate, join_surrogates.
  pose proof (N.div_mod n 1024 ltac:(discriminate)) as Edm.
  clearbody hi lo. clear Ehi Elo.
  set (a := n / 1024) in *. set (b := n mod 1024) in *. clearbody a b.
  replace (55296 + a - 55296) with a by lia. replace (56320 + b - 56320) with b by lia.
  rewrite lor_shiftl_small by exact Hm. rewrite N.shiftl_mul_pow2. change (2 ^ 10) with 1024.
  repeat split; try lia; apply andb_true_iff; split; apply N.leb_le; lia.
Qed.

(** ** Strings *)

Lemma scan_u_escape (n : N) (t : text) :
  n < 65536 -> is_high_surrogate n = false ->
  scan_string (u_escape n ++ t) = cons_fst n (scan_string t).
Proof.
  intros Hn Hh. destruct (hex4_spec n Hn) as (a & b & c & d & E & Hv).
  unfold u_escape. rewrite E. cbn [app scan_string N.eqb Pos.eqb]. rewrite Hv, Hh. reflexivity.
Qed.

Lemma scan_u_pair (hi lo : N) (t : text) :
  hi < 65536 -> lo < 65536 -> is_high_surrogate hi = true -> is_low_surrogate lo = true ->
  scan_string (u_escape hi ++ u_escape lo ++ t) = cons_fst (join_surrogates hi lo) (scan_string t).
Proof.
  intros Hhi Hlo Hh Hl.
  destruct (hex4_spec hi Hhi) as (a & b & c & d & E & Hv).
  destruct (hex4_spec lo Hlo) as (a2 & b2 & c2 & d2 & E2 & Hv2).
  unfold u_escape. rewrite E, E2. cbn -[hex4_val is_high_surrogate is_low_surrogate join_surrogates].
  now rewrite Hv, Hh, Hv2, Hl.
Qed.

(** Every character [escape_char] writes reads back as itself. *)
Lemma scan_escape_char (c : char) (t : text) :
  scalar_value c = true -> scan_string (escape_char c ++ t) = cons_fst c (scan_string t).
Proof.
  unfold scalar_value. intros Hc. apply andb_true_iff in Hc as [Hc1 Hc2].
  apply N.ltb_lt in Hc1. apply negb_true_iff, andb_false_iff in Hc2.
  unfold escape_char.
  destruct (N.eqb_spec c 34); [subst; reflexivity|].
  destruct (N.eqb_spec c 92); [subst; reflexivity|].
  destruct ((32 <=? c) && (c <=? 126)) eqn:Ep.
  { apply andb_true_iff in Ep as [Ep _]. apply N.leb_le in Ep. simpl.
    destruct (N.eqb_spec c 34); [contradiction|]. destruct (N.eqb_spec c 92); [contradiction|].
    destruct (N.ltb_spec c 32); [lia|reflexivity]. }
  destruct (N.eqb_spec c 8); [subst; reflexivity|].
  destruct (N.eqb_spec c 12); [subst; reflexivity|].
  destruct (N.eqb_spec c 10); [subst; reflexivity|].
  destruct (N.eqb_spec c 13); [subst; reflexivity|].
  destruct (N.eqb_spec c 9); [subst; reflexivity|].
  destruct (N.ltb_spec c 65536) as [Hlt|Hge].
  - apply scan_u_escape; [exact Hlt|]. unfold is_high_surrogate.
    destruct Hc2 as [H|H]; apply N.leb_gt in H; apply andb_false_iff;
      [left; apply N.leb_gt; lia|right; apply N.leb_gt; lia].
  - destruct (surrogates_spec (c - 65536) ltac:(lia)) as (H1 & H2 & H3 & H4 & H5).
    rewrite <- app_assoc, scan_u_pair by assumption. rewrite H5. f_equal. lia.
Qed.

Lemma scan_string_encode (s t : text) :
  valid_text s = true -> scan_string (flat_map escape_char s ++ 34 :: t) = Some (s, t).
Proof.
  induction s as [|c s IH]; simpl; intros Hv; [reflexivity|].
  apply andb_true_iff in Hv as [Hc Hs].
  rewrite <- app_assoc, scan_escape_char by exact Hc. now rewrite IH.
Qed.

(** ** Integers *)

(** What follows a value in the encoder's output: the end, [,], or the
    newline before a closing bracket. *)
Definition value_end (t : text) : bool :=
  match t with [] => true | c :: _ => (c =? 44) || (c =? 10) end.

Lemma uint_text_digits (d : Decimal.uint) : forallb is_digit (uint_text d) = true.
Proof. induction d; simpl; auto. Qed.

Lemma text_uint_uint_text (d : Decimal.uint) : text_uint (uint_text d) = d.
Proof. induction d; simpl; congruence. Qed.

Lemma span_digits_app (ds t : text) :
  forallb is_digit ds = true -> value_end t = true -> span_digits (ds ++ t) = (ds, t).
Proof.
  intros Hds Ht. induction ds as [|c ds IH]; simpl in *.
  - destruct t as [|c r]; [reflexivity|]. simpl.
    apply orb_true_iff in Ht as [E|E]; apply N.eqb_eq in E; subst; reflexivity.
  - apply andb_true_iff in Hds as [Hc Hds]. rewrite Hc, IH by exact Hds. reflexivity.
Qed.

Lemma value_end_number (t : text) :
  value_end t = true -> scan_frac t = ([], t) /\ scan_exp t = (None, t).
Proof.
  destruct t as [|c [|d r]]; simpl; intros Ht; [split; reflexivity| |];
    apply orb_true_iff in Ht as [E|E]; apply N.eqb_eq in E; subst; split; reflexivity.
Qed.

(** The decimal digits of a positive number start with [1..9]. *)
Lemma pos_uint_head (p : positive) :
  exists c ds, uint_text (Pos.to_uint p) = c :: ds /\ 49 <= c <= 57.
Proof.
  assert (E : Pos.to_uint p = Decimal.unorm (Pos.to_uint p)).
  { rewrite <- DecimalPos.Unsigned.to_of, DecimalPos.Unsigned.of_to. reflexivity. }
  pose proof (DecimalPos.Unsigned.to_uint_nonzero p) as Hnz.
  pose proof (DecimalPos.Unsigned.to_uint_nonnil p) as Hnn.
  destruct (Pos.to_uint p) as [|d|d|d|d|d|d|d|d|d|d];
    try (eexists; eexists; split; [reflexivity|lia]); [contradiction|].
  exfalso. rewrite DecimalFacts.unorm_D0 in E.
  pose proof (DecimalFacts.nb_digits_unorm d) as Hle.
  apply (f_equal Decimal.nb_digits) in E. simpl in E.
  destruct d; [contradiction|..]; specialize (Hle ltac:(discriminate)); lia.
Qed.

(** [int.__repr__] reads back as the same [int]. *)
Lemma scan_number_int (z : Z) (t : text) :
  value_end t = true -> scan_number (int_repr z ++ t) = Some (JInt z, t).
Proof.
  intros Ht. destruct (value_end_number t Ht) as [Hf He].
  destruct z as [|p|p]; unfold int_repr.
  - unfold scan_number. simpl. rewrite Hf, He. reflexivity.
  - destruct (pos_uint_head p) as (c & ds & Ed & Hc). simpl N.to_uint. rewrite Ed.
    assert (Hds : forallb is_digit ds = true).
    { pose proof (uint_text_digits (Pos.to_uint p)) as D. rewrite Ed in D. simpl in D.
      apply andb_true_iff in D as [_ D]. exact D. }
    unfold scan_number, scan_int_part. simpl app.
    cbn iota beta. rewrite (proj2 (N.eqb_neq c 45) ltac:(lia)). cbn iota beta.
    rewrite (proj2 (N.eqb_neq c 48) ltac:(lia)).
    replace ((49 <=? c) && (c <=? 57)) with true by (symmetry; apply andb_true_iff; split; apply N.leb_le; lia).
    rewrite span_digits_app by assumption. rewrite Hf, He.
    unfold digits_value. rewrite <- Ed, text_uint_uint_text.
    change (Pos.to_uint p) with (N.to_uint (Npos p)). rewrite DecimalN.Unsigned.of_to. reflexivity.
  - destruct (pos_uint_head p) as (c & ds & Ed & Hc). simpl N.to_uint. rewrite Ed.
    assert (Hds : forallb is_digit ds = true).
    { pose proof (uint_text_digits (Pos.to_uint p)) as D. rewrite Ed in D. simpl in D.
      apply andb_true_iff in D as [_ D]. exact D. }
    unfold scan_number, scan_int_part. simpl app. cbn iota beta.
    replace (45 =? 45) with true by reflexivity. cbn iota beta.
    rewrite (proj2 (N.eqb_neq c 48) ltac:(lia)).
    replace ((49 <=? c) && (c <=? 57)) with true by (symmetry; apply andb_true_iff; split; apply N.leb_le; lia).
    rewrite span_digits_app by assumption. rewrite Hf, He.
    unfold digits_value. rewrite <- Ed, text_uint_uint_text.
    change (Pos.to_uint p) with (N.to_uint (Npos p)). rewrite DecimalN.Unsigned.of_to. reflexivity.
Qed.

(** ** Layout and dicts *)

Lemma py_join_cons (sep x : text) (xs : list text) :
  py_join sep (x :: xs) = x ++ concat (map (fun y => sep ++ y) xs).
Proof.
  revert x. induction xs as [|y xs IH]; intros x; [simpl; now rewrite app_nil_r|].
  change (py_join sep (x :: y :: xs)) with (x ++ sep ++ py_join sep (y :: xs)).
  rewrite IH. simpl. now rewrite <- !app_assoc.
Qed.

Lemma skip_ws_newline_indent (n : nat) (t : text) : skip_ws (newline_indent n ++ t) = skip_ws t.
Proof.
  unfold newline_indent, NEWLINE, SPACE. generalize (2 * n)%nat as m.
  induction m as [|m IH]; simpl in *; auto.
Qed.

Lemma skip_ws_space (t : text) : skip_ws (SPACE :: t) = skip_ws t.
Proof. reflexivity. Qed.

Lemma skip_ws_head (c : char) (t : text) : is_ws c = false -> skip_ws (c :: t) = c :: t.
Proof. intros H. simpl. now rewrite H. Qed.

(** ** Values *)

Lemma eat_same (c : char) (t : text) : eat c (c :: t) = Some t.
Proof. simpl. now rewrite N.eqb_refl. Qed.

Lemma eat_other (c d : char) (t : text) : d <> c -> eat c (d :: t) = None.
Proof. intros H. simpl. now rewrite (proj2 (N.eqb_neq d c) H). Qed.

Lemma is_ws_false (c : char) : 33 <= c -> is_ws c = false.
Proof.
  intros H. unfold is_ws.
  repeat rewrite (proj2 (N.eqb_neq _ _)) by lia. reflexivity.
Qed.

Lemma int_repr_head (z : Z) : exists c r, int_repr z = c :: r /\ (c = 45 \/ 48 <= c <= 57).
Proof.
  destruct z as [|p|p]; simpl.
  - exists 48, []. split; [reflexivity|right; lia].
  - destruct (pos_uint_head p) as (c & ds & E & Hc). exists c, ds. split; [exact E|right; lia].
  - eexists; eexists; split; [reflexivity|left; reflexivity].
Qed.

Lemma scan_lift (f f' : nat) (s : text) (v : json) (r : text) :
  scan_value f s = Scanned v r -> (f <= f')%nat -> scan_value f' s = Scanned v r.
Proof. intros H Hf. exact (proj1 (scan_mono f) s _ H ltac:(discriminate) f' Hf). Qed.

Lemma scan_elements_lift (f f' : nat) acc (s : text) (v : json) (r : text) :
  scan_elements f acc s = Scanned v r -> (f <= f')%nat -> scan_elements f' acc s = Scanned v r.
Proof. intros H Hf. exact (proj1 (proj2 (scan_mono f)) acc s _ H ltac:(discriminate) f' Hf). Qed.

Lemma scan_members_lift (f f' : nat) acc (s : text) (v : json) (r : text) :
  scan_members f acc s = Scanned v r -> (f <= f')%nat -> scan_members f' acc s = Scanned v r.
Proof. intros H Hf. exact (proj2 (proj2 (scan_mono f)) acc s _ H ltac:(discriminate) f' Hf). Qed.

(** The text of a number: no bracket, brace, quote or named constant
    starts it, so [scan_once_unicode] goes to [_match_number_unicode]. *)
Lemma scan_value_int (f : nat) (z : Z) (t : text) :
  value_end t = true -> scan_value (S f) (int_repr z ++ t) = Scanned (JInt z) t.
Proof.
  intros Ht. destruct (int_repr_head z) as (c & r & E & Hc).
  pose proof (scan_number_int z t Ht) as Hn. rewrite E in Hn |- *. simpl app. cbn [scan_value].
  assert (Hlit : forall p, hd 45 p <> c -> hd 45 p <> 45 -> starts_with p (c :: r ++ t) = false).
  { intros [|a p] H1 H2; simpl in *; [contradiction|].
    rewrite (proj2 (N.eqb_neq a c) H1). reflexivity. }
  rewrite !(proj2 (N.eqb_neq c _)) by lia.
  rewrite !Hlit by (simpl; lia).
  destruct Hc as [->|Hc].
  - assert (Hr : exists d r', r = d :: r' /\ 48 <= d <= 57).
    { destruct z as [|p|p]; simpl in E; try discriminate.
      - destruct (pos_uint_head p) as (d & ds & Ed & Hd). rewrite Ed in E.
        injection E as ? _. lia.
      - injection E as Er. rewrite <- Er. destruct (pos_uint_head p) as (d & ds & Ed & Hd).
        exists d, ds. split; [exact Ed|lia]. }
    destruct Hr as (d & r' & -> & Hd).
    match goal with |- context [starts_with ‹"-Infinity"› ?s] =>
      assert (Hinf : starts_with ‹"-Infinity"› s = false) end.
    { change ‹"-Infinity"› with (45 :: 73 :: ‹"nfinity"›). cbn [starts_with app].
      rewrite N.eqb_refl, (proj2 (N.eqb_neq 73 d)) by lia. reflexivity. }
    rewrite Hinf. simpl app in Hn |- *. rewrite Hn. reflexivity.
  - match goal with |- context [starts_with ‹"-Infinity"› ?s] =>
      assert (Hinf : starts_with ‹"-Infinity"› s = false) end.
    { change ‹"-Infinity"› with (45 :: ‹"Infinity"›). cbn [starts_with app].
      rewrite (proj2 (N.eqb_neq 45 c)) by lia. reflexivity. }
    rewrite Hinf. simpl app in Hn |- *. rewrite Hn. reflexivity.
Qed.

Section Values.
Variable float_repr : Q -> text.

(** Every value the round trip covers is written starting with a
    printable character other than white space or a closing bracket. *)
Lemma dump_head (lvl : nat) (v : json) :
  dumpable v = true -> exists c r, dump float_repr lvl v = c :: r /\ 33 <= c <= 123 /\ c <> 93.
Proof.
  destruct v as [| [] |z| [q|[]|] |s| [|x xs] | [|kv kvs]]; simpl; intros Hd; try discriminate;
    try (eexists _, _; split; [reflexivity|]; compute; split; [split|]; intro; discriminate).
  destruct (int_repr_head z) as (c & r & E & Hc). exists c, r. split; [exact E|lia].
Qed.

Lemma skip_ws_dump (lvl : nat) (v : json) (t : text) :
  dumpable v = true -> skip_ws (dump float_repr lvl v ++ t) = dump float_repr lvl v ++ t.
Proof.
  intros Hd. destruct (dump_head lvl v Hd) as (c & r & E & Hc & _). rewrite E.
  apply skip_ws_head, is_ws_false. lia.
Qed.

(** A value written at depth [lvl] scans back from its text followed by
    whatever the encoder writes after it. *)
Definition scans_back (lvl : nat) (v : json) : Prop :=
  forall t, value_end t = true -> exists f, scan_value f (dump float_repr lvl v ++ t) = Scanned v t.

Lemma value_end_elements (lvl : nat) (xs : list json) (t : text) :
  value_end (concat (map (fun y => [44] ++ newline_indent (S lvl) ++ dump float_repr (S lvl) y) xs) ++
             newline_indent lvl ++ t) = true.
Proof. destruct xs; reflexivity. Qed.

(** The loop of [_parse_array_unicode] reads back the items the
    encoder wrote after the first one. *)
Lemma scan_elements_dump (lvl : nat) (xs acc : list json) (t : text) :
  Forall (fun y => dumpable y = true /\ scans_back (S lvl) y) xs ->
  exists f, scan_elements f acc
    (concat (map (fun y => [44] ++ newline_indent (S lvl) ++ dump float_repr (S lvl) y) xs) ++
     newline_indent lvl ++ 93 :: t) = Scanned (JArr (rev acc ++ xs)) t.
Proof.
  revert acc. induction xs as [|y xs IH]; intros acc Hxs.
  - exists 1%nat. cbn [map concat app scan_elements].
    rewrite skip_ws_newline_indent, skip_ws_head, eat_same by reflexivity.
    now rewrite app_nil_r.
  - apply Forall_cons_iff in Hxs as [[Hdy Hy] Hxs'].
    destruct (IH (y :: acc) Hxs') as (fys & Hys).
    destruct (Hy _ (value_end_elements lvl xs (93 :: t))) as (fy & Hfy).
    exists (S (Nat.max fy fys)). cbn [map concat]. rewrite <- !app_assoc. cbn [app scan_elements].
    rewrite skip_ws_head by reflexivity. rewrite eat_other by discriminate. rewrite eat_same.
    rewrite skip_ws_newline_indent, skip_ws_dump by exact Hdy.
    rewrite (scan_lift _ _ _ _ _ Hfy) by lia. cbn iota beta.
    rewrite (scan_elements_lift _ _ _ _ _ _ Hys) by lia.
    simpl rev. now rewrite <- app_assoc.
Qed.

(** One item of a dict as the encoder writes it: the key, [": "] and
    the value one level deeper. *)
Definition dump_item (lvl : nat) : text * json -> text :=
  fun '(k, w) => encode_basestring_ascii k ++ ‹": "› ++ dump float_repr (S lvl) w.

Lemma value_end_members (lvl : nat) (kvs : list (text * json)) (t : text) :
  value_end (concat (map (fun kv => [44] ++ newline_indent (S lvl) ++ dump_item lvl kv) kvs) ++
             newline_indent lvl ++ t) = true.
Proof. destruct kvs; reflexivity. Qed.

(** The loop of [_parse_object_unicode] reads back the items the
    encoder wrote, from the first key's opening quote on. *)
Lemma scan_members_dump (lvl : nat) (kvs : list (text * json)) (k : text) (w : json)
      (acc : list (text * json)) (t : text) :
  Forall (fun kv => valid_text (fst kv) = true /\ dumpable (snd kv) = true /\ scans_back (S lvl) (snd kv))
    ((k, w) :: kvs) ->
  exists f, scan_members f acc
    (flat_map escape_char k ++ 34 :: 58 :: 32 :: dump float_repr (S lvl) w ++
     concat (map (fun kv => [44] ++ newline_indent (S lvl) ++ dump_item lvl kv) kvs) ++
     newline_indent lvl ++ 125 :: t) = Scanned (JObj (dict_of_pairs (rev acc ++ (k, w) :: kvs))) t.
Proof.
  revert k w acc. induction kvs as [|[k2 w2] kvs IH]; intros k w acc Hkvs;
    apply Forall_cons_iff in Hkvs as [(Hk & Hdw & Hw) Hkvs]; simpl fst in Hk; simpl snd in Hdw, Hw.
  - destruct (Hw _ (value_end_members lvl [] (125 :: t))) as (fw & Hfw).
    exists (S fw). cbn [map concat app] in Hfw |- *. cbn [scan_members].
    rewrite scan_string_encode by exact Hk. cbn iota beta.
    rewrite skip_ws_head, eat_same by reflexivity.
    change (skip_ws (32 :: ?x)) with (skip_ws x). rewrite skip_ws_dump by exact Hdw.
    rewrite (scan_lift _ _ _ _ _ Hfw) by lia. cbn iota beta.
    rewrite skip_ws_newline_indent, skip_ws_head, eat_same by reflexivity. reflexivity.
  - destruct (IH k2 w2 ((k, w) :: acc) Hkvs) as (fr & Hfr).
    destruct (Hw _ (value_end_members lvl ((k2, w2) :: kvs) (125 :: t))) as (fw & Hfw).
    exists (S (Nat.max fw fr)). cbn [scan_members].
    rewrite scan_string_encode by exact Hk. cbn iota beta.
    rewrite skip_ws_head, eat_same by reflexivity.
    change (skip_ws (32 :: ?x)) with (skip_ws x). rewrite skip_ws_dump by exact Hdw.
    rewrite (scan_lift _ _ _ _ _ Hfw) by lia. cbn iota beta.
    cbn [map concat]. rewrite <- !app_assoc. cbn [app].
    rewrite skip_ws_head by reflexivity. rewrite eat_other by discriminate. rewrite eat_same.
    rewrite skip_ws_newline_indent. unfold dump_item at 1, encode_basestring_ascii.
    rewrite <- !app_assoc. cbn [app]. rewrite skip_ws_head, eat_same by reflexivity.
    change ‹": "› with [58; 32]. cbn [app].
    rewrite (scan_members_lift _ _ _ _ _ _ Hfr) by lia.
    simpl rev. now rewrite <- app_assoc.
Qed.

Lemma join_items {A} (g : A -> text) (n : nat) (x : A) (xs : list A) :
  py_join ([44] ++ newline_indent n) (map g (x :: xs)) =
  g x ++ concat (map (fun y => [44] ++ newline_indent n ++ g y) xs).
Proof.
  rewrite map_cons, py_join_cons, map_map. reflexivity.
Qed.

Lemma eat_dump (c : char) (lvl : nat) (v : json) (t : text) :
  dumpable v = true -> (c = 93 \/ c = 125) -> eat c (dump float_repr lvl v ++ t) = None.
Proof.
  intros Hd Hc. destruct (dump_head lvl v Hd) as (d & r & E & Hr & Hne). rewrite E.
  apply eat_other. lia.
Qed.

Lemma forall_scans (lvl : nat) (xs : list json) :
  forallb dumpable xs = true -> Forall (fun y => dumpable y = true -> forall lvl, scans_back lvl y) xs ->
  Forall (fun y => dumpable y = true /\ scans_back lvl y) xs.
Proof.
  intros Hd HIH. rewrite forallb_forall in Hd. rewrite Forall_forall in HIH |- *.
  intros y Hy. split; [apply Hd, Hy|]. apply HIH; [exact Hy|apply Hd, Hy].
Qed.

Lemma forall_scans_items (lvl : nat) (kvs : list (text * json)) :
  forallb (fun '(k, w) => valid_text k && dumpable w) kvs = true ->
  Forall (fun kv => dumpable (snd kv) = true -> forall lvl, scans_back lvl (snd kv)) kvs ->
  Forall (fun kv => valid_text (fst kv) = true /\ dumpable (snd kv) = true /\ scans_back lvl (snd kv)) kvs.
Proof.
  intros Hd HIH. rewrite forallb_forall in Hd. rewrite Forall_forall in HIH |- *.
  intros [k w] Hkw. specialize (Hd _ Hkw). apply andb_true_iff in Hd as [Hk Hw].
  simpl. split; [exact Hk|split; [exact Hw|]]. exact (HIH _ Hkw Hw lvl).
Qed.

(** Every value the round trip covers scans back from its text. *)
Lemma dump_scan (v : json) : dumpable v = true -> forall lvl, scans_back lvl v.
Proof.
  induction v as [| b | z | fl | s | xs IH | kvs IH] using json_nested_ind; intros Hd lvl t Ht.
  - exists 1%nat. reflexivity.
  - destruct b; exists 1%nat; reflexivity.
  - exists 1%nat. apply scan_value_int, Ht.
  - destruct fl as [q| [] |]; [discriminate| | |]; exists 1%nat; reflexivity.
  - exists 1%nat. simpl dump. unfold encode_basestring_ascii. rewrite <- !app_assoc. cbn [app].
    change (scan_value 1 (34 :: ?x)) with
      (match scan_string x with Some (t, r') => Scanned (JStr t) r' | None => Invalid end).
    simpl in Hd. now rewrite scan_string_encode.
  - destruct xs as [|x xs]; [exists 1%nat; reflexivity|].
    pose proof (forall_scans (S lvl) (x :: xs) Hd IH) as Hall.
    apply Forall_cons_iff in Hall as [[Hdx Hx] Hxs].
    destruct (scan_elements_dump lvl xs [x] t Hxs) as (fxs & Hfxs).
    destruct (Hx _ (value_end_elements lvl xs (93 :: t))) as (fx & Hfx).
    exists (S (Nat.max fx fxs)).
    change (dump float_repr lvl (JArr (x :: xs))) with
      ([91] ++ newline_indent (S lvl) ++ py_join ([44] ++ newline_indent (S lvl))
         (map (dump float_repr (S lvl)) (x :: xs)) ++ newline_indent lvl ++ [93]).
    rewrite join_items. rewrite <- !app_assoc. cbn [app scan_value N.eqb Pos.eqb].
    rewrite skip_ws_newline_indent, skip_ws_dump by exact Hdx.
    rewrite eat_dump by (exact Hdx || lia).
    rewrite (scan_lift _ _ _ _ _ Hfx) by lia. cbn iota beta.
    now rewrite (scan_elements_lift _ _ _ _ _ _ Hfxs) by lia.
  - destruct kvs as [|[k w] kvs]; [exists 1%nat; reflexivity|].
    change (distinct_keys ((k, w) :: kvs) &&
            forallb (fun '(k, w) => valid_text k && dumpable w) ((k, w) :: kvs) = true) in Hd.
    apply andb_true_iff in Hd as [Hdk Hd].
    pose proof (forall_scans_items (S lvl) _ Hd IH) as Hall.
    destruct (scan_members_dump lvl kvs k w [] t Hall) as (f & Hf).
    exists (S f).
    change (dump float_repr lvl (JObj ((k, w) :: kvs))) with
      ([123] ++ newline_indent (S lvl) ++ py_join ([44] ++ newline_indent (S lvl))
         (map (dump_item lvl) ((k, w) :: kvs)) ++ newline_indent lvl ++ [125]).
    rewrite join_items. unfold dump_item at 1, encode_basestring_ascii.
    change ‹": "› with [58; 32]. rewrite <- !app_assoc. cbn [app scan_value N.eqb Pos.eqb].
    rewrite skip_ws_newline_indent, skip_ws_head by reflexivity.
    rewrite eat_other by discriminate. rewrite eat_same.
    simpl rev in Hf. rewrite dict_of_pairs_distinct in Hf by exact Hdk. exact Hf.
Qed.

(** [json.load] reads back what [json.dump] wrote, also when white
    space that starts a new line follows it in the file. *)
Lemma json_loads_dump (v : json) (t : text) :
  dumpable v = true -> value_end t = true -> skip_ws t = [] ->
  json_loads (json_dump float_repr v ++ t) = Ok v.
Proof.
  intros Hd Ht Hws. destruct (dump_scan v Hd 0 t Ht) as (f & Hf).
  unfold json_dump. destruct (dump_head 0 v Hd) as (c & r & E & Hc & _).
  apply (json_loads_scanned _ f v t); [|rewrite skip_ws_dump by exact Hd; exact Hf|exact Hws].
  rewrite E. cbn [starts_with app]. now rewrite (proj2 (N.eqb_neq 65279 c)) by lia.
Qed.

(** Round trip: [json.load] reads back exactly the value [json.dump]
    wrote, when its strings are scalar values, its dicts have distinct
    keys and it has no finite float. *)
Theorem json_roundtrip (v : json) : dumpable v = true -> json_loads (json_dump float_repr v) = Ok v.
Proof.
  intros Hd. rewrite <- (app_nil_r (json_dump float_repr v)). now apply json_loads_dump.
Qed.

End Values.

(** A dict holding a list with two integers and a string of an accented
    letter, a quote, a newline and a character above [0xFFFF], an empty
    dict and an empty list. *)
Definition sample_value : json :=
  JObj [(‹"a"›, JArr [JInt 12; JInt (-3); JStr [233; 34; 10; 128512]]);
        (‹"b"›, JObj []); (‹"c"›, JArr [])].

Lemma json_roundtrip_witness :
  dumpable sample_value = true /\ json_loads (json_dump (fun _ => []) sample_value) = Ok sample_value.
Proof.
  assert (H : dumpable sample_value = true) by reflexivity.
  split; [exact H|exact (json_roundtrip (fun _ => []) sample_value H)].
Defined.

(** The round trip needs scalar values: a Python [str] may hold a
    lone high surrogate followed by a lone low surrogate, which
    [dumpable] excludes; [json.dump] writes them as two [\u] escapes,
    which [json.load] joins into the one character they encode in
    UTF-16. *)
Theorem surrogates_joined (float_repr : Q -> text) :
  dumpable (JStr [55296; 56320]) = false /\
  json_loads (json_dump float_repr (JStr [55296; 56320])) = Ok (JStr [65536]).
Proof. split; reflexivity. Qed.

(** ** The written text is ASCII *)

Definition ascii_outb (c : char) : bool := (c =? 10) || ((32 <=? c) && (c <=? 126)).

Lemma ascii_outb_spec (l : text) : forallb ascii_outb l = true -> Forall ascii_out l.
Proof.
  intros H. apply Forall_forall. intros c Hc. eapply forallb_forall in H; [|exact Hc].
  unfold ascii_outb, ascii_out in *. apply orb_true_iff in H as [H|H]; [left; now apply N.eqb_eq|].
  right. apply andb_true_iff in H as [H1 H2]. apply N.leb_le in H1, H2. lia.
Qed.

(** A literal text of the encoder is ASCII, by evaluation. *)
Ltac ascii_lit := apply ascii_outb_spec; reflexivity.

Lemma escape_char_ascii (c : char) : Forall ascii_out (escape_char c).
Proof.
  assert (Hu : forall n, Forall ascii_out (u_escape n)).
  { intros n. unfold u_escape. apply Forall_app. split; [ascii_lit|apply hex4_ascii]. }
  unfold escape_char.
  destruct (c =? 34); [ascii_lit|].
  destruct (c =? 92); [ascii_lit|].
  destruct ((32 <=? c) && (c <=? 126)) eqn:E.
  { apply andb_true_iff in E as [E1 E2]. apply N.leb_le in E1, E2. constructor; [right; lia|constructor]. }
  repeat match goal with |- context [if ?b then _ else _] => destruct b; [try ascii_lit|] end.
  - apply Hu.
  - apply Forall_app. split; apply Hu.
Qed.

Lemma uint_text_ascii (d : Decimal.uint) : Forall ascii_out (uint_text d).
Proof. induction d; simpl; constructor; auto; right; lia. Qed.

Lemma newline_indent_ascii (n : nat) : Forall ascii_out (newline_indent n).
Proof.
  unfold newline_indent. constructor; [left; reflexivity|].
  apply Forall_forall. intros c Hc. apply repeat_spec in Hc. subst. right. unfold SPACE. lia.
Qed.

Lemma py_join_ascii (sep : text) (xs : list text) :
  Forall ascii_out sep -> Forall (Forall ascii_out) xs -> Forall ascii_out (py_join sep xs).
Proof.
  intros Hs. induction 1 as [|x xs Hx Hxs IH]; [constructor|].
  destruct xs as [|y xs]; [exact Hx|].
  change (py_join sep (x :: y :: xs)) with (x ++ sep ++ py_join sep (y :: xs)).
  repeat (apply Forall_app; split); assumption.
Qed.

Lemma encode_basestring_ascii_ascii (s : text) : Forall ascii_out (encode_basestring_ascii s).
Proof.
  unfold encode_basestring_ascii. repeat (apply Forall_app; split); try ascii_lit.
  apply Forall_flat_map. apply Forall_forall. intros c _. apply escape_char_ascii.
Qed.

(** The frame of a non-empty list or dict: its brackets, separators and
    line breaks. *)
Lemma container_ascii (o cl : char) (lvl : nat) (items : list text) :
  ascii_outb o = true -> ascii_outb cl = true -> Forall (Forall ascii_out) items ->
  Forall ascii_out ([o] ++ newline_indent (S lvl) ++ py_join ([44] ++ newline_indent (S lvl)) items ++
                    newline_indent lvl ++ [cl]).
Proof.
  intros Ho Hc Hi. repeat (apply Forall_app; split); try apply newline_indent_ascii;
    try (apply ascii_outb_spec; simpl; now rewrite ?Ho, ?Hc).
  apply py_join_ascii; [|exact Hi].
  apply Forall_app; split; [ascii_lit|apply newline_indent_ascii].
Qed.

Section Ascii.
Variable float_repr : Q -> text.
Hypothesis float_repr_ascii : forall q, Forall ascii_out (float_repr q).

Lemma dump_ascii (v : json) : forall lvl, Forall ascii_out (dump float_repr lvl v).
Proof.
  induction v as [| b | z | fl | s | xs IH | kvs IH] using json_nested_ind; intros lvl.
  - ascii_lit.
  - destruct b; ascii_lit.
  - destruct z; simpl; [ascii_lit|apply uint_text_ascii|constructor; [right; lia|apply uint_text_ascii]].
  - destruct fl as [q| [] |]; simpl; [apply float_repr_ascii|ascii_lit..].
  - apply encode_basestring_ascii_ascii.
  - destruct xs as [|x xs]; [ascii_lit|]. apply container_ascii; [reflexivity|reflexivity|].
    apply Forall_map. eapply Forall_impl; [|exact IH]. intros y Hy. apply Hy.
  - destruct kvs as [|kv kvs]; [ascii_lit|]. apply container_ascii; [reflexivity|reflexivity|].
    apply Forall_map. eapply Forall_impl; [|exact IH]. intros [k w] Hw. cbn [snd] in Hw. cbv beta iota.
    apply Forall_app; split; [apply encode_basestring_ascii_ascii|].
    apply Forall_app; split; [ascii_lit|apply Hw].
Qed.

End Ascii.
