(* ===== verification/Extract.v ===== *)
(** * Block extraction: [extract_blocks] (main.py, lines 17-39)

    The PDF parser is a library the code calls: [fitz.open] and
    [page.get_text("dict")] yield, per page, raw blocks with a [type]
    and [lines] of [spans].  That structure is the input of this file.
    [extract_blocks] is the four nested [for] loops of the code, written
    as nested [fold_left]s over the two lists the code appends to
    ([blocks] and [all_sizes]).  It is proved equal to a declarative
    [flat_map] specification ([spec_blocks]), from which the invariants
    of the extracted blocks follow. *)

From S2P Require Import Prelude PyText.
Close Scope Q_scope.

(** ** The parser's output *)

(** A span's [bbox]: [(x0, y0, x1, y1)], [y0] the top edge. *)
Record BBox := mkBBox { x0 : Q; y0 : Q; x1 : Q; y1 : Q }.

(** One entry of [line["spans"]]. *)
Record Span := mkSpan {
  span_text : text;
  span_size : Q;
  span_font : text;
  span_bbox : BBox
}.

Definition Line := list Span.

(** One entry of [page.get_text("dict")["blocks"]]: [type] 0 is text;
    other types (images) carry no lines the code reads. *)
Record RawBlock := mkRawBlock { rb_type : Z; rb_lines : list Line }.

Definition Page := list RawBlock.
Definition Document := list Page.

(** ** Extracted blocks *)

(** The dictionary the code appends for one span (line 31). *)
Record Block := mkBlock {
  b_text : text;
  b_font_size : Q;
  b_font : text;
  b_bbox : BBox;
  b_page : nat
}.

Definition ExtractState : Type := (list Block * list Q)%type.

(** Lines 28-38: strip the span's text, skip it when empty, otherwise
    append a block and its size. *)
Definition visit_span (pn : nat) (st : ExtractState) (sp : Span) : ExtractState :=
  match py_strip (span_text sp) with
  | [] => st
  | t => (fst st ++ [mkBlock t (span_size sp) (span_font sp) (span_bbox sp) pn],
          snd st ++ [span_size sp])
  end.

Definition visit_line (pn : nat) (st : ExtractState) (ln : Line) : ExtractState :=
  fold_left (visit_span pn) ln st.

(** Lines 23-27: a block whose type is not 0 is skipped. *)
Definition visit_block (pn : nat) (st : ExtractState) (rb : RawBlock) : ExtractState :=
  if negb (rb_type rb =? 0)%Z then st
  else fold_left (visit_line pn) (rb_lines rb) st.

Definition visit_page (st : ExtractState) (pg : nat * Page) : ExtractState :=
  fold_left (visit_block (fst pg)) (snd pg) st.

(** [extract_blocks(pdf_path)], after [fitz.open]: pages numbered from 1. *)
Definition extract_blocks (doc : Document) : list Block * list Q :=
  fold_left visit_page (enumerate 1 doc) ([], []).

(** ** Declarative specification *)

Definition span_blocks (pn : nat) (sp : Span) : list Block :=
  match py_strip (span_text sp) with
  | [] => []
  | t => [mkBlock t (span_size sp) (span_font sp) (span_bbox sp) pn]
  end.

Definition rawblock_blocks (pn : nat) (rb : RawBlock) : list Block :=
  if (rb_type rb =? 0)%Z then flat_map (flat_map (span_blocks pn)) (rb_lines rb)
  else [].

Definition page_blocks (pg : nat * Page) : list Block :=
  flat_map (rawblock_blocks (fst pg)) (snd pg).

Definition spec_blocks (doc : Document) : list Block :=
  flat_map page_blocks (enumerate 1 doc).

(** ** Theorems *)

Lemma visit_span_app (pn : nat) (st : ExtractState) (sp : Span) :
  visit_span pn st sp =
  (fst st ++ span_blocks pn sp, snd st ++ map b_font_size (span_blocks pn sp)).
Proof.
  unfold visit_span, span_blocks. destruct (py_strip (span_text sp)); simpl.
  - autorewrite with pyrw. now destruct st.
  - reflexivity.
Qed.

Lemma visit_line_app (pn : nat) (st : ExtractState) (ln : Line) :
  visit_line pn st ln =
  (fst st ++ flat_map (span_blocks pn) ln,
   snd st ++ map b_font_size (flat_map (span_blocks pn) ln)).
Proof.
  unfold visit_line. rewrite (fold_left_pair_step _ (span_blocks pn)
    (fun sp => map b_font_size (span_blocks pn sp))) by apply visit_span_app.
  f_equal. f_equal. now apply flat_map_map_comm.
Qed.

Lemma visit_block_app (pn : nat) (st : ExtractState) (rb : RawBlock) :
  visit_block pn st rb =
  (fst st ++ rawblock_blocks pn rb, snd st ++ map b_font_size (rawblock_blocks pn rb)).
Proof.
  unfold visit_block, rawblock_blocks.
  destruct (rb_type rb =? 0)%Z; simpl.
  - rewrite (fold_left_pair_step _ (flat_map (span_blocks pn))
      (fun ln => map b_font_size (flat_map (span_blocks pn) ln))) by apply visit_line_app.
    f_equal. f_equal. now apply flat_map_map_comm.
  - rewrite !app_nil_r. now destruct st.
Qed.

Lemma visit_page_app (st : ExtractState) (pg : nat * Page) :
  visit_page st pg =
  (fst st ++ page_blocks pg, snd st ++ map b_font_size (page_blocks pg)).
Proof.
  unfold visit_page, page_blocks.
  rewrite (fold_left_pair_step _ (rawblock_blocks (fst pg))
    (fun rb => map b_font_size (rawblock_blocks (fst pg) rb))) by apply visit_block_app.
  f_equal. f_equal. now apply flat_map_map_comm.
Qed.

(** The page loop, from any accumulator, appends the blocks of the pages
    and their sizes. *)
Lemma fold_visit_pages (pages : list (nat * Page)) (st : ExtractState) :
  fold_left visit_page pages st =
  (fst st ++ flat_map page_blocks pages, snd st ++ map b_font_size (flat_map page_blocks pages)).
Proof.
  rewrite (fold_left_pair_step _ page_blocks
    (fun pg => map b_font_size (page_blocks pg))) by apply visit_page_app.
  f_equal. f_equal. now apply flat_map_map_comm.
Qed.

Lemma extract_blocks_fst (doc : Document) : fst (extract_blocks doc) = spec_blocks doc.
Proof. unfold extract_blocks. now rewrite fold_visit_pages. Qed.

(** One size per block, in the same order: [all_sizes] is empty exactly
    when no block was extracted. *)
Lemma extract_sizes_blocks (doc : Document) :
  snd (extract_blocks doc) = map b_font_size (fst (extract_blocks doc)).
Proof. unfold extract_blocks. now rewrite fold_visit_pages. Qed.

(** C11: Refinement: the loops of [extract_blocks] compute the declarative
    list of blocks, and [all_sizes] is the list of their font sizes. *)
Theorem extract_blocks_spec (doc : Document) :
  extract_blocks doc = (spec_blocks doc, map b_font_size (spec_blocks doc)).
Proof.
  rewrite (surjective_pairing (extract_blocks doc)), extract_sizes_blocks, extract_blocks_fst.
  reflexivity.
Qed.

Lemma in_span_blocks (pn : nat) (sp : Span) (b : Block) :
  In b (span_blocks pn sp) <->
  py_strip (span_text sp) <> [] /\
  b = mkBlock (py_strip (span_text sp)) (span_size sp) (span_font sp) (span_bbox sp) pn.
Proof.
  unfold span_blocks. destruct (py_strip (span_text sp)) as [|c t]; simpl.
  - tauto.
  - split; [intros [<-|[]]; split; congruence|intros [_ ->]; auto].
Qed.

(** Provenance: a block comes from a span of a text block of a page. *)
Lemma in_spec_blocks (doc : Document) (b : Block) :
  In b (spec_blocks doc) <->
  exists pn pg rb ln sp,
    In (pn, pg) (enumerate 1 doc) /\ In rb pg /\ rb_type rb = 0%Z /\
    In ln (rb_lines rb) /\ In sp ln /\ In b (span_blocks pn sp).
Proof.
  unfold spec_blocks, page_blocks, rawblock_blocks. rewrite in_flat_map. split.
  - intros ([pn pg] & Hpg & Hb). simpl in Hb. apply in_flat_map in Hb as (rb & Hrb & Hb).
    destruct (rb_type rb =? 0)%Z eqn:Ht; [|destruct Hb].
    apply Z.eqb_eq in Ht. apply in_flat_map in Hb as (ln & Hln & Hb).
    apply in_flat_map in Hb as (sp & Hsp & Hb). exists pn, pg, rb, ln, sp. auto 6.
  - intros (pn & pg & rb & ln & sp & Hpg & Hrb & Ht & Hln & Hsp & Hb).
    exists (pn, pg). split; [exact Hpg|]. simpl. apply in_flat_map. exists rb.
    apply Z.eqb_eq in Ht. rewrite Ht. split; [exact Hrb|].
    apply in_flat_map. exists ln. split; [exact Hln|]. apply in_flat_map. eauto.
Qed.

(** Every extracted block has a non-empty text with no white space at
    either end, and a page number between 1 and the number of pages. *)
Theorem extract_blocks_wf (doc : Document) (b : Block) :
  In b (fst (extract_blocks doc)) ->
  b_text b <> [] /\ trimmed (b_text b) /\ 1 <= b_page b <= length doc.
Proof.
  rewrite extract_blocks_fst. intros Hb.
  apply in_spec_blocks in Hb as (pn & pg & rb & ln & sp & Hpg & _ & _ & _ & _ & Hb).
  apply in_span_blocks in Hb as [Hne ->]. apply in_enumerate in Hpg as [Hpn _].
  simpl. split; [exact Hne|split; [apply py_strip_trimmed|lia]].
Qed.

(** The empty-document condition: nothing is extracted exactly when
    every span of every text block strips to the empty string. *)
Theorem extract_blocks_empty (doc : Document) :
  fst (extract_blocks doc) = [] <->
  (forall pn pg rb ln sp, In (pn, pg) (enumerate 1 doc) -> In rb pg ->
     rb_type rb = 0%Z -> In ln (rb_lines rb) -> In sp ln ->
     py_strip (span_text sp) = []).
Proof.
  rewrite extract_blocks_fst. split.
  - intros Hnil pn pg rb ln sp Hpg Hrb Ht Hln Hsp.
    destruct (py_strip (span_text sp)) as [|c t] eqn:E; [reflexivity|exfalso].
    assert (Hin : In (mkBlock (py_strip (span_text sp)) (span_size sp) (span_font sp)
                        (span_bbox sp) pn) (spec_blocks doc)).
    { apply in_spec_blocks. exists pn, pg, rb, ln, sp. repeat split; auto.
      apply in_span_blocks. rewrite E. split; [discriminate|reflexivity]. }
    rewrite Hnil in Hin. destruct Hin.
  - intros Hall. destruct (spec_blocks doc) as [|b r] eqn:E; [reflexivity|exfalso].
    assert (Hb : In b (spec_blocks doc)) by (rewrite E; left; reflexivity).
    apply in_spec_blocks in Hb as (pn & pg & rb & ln & sp & Hpg & Hrb & Ht & Hln & Hsp & Hb).
    apply in_span_blocks in Hb as [Hne _]. exact (Hne (Hall pn pg rb ln sp Hpg Hrb Ht Hln Hsp)).
Qed.

Lemma page_blocks_page (pg : nat * Page) (b : Block) :
  In b (page_blocks pg) -> b_page b = fst pg.
Proof.
  unfold page_blocks, rawblock_blocks. intros Hb.
  apply in_flat_map in Hb as (rb & _ & Hb). destruct (rb_type rb =? 0)%Z; [|destruct Hb].
  apply in_flat_map in Hb as (ln & _ & Hb). apply in_flat_map in Hb as (sp & _ & Hb).
  now apply in_span_blocks in Hb as [_ ->].
Qed.

Lemma pages_sorted_from (k : nat) (doc : Document) :
  Sorted le (map b_page (flat_map page_blocks (enumerate k doc))) /\
  Forall (fun p => k <= p) (map b_page (flat_map page_blocks (enumerate k doc))).
Proof.
  revert k. induction doc as [|pg doc IH]; intros k; [split; constructor|].
  rewrite enumerate_cons. simpl. rewrite map_app.
  destruct (IH (S k)) as [Hs Hge].
  assert (Hk : forall p, In p (map b_page (page_blocks (k, pg))) -> p = k).
  { intros p Hp. apply in_map_iff in Hp as (b & <- & Hb). exact (page_blocks_page _ b Hb). }
  split.
  - apply Sorted_app; [|exact Hs|].
    + induction (map b_page (page_blocks (k, pg))) as [|p r IHr]; constructor.
      * apply IHr. intros q Hq. apply Hk. right. exact Hq.
      * destruct r as [|q r]; constructor. rewrite (Hk p), (Hk q); simpl; auto.
    + intros x y Hx Hy. rewrite (Hk x Hx). rewrite Forall_forall in Hge.
      specialize (Hge y Hy). lia.
  - apply Forall_app. split.
    + apply Forall_forall. intros p Hp. rewrite (Hk p Hp). lia.
    + eapply Forall_impl; [|exact Hge]. intros; simpl in *; lia.
Qed.

(** Blocks come out in page order. *)
Theorem extract_blocks_page_order (doc : Document) :
  Sorted le (map b_page (fst (extract_blocks doc))).
Proof. rewrite extract_blocks_fst. apply pages_sorted_from. Qed.

(** ** Witnesses *)

(** A span with text [t], size [sz], top edge [y] and font [f]. *)
Definition fixture_span (t : text) (sz y : Q) (f : text) : Span :=
  mkSpan t sz f (mkBBox 0 y 100 (y + 10)).

(** Two pages: a title and a body line, an image block, and a blank span. *)
Definition fixture_doc : Document :=
  [[mkRawBlock 0 [[fixture_span ‹"  Title  "› 20 50 ‹"Arial-Bold"›;
                   fixture_span ‹"body text"› 10 120 ‹"Arial"›]];
    mkRawBlock 1 []];
   [mkRawBlock 0 [[fixture_span ‹"   "› 10 10 ‹"Arial"›]]]].

Lemma extract_blocks_wf_witness :
  In (mkBlock ‹"Title"› 20 ‹"Arial-Bold"› (mkBBox 0 50 100 (50 + 10)) 1)
     (fst (extract_blocks fixture_doc)) /\
  ‹"Title"› <> [] /\ trimmed ‹"Title"› /\ 1 <= 1 <= length fixture_doc.
Proof.
  assert (H : In (mkBlock ‹"Title"› 20 ‹"Arial-Bold"› (mkBBox 0 50 100 (50 + 10)) 1)
                 (fst (extract_blocks fixture_doc))) by (vm_compute; left; reflexivity).
  split; [exact H|]. exact (extract_blocks_wf fixture_doc _ H).
Defined.
