(* ===== verification/Structure.v ===== *)
(** * Structural score: the real-number reading of [score_block]
    (main.py, lines 41-50) and Python's [min]/[max] (line 80)

    The layout score of a block from its font size relative to the
    document's smallest and largest sizes, plus bonuses for a bold font,
    an upper-case text, and a position near the top of the page.
    Python's [min] and [max] (line 80) are [py_min] and [py_max]; they
    only compare, so they are exact.  [size_score] and [score_block]
    here compute in exact rational arithmetic: they are the
    specification of the score (the spec describes it over the reals),
    not the code, which rounds every operation.  The code's score is
    [ScoreFloat.score_block_f]; [ScoreFloat.score_block_f_error] shows
    that it stays within [2^-48] of this one, and the pipeline composes
    the double scores. *)

From S2P Require Import Prelude PyText Extract.
Open Scope Q_scope.

(** ** Constants of the code *)

Definition EPS : Q := 1 # 100000.          (* 1e-5, line 42 *)
Definition BOLD_BONUS : Q := 1 # 2.        (* line 45 *)
Definition UPPER_BONUS : Q := 3 # 10.      (* line 47 *)
Definition TOP_BONUS : Q := 3 # 10.        (* line 49 *)
Definition TOP_Y : Q := 100.               (* line 48 *)

(** ** Python's [min] and [max] on a list of floats *)

(** [min(l)] keeps the current item unless a later one is smaller;
    on an empty list it raises ([None]). *)
Definition py_min (l : list Q) : option Q :=
  match l with
  | [] => None
  | x :: xs => Some (fold_left (fun m y => if qltb y m then y else m) xs x)
  end.

(** [max(l)] keeps the current item unless a later one is larger. *)
Definition py_max (l : list Q) : option Q :=
  match l with
  | [] => None
  | x :: xs => Some (fold_left (fun m y => if qltb m y then y else m) xs x)
  end.

(** ** The score *)

Section Scoring.
Context `{UnicodeDB}.

(** Line 42 over the reals. *)
Definition size_score (b : Block) (min_size max_size : Q) : Q :=
  (b_font_size b - min_size) / (max_size - min_size + EPS).

(** Lines 41-50 over the reals. *)
Definition score_block (b : Block) (min_size max_size : Q) : Q :=
  let score := size_score b min_size max_size in
  let score := if py_contains ‹"Bold"› (b_font b) then score + BOLD_BONUS else score in
  let score := if py_isupper (b_text b) then score + UPPER_BONUS else score in
  if qltb (y0 (b_bbox b)) TOP_Y then score + TOP_BONUS else score.

(** The three bonuses, each [0] when its test fails. *)
Definition bonuses (b : Block) : Q :=
  (if py_contains ‹"Bold"› (b_font b) then BOLD_BONUS else 0)
  + (if py_isupper (b_text b) then UPPER_BONUS else 0)
  + (if qltb (y0 (b_bbox b)) TOP_Y then TOP_BONUS else 0).

End Scoring.

(** The block [b] with another font size, all else equal. *)
Definition with_font_size (b : Block) (f : Q) : Block :=
  mkBlock (b_text b) f (b_font b) (b_bbox b) (b_page b).

(** ** Theorems *)

Lemma Qdiv_le_mono (a b d : Q) : 0 < d -> a <= b -> a / d <= b / d.
Proof.
  intros Hd Hab. unfold Qdiv. apply Qmult_le_compat_r; [exact Hab|].
  apply Qlt_le_weak, Qinv_lt_0_compat, Hd.
Qed.

Lemma Qdiv_lt_mono (a b d : Q) : 0 < d -> a < b -> a / d < b / d.
Proof.
  intros Hd Hab. unfold Qdiv. apply Qmult_lt_compat_r; [|exact Hab].
  apply Qinv_lt_0_compat, Hd.
Qed.

Lemma py_min_fold (xs : list Q) (x : Q) :
  let m := fold_left (fun m y => if qltb y m then y else m) xs x in
  (m = x \/ In m xs) /\ m <= x /\ Forall (fun y => m <= y) xs.
Proof.
  revert x. induction xs as [|y xs IH]; intros x; simpl.
  - split; [auto|split; auto with pyhints].
  - destruct (IH (if qltb y x then y else x)) as (Hin & Hle & Hall).
    qcase y x; simpl in *; (split; [intuition congruence|]);
      (split; [|constructor; [|exact Hall]]); lra.
Qed.

(** [min(l)] is below every element of [l]. *)
Lemma py_min_lower (l : list Q) (m : Q) : py_min l = Some m -> Forall (fun y => m <= y) l.
Proof.
  destruct l as [|x xs]; simpl; [discriminate|]. intros E. injection E as <-.
  destruct (py_min_fold xs x) as (_ & Hle & Hall). now constructor.
Qed.

(** [min(l)] returns an element of [l] that is below every element of [l]. *)
Theorem py_min_spec (l : list Q) (m : Q) :
  py_min l = Some m -> In m l /\ Forall (fun y => m <= y) l.
Proof.
  intros Hm. split; [|exact (py_min_lower l m Hm)].
  destruct l as [|x xs]; simpl in *; [discriminate|]. injection Hm as <-.
  destruct (py_min_fold xs x) as (Hin & _ & _). intuition congruence.
Qed.

Lemma py_max_fold (xs : list Q) (x : Q) :
  let m := fold_left (fun m y => if qltb m y then y else m) xs x in
  (m = x \/ In m xs) /\ x <= m /\ Forall (fun y => y <= m) xs.
Proof.
  revert x. induction xs as [|y xs IH]; intros x; simpl.
  - split; [auto|split; auto with pyhints].
  - destruct (IH (if qltb x y then y else x)) as (Hin & Hle & Hall).
    qcase x y; simpl in *; (split; [intuition congruence|]);
      (split; [|constructor; [|exact Hall]]); lra.
Qed.

Theorem py_max_spec (l : list Q) (m : Q) :
  py_max l = Some m -> In m l /\ Forall (fun y => y <= m) l.
Proof.
  destruct l as [|x xs]; simpl; [discriminate|]. intros E. injection E as <-.
  destruct (py_max_fold xs x) as (Hin & Hle & Hall). split; [simpl; intuition congruence|].
  constructor; assumption.
Qed.

Section ScoringTheory.
Context `{UnicodeDB}.

(** The denominator of line 42 is positive whenever [min_size <= max_size]:
    the [1e-5] keeps it away from zero when all sizes are equal. *)
Lemma size_denominator_pos (mn mx : Q) : mn <= mx -> 0 < mx - mn + EPS.
Proof. unfold EPS. intros. lra. Qed.

(** The score is the size score plus the bonuses. *)
Lemma score_block_decomp (b : Block) (mn mx : Q) :
  score_block b mn mx == size_score b mn mx + bonuses b.
Proof.
  unfold score_block, bonuses.
  destruct (py_contains _ _), (py_isupper _), (qltb _ _); ring.
Qed.

Lemma bonuses_bounds (b : Block) : 0 <= bonuses b <= 11 # 10.
Proof.
  unfold bonuses, BOLD_BONUS, UPPER_BONUS, TOP_BONUS.
  destruct (py_contains _ _), (py_isupper _), (qltb _ _); split; lra.
Qed.

(** For a block whose size lies in the document's range, the size
    score lies in [[0, 1)]. *)
Theorem size_score_bounds (b : Block) (mn mx : Q) :
  mn <= b_font_size b <= mx -> 0 <= size_score b mn mx < 1.
Proof.
  intros [Hlo Hhi]. assert (Hd := size_denominator_pos mn mx ltac:(lra)).
  unfold size_score. split.
  - apply Qle_shift_div_l; [exact Hd|]. lra.
  - apply Qlt_shift_div_r; [exact Hd|]. unfold EPS in *. lra.
Qed.

(** Hence the structural score lies in [[0, 2.1)]. *)
Theorem score_block_bounds (b : Block) (mn mx : Q) :
  mn <= b_font_size b <= mx -> 0 <= score_block b mn mx < 21 # 10.
Proof.
  intros Hr. rewrite score_block_decomp.
  destruct (size_score_bounds b mn mx Hr). destruct (bonuses_bounds b). split; lra.
Qed.

(** Monotonicity in the font size, all else equal. *)
Theorem score_block_mono (b : Block) (f1 f2 mn mx : Q) :
  mn <= mx -> f1 <= f2 ->
  score_block (with_font_size b f1) mn mx <= score_block (with_font_size b f2) mn mx.
Proof.
  intros Hm Hf. rewrite !score_block_decomp. unfold bonuses. simpl.
  apply Qplus_le_compat; [|apply Qle_refl].
  apply Qdiv_le_mono; [apply size_denominator_pos; exact Hm|]. simpl. lra.
Qed.

(** Strictly larger font, strictly larger score. *)
Theorem score_block_strict_mono (b : Block) (f1 f2 mn mx : Q) :
  mn <= mx -> f1 < f2 ->
  score_block (with_font_size b f1) mn mx < score_block (with_font_size b f2) mn mx.
Proof.
  intros Hm Hf. rewrite !score_block_decomp. unfold bonuses. simpl.
  apply Qplus_lt_le_compat; [|apply Qle_refl].
  apply Qdiv_lt_mono; [apply size_denominator_pos; exact Hm|]. simpl. lra.
Qed.

(** When all sizes of a document are equal the size score is [0], so
    the score is the sum of the bonuses: no division by zero. *)
Theorem score_block_flat (b : Block) (mn mx : Q) :
  mn == mx -> mn <= b_font_size b <= mx -> score_block b mn mx == bonuses b.
Proof.
  intros Heq Hr. rewrite score_block_decomp.
  assert (Hs : b_font_size b - mn == 0) by lra.
  unfold size_score. rewrite Hs. unfold Qdiv. ring.
Qed.

(** The score depends on the sizes as numbers, not their representation. *)
#[export] Instance score_block_proper (b : Block) :
  Proper (Qeq ==> Qeq ==> Qeq) (score_block b).
Proof.
  intros mn mn' Hmn mx mx' Hmx. rewrite !score_block_decomp.
  unfold size_score. rewrite Hmn, Hmx. reflexivity.
Qed.

End ScoringTheory.

Section DocumentScores.
Context `{UnicodeDB}.

(** Every size of a list lies between its [min] and its [max]. *)
Lemma sizes_in_range (blocks : list Block) (mn mx : Q) :
  py_min (map b_font_size blocks) = Some mn -> py_max (map b_font_size blocks) = Some mx ->
  Forall (fun b => mn <= b_font_size b <= mx) blocks.
Proof.
  intros Hmn Hmx. apply py_min_lower in Hmn. destruct (py_max_spec _ _ Hmx) as [_ Hhi].
  rewrite Forall_forall in *. intros b Hb. apply (in_map b_font_size) in Hb. auto.
Qed.

End DocumentScores.

(** ** Witnesses *)

(** A bold upper-case heading near the top of page 1. *)
Definition fixture_block : Block := mkBlock ‹"INTRO"› 12 ‹"Arial-Bold"› (mkBBox 0 50 100 60) 1.

Lemma score_block_mono_witness :
  10 <= 20 /\ 10 <= 14 /\
  @score_block ascii_db (with_font_size fixture_block 10) 10 20
  <= @score_block ascii_db (with_font_size fixture_block 14) 10 20.
Proof.
  assert (H1 : 10 <= 20) by (vm_compute; discriminate).
  assert (H2 : 10 <= 14) by (vm_compute; discriminate).
  split; [exact H1|split; [exact H2|]].
  exact (@score_block_mono ascii_db fixture_block 10 14 10 20 H1 H2).
Defined.

Lemma score_block_strict_mono_witness :
  10 <= 20 /\ 12 < 14 /\
  @score_block ascii_db (with_font_size fixture_block 12) 10 20
  < @score_block ascii_db (with_font_size fixture_block 14) 10 20.
Proof.
  assert (H1 : 10 <= 20) by (vm_compute; discriminate).
  assert (H2 : 12 < 14) by (vm_compute; reflexivity).
  split; [exact H1|split; [exact H2|]].
  exact (@score_block_strict_mono ascii_db fixture_block 12 14 10 20 H1 H2).
Defined.

(** All sizes 12: the score is the bonuses, 0.5 + 0.3 + 0.3. *)
Lemma score_block_flat_witness :
  12 == 12 /\ 12 <= b_font_size fixture_block <= 12 /\
  @score_block ascii_db fixture_block 12 12 == @bonuses ascii_db fixture_block.
Proof.
  assert (H1 : 12 == 12) by reflexivity.
  assert (H2 : 12 <= b_font_size fixture_block <= 12)
    by (split; vm_compute; discriminate).
  split; [exact H1|split; [exact H2|]].
  exact (@score_block_flat ascii_db fixture_block 12 12 H1 H2).
Defined.

Lemma score_block_bounds_witness :
  10 <= b_font_size fixture_block <= 20 /\
  0 <= @score_block ascii_db fixture_block 10 20 < 21 # 10.
Proof.
  assert (H : 10 <= b_font_size fixture_block <= 20) by (split; vm_compute; discriminate).
  split; [exact H|]. exact (@score_block_bounds ascii_db fixture_block 10 20 H).
Defined.

Lemma py_min_spec_witness :
  py_min [3; 1; 2] = Some 1 /\ In 1 [3; 1; 2] /\ Forall (fun y => 1 <= y) [3; 1; 2].
Proof.
  assert (H : py_min [3; 1; 2] = Some 1) by (vm_compute; reflexivity).
  split; [exact H|]. exact (py_min_spec [3; 1; 2] 1 H).
Defined.
