(* ===== verification/ScoreFloat.v ===== *)
(** * The structural score as the code computes it (main.py, lines 41-50, 80-83)

    The code computes the score with Python floats: every [-], [+] and
    [/] rounds its exact result to the nearest double ([FloatArith]),
    the literals [1e-5], [0.5] and [0.3] are the doubles [float()]
    reads for them, and the division raises [ZeroDivisionError] on a
    zero divisor.  [size_score_f] and [score_block_f] are lines 42 and
    41-50 in that arithmetic, and [structure_scores] is lines 80-83:
    [min]/[max] of the sizes and the loop that scores every block.
    These are the scores the pipeline composes.

    The theorems: the score is monotone in the font size (the first
    testable property of the spec, here for the code's doubles), it lies
    between [0] and the double nearest [2.1], equal sizes give a size
    score of exactly [0], no [min <= max] makes the division raise, and
    a text without a letter gets no upper-case bonus.  The double score
    is within [2^-48] of the real-number score of [Structure], the
    specification ([score_block_f_error]), each rounding adding at most
    a few units of [2^-53] ([size_score_f_error], [bonus_near]); that
    much is enough to make two blocks of different font sizes tie where
    the real score tells them apart ([score_block_f_tie]). *)

From S2P Require Import Prelude PyText Json Float FloatArith Extract Structure.
From Stdlib Require Import QArith Qabs Lqa Setoid Morphisms.
Open Scope Q_scope.

(** ** The code's literals as doubles *)

Definition EPS_f : pyfloat := round_double EPS.                  (* 1e-5, line 42 *)
Definition BOLD_f : pyfloat := round_double BOLD_BONUS.          (* 0.5, line 45 *)
Definition UPPER_f : pyfloat := round_double UPPER_BONUS.        (* 0.3, line 47 *)
Definition TOP_f : pyfloat := round_double TOP_BONUS.            (* 0.3, line 49 *)

(** ** The score *)

Section ScoreFloat.
Context `{UnicodeDB}.

(** Line 42: [(block["font_size"] - min_size) / (max_size - min_size + 1e-5)]. *)
Definition size_score_f (b : Block) (min_size max_size : Q) : result PyExn pyfloat :=
  float_div (float_sub (PFinite (b_font_size b)) (PFinite min_size))
            (float_add (float_sub (PFinite max_size) (PFinite min_size)) EPS_f).

(** Lines 44-49: the three [score += ...]. *)
Definition add_bonuses_f (b : Block) (score : pyfloat) : pyfloat :=
  let score := if py_contains ‹"Bold"› (b_font b) then float_add score BOLD_f else score in
  let score := if py_isupper (b_text b) then float_add score UPPER_f else score in
  if qltb (y0 (b_bbox b)) TOP_Y then float_add score TOP_f else score.

(** Lines 41-50. *)
Definition score_block_f (b : Block) (min_size max_size : Q) : result PyExn pyfloat :=
  score <- size_score_f b min_size max_size ;;
  Ok (add_bonuses_f b score).

(** Lines 80-83: [min(sizes), max(sizes)] ([ValueError] on an empty
    list), then the loop that stores [score_block(b, min_size,
    max_size)] in every block, stopped by the first exception. *)
Definition structure_scores (blocks : list Block) (sizes : list Q) : result PyExn (list pyfloat) :=
  match py_min sizes, py_max sizes with
  | Some mn, Some mx => py_map_result (fun b => score_block_f b mn mx) blocks
  | _, _ => Err ValueError
  end.

End ScoreFloat.

(** The font sizes of [blocks] differ by less than [d]. *)
Definition sizes_within (d : Q) (blocks : list Block) : Prop :=
  forall b b', In b blocks -> In b' blocks -> b_font_size b - b_font_size b' < d.

(** ** The doubles the code meets *)

(** [1e-5] as a double. *)
Definition eps_d : Q := dyadic 5902958103587057 (-69).
(** The double nearest [0.3]. *)
Definition three_tenths_d : Q := dyadic 5404319552844595 (-54).
(** The doubles [1.8] and [2.1] nearest [1.8] and [2.1]. *)
Definition one_eight_d : Q := dyadic 8106479329266893 (-52).
Definition two_one_d : Q := dyadic 4728779608739021 (-51).
Definition big_d : Q := inject_Z (2 ^ 1023).
(** [0.5], [1.0] and [1.5] as [round_double] writes them. *)
Definition half_d : Q := dyadic 4503599627370496 (-53).
Definition one_d : Q := dyadic 4503599627370496 (-52).
Definition three_halves_d : Q := dyadic 6755399441055744 (-52).

Lemma EPS_f_val : EPS_f = PFinite eps_d.
Proof. vm_compute. reflexivity. Qed.

Lemma BOLD_f_val : BOLD_f = PFinite half_d.
Proof. vm_compute. reflexivity. Qed.

Lemma UPPER_f_val : UPPER_f = PFinite three_tenths_d.
Proof. vm_compute. reflexivity. Qed.

Lemma TOP_f_val : TOP_f = PFinite three_tenths_d.
Proof. vm_compute. reflexivity. Qed.

(** The roundings of the bounds the proofs use, by evaluation. *)
Lemma round_consts :
  round_double 0 = PFinite 0 /\ round_double 1 = PFinite one_d /\ round_double big_d = PFinite big_d /\
  round_double eps_d = PFinite eps_d /\ round_double (big_d + eps_d) = PFinite big_d /\
  round_double (one_d + half_d) = PFinite three_halves_d /\
  round_double (three_halves_d + three_tenths_d) = PFinite one_eight_d /\
  round_double (one_eight_d + three_tenths_d) = PFinite two_one_d.
Proof. repeat split; vm_compute; reflexivity. Qed.

Lemma eps_d_pos : 0 < eps_d.
Proof. vm_compute. reflexivity. Qed.

(** [max_size - min_size + 1e-5] is a positive double, at least the
    double [max_size - min_size]. *)
Lemma size_denominator_f (mn mx : Q) : mn <= mx -> mx - mn < big_d ->
  exists t D, float_sub (PFinite mx) (PFinite mn) = PFinite t /\
    float_add (PFinite t) EPS_f = PFinite D /\ 0 <= t <= D /\ 0 < D.
Proof.
  intros Hle Hlt. destruct round_consts as (R0 & _ & Rb & Re & Rbe & _).
  destruct (round_double_range (mx + - mn) 0 big_d 0 big_d) as (t & Ht & Ht0 & Ht1);
    [apply (proj1 (Qle_minus_iff mn mx)), Hle|apply Qlt_le_weak, Hlt|exact R0|exact Rb|].
  destruct (round_double_range (t + eps_d) eps_d (big_d + eps_d) eps_d big_d) as (D & HD & HD0 & HD1);
    [rewrite <- (Qplus_0_l eps_d) at 1; apply (proj2 (Qplus_le_l _ _ _)), Ht0
    |apply (proj2 (Qplus_le_l _ _ _)), Ht1|exact Re|exact Rbe|].
  exists t, D. unfold float_sub. cbn [float_neg float_add]. rewrite EPS_f_val. cbn [float_add].
  split; [exact Ht|]. split; [exact HD|]. split; [split; [exact Ht0|]|].
  - pose proof (round_double_add_ge t eps_d) as G. rewrite HD in G.
    apply G; [rewrite <- Ht; apply round_double_is_double|apply Qlt_le_weak, eps_d_pos].
  - apply (Qlt_le_trans _ eps_d); [exact eps_d_pos|exact HD0].
Qed.

(** Line 42 step by step, for a font size between the document's
    smallest and largest: [a = fs - min_size] and [t = max_size -
    min_size] round to doubles with [0 <= a <= t <= D], [D] the rounded
    denominator, and the division does not raise. *)
Lemma size_score_f_steps `{UnicodeDB} (b : Block) (mn mx : Q) :
  mn <= b_font_size b -> b_font_size b <= mx -> mx - mn < big_d ->
  exists a t D, float_sub (PFinite (b_font_size b)) (PFinite mn) = PFinite a /\
    float_sub (PFinite mx) (PFinite mn) = PFinite t /\ float_add (PFinite t) EPS_f = PFinite D /\
    0 <= a /\ a <= t /\ t <= D /\ 0 < D /\ size_score_f b mn mx = Ok (round_double (a / D)).
Proof.
  intros H1 H2 Hlt. destruct (size_denominator_f mn mx (Qle_trans _ _ _ H1 H2) Hlt) as (t & D & Et & ED & [Ht0 HtD] & HD).
  assert (Ha : float_le (round_double (b_font_size b + - mn)) (round_double (mx + - mn)))
    by (apply round_double_mono, (proj2 (Qplus_le_l _ _ _)), H2).
  assert (Ha0 : float_le (round_double 0) (round_double (b_font_size b + - mn)))
    by (apply round_double_mono, (proj1 (Qle_minus_iff _ _)), H1).
  change (round_double (mx + - mn)) with (float_sub (PFinite mx) (PFinite mn)) in Ha. rewrite Et in Ha.
  destruct round_consts as (R0 & _). rewrite R0 in Ha0.
  destruct (float_between _ 0 t Ha0 Ha) as (a & Ea & Ha1 & Ha2).
  change (round_double (b_font_size b + - mn)) with (float_sub (PFinite (b_font_size b)) (PFinite mn)) in Ea.
  exists a, t, D. unfold size_score_f. rewrite Ea, Et, ED, float_div_pos by exact HD.
  repeat split; assumption.
Qed.

(** The bonuses keep the order of the scores. *)
Lemma add_bonuses_f_mono `{UnicodeDB} (b : Block) (s1 s2 : pyfloat) :
  float_le s1 s2 -> float_le (add_bonuses_f b s1) (add_bonuses_f b s2).
Proof.
  intros Hle. unfold add_bonuses_f. rewrite BOLD_f_val, UPPER_f_val, TOP_f_val.
  destruct (py_contains _ _), (py_isupper _), (qltb _ _); repeat apply float_add_mono_l; exact Hle.
Qed.

Lemma add_bonuses_f_font `{UnicodeDB} (b : Block) (f : Q) (s : pyfloat) :
  add_bonuses_f (with_font_size b f) s = add_bonuses_f b s.
Proof. reflexivity. Qed.

(** C7: Monotonicity in the font size, in the code's doubles: for font
    sizes between the document's smallest and largest, whose range is
    below [2^1023], score_block never raises and a larger font size never
    gives a smaller score, all else equal. *)
Theorem score_block_f_mono `{UnicodeDB} (b : Block) (f1 f2 mn mx : Q) :
  mn <= f1 -> f1 <= f2 -> f2 <= mx -> mx - mn < big_d ->
  exists s1 s2, score_block_f (with_font_size b f1) mn mx = Ok s1 /\
    score_block_f (with_font_size b f2) mn mx = Ok s2 /\ float_le s1 s2.
Proof.
  intros H1 H12 H2 Hlt.
  destruct (size_score_f_steps (with_font_size b f1) mn mx) as (a1 & t & D & Ea1 & Et & ED & _ & _ & _ & HD & S1);
    [exact H1|exact (Qle_trans _ _ _ H12 H2)|exact Hlt|].
  destruct (size_score_f_steps (with_font_size b f2) mn mx) as (a2 & t' & D' & Ea2 & Et' & ED' & _ & _ & _ & _ & S2);
    [exact (Qle_trans _ _ _ H1 H12)|exact H2|exact Hlt|].
  rewrite Et in Et'. injection Et' as <-. rewrite ED in ED'. injection ED' as <-.
  assert (Ha : float_le (PFinite a1) (PFinite a2)).
  { rewrite <- Ea1, <- Ea2. apply round_double_mono, (proj2 (Qplus_le_l _ _ _)), H12. }
  unfold score_block_f. rewrite S1, S2. cbn [rbind]. eexists _, _. split; [reflexivity|]. split; [reflexivity|].
  rewrite !add_bonuses_f_font. apply add_bonuses_f_mono, round_double_mono.
  apply Qmult_le_r; [apply Qinv_lt_0_compat, HD|exact Ha].
Qed.

(** A closed comparison of rationals, by evaluation. *)
Ltac qle_closed := apply Qle_bool_imp_le; vm_compute; reflexivity.

(** Bounds in the code's doubles: for a font size between the
    document's smallest and largest, the structural score is a finite
    double between [0] and the double nearest [2.1], which [1.0 + 0.5 +
    0.3 + 0.3] evaluates to. *)
Theorem score_block_f_bounds `{UnicodeDB} (b : Block) (mn mx : Q) :
  mn <= b_font_size b -> b_font_size b <= mx -> mx - mn < big_d ->
  exists s, score_block_f b mn mx = Ok (PFinite s) /\ 0 <= s <= two_one_d.
Proof.
  intros H1 H2 Hlt.
  destruct (size_score_f_steps b mn mx H1 H2 Hlt) as (a & t & D & _ & _ & _ & Ha0 & Hat & HtD & HD & S).
  destruct round_consts as (R0 & R1 & _ & _ & _ & R15 & R18 & R21).
  destruct (round_double_range (a / D) 0 1 0 one_d) as (s0 & E0 & B0); [| |exact R0|exact R1|].
  { apply Qle_shift_div_l; [exact HD|rewrite Qmult_0_l; exact Ha0]. }
  { apply Qle_shift_div_r; [exact HD|rewrite Qmult_1_l; exact (Qle_trans _ _ _ Hat HtD)]. }
  unfold score_block_f. rewrite S, E0. cbn [rbind]. unfold add_bonuses_f.
  rewrite BOLD_f_val, UPPER_f_val, TOP_f_val. cbv zeta.
  destruct (add_bonus_bound (py_contains ‹"Bold"› (b_font b)) s0 half_d one_d three_halves_d)
    as (s1 & E1 & B1); [exact B0|qle_closed|exact R15|qle_closed|rewrite E1].
  destruct (add_bonus_bound (py_isupper (b_text b)) s1 three_tenths_d three_halves_d one_eight_d)
    as (s2 & E2 & B2); [exact B1|qle_closed|exact R18|qle_closed|rewrite E2].
  destruct (add_bonus_bound (qltb (y0 (b_bbox b)) TOP_Y) s2 three_tenths_d one_eight_d two_one_d)
    as (s3 & E3 & B3); [exact B2|qle_closed|exact R21|qle_closed|rewrite E3].
  exists s3. split; [reflexivity|exact B3].
Qed.

(** C8: The second testable property of the spec, in the code's doubles:
    when a document's smallest and largest sizes are equal (so every
    block has that size), [size_score] is exactly [0.0]: the [1e-5]
    keeps the divisor from being zero, so no [ZeroDivisionError]. *)
Theorem size_score_f_equal_sizes `{UnicodeDB} (b : Block) :
  size_score_f b (b_font_size b) (b_font_size b) = Ok (PFinite 0).
Proof.
  unfold size_score_f, float_sub. cbn [float_neg float_add].
  rewrite (round_double_proper _ _ (Qplus_opp_r (b_font_size b))).
  destruct round_consts as (R0 & _ & _ & Re & _). rewrite R0, EPS_f_val. cbn [float_add].
  rewrite (round_double_proper _ _ (Qplus_0_l eps_d)), Re, float_div_pos by exact eps_d_pos.
  change (0 / eps_d) with (0 * / eps_d). rewrite (round_double_proper _ _ (Qmult_0_l (/ eps_d))), R0.
  reflexivity.
Qed.

(** ** Distance to the exact score *)

(** Line 42 in doubles is within [18 * 2^-53] of [Structure.size_score]. *)
Lemma size_score_f_error `{UnicodeDB} (b : Block) (mn mx : Q) :
  mn <= b_font_size b -> b_font_size b <= mx -> mx - mn < big_d ->
  exists s0, size_score_f b mn mx = Ok (PFinite s0) /\ 0 <= s0 /\
    Qabs (s0 - size_score b mn mx) <= 18 * u53.
Proof.
  intros H1 H2 Hlt.
  destruct (size_score_f_steps b mn mx H1 H2 Hlt) as (a & t & D & Ea & Et & ED & Ha0 & Hat & HtD & HD & S).
  cbn [float_sub float_add float_neg] in Ea, Et. rewrite EPS_f_val in ED. cbn [float_add] in ED.
  apply near_round in Ea, Et, ED.
  rewrite (Qabs_pos (b_font_size b + - mn)) in Ea by (apply (proj1 (Qle_minus_iff _ _)), H1).
  rewrite (Qabs_pos (mx + - mn)) in Et by (apply (proj1 (Qle_minus_iff _ _)), (Qle_trans _ _ _ H1 H2)).
  pose proof eps_d_pos as Pe. rewrite (Qabs_pos (t + eps_d)) in ED by lra.
  assert (Ee : Qabs (eps_d - EPS) <= EPS * u53) by (apply Qle_bool_imp_le; vm_compute; reflexivity).
  destruct round_consts as (R0 & R1 & _).
  destruct (round_double_range (a / D) 0 1 0 one_d) as (s0 & E0 & Hs0 & Hs1); [| |exact R0|exact R1|].
  { apply Qle_shift_div_l; [exact HD|rewrite Qmult_0_l; exact Ha0]. }
  { apply Qle_shift_div_r; [exact HD|rewrite Qmult_1_l; exact (Qle_trans _ _ _ Hat HtD)]. }
  exists s0. rewrite S, E0. split; [reflexivity|]. split; [exact Hs0|].
  pose proof (near_round _ _ E0) as N0.
  assert (Hq : 0 <= a / D <= 1).
  { split; [apply Qle_shift_div_l; [exact HD|rewrite Qmult_0_l; exact Ha0]|].
    apply Qle_shift_div_r; [exact HD|rewrite Qmult_1_l; exact (Qle_trans _ _ _ Hat HtD)]. }
  rewrite (Qabs_pos (a / D)) in N0 by lra.
  assert (Q : Qabs (a / D - size_score b mn mx) <= 4 * (4 * u53)).
  { unfold size_score. apply quot_near.
    - unfold EPS. lra.
    - split; [apply (proj1 (Qle_minus_iff _ _)), H1|unfold EPS; lra].
    - unfold u53; split; lra.
    - apply Qabs_Qle_condition in Ea. apply Qabs_Qle_condition. unfold u53, eta100, EPS in *. lra.
    - apply Qabs_Qle_condition in Et, ED, Ee. apply Qabs_Qle_condition. unfold u53, eta100, EPS in *. lra. }
  apply Qabs_Qle_condition in Q, N0. apply Qabs_Qle_condition. unfold u53, eta100 in *. lra.
Qed.

(** One [score += c] in doubles, next to its exact counterpart: the
    distance grows by at most [4 * 2^-53]. *)
Lemma bonus_near (cond : bool) (s S c c' k : Q) : Qabs (s - S) <= k * u53 -> 0 <= S <= 2 ->
  0 <= c <= 1 # 2 -> Qabs (c' - c) <= u53 -> 0 <= k <= 32 ->
  exists s', (if cond then float_add (PFinite s) (PFinite c') else PFinite s) = PFinite s' /\
    Qabs (s' - (if cond then S + c else S)) <= (k + 4) * u53.
Proof.
  intros Hs HS Hc Hc' Hk. apply Qabs_Qle_condition in Hs, Hc'. unfold u53 in *.
  destruct cond; [|exists s; split; [reflexivity|apply Qabs_Qle_condition; lra]].
  cbn [float_add]. destruct (round_double_finite (s + c')) as (s' & E).
  { apply (Qle_lt_trans _ 3).
    - apply Qabs_Qle_condition. lra.
    - vm_compute. reflexivity. }
  exists s'. split; [exact E|]. pose proof (near_round _ _ E) as N.
  assert (A : Qabs (s + c') <= 13 # 5) by (apply Qabs_Qle_condition; lra).
  assert (B : Qabs (s + c') * u53 <= (13 # 5) * u53) by (apply Qmult_le_compat_r; [exact A|unfold u53; lra]).
  apply Qabs_Qle_condition in N. apply Qabs_Qle_condition. unfold u53, eta100 in *. lra.
Qed.

(** C9: The score in doubles is within [2^-48] of the exact score of
    [Structure]: for font sizes between the document's smallest and
    largest (a range below [2^1023]), every rounding of lines 42-49
    together moves the score by less than [2^-48]. *)
Theorem score_block_f_error `{UnicodeDB} (b : Block) (mn mx : Q) :
  mn <= b_font_size b -> b_font_size b <= mx -> mx - mn < big_d ->
  exists s, score_block_f b mn mx = Ok (PFinite s) /\
    Qabs (s - score_block b mn mx) <= 1 # 281474976710656.
Proof.
  intros H1 H2 Hlt. destruct (size_score_f_error b mn mx H1 H2 Hlt) as (s0 & S0 & _ & N0).
  pose proof (size_score_bounds b mn mx (conj H1 H2)) as B0.
  assert (Ch : Qabs (half_d - BOLD_BONUS) <= u53) by (apply Qle_bool_imp_le; vm_compute; reflexivity).
  assert (Ct : Qabs (three_tenths_d - UPPER_BONUS) <= u53) by (apply Qle_bool_imp_le; vm_compute; reflexivity).
  unfold score_block_f. rewrite S0. cbn [rbind]. unfold add_bonuses_f, score_block.
  rewrite BOLD_f_val, UPPER_f_val, TOP_f_val. cbv zeta.
  destruct (bonus_near (py_contains ‹"Bold"› (b_font b)) s0 (size_score b mn mx) BOLD_BONUS half_d 18)
    as (s1 & E1 & N1); [exact N0|unfold BOLD_BONUS, u53 in *; lra|unfold BOLD_BONUS; lra|exact Ch|lra|].
  rewrite E1. set (S1 := if py_contains _ _ then _ else _) in N1 |- *.
  assert (B1 : 0 <= S1 <= 2) by (unfold S1, BOLD_BONUS; destruct (py_contains _ _); lra).
  destruct (bonus_near (py_isupper (b_text b)) s1 S1 UPPER_BONUS three_tenths_d (18 + 4))
    as (s2 & E2 & N2); [exact N1|exact B1|unfold UPPER_BONUS; lra|exact Ct|lra|].
  rewrite E2. set (S2 := if py_isupper _ then _ else _) in N2 |- *.
  assert (B2 : 0 <= S2 <= 2) by (unfold S2, S1, UPPER_BONUS, BOLD_BONUS; destruct (py_isupper _), (py_contains _ _); lra).
  destruct (bonus_near (qltb (y0 (b_bbox b)) TOP_Y) s2 S2 TOP_BONUS three_tenths_d (18 + 4 + 4))
    as (s3 & E3 & N3); [exact N2|exact B2|unfold TOP_BONUS; lra|exact Ct|lra|].
  rewrite E3. exists s3. split; [reflexivity|]. unfold u53 in N3. lra.
Qed.

(** ** The upper-case bonus *)

(** C10: A block whose text is made of ASCII characters that are not letters
    (digits, punctuation, white space) gets no upper-case bonus: its
    score is the size score with the bold and top-of-page bonuses only.
    [str.isupper()] needs a cased character, which such a text lacks. *)
Theorem score_block_f_uncased `{UnicodeDB} (b : Block) (mn mx : Q) :
  Forall (fun c => (c < 65 \/ 90 < c < 97 \/ 122 < c < 128)%N) (b_text b) ->
  score_block_f b mn mx =
    (s <- size_score_f b mn mx ;;
     let s := if py_contains ‹"Bold"› (b_font b) then float_add s BOLD_f else s in
     Ok (if qltb (y0 (b_bbox b)) TOP_Y then float_add s TOP_f else s)).
Proof. intros Hs. unfold score_block_f, add_bonuses_f. rewrite (py_isupper_ascii_uncased _ Hs). reflexivity. Qed.

(** ** The scores of a document (lines 80-83) *)

(** [max_size - min_size + 1e-5] is at least the double [1e-5] for
    every [min_size <= max_size] (it may be [inf]), so the division of
    line 42 never raises [ZeroDivisionError]. *)
Lemma size_denominator_ge (mn mx : Q) : mn <= mx ->
  float_le (PFinite eps_d) (float_add (float_sub (PFinite mx) (PFinite mn)) EPS_f).
Proof.
  intros Hle. rewrite EPS_f_val.
  assert (H0 : float_le (PFinite 0) (float_sub (PFinite mx) (PFinite mn))).
  { destruct round_consts as (R0 & _). rewrite <- R0. apply round_double_mono, (proj1 (Qle_minus_iff _ _)), Hle. }
  assert (E : float_add (PFinite 0) (PFinite eps_d) = PFinite eps_d) by (vm_compute; reflexivity).
  rewrite <- E at 1. apply float_add_mono_l, H0.
Qed.

Lemma float_div_ok (x D : pyfloat) : float_le (PFinite eps_d) D -> exists y, float_div x D = Ok y.
Proof.
  destruct D as [d|[]|]; cbn; try tauto; intros Hd; [|eexists; reflexivity].
  replace (Qeq_bool d 0) with false; [eexists; reflexivity|].
  symmetry. apply not_true_iff_false. intros E. apply Qeq_bool_eq in E.
  pose proof eps_d_pos. rewrite E in Hd. apply (Qlt_irrefl 0). exact (Qlt_le_trans _ _ _ H Hd).
Qed.

(** Against any [min_size <= max_size], [score_block] returns. *)
Lemma score_block_f_ok `{UnicodeDB} (b : Block) (mn mx : Q) : mn <= mx ->
  exists s, score_block_f b mn mx = Ok s.
Proof.
  intros Hle. destruct (float_div_ok (float_sub (PFinite (b_font_size b)) (PFinite mn)) _ (size_denominator_ge mn mx Hle)) as (y & Ey).
  exists (add_bonuses_f b y). unfold score_block_f, size_score_f. rewrite Ey. reflexivity.
Qed.

(** On the sizes of its own blocks, lines 80-83 return one score per
    block, each the score against the blocks' smallest and largest
    sizes. *)
Lemma structure_scores_ok `{UnicodeDB} (blocks : list Block) : blocks <> [] ->
  exists mn mx ss, py_min (map b_font_size blocks) = Some mn /\ py_max (map b_font_size blocks) = Some mx /\
    Forall (fun b => mn <= b_font_size b <= mx) blocks /\
    structure_scores blocks (map b_font_size blocks) = Ok ss /\
    Forall2 (fun b s => score_block_f b mn mx = Ok s) blocks ss.
Proof.
  intros Hne. destruct (py_min (map b_font_size blocks)) as [mn|] eqn:Hmn;
    [|destruct blocks; [congruence|discriminate]].
  destruct (py_max (map b_font_size blocks)) as [mx|] eqn:Hmx;
    [|destruct blocks; [congruence|discriminate]].
  pose proof (sizes_in_range blocks mn mx Hmn Hmx) as Hr.
  assert (Hle : mn <= mx).
  { destruct blocks as [|b bs]; [congruence|]. inversion Hr as [|? ? [H1 H2] _]. exact (Qle_trans _ _ _ H1 H2). }
  assert (Hall : exists ss, py_map_result (fun b => score_block_f b mn mx) blocks = Ok ss).
  { clear Hmn Hmx Hne Hr. induction blocks as [|b bs IH]; [eexists; reflexivity|].
    destruct (score_block_f_ok b mn mx Hle) as (s & Es). destruct IH as (ss & Ess).
    exists (s :: ss). cbn. rewrite Es, Ess. reflexivity. }
  destruct Hall as (ss & Ess). exists mn, mx, ss. unfold structure_scores. rewrite Hmn, Hmx.
  repeat split; [exact Hr|exact Ess|apply py_map_result_ok, Ess].
Qed.

(** When the sizes of the document differ by less than [2^1023], every
    structural score is a finite double in [[0, 2.1]]. *)
Lemma structure_scores_bounds `{UnicodeDB} (blocks : list Block) (ss : list pyfloat) :
  sizes_within big_d blocks -> structure_scores blocks (map b_font_size blocks) = Ok ss ->
  Forall (fun s => exists v, s = PFinite v /\ 0 <= v <= two_one_d) ss.
Proof.
  intros Hw E. destruct blocks as [|b0 bs0]; [unfold structure_scores in E; discriminate|].
  destruct (structure_scores_ok (b0 :: bs0) ltac:(discriminate)) as (mn & mx & ss' & Hmn & Hmx & Hr & E' & F).
  rewrite E in E'. injection E' as <-.
  apply py_min_spec in Hmn as [Imn _]. apply py_max_spec in Hmx as [Imx _].
  apply in_map_iff in Imn as (bmn & <- & Hbmn). apply in_map_iff in Imx as (bmx & <- & Hbmx).
  pose proof (Hw bmx bmn Hbmx Hbmn) as Hlt.
  clear Hw E Hbmn Hbmx. revert Hr. induction F as [|b s bs ss Hs F IH]; intros Hr; constructor.
  - inversion Hr as [|? ? Hb _]. destruct Hb as [Hb1 Hb2].
    destruct (score_block_f_bounds b _ _ Hb1 Hb2 Hlt) as (v & Ev & Bv). rewrite Hs in Ev.
    injection Ev as ->. eauto.
  - apply IH. inversion Hr; assumption.
Qed.

(** ** Fixtures *)

(** A bold block of size 12 below the top of the page, and the same
    block one unit in the last place larger: [12 + 2^-49]. *)
Definition tie_block : Block := mkBlock ‹"Intro"› 12 ‹"Arial-Bold"› (mkBBox 0 150 100 160) 1.
Definition tie_size : Q := 12 + (1 # 562949953421312).

(** Rounding merges what the exact score separates: in a document whose
    sizes range over [[8, 72]], the bold block of size 12 and the same
    block of size [12 + 2^-49] get the same double score, though their
    exact scores differ; [sorted] then keeps the earlier one first. *)
Theorem score_block_f_tie :
  @score_block_f ascii_db tie_block 8 72 = @score_block_f ascii_db (with_font_size tie_block tie_size) 8 72 /\
  @score_block ascii_db tie_block 8 72 < @score_block ascii_db (with_font_size tie_block tie_size) 8 72.
Proof.
  split; [vm_compute; reflexivity|].
  apply (@score_block_strict_mono ascii_db tie_block 12 tie_size 8 72); vm_compute; [discriminate|reflexivity].
Qed.

(** A bold upper-case block at the top of the page whose size is the
    largest of a document ranging over [[0, 2^40]]: [2^40 + 1e-5]
    rounds to [2^40], so its size score is exactly [1.0]. *)
Definition top_block : Block := mkBlock ‹"INTRO"› (inject_Z (2 ^ 40)) ‹"Arial-Bold"› (mkBBox 0 50 100 60) 1.

(** Its double score is the double nearest [2.1], above the exact bound
    [2.1] of [Structure]. *)
Example score_block_f_top :
  @score_block_f ascii_db top_block 0 (inject_Z (2 ^ 40)) = Ok (PFinite two_one_d) /\ 21 # 10 < two_one_d.
Proof. split; vm_compute; reflexivity. Qed.

Lemma score_block_f_mono_witness :
  8 <= 12 /\ 12 <= tie_size /\ tie_size <= 72 /\ 72 - 8 < big_d /\
  exists s1 s2, @score_block_f ascii_db (with_font_size tie_block 12) 8 72 = Ok s1 /\
    @score_block_f ascii_db (with_font_size tie_block tie_size) 8 72 = Ok s2 /\ float_le s1 s2.
Proof.
  assert (H1 : 8 <= 12) by (vm_compute; discriminate).
  assert (H2 : 12 <= tie_size) by (vm_compute; discriminate).
  assert (H3 : tie_size <= 72) by (vm_compute; discriminate).
  assert (H4 : 72 - 8 < big_d) by (vm_compute; reflexivity).
  split; [exact H1|split; [exact H2|split; [exact H3|split; [exact H4|]]]].
  exact (@score_block_f_mono ascii_db tie_block 12 tie_size 8 72 H1 H2 H3 H4).
Defined.

Lemma score_block_f_bounds_witness :
  0 <= b_font_size top_block /\ b_font_size top_block <= inject_Z (2 ^ 40) /\ inject_Z (2 ^ 40) - 0 < big_d /\
  exists s, @score_block_f ascii_db top_block 0 (inject_Z (2 ^ 40)) = Ok (PFinite s) /\ 0 <= s <= two_one_d.
Proof.
  assert (H1 : 0 <= b_font_size top_block) by (vm_compute; discriminate).
  assert (H2 : b_font_size top_block <= inject_Z (2 ^ 40)) by (vm_compute; discriminate).
  assert (H3 : inject_Z (2 ^ 40) - 0 < big_d) by (vm_compute; reflexivity).
  split; [exact H1|split; [exact H2|split; [exact H3|]]].
  exact (@score_block_f_bounds ascii_db top_block 0 (inject_Z (2 ^ 40)) H1 H2 H3).
Defined.

Lemma score_block_f_error_witness :
  8 <= b_font_size tie_block /\ b_font_size tie_block <= 72 /\ 72 - 8 < big_d /\
  exists s, @score_block_f ascii_db tie_block 8 72 = Ok (PFinite s) /\
    Qabs (s - @score_block ascii_db tie_block 8 72) <= 1 # 281474976710656.
Proof.
  assert (H1 : 8 <= b_font_size tie_block) by (vm_compute; discriminate).
  assert (H2 : b_font_size tie_block <= 72) by (vm_compute; discriminate).
  assert (H3 : 72 - 8 < big_d) by (vm_compute; reflexivity).
  split; [exact H1|split; [exact H2|split; [exact H3|]]].
  exact (@score_block_f_error ascii_db tie_block 8 72 H1 H2 H3).
Defined.

(** A page number in bold at the top of the page: bold and top bonuses,
    no upper-case bonus. *)
Lemma score_block_f_uncased_witness :
  let b := mkBlock ‹"2024"› 12 ‹"Arial-Bold"› (mkBBox 0 50 100 60) 1 in
  Forall (fun c => (c < 65 \/ 90 < c < 97 \/ 122 < c < 128)%N) (b_text b) /\
  @score_block_f ascii_db b 8 72 =
    (s <- size_score_f b 8 72 ;;
     let s := if py_contains ‹"Bold"› (b_font b) then float_add s BOLD_f else s in
     Ok (if qltb (y0 (b_bbox b)) TOP_Y then float_add s TOP_f else s)).
Proof.
  intros b. assert (H : Forall (fun c => (c < 65 \/ 90 < c < 97 \/ 122 < c < 128)%N) (b_text b))
    by (repeat (apply Forall_cons; [simpl; lia|]); apply Forall_nil).
  split; [exact H|]. exact (@score_block_f_uncased ascii_db b 8 72 H).
Defined.
