(* ===== verification/Semantic.v ===== *)
(** * Semantic score and total (main.py, lines 15, 82-92)

    The sentence-embedding model is a library the code calls
    ([SentenceTransformer("all-MiniLM-L6-v2")], [encode], [util.cos_sim]);
    it is the interface [EmbeddingBackend], whose one law is that a
    cosine similarity lies in [[-1, 1]].  [.item()] of the float32
    tensor entry (line 91) is a Python float equal to it, so the
    interface gives it as a rational.  The query is embedded once per
    document and every block's text in one batch; the [i]-th similarity
    goes to the [i]-th block.  The structural score is the double of
    [ScoreFloat.structure_scores], and the total of line 92 is the
    float sum [float_add]: the scores a block carries are the code's
    doubles.  On a document whose font sizes differ by less than
    [2^1023] every total is a finite double in [[-1, 4]]
    ([score_document_finite]). *)

From S2P Require Import Prelude PyText Json Float FloatArith Extract Structure ScoreFloat.
From Stdlib Require Import QArith Lqa.
Open Scope Q_scope.

(** What the code uses of the embedding model. *)
Class EmbeddingBackend := {
  vec : Type;
  encode : text -> vec;
  cos_sim : vec -> vec -> Q;
  cos_sim_bounds : forall u v, -1 <= cos_sim u v <= 1
}.

(** A block with the three keys lines 83, 91 and 92 add to its dict. *)
Record ScoredBlock := mkScored {
  sb_block : Block;
  structure_score : pyfloat;
  semantic_score : Q;
  total_score : pyfloat
}.

(** [f"{persona} {job_task}"], line 85. *)
Definition py_query (persona job_task : text) : text := persona ++ [SPACE] ++ job_task.

Section Semantic.
Context `{EmbeddingBackend}.

(** Lines 86-88: [encode(query)], [encode([b["text"] for b in blocks])]
    (one embedding per text, in order), and the first row of
    [cos_sim(query_embedding, block_embeddings)]. *)
Definition similarities (query : text) (blocks : list Block) : list Q :=
  let query_embedding := encode query in
  let block_embeddings := map encode (map b_text blocks) in
  map (cos_sim query_embedding) block_embeddings.

End Semantic.

(** Lines 90-92: [for idx, b in enumerate(blocks)], reading
    [similarities[idx]] ([IndexError] past its end) and storing
    [b["structure_score"] + b["semantic_score"]], a float addition. *)
Fixpoint attach_scores (blocks : list Block) (structure : list pyfloat) (sims : list Q)
  : result PyExn (list ScoredBlock) :=
  match blocks, structure, sims with
  | [], _, _ => Ok []
  | b :: bs, s :: ss, m :: ms =>
      rest <- attach_scores bs ss ms ;;
      Ok (mkScored b s m (float_add s (PFinite m)) :: rest)
  | _, _, _ => Err IndexError
  end.

(** Lines 80-92 after the emptiness test of line 76: structural scores
    against the document's range (lines 80-83), similarities to the
    query (85-88), and the scores attached to the blocks (90-92). *)
Definition score_document `{UnicodeDB} `{EmbeddingBackend}
           (query : text) (blocks : list Block) (sizes : list Q) : result PyExn (list ScoredBlock) :=
  ss <- structure_scores blocks sizes ;;
  attach_scores blocks ss (similarities query blocks).

(** ** Theorems *)

Section SemanticTheory.
Context `{EmbeddingBackend}.

Lemma similarities_length (query : text) (blocks : list Block) :
  length (similarities query blocks) = length blocks.
Proof. unfold similarities. now rewrite !length_map. Qed.

(** The [i]-th similarity is the cosine between the query and the
    [i]-th block's text: the batch keeps the order of the blocks. *)
Theorem similarities_nth (query : text) (blocks : list Block) (i : nat) :
  nth_error (similarities query blocks) i =
  option_map (fun b => cos_sim (encode query) (encode (b_text b))) (nth_error blocks i).
Proof.
  unfold similarities. rewrite !nth_error_map.
  destruct (nth_error blocks i); reflexivity.
Qed.

Lemma similarities_bounds (query : text) (blocks : list Block) :
  Forall (fun m => -1 <= m <= 1) (similarities query blocks).
Proof.
  unfold similarities. apply Forall_forall. intros m Hm.
  apply in_map_iff in Hm as (v & <- & _). apply cos_sim_bounds.
Qed.

End SemanticTheory.

(** When the lists of scores are as long as the list of blocks, the
    loop of lines 90-92 never fails: every block gets its own two
    scores, in order, and its total is their float sum. *)
Theorem attach_scores_ok (blocks : list Block) (ss : list pyfloat) (ms : list Q) :
  length ss = length blocks -> length ms = length blocks ->
  exists l, attach_scores blocks ss ms = Ok l /\ map sb_block l = blocks /\
    map structure_score l = ss /\ map semantic_score l = ms /\
    Forall (fun x => total_score x = float_add (structure_score x) (PFinite (semantic_score x))) l.
Proof.
  revert ss ms. induction blocks as [|b bs IH]; intros [|s ss] [|m ms] Hs Hm;
    simpl in *; try discriminate.
  - exists []. repeat split; constructor.
  - destruct (IH ss ms ltac:(lia) ltac:(lia)) as (l & -> & Hb & Hss & Hms & Ht).
    exists (mkScored b s m (float_add s (PFinite m)) :: l). simpl. rewrite Hb, Hss, Hms.
    repeat split; constructor; auto.
Qed.

(** The float sum of a structural score in [[0, 2.1]] and a cosine in
    [[-1, 1]] is a finite double in [[-1, 4]]. *)
Lemma total_score_bounds (s m : Q) :
  0 <= s <= two_one_d -> -1 <= m <= 1 ->
  exists t, float_add (PFinite s) (PFinite m) = PFinite t /\ -1 <= t <= 4.
Proof.
  intros Hs Hm. assert (H21 : two_one_d <= 3) by qle_closed. cbn [float_add].
  assert (R1 : exists c, round_double (-1) = PFinite c /\ c == -1)
    by (eexists; split; vm_compute; reflexivity).
  assert (R4 : exists c, round_double 4 = PFinite c /\ c == 4)
    by (eexists; split; vm_compute; reflexivity).
  destruct R1 as (c1 & R1 & C1), R4 as (c4 & R4 & C4).
  destruct (round_double_range (s + m) (-1) 4 c1 c4) as (t & Et & Bt); [lra|lra|exact R1|exact R4|].
  exists t. split; [exact Et|lra].
Qed.

Section DocumentTheory.
Context `{UnicodeDB} `{EmbeddingBackend}.

(** Scoring a non-empty list of blocks against their own sizes succeeds:
    the scored list is the block list, carrying the structural scores of
    lines 80-83, the similarities in order, and their float sums. *)
Lemma score_document_ok (query : text) (blocks : list Block) : blocks <> [] ->
  exists l, score_document query blocks (map b_font_size blocks) = Ok l /\
    map sb_block l = blocks /\
    structure_scores blocks (map b_font_size blocks) = Ok (map structure_score l) /\
    map semantic_score l = similarities query blocks /\
    Forall (fun x => total_score x = float_add (structure_score x) (PFinite (semantic_score x))) l.
Proof.
  intros Hne. destruct (structure_scores_ok blocks Hne) as (mn & mx & ss & _ & _ & _ & Ess & F).
  destruct (attach_scores_ok blocks ss (similarities query blocks))
    as (l & El & Hb & Hs & Hm & Ht); [symmetry; exact (Forall2_length F)|apply similarities_length|].
  exists l. unfold score_document. rewrite Ess. cbn [rbind]. rewrite Hs.
  repeat split; assumption.
Qed.

(** On a document whose font sizes differ by less than [2^1023], every
    total score is a finite double in [[-1, 4]]: no total is NaN or
    infinite, so the sort of line 94 compares numbers. *)
Theorem score_document_finite (query : text) (blocks : list Block) (l : list ScoredBlock) :
  sizes_within big_d blocks -> score_document query blocks (map b_font_size blocks) = Ok l ->
  Forall (fun x => exists t, total_score x = PFinite t /\ -1 <= t <= 4) l.
Proof.
  intros Hw E. destruct blocks as [|b bs]; [unfold score_document, structure_scores in E; discriminate|].
  destruct (score_document_ok query (b :: bs) ltac:(discriminate)) as (l' & E' & _ & Ess & Hm & Ht).
  rewrite E in E'. injection E' as <-.
  pose proof (structure_scores_bounds _ _ Hw Ess) as Hs. pose proof (similarities_bounds query (b :: bs)) as Hsim.
  rewrite <- Hm, Forall_map in Hsim. rewrite Forall_map in Hs.
  rewrite Forall_forall in *. intros x Hx. rewrite (Ht x Hx).
  destruct (Hs x Hx) as (v & -> & Bv). apply total_score_bounds; auto.
Qed.

End DocumentTheory.

(** ** Witnesses *)

(** A stand-in backend: a text is embedded as its length, and two
    embeddings have cosine 1 when equal and 0 otherwise. *)
Definition length_backend : EmbeddingBackend.
Proof.
  refine {| vec := Q; encode t := inject_Z (Z.of_nat (length t));
            cos_sim u v := if Qeq_bool u v then 1 else 0 |}.
  intros u v. destruct (Qeq_bool u v); split; discriminate.
Defined.

Lemma score_document_finite_witness :
  exists l, sizes_within big_d (fst (extract_blocks fixture_doc)) /\
    @score_document ascii_db length_backend (py_query ‹"X"› ‹"Y"›)
      (fst (extract_blocks fixture_doc)) (map b_font_size (fst (extract_blocks fixture_doc))) = Ok l /\
    Forall (fun x => exists t, total_score x = PFinite t /\ -1 <= t <= 4) l.
Proof.
  assert (Hw : sizes_within big_d (fst (extract_blocks fixture_doc))).
  { intros b b' Hb Hb'. vm_compute in Hb, Hb'.
    destruct Hb as [<-|[<-|[]]], Hb' as [<-|[<-|[]]]; vm_compute; reflexivity. }
  eexists. split; [exact Hw|]. split; [vm_compute; reflexivity|].
  apply (@score_document_finite ascii_db length_backend (py_query ‹"X"› ‹"Y"›) _ _ Hw). vm_compute. reflexivity.
Defined.
