(* ===== verification/Select.v ===== *)
(** * Section selection: [sorted(blocks, key=lambda x: -x["total_score"])[0]]
    (main.py, line 94)

    [py_sorted lt key] is Python's [sorted] with a [key]: a stable sort
    that compares keys with [<] only, here Python's [<] on floats
    ([float_lt]) applied to [-total_score] ([float_neg], exact).  It is
    written as an insertion sort that inserts each element after every
    element whose key is not larger.  The head of the sorted list is
    the one-pass scan [argmin_first] ([py_sorted_head]).  Whenever [<]
    is transitive and "not below" is transitive on the keys met (for
    floats: no key is NaN), the scan returns the first element of least
    key; with the key [-total_score] the code thus selects the first
    block of greatest total score ([select_top_first_max]).

    Why an insertion sort is CPython's sort: on rational keys the sort
    is sorted, a permutation and stable ([py_sorted_stable]), and it is
    the only list with these properties ([sorted_stable_unique],
    [py_sorted_iff]), so every stable sort, Timsort included, returns
    it.  When every total is finite the float sort is that rational
    sort ([py_sorted_totals]); [Semantic.score_document_finite] gives
    finite totals whenever a document's font sizes differ by less than
    [2^1023].  With a NaN total, [<] is no order and CPython's result
    depends on its merge strategy, which is not modelled. *)

From S2P Require Import Prelude Json Float FloatArith Extract Semantic.
Open Scope Q_scope.

Section PySorted.
Context {A K : Type} (lt : K -> K -> bool) (key : A -> K).

(** Insert [x] before the first element of strictly larger key. *)
Fixpoint ins (x : A) (l : list A) : list A :=
  match l with
  | [] => [x]
  | y :: ys => if lt (key x) (key y) then x :: y :: ys else y :: ins x ys
  end.

(** [sorted(l, key=key)]. *)
Definition py_sorted (l : list A) : list A :=
  fold_left (fun acc x => ins x acc) l [].

(** The scan that keeps the first element of least key. *)
Fixpoint argmin_first (best : A) (l : list A) : A :=
  match l with
  | [] => best
  | y :: ys => if lt (key y) (key best) then argmin_first y ys else argmin_first best ys
  end.

End PySorted.

(** Line 94: [sorted(...)[0]] with the key [-x["total_score"]];
    [None] is the [IndexError] of an empty list. *)
Definition select_top (blocks : list ScoredBlock) : option ScoredBlock :=
  hd_error (py_sorted float_lt (fun x => float_neg (total_score x)) blocks).

(** On rational keys: [key a <= key b], and the elements of key [q]. *)
Definition le_key {A} (key : A -> Q) (a b : A) : Prop := key a <= key b.

Definition key_class {A} (key : A -> Q) (q : Q) (l : list A) : list A :=
  filter (fun y => Qeq_bool (key y) q) l.

(** The value of a finite total ([0] otherwise). *)
Definition total_value (x : ScoredBlock) : Q :=
  match total_score x with PFinite t => t | _ => 0 end.

(** ** The sort, for any comparison *)

Section PySortedGeneric.
Context {A K : Type} (lt : K -> K -> bool) (key : A -> K).

Lemma ins_perm (x : A) (l : list A) : Permutation (ins lt key x l) (x :: l).
Proof.
  induction l as [|y l IH]; simpl; [reflexivity|].
  destruct (lt (key x) (key y)); [reflexivity|].
  rewrite IH. apply perm_swap.
Qed.

Lemma fold_ins_perm (l acc : list A) :
  Permutation (fold_left (fun acc x => ins lt key x acc) l acc) (acc ++ l).
Proof.
  revert acc. induction l as [|x l IH]; intros acc; simpl; [now rewrite app_nil_r|].
  rewrite IH, ins_perm. apply Permutation_middle.
Qed.

(** [sorted] returns a permutation of its argument. *)
Theorem py_sorted_perm (l : list A) : Permutation (py_sorted lt key l) l.
Proof. apply fold_ins_perm. Qed.

Lemma hd_fold_ins (xs : list A) (h : A) (acc : list A) :
  hd_error acc = Some h ->
  hd_error (fold_left (fun acc x => ins lt key x acc) xs acc) = Some (argmin_first lt key h xs).
Proof.
  revert h acc. induction xs as [|x xs IH]; intros h acc Hh; simpl; [exact Hh|].
  destruct acc as [|y acc]; [discriminate|]. injection Hh as ->.
  destruct (lt (key x) (key h)) eqn:E; apply IH; simpl; now rewrite E.
Qed.

(** Refinement: the first element of [sorted(l, key=key)] is what the
    one-pass scan [argmin_first] returns. *)
Theorem py_sorted_head (x : A) (xs : list A) :
  hd_error (py_sorted lt key (x :: xs)) = Some (argmin_first lt key x xs).
Proof. unfold py_sorted. simpl. now apply hd_fold_ins. Qed.

(** What the scan returns, when [<] is transitive and an element that
    is not below [c] is above everything below [c], on the keys met:
    the first element of least key. *)
Section ArgminSpec.
Variable ok : K -> Prop.
Hypothesis lt_trans : forall a b c, lt a b = true -> lt b c = true -> lt a c = true.
Hypothesis lt_weak : forall a b c, ok b -> lt a c = true -> lt a b = true \/ lt b c = true.

Theorem argmin_first_spec (x : A) (xs : list A) : Forall (fun y => ok (key y)) xs ->
  exists pre post, x :: xs = pre ++ argmin_first lt key x xs :: post /\
    Forall (fun y => lt (key (argmin_first lt key x xs)) (key y) = true) pre /\
    Forall (fun y => lt (key y) (key (argmin_first lt key x xs)) = false) post.
Proof.
  revert x. induction xs as [|y ys IH]; intros x Hok; simpl.
  - exists [], []. auto.
  - apply Forall_cons_iff in Hok as [Hy Hys].
    destruct (lt (key y) (key x)) eqn:Eyx.
    + destruct (IH y Hys) as (pre & post & Heq & Hpre & Hpost).
      set (r := argmin_first lt key y ys) in *.
      assert (Hrx : lt (key r) (key x) = true).
      { destruct pre as [|z pre]; simpl in Heq; injection Heq as Hz _.
        - rewrite <- Hz. exact Eyx.
        - subst z. inversion Hpre; subst. eapply lt_trans; eauto. }
      exists (x :: pre), post. rewrite Heq. split; [reflexivity|].
      split; [constructor; [exact Hrx|exact Hpre]|exact Hpost].
    + destruct (IH x Hys) as (pre & post & Heq & Hpre & Hpost).
      set (r := argmin_first lt key x ys) in *.
      destruct pre as [|z pre]; simpl in Heq; injection Heq as Hz Hys'.
      * exists [], (y :: post). rewrite <- Hz in Hpost |- *. rewrite Hys'. split; [reflexivity|].
        split; [constructor|constructor; [exact Eyx|exact Hpost]].
      * subst z. apply Forall_cons_iff in Hpre as [Hrx Hpre'].
        assert (Hry : lt (key r) (key y) = true).
        { destruct (lt_weak _ _ _ Hy Hrx) as [E|E]; [exact E|congruence]. }
        exists (x :: y :: pre), post. rewrite Hys'. split; [reflexivity|].
        split; [repeat constructor; [exact Hrx|exact Hry|exact Hpre']|exact Hpost].
Qed.

End ArgminSpec.

(** The sort depends only on the comparisons of the keys it meets. *)
Lemma ins_ext {K2} (lt2 : K2 -> K2 -> bool) (key2 : A -> K2) (x : A) (l : list A) :
  (forall y, In y l -> lt (key x) (key y) = lt2 (key2 x) (key2 y)) ->
  ins lt key x l = ins lt2 key2 x l.
Proof.
  induction l as [|y l IH]; intros Hag; simpl; [reflexivity|].
  rewrite (Hag y (or_introl eq_refl)). destruct (lt2 (key2 x) (key2 y)); [reflexivity|].
  f_equal. apply IH. intros z Hz. apply Hag. right. exact Hz.
Qed.

Lemma py_sorted_ext {K2} (lt2 : K2 -> K2 -> bool) (key2 : A -> K2) (l : list A) :
  (forall x y, In x l -> In y l -> lt (key x) (key y) = lt2 (key2 x) (key2 y)) ->
  py_sorted lt key l = py_sorted lt2 key2 l.
Proof.
  intros Hag. unfold py_sorted.
  assert (G : forall l' acc, incl l' l -> incl acc l ->
    fold_left (fun acc x => ins lt key x acc) l' acc = fold_left (fun acc x => ins lt2 key2 x acc) l' acc).
  { induction l' as [|x l' IH]; intros acc Hl Hacc; simpl; [reflexivity|].
    rewrite <- (ins_ext lt2 key2 x acc) by (intros y Hy; apply Hag; [apply Hl; left; reflexivity|apply Hacc, Hy]).
    apply IH; [intros z Hz; apply Hl; right; exact Hz|].
    intros z Hz. apply (Permutation_in _ (ins_perm _ _)) in Hz.
    destruct Hz as [<-|Hz]; [apply Hl; left; reflexivity|apply Hacc, Hz]. }
  apply G; [apply incl_refl|intros z []].
Qed.

End PySortedGeneric.

(** ** The sort on rational keys: sorted, stable, and unique *)

Section PySortedQ.
Context {A : Type} (key : A -> Q).

Lemma le_key_trans (a b c : A) : le_key key a b -> le_key key b c -> le_key key a c.
Proof. unfold le_key. apply Qle_trans. Qed.

Lemma ins_hdrel (x y : A) (l : list A) :
  HdRel (le_key key) y l -> le_key key y x -> HdRel (le_key key) y (ins qltb key x l).
Proof.
  intros Hy Hyx. destruct l as [|z l]; simpl; [now constructor|].
  inversion Hy; subst. destruct (qltb (key x) (key z)); now constructor.
Qed.

Lemma ins_sorted (x : A) (l : list A) :
  Sorted (le_key key) l -> Sorted (le_key key) (ins qltb key x l).
Proof.
  intros Hs. induction Hs as [|y l Hs IH Hy]; simpl; [repeat constructor|].
  qcase (key x) (key y).
  - repeat constructor; [assumption|assumption|unfold le_key; lra].
  - constructor; [exact IH|]. apply ins_hdrel; assumption.
Qed.

Lemma fold_ins_sorted (l acc : list A) :
  Sorted (le_key key) acc -> Sorted (le_key key) (fold_left (fun acc x => ins qltb key x acc) l acc).
Proof.
  revert acc. induction l as [|x l IH]; intros acc Hs; simpl; [exact Hs|].
  apply IH, ins_sorted, Hs.
Qed.

(** [sorted] returns its argument in ascending order of the key. *)
Theorem py_sorted_sorted (l : list A) : Sorted (le_key key) (py_sorted qltb key l).
Proof. apply fold_ins_sorted. constructor. Qed.

Lemma key_class_ins (q : Q) (x : A) (l : list A) :
  Sorted (le_key key) l ->
  key_class key q (ins qltb key x l) =
  key_class key q l ++ (if Qeq_bool (key x) q then [x] else []).
Proof.
  intros Hs. apply Sorted_StronglySorted in Hs; [|exact le_key_trans].
  induction Hs as [|y l Hs IH Hy]; simpl; [reflexivity|].
  unfold key_class in *. qcase (key x) (key y); simpl.
  - destruct (Qeq_bool (key x) q) eqn:Ex.
    + apply Qeq_bool_iff in Ex. destruct (Qeq_bool (key y) q) eqn:Ey.
      { apply Qeq_bool_iff in Ey. lra. }
      rewrite filter_Forall_none; [reflexivity|].
      eapply Forall_impl; [|exact Hy]. unfold le_key. intros z Hz.
      apply not_true_iff_false. rewrite Qeq_bool_iff. lra.
    + now rewrite app_nil_r.
  - rewrite IH. destruct (Qeq_bool (key y) q); reflexivity.
Qed.

Lemma key_class_fold (q : Q) (l acc : list A) :
  Sorted (le_key key) acc ->
  key_class key q (fold_left (fun acc x => ins qltb key x acc) l acc) =
  key_class key q acc ++ key_class key q l.
Proof.
  revert acc. induction l as [|x l IH]; intros acc Hs; simpl.
  - now rewrite app_nil_r.
  - rewrite IH by (apply ins_sorted, Hs). rewrite key_class_ins by exact Hs.
    unfold key_class at 4. simpl. rewrite <- app_assoc.
    destruct (Qeq_bool (key x) q); reflexivity.
Qed.

(** Stability: the elements of any one key keep their input order. *)
Theorem py_sorted_stable (q : Q) (l : list A) :
  key_class key q (py_sorted qltb key l) = key_class key q l.
Proof. unfold py_sorted. rewrite key_class_fold by constructor. reflexivity. Qed.

Lemma in_key_class_self (x : A) (l : list A) : In x l -> In x (key_class key (key x) l).
Proof. intros Hx. apply filter_In. split; [exact Hx|]. apply Qeq_bool_iff, Qeq_refl. Qed.

(** A sorted list is determined by its key classes: two sorted lists
    with the same elements of every key, in the same order, are equal. *)
Theorem sorted_stable_unique (l1 l2 : list A) :
  Sorted (le_key key) l1 -> Sorted (le_key key) l2 ->
  (forall q, key_class key q l1 = key_class key q l2) -> l1 = l2.
Proof.
  intros H1. revert l2. induction H1 as [|x r1 Hr1 IH Hx]; intros l2 H2 Hc.
  - destruct l2 as [|y r2]; [reflexivity|exfalso].
    specialize (Hc (key y)). unfold key_class in Hc. simpl in Hc.
    rewrite (proj2 (Qeq_bool_iff _ _) (Qeq_refl _)) in Hc. discriminate.
  - assert (Hxl2 : In x l2).
    { pose proof (in_key_class_self x (x :: r1) (or_introl eq_refl)) as Hin.
      rewrite Hc in Hin. now apply filter_In in Hin as [? _]. }
    destruct l2 as [|y r2]; [destruct Hxl2|].
    assert (Hyl1 : In y (x :: r1)).
    { pose proof (in_key_class_self y (y :: r2) (or_introl eq_refl)) as Hin.
      rewrite <- Hc in Hin. now apply filter_In in Hin as [? _]. }
    apply Sorted_StronglySorted in H2 as Hs2; [|exact le_key_trans].
    assert (Hs1 : StronglySorted (le_key key) (x :: r1)).
    { apply Sorted_StronglySorted; [exact le_key_trans|]. now constructor. }
    assert (Hxy : key x == key y).
    { inversion Hs1 as [|? ? _ Hf1]; inversion Hs2 as [|? ? _ Hf2]; subst.
      rewrite Forall_forall in Hf1, Hf2. destruct Hyl1 as [->|Hy]; [reflexivity|].
      destruct Hxl2 as [->|Hx2]; [reflexivity|].
      specialize (Hf1 y Hy). specialize (Hf2 x Hx2). unfold le_key in *. lra. }
    assert (Hcx := Hc (key x)). unfold key_class in Hcx. simpl in Hcx.
    rewrite (proj2 (Qeq_bool_iff _ _) (Qeq_refl _)) in Hcx.
    rewrite (proj2 (Qeq_bool_iff (key y) (key x)) (Qeq_sym _ _ Hxy)) in Hcx.
    injection Hcx as <- _. f_equal. apply IH; [now apply Sorted_inv in H2|].
    intros q. specialize (Hc q). unfold key_class in Hc |- *. simpl in Hc.
    destruct (Qeq_bool (key x) q); [injection Hc as Hc|]; exact Hc.
Qed.

(** Hence [sorted] is characterised by its contract: a list is the
    output of [sorted] exactly when it is sorted by key and keeps the
    order of every key class of the input. *)
Corollary py_sorted_iff (l l' : list A) :
  l' = py_sorted qltb key l <->
  Sorted (le_key key) l' /\ (forall q, key_class key q l' = key_class key q l).
Proof.
  split.
  - intros ->. split; [apply py_sorted_sorted|intros q; unfold py_sorted; now rewrite key_class_fold by constructor].
  - intros [Hs Hc]. apply sorted_stable_unique; [exact Hs|apply py_sorted_sorted|].
    intros q. unfold py_sorted. rewrite Hc, key_class_fold by constructor. reflexivity.
Qed.

End PySortedQ.

(** ** The selection of line 94 *)

(** [sorted(blocks, ...)[0]] succeeds exactly on a non-empty list. *)
Theorem select_top_none (blocks : list ScoredBlock) :
  select_top blocks = None <-> blocks = [].
Proof.
  destruct blocks as [|x xs]; [split; reflexivity|].
  unfold select_top. rewrite py_sorted_head. split; discriminate.
Qed.

(** The head of a float sort: when no key is NaN, the first element of
    least key, every element before it of strictly larger key, every
    element after it of key at least as large. *)
Lemma float_sorted_head {A} (key : A -> pyfloat) (l : list A) (t : A) :
  Forall (fun x => not_nan (key x)) l -> hd_error (py_sorted float_lt key l) = Some t ->
  exists pre post, l = pre ++ t :: post /\
    Forall (fun y => float_lt (key t) (key y) = true) pre /\
    Forall (fun y => float_le (key t) (key y)) post.
Proof.
  intros Hok. destruct l as [|x xs]; [discriminate|]. rewrite py_sorted_head. intros E. injection E as <-.
  pose proof Hok as Hok'. apply Forall_cons_iff in Hok as [Hx Hxs].
  destruct (argmin_first_spec float_lt key not_nan float_lt_trans float_lt_weak x xs Hxs)
    as (pre & post & Heq & Hpre & Hpost).
  exists pre, post. split; [exact Heq|]. split; [exact Hpre|].
  rewrite Heq in Hok'. apply Forall_app in Hok' as [_ Hok']. apply Forall_cons_iff in Hok' as [Ht Hpost'].
  apply Forall_forall. intros y Hy. rewrite Forall_forall in Hpost, Hpost'.
  apply float_lt_false; [exact (Hpost' y Hy)|exact Ht|exact (Hpost y Hy)].
Qed.

(** C1: When no total score is NaN, the selected block is the first
    block of greatest total score: every block before it scores strictly
    less ([<] of Python floats), every block after it at most as much.
    Ties go to the block extracted first. *)
Theorem select_top_first_max (blocks : list ScoredBlock) (t : ScoredBlock) :
  Forall (fun x => not_nan (total_score x)) blocks -> select_top blocks = Some t ->
  exists pre post, blocks = pre ++ t :: post /\
    Forall (fun y => float_lt (total_score y) (total_score t) = true) pre /\
    Forall (fun y => float_le (total_score y) (total_score t)) post.
Proof.
  intros Hok Ht. destruct (float_sorted_head (fun x => float_neg (total_score x)) blocks t) as (pre & post & Heq & Hpre & Hpost).
  { eapply Forall_impl; [|exact Hok]. intros y. apply float_neg_not_nan. }
  { exact Ht. }
  exists pre, post. split; [exact Heq|]. split.
  - eapply Forall_impl; [|exact Hpre]. intros y Hy. cbv beta in Hy. rewrite float_lt_neg in Hy. exact Hy.
  - eapply Forall_impl; [|exact Hpost]. intros y Hy. cbv beta in Hy. exact (proj1 (float_le_neg _ _) Hy).
Qed.

(** The selected block is one of the blocks. *)
Lemma select_top_in (blocks : list ScoredBlock) (t : ScoredBlock) :
  select_top blocks = Some t -> In t blocks.
Proof.
  unfold select_top. intros Ht.
  apply (Permutation_in _ (py_sorted_perm float_lt (fun x => float_neg (total_score x)) blocks)).
  destruct (py_sorted _ _ blocks); [discriminate|]. injection Ht as ->. left. reflexivity.
Qed.

(** With finite totals, the float sort is the sort on the rational
    values of the totals, which [py_sorted_iff] characterises as the
    one stable sort of the list. *)
Theorem py_sorted_totals (blocks : list ScoredBlock) :
  Forall (fun x => exists v, total_score x = PFinite v) blocks ->
  py_sorted float_lt (fun x => float_neg (total_score x)) blocks =
  py_sorted qltb (fun x => - total_value x) blocks.
Proof.
  intros Hf. apply py_sorted_ext. intros x y Hx Hy. rewrite Forall_forall in Hf.
  destruct (Hf x Hx) as (a & Ea), (Hf y Hy) as (b & Eb). unfold total_value. rewrite Ea, Eb. reflexivity.
Qed.

(** ** Witnesses *)

(** A block of page 1 with total score [total]. *)
Definition fixture_scored (t : text) (total : Q) : ScoredBlock :=
  mkScored (mkBlock t 10 ‹"Arial"› (mkBBox 0 200 100 210) 1) (PFinite total) 0 (PFinite total).

(** Two blocks tie at the greatest total 3: the earlier one, [b], wins. *)
Lemma select_top_first_max_witness :
  let blocks := [fixture_scored ‹"a"› 1; fixture_scored ‹"b"› 3;
                 fixture_scored ‹"c"› 3; fixture_scored ‹"d"› 2] in
  Forall (fun x => not_nan (total_score x)) blocks /\
  select_top blocks = Some (fixture_scored ‹"b"› 3) /\
  exists pre post, blocks = pre ++ fixture_scored ‹"b"› 3 :: post /\
    Forall (fun y => float_lt (total_score y) (total_score (fixture_scored ‹"b"› 3)) = true) pre /\
    Forall (fun y => float_le (total_score y) (total_score (fixture_scored ‹"b"› 3))) post.
Proof.
  intros blocks.
  assert (N : Forall (fun x => not_nan (total_score x)) blocks) by (repeat constructor).
  assert (H : select_top blocks = Some (fixture_scored ‹"b"› 3)) by (vm_compute; reflexivity).
  split; [exact N|split; [exact H|]]. exact (select_top_first_max blocks _ N H).
Defined.

(** [sorted] on (key, tag) pairs keeps the tags of equal keys in order. *)
Lemma sorted_stable_unique_example :
  let l1 := py_sorted qltb fst [(2, 0%nat); (1, 1%nat); (2, 2%nat); (1, 3%nat)] in
  let l2 := [(1, 1%nat); (1, 3%nat); (2, 0%nat); (2, 2%nat)] in
  Sorted (le_key fst) l1 /\ Sorted (le_key fst) l2 /\
  (forall q, key_class fst q l1 = key_class fst q l2) /\ l1 = l2.
Proof.
  intros l1 l2.
  assert (H1 : Sorted (le_key fst) l1)
    by (vm_compute; repeat constructor; vm_compute; discriminate).
  assert (H2 : Sorted (le_key fst) l2)
    by (vm_compute; repeat constructor; vm_compute; discriminate).
  assert (H3 : forall q, key_class fst q l1 = key_class fst q l2)
    by (intros q; vm_compute; reflexivity).
  split; [exact H1|split; [exact H2|split; [exact H3|]]].
  exact (sorted_stable_unique fst l1 l2 H1 H2 H3).
Defined.
