(* ===== verification/Refine.v ===== *)
(** * Context refinement and cleaning (main.py, lines 52-72)

    [refine_context] joins the selected block's text with the texts of
    the blocks of the same page that start strictly below it and less
    than 250 units lower, in extraction order.  [clean_refined_text]
    turns newlines and bullets into spaces, deletes every character
    outside printable ASCII, collapses white space and strips.  The
    bound [top.y0 + 250] of line 59 is a float addition: the window is
    the open interval of the specification up to one rounding of that
    sum, and exactly that interval when the sum is a double
    ([in_window_spec]); a block less than 250 units below can fall out
    ([in_window_rounding]).  The other theorems give the shape of the
    excerpt ([" ".join] of the top text and the context), and the
    normal form of the cleaned text, from which its idempotence
    follows. *)

From S2P Require Import Prelude PyText Json Float FloatArith Extract.
From Stdlib Require Import QArith Qabs Lqa.
Open Scope Q_scope.

(** The test of lines 57-60: [b["bbox"][1] > top_block["bbox"][1]]
    compares two floats; [top_block["bbox"][1] + 250] is a float
    addition, rounded to the nearest double, which [b["bbox"][1]] must
    be below. *)
Definition in_window (top b : Block) : bool :=
  qltb (y0 (b_bbox top)) (y0 (b_bbox b))
  && float_lt (PFinite (y0 (b_bbox b))) (float_add (PFinite (y0 (b_bbox top))) (PFinite 250)).

(** Lines 52-65. *)
Definition refine_context (top_block : Block) (all_blocks : list Block) : text :=
  let page_blocks := filter (fun b => Nat.eqb (b_page b) (b_page top_block)) all_blocks in
  let context_blocks := map b_text (filter (in_window top_block) page_blocks) in
  match context_blocks with
  | [] => b_text top_block
  | _ => b_text top_block ++ [SPACE] ++ py_join [SPACE] context_blocks
  end.

(** Lines 67-72. *)
Definition clean_refined_text (s : text) : text :=
  let s := py_replace1 BULLET SPACE (py_replace1 NEWLINE SPACE s) in
  let s := re_sub_nonprint s in
  py_strip (re_sub_ws s).

(** The blocks whose texts follow the top block's text. *)
Definition context_blocks (top : Block) (all_blocks : list Block) : list Block :=
  filter (fun b => Nat.eqb (b_page b) (b_page top) && in_window top b) all_blocks.

(** ** The window *)

(** The upper bound of the window is the double nearest [top.y0 + 250]. *)
Lemma in_window_round (top b : Block) (r : Q) :
  round_double (y0 (b_bbox top) + 250) = PFinite r ->
  in_window top b = true <-> y0 (b_bbox top) < y0 (b_bbox b) /\ y0 (b_bbox b) < r.
Proof.
  intros Er. unfold in_window. cbn [float_add]. rewrite Er. cbn [float_lt].
  rewrite andb_true_iff, !qltb_true. tauto.
Qed.

(** C6: The window of lines 57-60 with the float addition of line 59:
    for a top block whose [y0 + 250] is below [2^1023], a block strictly
    below the top block is in the window when it is more than one
    rounding ([|y0 + 250| 2^-53 + 2^-100]) above [top.y0 + 250], and
    out of it when it is that much below; when [top.y0 + 250] is a
    double the window is exactly the open interval of the
    specification, both bounds strict. *)
Theorem in_window_spec (top b : Block) :
  Qabs (y0 (b_bbox top) + 250) < inject_Z (2 ^ 1023) ->
  (y0 (b_bbox top) < y0 (b_bbox b) ->
   y0 (b_bbox b) + (Qabs (y0 (b_bbox top) + 250) * u53 + eta100) < y0 (b_bbox top) + 250 ->
   in_window top b = true) /\
  (in_window top b = true ->
   y0 (b_bbox top) < y0 (b_bbox b) /\
   y0 (b_bbox b) < y0 (b_bbox top) + 250 + (Qabs (y0 (b_bbox top) + 250) * u53 + eta100)) /\
  (forall r, round_double (y0 (b_bbox top) + 250) = PFinite r -> r == y0 (b_bbox top) + 250 ->
   (in_window top b = true <-> y0 (b_bbox top) < y0 (b_bbox b) < y0 (b_bbox top) + 250)).
Proof.
  intros Hq. destruct (round_double_finite (y0 (b_bbox top) + 250)) as (r & Er).
  { apply (Qlt_trans _ _ _ Hq). unfold Qlt. vm_compute. reflexivity. }
  pose proof (near_round _ _ Er) as N. set (d := Qabs (y0 (b_bbox top) + 250) * u53 + eta100) in *.
  apply Qabs_Qle_condition in N. rewrite (in_window_round top b r Er).
  split; [intros; lra|split; [intros; lra|]].
  intros r' Er' Hr. rewrite Er in Er'. injection Er' as <-. rewrite (in_window_round top b r Er). split; intros; lra.
Qed.

(** The top block is never part of its own context. *)
Lemma in_window_irrefl (top : Block) : in_window top top = false.
Proof.
  destruct (in_window top top) eqn:E; [|reflexivity].
  unfold in_window in E. apply andb_true_iff in E as [E _]. apply qltb_true in E. lra.
Qed.

Lemma filter_filter_andb {A} (p q : A -> bool) (l : list A) :
  filter q (filter p l) = filter (fun x => p x && q x) l.
Proof.
  induction l as [|x l IH]; simpl; [reflexivity|].
  destruct (p x); simpl; [destruct (q x); simpl; now rewrite IH|exact IH].
Qed.

(** The refined text is [" ".join] of the top block's text and the texts
    of the context blocks, in extraction order. *)
Theorem refine_context_join (top : Block) (all_blocks : list Block) :
  refine_context top all_blocks =
  py_join [SPACE] (b_text top :: map b_text (context_blocks top all_blocks)).
Proof.
  unfold refine_context, context_blocks. rewrite filter_filter_andb.
  destruct (map b_text _) as [|t ts]; reflexivity.
Qed.

(** The context blocks are exactly the blocks of the top block's page
    inside the window, in their order. *)
Theorem context_blocks_spec (top : Block) (all_blocks : list Block) (b : Block) :
  In b (context_blocks top all_blocks) <->
  In b all_blocks /\ b_page b = b_page top /\ in_window top b = true.
Proof.
  unfold context_blocks. rewrite filter_In, !andb_true_iff, Nat.eqb_eq. tauto.
Qed.

(** Without blocks in the window the refined text is the top text. *)
Corollary refine_context_alone (top : Block) (all_blocks : list Block) :
  context_blocks top all_blocks = [] -> refine_context top all_blocks = b_text top.
Proof.
  unfold refine_context, context_blocks. rewrite filter_filter_andb. intros ->. reflexivity.
Qed.

(** ** Cleaning *)

Lemma Forall_infix {A} (P : A -> Prop) (a t b : list A) :
  Forall P (a ++ t ++ b) -> Forall P t.
Proof. rewrite !Forall_app. tauto. Qed.

Lemma collapse_ws_Forall (P : char -> Prop) (b : bool) (s : text) :
  P SPACE -> Forall P s -> Forall P (collapse_ws b s).
Proof.
  intros Hsp Hs. revert b. induction Hs as [|c s Hc Hs IH]; intros b; simpl; [constructor|].
  destruct (py_isspace c); [destruct b|]; auto.
Qed.

Lemma py_replace1_id (old new : char) (s : text) :
  Forall (fun c => c <> old) s -> py_replace1 old new s = s.
Proof.
  unfold py_replace1. induction 1 as [|c s Hc Hs IH]; simpl; [reflexivity|].
  rewrite IH. apply N.eqb_neq in Hc. now rewrite Hc.
Qed.

(** The cleaned text keeps only printable ASCII. *)
Lemma clean_printable (s : text) :
  Forall (fun c => is_printable_ascii c = true) (clean_refined_text s).
Proof.
  unfold clean_refined_text. set (u := re_sub_ws _).
  destruct (strip_infix u) as (a & b & Hu). apply (Forall_infix _ a _ b). rewrite <- Hu.
  apply collapse_ws_Forall; [reflexivity|].
  apply Forall_forall. intros c Hc. now apply filter_In in Hc.
Qed.

(** The cleaned text is in white-space normal form. *)
Lemma clean_ws_normal (s : text) : ws_normal (clean_refined_text s) = true.
Proof.
  unfold clean_refined_text. set (u := re_sub_ws _).
  destruct (strip_infix u) as (a & b & Hu).
  assert (Hw : ws_normal (a ++ py_strip u ++ b) = true)
    by (rewrite <- Hu; apply collapse_ws_normal).
  apply ws_normal_app in Hw as [_ Hw]. now apply ws_normal_app in Hw as [Hw _].
Qed.

(** The cleaned text is printable ASCII, in white-space normal form (one
    space between words, no other white space) and stripped. *)
Theorem clean_refined_text_normal (s : text) :
  Forall (fun c => is_printable_ascii c = true) (clean_refined_text s) /\
  ws_normal (clean_refined_text s) = true /\ trimmed (clean_refined_text s).
Proof.
  split; [apply clean_printable|split; [apply clean_ws_normal|apply py_strip_trimmed]].
Qed.

(** C5: Cleaning is idempotent. *)
Theorem clean_refined_text_idempotent (s : text) :
  clean_refined_text (clean_refined_text s) = clean_refined_text s.
Proof.
  pose proof (clean_printable s) as Hp. pose proof (clean_ws_normal s) as Hn.
  pose proof (py_strip_trimmed (re_sub_ws (re_sub_nonprint
    (py_replace1 BULLET SPACE (py_replace1 NEWLINE SPACE s))))) as Ht.
  fold (clean_refined_text s) in Ht.
  set (t := clean_refined_text s) in *. unfold clean_refined_text at 1.
  assert (Hne : forall old, is_printable_ascii old = false -> Forall (fun c => c <> old) t).
  { intros old Hold. eapply Forall_impl; [|exact Hp]. intros c Hc ->. congruence. }
  rewrite (py_replace1_id NEWLINE) by (apply Hne; reflexivity).
  rewrite (py_replace1_id BULLET) by (apply Hne; reflexivity).
  unfold re_sub_nonprint. rewrite filter_Forall_all by exact Hp.
  rewrite re_sub_ws_id by exact Hn. now apply strip_id.
Qed.

(** A character of a word: printable ASCII, not white space. *)
Definition word_char (c : char) : bool := is_printable_ascii c && negb (py_isspace c).

Lemma word_chars_ws_normal (s : text) :
  Forall (fun c => word_char c = true) s -> ws_normal s = true.
Proof.
  induction 1 as [|c s Hc Hs IH]; [reflexivity|]. simpl. rewrite IH.
  unfold word_char in Hc. apply andb_true_iff in Hc as [_ Hc]. now rewrite Hc.
Qed.

Lemma word_chars_trimmed (s : text) :
  Forall (fun c => word_char c = true) s -> trimmed s.
Proof.
  intros Hs. assert (Hh : forall s', Forall (fun c => word_char c = true) s' -> head_not_space s').
  { intros s' Hs' c r ->. apply Forall_cons_iff in Hs' as [Hc _].
    unfold word_char in Hc. apply andb_true_iff in Hc as [_ Hc]. now apply negb_true_iff. }
  split; apply Hh; [exact Hs|]. now apply Forall_rev.
Qed.

Lemma word_chars_neq (old : char) (s : text) :
  is_printable_ascii old = false -> Forall (fun c => word_char c = true) s ->
  Forall (fun c => c <> old) s.
Proof.
  intros Hold. apply Forall_impl. intros c Hc ->. unfold word_char in Hc.
  rewrite Hold in Hc. discriminate.
Qed.

Definition TAB : char := 9%N.

(** C27: A tab between two words is deleted, not turned into a space: the
    words are glued together ("a\tb" becomes "ab"), while a space
    between them is kept. *)
Theorem clean_tab_glues (w1 w2 : text) :
  Forall (fun c => word_char c = true) w1 -> Forall (fun c => word_char c = true) w2 ->
  clean_refined_text (w1 ++ TAB :: w2) = w1 ++ w2.
Proof.
  intros H1 H2. unfold clean_refined_text.
  assert (Hneq : forall old, is_printable_ascii old = false -> old <> TAB ->
                 Forall (fun c => c <> old) (w1 ++ TAB :: w2)).
  { intros old Hold Ht. apply Forall_app. split; [now apply word_chars_neq|].
    constructor; [congruence|now apply word_chars_neq]. }
  rewrite (py_replace1_id NEWLINE) by (apply Hneq; [reflexivity|discriminate]).
  rewrite (py_replace1_id BULLET) by (apply Hneq; [reflexivity|discriminate]).
  assert (Hw : Forall (fun c => word_char c = true) (w1 ++ w2)) by (apply Forall_app; auto).
  assert (Hp : forall w, Forall (fun c => word_char c = true) w ->
                 Forall (fun c => is_printable_ascii c = true) w).
  { intros w. apply Forall_impl. intros c Hc. unfold word_char in Hc.
    now apply andb_true_iff in Hc as [Hc _]. }
  unfold re_sub_nonprint. rewrite filter_app. simpl.
  rewrite !filter_Forall_all by (apply Hp; assumption).
  rewrite re_sub_ws_id by (apply word_chars_ws_normal, Hw).
  apply strip_id, word_chars_trimmed, Hw.
Qed.

(** The example of the specification: ["héllo•world\n"] cleans to
    ["hllo world"]. *)
Example clean_refined_text_example :
  clean_refined_text [104; 233; 108; 108; 111; 8226; 119; 111; 114; 108; 100; 10]%N
  = ‹"hllo world"›.
Proof. vm_compute. reflexivity. Qed.

(** ** Witnesses *)

(** The boundary of the window, as the specification states it: a block
    exactly 250 units below the top block is outside, one 249.9 units
    below is inside. *)
Example in_window_boundary :
  let top := mkBlock ‹"Top"› 12 ‹"Arial"› (mkBBox 0 100 100 110) 1 in
  in_window top (mkBlock ‹"far"› 10 ‹"Arial"› (mkBBox 0 350 100 360) 1) = false /\
  in_window top (mkBlock ‹"near"› 10 ‹"Arial"› (mkBBox 0 (3499 # 10) 100 360) 1) = true.
Proof. split; vm_compute; reflexivity. Qed.

(** The rounding of line 59 moves the boundary: with [top.y0] the
    double [0.1] and [b.y0] the double [250.1], [b] is less than 250
    units below the top block, but [0.1 + 250] rounds to the double
    [250.1], and [b] is left out. *)
Example in_window_rounding :
  let top := mkBlock ‹"Top"› 12 ‹"Arial"› (mkBBox 0 (3602879701896397 # 36028797018963968) 100 10) 1 in
  let b := mkBlock ‹"next"› 10 ‹"Arial"› (mkBBox 0 (8799611459416883 # 35184372088832) 100 260) 1 in
  y0 (b_bbox top) < y0 (b_bbox b) < y0 (b_bbox top) + 250 /\ in_window top b = false.
Proof. split; [split|]; vm_compute; reflexivity. Qed.

Lemma in_window_spec_witness :
  let top := mkBlock ‹"Top"› 12 ‹"Arial"› (mkBBox 0 100 100 110) 1 in
  let b := mkBlock ‹"next"› 10 ‹"Arial"› (mkBBox 0 200 100 210) 1 in
  Qabs (y0 (b_bbox top) + 250) < inject_Z (2 ^ 1023) /\ in_window top b = true /\
  y0 (b_bbox top) < y0 (b_bbox b) /\
  y0 (b_bbox b) < y0 (b_bbox top) + 250 + (Qabs (y0 (b_bbox top) + 250) * u53 + eta100).
Proof.
  intros top b. assert (Hq : Qabs (y0 (b_bbox top) + 250) < inject_Z (2 ^ 1023)) by (vm_compute; reflexivity).
  assert (Hw : in_window top b = true) by (vm_compute; reflexivity).
  split; [exact Hq|split; [exact Hw|]]. exact (proj1 (proj2 (in_window_spec top b Hq)) Hw).
Defined.

Lemma clean_tab_glues_witness :
  Forall (fun c => word_char c = true) ‹"a"› /\ Forall (fun c => word_char c = true) ‹"b"› /\
  clean_refined_text (‹"a"› ++ TAB :: ‹"b"›) = ‹"a"› ++ ‹"b"›.
Proof.
  assert (H1 : Forall (fun c => word_char c = true) ‹"a"›)
    by (apply Forall_cons; [vm_compute; reflexivity|apply Forall_nil]).
  assert (H2 : Forall (fun c => word_char c = true) ‹"b"›)
    by (apply Forall_cons; [vm_compute; reflexivity|apply Forall_nil]).
  split; [exact H1|split; [exact H2|]]. exact (clean_tab_glues _ _ H1 H2).
Defined.
