(* ===== verification/Pipeline.v ===== *)
(** * The pipeline: [process_pdf] and [main] (main.py, lines 74-155)

    [process_pdf] composes extraction, scoring (the code's double
    scores), selection, refinement and cleaning for one PDF and returns
    at most one section, that of the first block of greatest total
    when the document's font sizes differ by less than [2^1023].  [main]
    reads the decoded [input.json] ([read_input], with its [KeyError]
    and [TypeError] exits) and loops over the configured entries with
    an explicit file system
    ([fs_exists] is [Path.exists], [fs_open] is [fitz.open], [None]
    when the parser raises), threading the output lists and the global
    rank counter of lines 124-149.  Exceptions abort the run: they are
    the [Err] values of the result monad of [Prelude].  The loop is also
    a step relation [drive_step] on (remaining files, state); the rank
    invariant holds on every reachable state, by rule induction, and
    the final state is reachable from every reachable one when the
    existing files parse ([drive_completes]).  The paths of lines 9-12
    and 131 are lists of components: [pdf_path] is the pathlib join
    [INPUT_PDF_DIR / filename], [resolve] the operating system's reading
    of [..]. *)

From S2P Require Import Prelude PyText Json Float FloatArith Extract Structure ScoreFloat Semantic Select Refine.
From Stdlib Require Import Relation_Operators.
Close Scope Q_scope.

(** The dict [process_pdf] returns (lines 98-104). *)
Record SectionOut := mkSectionOut {
  so_document : text;
  so_section_title : text;
  so_importance_rank : nat;
  so_page_number : nat;
  so_refined_text : text
}.

(** ** Paths (lines 9-12, 131, 151) *)

(** The components of a POSIX path as [pathlib] parses it: split at
    [/], without empty and [.] components. *)
Fixpoint split_slash (s : text) : list text :=
  match s with
  | [] => [[]]
  | c :: s' =>
      match split_slash s' with
      | [] => [[c]]
      | w :: ws => if (c =? 47)%N then [] :: w :: ws else (c :: w) :: ws
      end
  end.

Definition path_components (s : text) : list text :=
  filter (fun w => negb (match w with [] => true | _ => false end) && negb (text_eqb w ‹"."›))
         (split_slash s).

Definition is_absolute (s : text) : bool := starts_with ‹"/"› s.

(** [INPUT_PDF_DIR = BASE_DIR / "input"] (line 11), for the components
    [base] of [BASE_DIR], an absolute path without [..] (it is
    [resolve()]d, line 9). *)
Definition input_pdf_dir (base : list text) : list text := base ++ [‹"input"›].

(** [OUTPUT_DIR = BASE_DIR / "output"] (line 12) and the file of line
    151. *)
Definition output_file (base : list text) : list text := base ++ [‹"output"›; ‹"output.json"›].

(** [INPUT_PDF_DIR / doc["filename"]] (line 131): an absolute file name
    replaces the directory. *)
Definition pdf_path (base : list text) (filename : text) : list text :=
  if is_absolute filename then path_components filename
  else input_pdf_dir base ++ path_components filename.

(** [pdf_file.name] (lines 99, 134): the last component, [''] for the
    root.  It does not depend on [BASE_DIR] ([pdf_path_name]). *)
Definition path_name (filename : text) : text := last (pdf_path [] filename) [].

Section Process.
Context `{UnicodeDB} `{EmbeddingBackend}.

(** Lines 74-104. *)
Definition process_pdf (name : text) (doc : Document) (persona job_task : text)
  : result PyExn (list SectionOut) :=
  let (blocks, sizes) := extract_blocks doc in
  match sizes with
  | [] => Ok []
  | _ =>
      scored <- score_document (py_query persona job_task) blocks sizes ;;
      match select_top scored with
      | None => Err IndexError
      | Some top_block =>
          let refined := refine_context (sb_block top_block) (map sb_block scored) in
          Ok [mkSectionOut name (b_text (sb_block top_block)) 1
                (b_page (sb_block top_block)) (clean_refined_text refined)]
      end
  end.

End Process.

(** ** The driver of [main] *)

(** The file system and the parser, as [main] sees them. *)
Record FileSystem := mkFileSystem {
  fs_exists : text -> bool;               (* [pdf_file.exists()], line 132 *)
  fs_open : text -> option Document       (* [fitz.open], line 18 *)
}.

(** The two entries of lines 138-148. *)
Record ExtractedSection := mkExtracted {
  es_document : text;
  es_section_title : text;
  es_importance_rank : nat;
  es_page_number : nat
}.

Record Subsection := mkSubsection {
  sa_document : text;
  sa_refined_text : text;
  sa_page_number : nat
}.

(** The state the loop of lines 130-149 updates. *)
Record DriverState := mkDriver {
  extracted_sections : list ExtractedSection;
  subsection_analysis : list Subsection;
  global_rank : nat
}.

Definition init_state : DriverState := mkDriver [] [] 1.   (* lines 124-128 *)

(** Lines 138-149, for one section [s] of [best]. *)
Definition emit (st : DriverState) (s : SectionOut) : DriverState :=
  mkDriver
    (extracted_sections st ++
       [mkExtracted (so_document s) (so_section_title s) (global_rank st) (so_page_number s)])
    (subsection_analysis st ++
       [mkSubsection (so_document s) (so_refined_text s) (so_page_number s)])
    (S (global_rank st)).

(** Lines 118-123: the values read from [input.json], as decoded. *)
Record Metadata := mkMetadata {
  input_documents : list json;
  md_persona : json;
  md_job_to_be_done : json;
  processing_timestamp : text
}.

Record Output := mkOutput {
  metadata : Metadata;
  out_extracted_sections : list ExtractedSection;
  out_subsection_analysis : list Subsection
}.

Section Driver.
Context `{UnicodeDB} `{EmbeddingBackend}.
Variable fs : FileSystem.
Variables persona job_task : text.

(** Lines 131-149, for one configured file name. *)
Definition visit_doc (st : DriverState) (filename : text) : result PyExn DriverState :=
  if negb (fs_exists fs filename) then Ok st
  else match fs_open fs filename with
       | None => Err (FileDataError filename)
       | Some doc =>
           best <- process_pdf (path_name filename) doc persona job_task ;;
           Ok (fold_left emit best st)
       end.

(** One iteration of the loop of lines 130-149, after an exception
    nothing runs. *)
Definition loop_step (acc : result PyExn DriverState) (filename : text)
  : result PyExn DriverState :=
  st <- acc ;; visit_doc st filename.

(** Lines 130-149: the loop, stopped by the first exception. *)
Definition main_loop (docs : list text) : result PyExn DriverState :=
  fold_left loop_step docs (Ok init_state).

(** The loop as a transition relation on (files left, state). *)
Inductive drive_step : list text * DriverState -> list text * DriverState -> Prop :=
| step_missing fn rest st :
    fs_exists fs fn = false -> drive_step (fn :: rest, st) (rest, st)
| step_process fn rest st doc best :
    fs_exists fs fn = true -> fs_open fs fn = Some doc ->
    process_pdf (path_name fn) doc persona job_task = Ok best ->
    drive_step (fn :: rest, st) (rest, fold_left emit best st).

Definition drive_star := clos_refl_trans_1n _ drive_step.

(** Line 131: [INPUT_PDF_DIR / doc["filename"]]; the key must exist and
    [Path] joins only a string. *)
Definition entry_filename (doc : json) : result PyExn text :=
  v <- py_getitem doc ‹"filename"› ;;
  match v with JStr filename => Ok filename | _ => Err TypeError end.

(** Lines 130-149 on the decoded entries: the file name of each entry is
    computed when the loop reaches it. *)
Definition loop_entry (acc : result PyExn DriverState) (doc : json)
  : result PyExn DriverState :=
  st <- acc ;; filename <- entry_filename doc ;; visit_doc st filename.

Definition main_entries (docs : list json) : result PyExn DriverState :=
  fold_left loop_entry docs (Ok init_state).

End Driver.

(** Lines 114-119: the reads of [input_data], in the code's order; the
    result is the persona, the task, the iterated entries of
    [input_data["documents"]] and the [filename] value of each.  Line
    130 iterates the same, unchanged value again. *)
Definition read_input (input_data : json) : result PyExn (json * json * list json * list json) :=
  r <- py_getitem input_data ‹"persona"› ;; persona <- py_getitem r ‹"role"› ;;
  t <- py_getitem input_data ‹"job_to_be_done"› ;; job_task <- py_getitem t ‹"task"› ;;
  ds <- py_getitem input_data ‹"documents"› ;; docs <- py_iter ds ;;
  filenames <- py_map_result (fun doc => py_getitem doc ‹"filename"›) docs ;;
  Ok (persona, job_task, docs, filenames).

(** Lines 114-149 of [main], on the value [input_data] that [json.load]
    returned: the output [output_data] holds when the loop ends, or the
    exception that aborts the run.  [repr_other] is [str] of a
    non-string value, as the f-string of line 85 applies it to the
    persona and the task; [now] is [datetime.now().isoformat()]. *)
Definition main_decoded `{UnicodeDB} `{EmbeddingBackend} (repr_other : json -> text)
           (fs : FileSystem) (input_data : json) (now : text) : result PyExn Output :=
  match read_input input_data with
  | Err e => Err e
  | Ok (persona, job_task, docs, filenames) =>
      st <- main_entries fs (py_str repr_other persona) (py_str repr_other job_task) docs ;;
      Ok (mkOutput (mkMetadata filenames persona job_task now)
                   (extracted_sections st) (subsection_analysis st))
  end.

(** ** [process_pdf] *)

Section ProcessTheory.
Context `{UnicodeDB} `{EmbeddingBackend}.

(** The two outcomes of [process_pdf]: no section for a document without
    a non-blank span, otherwise exactly the section of the selected block. *)
Lemma process_pdf_cases (name : text) (doc : Document) (persona job_task : text) :
  (fst (extract_blocks doc) = [] /\ process_pdf name doc persona job_task = Ok []) \/
  (fst (extract_blocks doc) <> [] /\
   exists scored t,
    score_document (py_query persona job_task) (fst (extract_blocks doc))
      (snd (extract_blocks doc)) = Ok scored /\
    map sb_block scored = fst (extract_blocks doc) /\
    select_top scored = Some t /\
    process_pdf name doc persona job_task =
      Ok [mkSectionOut name (b_text (sb_block t)) 1 (b_page (sb_block t))
            (clean_refined_text (refine_context (sb_block t) (fst (extract_blocks doc))))]).
Proof.
  destruct (fst (extract_blocks doc)) as [|b0 bs0] eqn:E0.
  { left. split; [reflexivity|]. unfold process_pdf. pose proof (extract_sizes_blocks doc) as Hs.
    destruct (extract_blocks doc) as [blocks sizes]. simpl in *. subst. reflexivity. }
  right. rewrite <- E0. assert (Hne : fst (extract_blocks doc) <> []) by congruence.
  split; [exact Hne|].
  destruct (score_document_ok (py_query persona job_task) _ Hne) as (l & Hl & Hb & _).
  rewrite <- extract_sizes_blocks in Hl.
  destruct (select_top l) as [t|] eqn:Ht.
  2: { apply select_top_none in Ht. subst l. simpl in Hb. congruence. }
  exists l, t. split; [exact Hl|split; [exact Hb|split; [exact Ht|]]].
  unfold process_pdf. pose proof (extract_sizes_blocks doc) as Hs.
  destruct (extract_blocks doc) as [blocks sizes]. cbn [fst snd] in *. subst sizes.
  destruct blocks as [|b bs]; [congruence|]. cbn [fst snd] in *. rewrite Hl. cbn [rbind]. rewrite Ht, Hb. reflexivity.
Qed.

(** A document with no non-blank span yields no section (the
    "Empty PDF" branch of lines 76-78). *)
Theorem process_pdf_empty (name : text) (doc : Document) (persona job_task : text) :
  fst (extract_blocks doc) = [] -> process_pdf name doc persona job_task = Ok [].
Proof.
  intros Hnil.
  destruct (process_pdf_cases name doc persona job_task) as [[_ Hp]|[Hne _]]; [exact Hp|].
  contradiction.
Qed.

(** C3: A document with at least one block yields exactly one section: the
    first block of greatest total score, with its page and the cleaned
    text of its context; no [IndexError] is raised on the way. *)
Theorem process_pdf_nonempty (name : text) (doc : Document) (persona job_task : text) :
  fst (extract_blocks doc) <> [] ->
  exists scored t,
    score_document (py_query persona job_task) (fst (extract_blocks doc))
      (snd (extract_blocks doc)) = Ok scored /\
    map sb_block scored = fst (extract_blocks doc) /\
    select_top scored = Some t /\
    process_pdf name doc persona job_task =
      Ok [mkSectionOut name (b_text (sb_block t)) 1 (b_page (sb_block t))
            (clean_refined_text (refine_context (sb_block t) (fst (extract_blocks doc))))].
Proof.
  intros Hne.
  destruct (process_pdf_cases name doc persona job_task) as [[Hnil _]|[_ Hp]]; [|exact Hp].
  contradiction.
Qed.

(** C2: Scoring and selection composed, in the code's doubles: for a
    document with a non-blank span whose font sizes differ by less than
    [2^1023], [process_pdf] returns the section of the first block of
    greatest total score ([structure_score + semantic_score] as a float
    sum): every block before it has a strictly smaller total, every
    block after it a total at most as large. *)
Theorem process_pdf_first_max (name : text) (doc : Document) (persona job_task : text) :
  fst (extract_blocks doc) <> [] -> sizes_within big_d (fst (extract_blocks doc)) ->
  exists scored pre t post,
    score_document (py_query persona job_task) (fst (extract_blocks doc))
      (snd (extract_blocks doc)) = Ok scored /\
    scored = pre ++ t :: post /\
    Forall (fun y => float_lt (total_score y) (total_score t) = true) pre /\
    Forall (fun y => float_le (total_score y) (total_score t)) post /\
    process_pdf name doc persona job_task =
      Ok [mkSectionOut name (b_text (sb_block t)) 1 (b_page (sb_block t))
            (clean_refined_text (refine_context (sb_block t) (fst (extract_blocks doc))))].
Proof.
  intros Hne Hw.
  destruct (process_pdf_cases name doc persona job_task) as [[Hnil _]|[_ (scored & t & Hs & _ & Ht & Hp)]];
    [contradiction|].
  pose proof Hs as Hs'. rewrite extract_sizes_blocks in Hs'.
  pose proof (score_document_finite _ _ _ Hw Hs') as F.
  destruct (float_sorted_head (fun x => float_neg (total_score x)) scored t) as (pre & post & Heq & Hpre & Hpost).
  { eapply Forall_impl; [|exact F]. intros y (v & Ev & _). cbv beta. rewrite Ev. exact I. }
  { exact Ht. }
  exists scored, pre, t, post. repeat split; [exact Hs|exact Heq| | |exact Hp].
  - eapply Forall_impl; [|exact Hpre]. intros y Hy. cbv beta in Hy. rewrite float_lt_neg in Hy. exact Hy.
  - eapply Forall_impl; [|exact Hpost]. intros y Hy. cbv beta in Hy. exact (proj1 (float_le_neg _ _) Hy).
Qed.

(** Hence [process_pdf] returns, and returns at most one section, for
    every document. *)
Corollary process_pdf_at_most_one (name : text) (doc : Document) (persona job_task : text) :
  (fst (extract_blocks doc) = [] /\ process_pdf name doc persona job_task = Ok []) \/
  (fst (extract_blocks doc) <> [] /\
   exists s, process_pdf name doc persona job_task = Ok [s] /\ so_document s = name).
Proof.
  destruct (process_pdf_cases name doc persona job_task) as [Hp|[Hne (l & t & _ & _ & _ & ->)]];
    [now left|right]. split; [exact Hne|]. eexists. split; reflexivity.
Qed.

End ProcessTheory.

(** ** Where the PDFs are read *)

(** What the operating system opens for a list of components, when no
    component is a symbolic link: [..] goes up one level. *)
Fixpoint resolve_from (acc : list text) (ps : list text) : list text :=
  match ps with
  | [] => rev acc
  | p :: ps' => if text_eqb p ‹".."› then resolve_from (tl acc) ps' else resolve_from (p :: acc) ps'
  end.

Definition resolve (ps : list text) : list text := resolve_from [] ps.

Lemma resolve_from_app (acc ps qs : list text) :
  ~ In ‹".."› ps -> resolve_from acc (ps ++ qs) = resolve_from (rev ps ++ acc) qs.
Proof.
  revert acc. induction ps as [|p ps IH]; intros acc Hps; [reflexivity|].
  cbn [app resolve_from]. destruct (text_eqb p ‹".."›) eqn:E.
  { apply text_eqb_eq in E. subst p. exfalso. apply Hps. left. reflexivity. }
  rewrite IH by (intros Hin; apply Hps; right; exact Hin). cbn [rev]. now rewrite <- app_assoc.
Qed.

Lemma last_app_cons {A} (l1 l2 : list A) (x d : A) : last (l1 ++ x :: l2) d = last (x :: l2) d.
Proof.
  induction l1 as [|y l1 IH]; [reflexivity|]. cbn [app]. rewrite <- IH.
  destruct l1; reflexivity.
Qed.

(** [pdf_file.name] is the same whatever [BASE_DIR] is. *)
Lemma pdf_path_name (base : list text) (fn : text) : last (pdf_path base fn) [] = path_name fn.
Proof.
  unfold path_name, pdf_path, input_pdf_dir. destruct (is_absolute fn); [reflexivity|].
  rewrite <- app_assoc. cbn [app]. apply last_app_cons.
Qed.

(** C25: The file opened for a relative name without a [..] component is
    that name under [INPUT_PDF_DIR]. *)
Theorem pdf_path_inside (base : list text) (fn : text) :
  ~ In ‹".."› base -> is_absolute fn = false -> ~ In ‹".."› (path_components fn) ->
  resolve (pdf_path base fn) = input_pdf_dir base ++ path_components fn.
Proof.
  intros Hb Ha Hfn. unfold resolve, pdf_path. rewrite Ha.
  rewrite <- (app_nil_r (input_pdf_dir base ++ path_components fn)).
  rewrite resolve_from_app; [cbn [resolve_from]; now rewrite !app_nil_r, rev_involutive|].
  unfold input_pdf_dir. rewrite <- app_assoc, !in_app_iff. cbn [In].
  intros [H|[[H|[]]|H]]; [exact (Hb H)|vm_compute in H; discriminate H|exact (Hfn H)].
Qed.

(** C26: The file name is not confined to [INPUT_PDF_DIR]: a [..] component
    climbs out of it, and an absolute name replaces it. *)
Theorem pdf_path_escapes (base : list text) :
  ~ In ‹".."› base ->
  resolve (pdf_path base ‹"../secret.pdf"›) = base ++ [‹"secret.pdf"›] /\
  pdf_path base ‹"/etc/secret.pdf"› = [‹"etc"›; ‹"secret.pdf"›].
Proof.
  intros Hb. split; [|reflexivity]. unfold resolve, pdf_path, input_pdf_dir.
  change (is_absolute ‹"../secret.pdf"›) with false. change (path_components ‹"../secret.pdf"›)
    with [‹".."›; ‹"secret.pdf"›]. cbn iota.
  rewrite <- app_assoc. rewrite resolve_from_app by exact Hb.
  rewrite app_nil_r. cbn [app resolve_from].
  change (text_eqb ‹"input"› ‹".."›) with false. cbn iota. rewrite text_eqb_refl. cbn [tl].
  change (text_eqb ‹"secret.pdf"› ‹".."›) with false. cbn [resolve_from rev].
  now rewrite rev_involutive.
Qed.

(** ** The driver *)

(** The rank invariant: ranks are [1..n] with no gap, the counter is the
    next rank, and the two output lists run in parallel. *)
Definition rank_inv (st : DriverState) : Prop :=
  map es_importance_rank (extracted_sections st) = seq 1 (length (extracted_sections st)) /\
  global_rank st = S (length (extracted_sections st)) /\
  map es_document (extracted_sections st) = map sa_document (subsection_analysis st) /\
  map es_page_number (extracted_sections st) = map sa_page_number (subsection_analysis st).

Lemma rank_inv_init : rank_inv init_state.
Proof. repeat split. Qed.

Lemma emit_inv (st : DriverState) (s : SectionOut) : rank_inv st -> rank_inv (emit st s).
Proof.
  intros (Hr & Hg & Hd & Hp). unfold emit, rank_inv. cbn [extracted_sections
    subsection_analysis global_rank]. autorewrite with pyrw. rewrite Hr, Hd, Hp, Hg.
  simpl. rewrite Nat.add_1_r, seq_S. repeat split.
Qed.

Lemma emit_all_inv (best : list SectionOut) (st : DriverState) :
  rank_inv st -> rank_inv (fold_left emit best st).
Proof.
  revert st. induction best as [|s best IH]; intros st Hst; simpl; [exact Hst|].
  apply IH, emit_inv, Hst.
Qed.

Section DriverTheory.
Context `{UnicodeDB} `{EmbeddingBackend}.
Variable fs : FileSystem.
Variables persona job_task : text.

Lemma loop_err (docs : list text) (e : PyExn) :
  fold_left (loop_step fs persona job_task) docs (Err e) = Err e.
Proof. induction docs; simpl; auto. Qed.

(** One step of the loop keeps the rank invariant. *)
Lemma drive_step_inv (c c' : list text * DriverState) :
  drive_step fs persona job_task c c' -> rank_inv (snd c) -> rank_inv (snd c').
Proof. destruct 1; simpl; eauto using emit_all_inv. Qed.

(** Rule induction on [drive_star] for any property of states that
    every step preserves. *)
Lemma drive_star_ind (P : DriverState -> Prop) (c c' : list text * DriverState) :
  (forall c1 c2, drive_step fs persona job_task c1 c2 -> P (snd c1) -> P (snd c2)) ->
  drive_star fs persona job_task c c' -> P (snd c) -> P (snd c').
Proof.
  intros Hstep. induction 1 as [c|c1 c2 c3 H12 _ IH]; [tauto|].
  intros Hc. apply IH, (Hstep _ _ H12), Hc.
Qed.

(** Every state a run of the loop reaches satisfies the invariant:
    rule induction on [drive_star]. *)
Theorem drive_star_inv (c c' : list text * DriverState) :
  drive_star fs persona job_task c c' -> rank_inv (snd c) -> rank_inv (snd c').
Proof. apply drive_star_ind, drive_step_inv. Qed.

Lemma loop_from_star (docs : list text) (st0 st : DriverState) :
  fold_left (loop_step fs persona job_task) docs (Ok st0) = Ok st -> drive_star fs persona job_task (docs, st0) ([], st).
Proof.
  revert st0. induction docs as [|fn docs IH]; intros st0 Hrun; cbn [fold_left] in Hrun.
  - injection Hrun as ->. apply rt1n_refl.
  - unfold loop_step at 2, visit_doc in Hrun. cbn [rbind] in Hrun.
    destruct (fs_exists fs fn) eqn:Hex; cbn [negb] in Hrun.
    + destruct (fs_open fs fn) as [doc|] eqn:Hop; [|now rewrite loop_err in Hrun].
      destruct (process_pdf (path_name fn) doc persona job_task) as [best|e] eqn:Hp;
        cbn [rbind] in Hrun; [|now rewrite loop_err in Hrun].
      eapply rt1n_trans; [eapply step_process; eassumption|]. apply IH, Hrun.
    + eapply rt1n_trans; [apply step_missing; exact Hex|]. apply IH, Hrun.
Qed.

(** The executable loop is a run of the step relation. *)
Theorem main_loop_star (docs : list text) (st : DriverState) :
  main_loop fs persona job_task docs = Ok st ->
  drive_star fs persona job_task (docs, init_state) ([], st).
Proof. apply loop_from_star. Qed.

(** A step consumes the first file of the list. *)
Lemma drive_step_files (c c' : list text * DriverState) :
  drive_step fs persona job_task c c' -> exists fn, fst c = fn :: fst c'.
Proof. destruct 1; eexists; reflexivity. Qed.

(** The files left in a reachable configuration are a suffix of the
    configured ones. *)
Lemma drive_star_files (c c' : list text * DriverState) :
  drive_star fs persona job_task c c' -> exists pre, fst c = pre ++ fst c'.
Proof.
  induction 1 as [c|c1 c2 c3 H12 _ (pre & Hpre)]; [exists []; reflexivity|].
  destruct (drive_step_files _ _ H12) as (fn & Hfn). exists (fn :: pre). now rewrite Hfn, Hpre.
Qed.

(** A file that exists is one the parser opens. *)
Definition parses (fn : text) : Prop := fs_exists fs fn = true -> fs_open fs fn <> None.

(** The loop over files that all parse ends normally. *)
Lemma loop_progress (docs : list text) (st0 : DriverState) :
  Forall parses docs -> exists st, fold_left (loop_step fs persona job_task) docs (Ok st0) = Ok st.
Proof.
  revert st0. induction docs as [|fn docs IH]; intros st0 Hall; [now exists st0|].
  apply Forall_cons_iff in Hall as [Hfn Hall]. cbn [fold_left]. unfold loop_step at 2, visit_doc.
  cbn [rbind]. destruct (fs_exists fs fn) eqn:Hex; cbn [negb]; [|apply IH, Hall].
  destruct (fs_open fs fn) as [doc|] eqn:Hop; [|exfalso; exact (Hfn Hex Hop)].
  destruct (process_pdf_at_most_one (path_name fn) doc persona job_task) as [[_ Hp]|[_ (s & Hp & _)]];
    rewrite Hp; cbn [rbind]; apply IH, Hall.
Qed.

(** C24: Liveness: when every configured file that exists parses, the
    final configuration (no file left) is reachable from every
    configuration a run reaches, and the executable loop ends there. *)
Theorem drive_completes (docs : list text) (st0 : DriverState) (c : list text * DriverState) :
  Forall parses docs -> drive_star fs persona job_task (docs, st0) c ->
  exists st, drive_star fs persona job_task c ([], st) /\
    fold_left (loop_step fs persona job_task) (fst c) (Ok (snd c)) = Ok st.
Proof.
  intros Hall Hc. destruct (drive_star_files _ _ Hc) as (pre & Hpre). cbn [fst] in Hpre.
  subst docs. apply Forall_app in Hall as [_ Hall].
  destruct (loop_progress (fst c) (snd c) Hall) as (st & Hst). exists st. split; [|exact Hst].
  destruct c as [l s]. exact (loop_from_star l s st Hst).
Qed.

(** The loop from any state satisfying the invariant ends in one. *)
Lemma loop_from_inv (docs : list text) (st0 st : DriverState) :
  fold_left (loop_step fs persona job_task) docs (Ok st0) = Ok st ->
  rank_inv st0 -> rank_inv st.
Proof.
  intros Hrun. exact (drive_star_ind rank_inv _ _ drive_step_inv (loop_from_star docs st0 st Hrun)).
Qed.

(** C4: Ranks are [1, 2, ..., n], one per section, with no gap for skipped
    files; the two output lists agree entry by entry. *)
Theorem main_loop_ranks (docs : list text) (st : DriverState) :
  main_loop fs persona job_task docs = Ok st -> rank_inv st.
Proof. intros Hrun. exact (loop_from_inv docs init_state st Hrun rank_inv_init). Qed.

(** C13: A missing file is skipped: the run is the run without it. *)
Theorem main_loop_skip_missing (pre post : list text) (fn : text) :
  fs_exists fs fn = false ->
  main_loop fs persona job_task (pre ++ fn :: post) =
  main_loop fs persona job_task (pre ++ post).
Proof.
  intros Hex. unfold main_loop. rewrite !fold_left_app. simpl.
  destruct (fold_left (loop_step fs persona job_task) pre (Ok init_state)) as [st|e]; simpl.
  - unfold visit_doc. now rewrite Hex.
  - reflexivity.
Qed.

(** C14: A file that exists but that the parser rejects aborts the whole
    run: the exception propagates out of [main]. *)
Theorem main_loop_unreadable_aborts (pre post : list text) (fn : text) (st : DriverState) :
  fs_exists fs fn = true -> fs_open fs fn = None ->
  main_loop fs persona job_task pre = Ok st ->
  main_loop fs persona job_task (pre ++ fn :: post) = Err (FileDataError fn).
Proof.
  intros Hex Hop Hpre. unfold main_loop in *. rewrite fold_left_app, Hpre. simpl.
  unfold visit_doc. rewrite Hex, Hop. apply loop_err.
Qed.

(** Whether the file [fn] gives a section: it exists, the parser reads
    it, and it has a non-blank span. *)
Definition doc_emits (fn : text) : bool :=
  fs_exists fs fn &&
  match fs_open fs fn with
  | Some doc => match fst (extract_blocks doc) with [] => false | _ => true end
  | None => false
  end.

Lemma loop_from_documents (docs : list text) (st0 st : DriverState) :
  fold_left (loop_step fs persona job_task) docs (Ok st0) = Ok st ->
  map es_document (extracted_sections st) =
  map es_document (extracted_sections st0) ++ map path_name (filter doc_emits docs).
Proof.
  revert st0. induction docs as [|fn docs IH]; intros st0 Hrun; cbn [fold_left] in Hrun.
  - injection Hrun as ->. simpl. now rewrite app_nil_r.
  - unfold loop_step at 2, visit_doc in Hrun. cbn [rbind] in Hrun. simpl filter.
    unfold doc_emits at 1. destruct (fs_exists fs fn) eqn:Hex; cbn [negb andb] in Hrun |- *.
    + destruct (fs_open fs fn) as [doc|] eqn:Hop; [|now rewrite loop_err in Hrun].
      destruct (process_pdf_at_most_one (path_name fn) doc persona job_task)
        as [[Hnil Hp]|[Hne (s & Hp & Hs)]]; rewrite Hp in Hrun; cbn [rbind fold_left] in Hrun;
        rewrite (IH _ Hrun).
      * rewrite Hnil. reflexivity.
      * destruct (fst (extract_blocks doc)); [congruence|]. simpl.
        rewrite map_app, <- app_assoc, Hs. reflexivity.
    + apply IH, Hrun.
Qed.

(** C12: The sections come in input order: the [k]-th section belongs to the
    [k]-th file that gives one, whatever the scores of other files. *)
Theorem main_loop_documents (docs : list text) (st : DriverState) :
  main_loop fs persona job_task docs = Ok st ->
  map es_document (extracted_sections st) = map path_name (filter doc_emits docs).
Proof. intros Hrun. exact (loop_from_documents docs init_state st Hrun). Qed.

(** Rank [k+1] goes to the [k]-th file that gives a section, in input
    order: the rank records processing order, not a comparison of scores
    across files. *)
Theorem main_loop_rank_order (docs : list text) (st : DriverState) (i : nat)
        (e : ExtractedSection) :
  main_loop fs persona job_task docs = Ok st ->
  nth_error (extracted_sections st) i = Some e ->
  es_importance_rank e = S i /\
  (exists fn, nth_error (filter doc_emits docs) i = Some fn /\ es_document e = path_name fn).
Proof.
  intros Hrun Hi. destruct (loop_from_inv docs init_state st Hrun rank_inv_init) as (Hr & _).
  pose proof (loop_from_documents docs init_state st Hrun) as Hd. simpl in Hd. split.
  - apply (f_equal (fun l => nth_error l i)) in Hr.
    rewrite nth_error_map, Hi in Hr. simpl in Hr.
    assert (Hlt : i < length (extracted_sections st)) by (apply nth_error_Some; congruence).
    rewrite nth_error_seq in Hr. destruct (Nat.ltb_spec i (length (extracted_sections st)));
      [|lia]. injection Hr as ->. lia.
  - apply (f_equal (fun l => nth_error l i)) in Hd.
    rewrite !nth_error_map, Hi in Hd. simpl in Hd.
    destruct (nth_error (filter doc_emits docs) i) as [fn|]; [|discriminate].
    injection Hd as Hd. eauto.
Qed.

Lemma loop_entry_err (docs : list json) (e : PyExn) :
  fold_left (loop_entry fs persona job_task) docs (Err e) = Err e.
Proof. induction docs; simpl; auto. Qed.

(** When every entry has a string [filename], the loop over the entries
    is the loop over those names. *)
Lemma loop_entries_names (docs : list json) (names : list text) (acc : result PyExn DriverState) :
  py_map_result entry_filename docs = Ok names ->
  fold_left (loop_entry fs persona job_task) docs acc = fold_left (loop_step fs persona job_task) names acc.
Proof.
  revert names acc. induction docs as [|d docs IH]; intros names acc Hn; simpl in Hn.
  - injection Hn as <-. reflexivity.
  - destruct (entry_filename d) as [f|e] eqn:Hd; [|discriminate]. simpl in Hn.
    destruct (py_map_result entry_filename docs) as [ns|e]; [|discriminate].
    injection Hn as <-. simpl. rewrite (IH ns _ eq_refl). f_equal.
    unfold loop_entry, loop_step. destruct acc; simpl; [rewrite Hd|]; reflexivity.
Qed.

(** A loop over the entries that ends normally read a string [filename]
    from every entry and ran the loop over those names. *)
Lemma loop_entries_ok (docs : list json) (st0 st : DriverState) :
  fold_left (loop_entry fs persona job_task) docs (Ok st0) = Ok st ->
  exists names, py_map_result entry_filename docs = Ok names /\
    fold_left (loop_step fs persona job_task) names (Ok st0) = Ok st.
Proof.
  revert st0. induction docs as [|d docs IH]; intros st0 Hrun; cbn [fold_left] in Hrun.
  - exists []. split; [reflexivity|exact Hrun].
  - unfold loop_entry at 2 in Hrun. cbn [rbind] in Hrun.
    destruct (entry_filename d) as [f|e] eqn:Hd; simpl in Hrun; [|now rewrite loop_entry_err in Hrun].
    destruct (visit_doc fs persona job_task st0 f) as [st1|e] eqn:Hv;
      [|now rewrite loop_entry_err in Hrun].
    destruct (IH st1 Hrun) as (names & Hn & Hl).
    exists (f :: names). split; [simpl; now rewrite Hd, Hn|].
    cbn [fold_left]. unfold loop_step at 2. cbn [rbind]. now rewrite Hv.
Qed.

End DriverTheory.

(** ** Reading [input.json] *)

(** What the comprehension of line 119 collects, when the loop later
    accepts every entry: the names as strings. *)
Lemma filenames_strings (docs : list json) (fns : list json) (names : list text) :
  py_map_result (fun doc => py_getitem doc ‹"filename"›) docs = Ok fns ->
  py_map_result entry_filename docs = Ok names -> fns = map JStr names.
Proof.
  rewrite !py_map_result_ok. intros H1. revert names.
  induction H1 as [|d v docs fns Hv _ IH]; intros names H2; inversion H2 as [|? n ? ns Hn Hns]; subst.
  - reflexivity.
  - simpl. rewrite (IH ns Hns). unfold entry_filename in Hn. rewrite Hv in Hn. simpl in Hn.
    destruct v; try discriminate. injection Hn as ->. reflexivity.
Qed.

Lemma filenames_entries (docs : list json) (names : list text) :
  py_map_result (fun doc => py_getitem doc ‹"filename"›) docs = Ok (map JStr names) ->
  py_map_result entry_filename docs = Ok names.
Proof.
  rewrite !py_map_result_ok. remember (map JStr names) as fns eqn:E. intros H. revert names E.
  induction H as [|d v docs fns Hv _ IH]; intros [|n names] E; simpl in E; try discriminate;
    constructor.
  - injection E as -> ->. unfold entry_filename. now rewrite Hv.
  - injection E as -> ->. now apply IH.
Qed.

Lemma read_input_filenames (input : json) (p j : json) (docs fns : list json) :
  read_input input = Ok (p, j, docs, fns) ->
  py_map_result (fun doc => py_getitem doc ‹"filename"›) docs = Ok fns.
Proof.
  unfold read_input. repeat rbind_ok_step.
  intros E. injection E. intros; subst. assumption.
Qed.

(** Once the persona, the task and the [documents] value are read, what
    is left of lines 114-119 is the iteration and the comprehension. *)
Lemma read_input_documents (input : json) (p j d : json) :
  (r <- py_getitem input ‹"persona"› ;; py_getitem r ‹"role"›) = Ok p ->
  (t <- py_getitem input ‹"job_to_be_done"› ;; py_getitem t ‹"task"›) = Ok j ->
  py_getitem input ‹"documents"› = Ok d ->
  read_input input =
    (docs <- py_iter d ;;
     filenames <- py_map_result (fun doc => py_getitem doc ‹"filename"›) docs ;;
     Ok (p, j, docs, filenames)).
Proof.
  intros Hp Hj Hd. unfold read_input.
  destruct (py_getitem input ‹"persona"›) as [r|]; simpl in Hp |- *; [|discriminate].
  rewrite Hp. simpl.
  destruct (py_getitem input ‹"job_to_be_done"›) as [t|]; simpl in Hj |- *; [|discriminate].
  rewrite Hj. simpl. now rewrite Hd.
Qed.

Section MainTheory.
Context `{UnicodeDB} `{EmbeddingBackend}.
Variable repr_other : json -> text.

(** C16: Refinement: on an input whose persona, task and file names are
    strings, [main] is the loop over the file names of [main_loop], with
    the decoded values as metadata; the theorems on [main_loop] apply. *)
Theorem main_refines (fs : FileSystem) (input : json) (now : text) (persona job_task : text)
        (docs : list json) (names : list text) :
  read_input input = Ok (JStr persona, JStr job_task, docs, map JStr names) ->
  main_decoded repr_other fs input now =
    (st <- main_loop fs persona job_task names ;;
     Ok (mkOutput (mkMetadata (map JStr names) (JStr persona) (JStr job_task) now)
                  (extracted_sections st) (subsection_analysis st))).
Proof.
  intros Hr. unfold main_decoded. rewrite Hr. cbn [py_str]. unfold main_entries, main_loop.
  now rewrite (loop_entries_names _ _ _ _ _ _ (filenames_entries _ _ (read_input_filenames _ _ _ _ _ Hr))).
Qed.

(** C15: What [main] writes: its metadata is exactly the list of
    [filename] values the comprehension of line 119 read from the
    input, whatever became of the files, with the persona, the task and
    the time stamp; ranks are [1..n] on the sections of the files that
    gave one, those files in input order, and the two output lists run
    in parallel. *)
Theorem main_output (fs : FileSystem) (input : json) (now : text) (out : Output)
        (p j : json) (docs fns : list json) :
  read_input input = Ok (p, j, docs, fns) ->
  main_decoded repr_other fs input now = Ok out ->
  metadata out = mkMetadata fns p j now /\
  exists names, fns = map JStr names /\
  map es_importance_rank (out_extracted_sections out) =
    seq 1 (length (out_extracted_sections out)) /\
  map es_document (out_extracted_sections out) =
    map path_name (filter (doc_emits fs) names) /\
  map es_document (out_extracted_sections out) =
    map sa_document (out_subsection_analysis out).
Proof.
  intros Hr. unfold main_decoded. rewrite Hr.
  destruct (main_entries _ _ _ _) as [st|e] eqn:Hrun; [|discriminate].
  cbn [rbind]. intros E. injection E as <-. simpl. split; [reflexivity|].
  destruct (loop_entries_ok _ _ _ _ _ _ Hrun) as (names & Hn & Hloop).
  exists names. split; [exact (filenames_strings _ _ _ (read_input_filenames _ _ _ _ _ Hr) Hn)|].
  destruct (loop_from_inv _ _ _ _ _ _ Hloop rank_inv_init) as (Hrk & _ & Hd & _).
  split; [exact Hrk|split; [|exact Hd]].
  exact (loop_from_documents _ _ _ _ _ _ Hloop).
Qed.

(** C17: An entry of [documents] without a [filename] key makes [main] raise
    [KeyError('filename')] at line 119, before any file is looked at:
    the result does not depend on the file system. *)
Theorem main_missing_filename (fs : FileSystem) (input : json) (now : text) (p j : json)
        (pre : list json) (kvs : list (text * json)) (post : list json) :
  (r <- py_getitem input ‹"persona"› ;; py_getitem r ‹"role"›) = Ok p ->
  (t <- py_getitem input ‹"job_to_be_done"› ;; py_getitem t ‹"task"›) = Ok j ->
  py_getitem input ‹"documents"› = Ok (JArr (pre ++ JObj kvs :: post)) ->
  Forall (fun d => exists v, py_getitem d ‹"filename"› = Ok v) pre ->
  ~ In ‹"filename"› (map fst kvs) ->
  main_decoded repr_other fs input now = Err (KeyError ‹"filename"›).
Proof.
  intros Hp Hj Hd Hpre Hk. unfold main_decoded. rewrite (read_input_documents _ _ _ _ Hp Hj Hd). simpl.
  destruct (py_map_result_total _ _ Hpre) as (ys & Hys).
  apply dict_lookup_none in Hk.
  rewrite (py_map_result_err _ _ (JObj kvs) post _ (KeyError ‹"filename"›) Hys); [reflexivity|].
  simpl. now rewrite Hk.
Qed.

(** C18: A [documents] value that is not a list is not rejected as such:
    an empty dict or an empty string is iterated as an empty list and
    gives an output with no document at all, and every other value (a
    dict or string with an element, whose items are strings that the
    comprehension subscripts, or a scalar, which is not iterable) raises
    [TypeError]. *)
Theorem main_documents_not_list (fs : FileSystem) (input : json) (now : text) (p j d : json) :
  (r <- py_getitem input ‹"persona"› ;; py_getitem r ‹"role"›) = Ok p ->
  (t <- py_getitem input ‹"job_to_be_done"› ;; py_getitem t ‹"task"›) = Ok j ->
  py_getitem input ‹"documents"› = Ok d -> (forall xs, d <> JArr xs) ->
  main_decoded repr_other fs input now =
    match d with
    | JObj [] | JStr [] => Ok (mkOutput (mkMetadata [] p j now) [] [])
    | _ => Err TypeError
    end.
Proof.
  intros Hp Hj Hd Hnl. unfold main_decoded. rewrite (read_input_documents _ _ _ _ Hp Hj Hd). simpl.
  destruct d as [| | | | [|c s] |xs| [|[k v] kvs]]; simpl; auto.
  exfalso. exact (Hnl xs eq_refl).
Qed.

(** C19: A [filename] that is not a string passes the comprehension of
    line 119 and raises [TypeError] only when the loop reaches its
    entry at line 131: [main] first runs the loop over the entries
    before it, and an exception there (an unreadable PDF) is the one
    the run raises. *)
Theorem main_filename_not_string (fs : FileSystem) (input : json) (now : text) (p j : json)
        (pre : list json) (d : json) (post : list json) (fns : list json) (names : list text)
        (v : json) :
  (r <- py_getitem input ‹"persona"› ;; py_getitem r ‹"role"›) = Ok p ->
  (t <- py_getitem input ‹"job_to_be_done"› ;; py_getitem t ‹"task"›) = Ok j ->
  py_getitem input ‹"documents"› = Ok (JArr (pre ++ d :: post)) ->
  py_map_result (fun doc => py_getitem doc ‹"filename"›) (pre ++ d :: post) = Ok fns ->
  py_map_result entry_filename pre = Ok names ->
  py_getitem d ‹"filename"› = Ok v -> (forall s, v <> JStr s) ->
  main_decoded repr_other fs input now =
    (st <- main_loop fs (py_str repr_other p) (py_str repr_other j) names ;; Err TypeError).
Proof.
  intros Hp Hj Hd Hfns Hn Hv Hs. unfold main_decoded. rewrite (read_input_documents _ _ _ _ Hp Hj Hd).
  cbn [py_iter rbind]. rewrite Hfns. cbn [rbind]. unfold main_entries.
  rewrite fold_left_app, (loop_entries_names _ _ _ _ _ _ Hn). unfold main_loop.
  destruct (fold_left _ names (Ok init_state)) as [st|e]; cbn [fold_left rbind];
    [|change (loop_entry _ _ _ (Err e) d) with (@Err PyExn DriverState e); rewrite loop_entry_err; reflexivity].
  unfold loop_entry at 2, entry_filename. cbn [rbind].
  rewrite Hv. destruct v as [| | | |s| |]; cbn [rbind]; try (rewrite loop_entry_err; reflexivity).
  now destruct (Hs s).
Qed.

End MainTheory.

(** ** Witnesses *)

(** A document with nothing but a blank span. *)
Definition fixture_blank_doc : Document :=
  [[mkRawBlock 0 [[fixture_span ‹" "› 10 10 ‹"Arial"›]]]].

(** A second one-page document. *)
Definition fixture_doc_b : Document :=
  [[mkRawBlock 0 [[fixture_span ‹"Notes"› 11 300 ‹"Times"›]]]].

(** [missing.pdf] does not exist, [bad.pdf] exists but the parser
    rejects it, [empty.pdf] has no text. *)
Definition fixture_fs : FileSystem :=
  mkFileSystem
    (fun fn => negb (text_eqb fn ‹"missing.pdf"›))
    (fun fn => if text_eqb fn ‹"a.pdf"› then Some fixture_doc
               else if text_eqb fn ‹"b.pdf"› then Some fixture_doc_b
               else if text_eqb fn ‹"sub/empty.pdf"› then Some fixture_blank_doc
               else None).

Definition fixture_docs : list text :=
  [‹"b.pdf"›; ‹"missing.pdf"›; ‹"sub/empty.pdf"›; ‹"a.pdf"›].

Definition fixture_loop : result PyExn DriverState :=
  @main_loop ascii_db length_backend fixture_fs ‹"X"› ‹"Y"› fixture_docs.

Lemma process_pdf_nonempty_witness :
  fst (extract_blocks fixture_doc) <> [] /\
  exists scored t,
    @score_document ascii_db length_backend (py_query ‹"X"› ‹"Y"›)
      (fst (extract_blocks fixture_doc)) (snd (extract_blocks fixture_doc)) = Ok scored /\
    map sb_block scored = fst (extract_blocks fixture_doc) /\
    select_top scored = Some t /\
    @process_pdf ascii_db length_backend ‹"a.pdf"› fixture_doc ‹"X"› ‹"Y"› =
      Ok [mkSectionOut ‹"a.pdf"› (b_text (sb_block t)) 1 (b_page (sb_block t))
            (clean_refined_text (refine_context (sb_block t) (fst (extract_blocks fixture_doc))))].
Proof.
  assert (H : fst (extract_blocks fixture_doc) <> []) by (vm_compute; discriminate).
  split; [exact H|].
  exact (@process_pdf_nonempty ascii_db length_backend ‹"a.pdf"› fixture_doc ‹"X"› ‹"Y"› H).
Defined.

Lemma process_pdf_first_max_witness :
  fst (extract_blocks fixture_doc) <> [] /\ sizes_within big_d (fst (extract_blocks fixture_doc)) /\
  exists scored pre t post,
    @score_document ascii_db length_backend (py_query ‹"X"› ‹"Y"›)
      (fst (extract_blocks fixture_doc)) (snd (extract_blocks fixture_doc)) = Ok scored /\
    scored = pre ++ t :: post /\
    Forall (fun y => float_lt (total_score y) (total_score t) = true) pre /\
    Forall (fun y => float_le (total_score y) (total_score t)) post /\
    @process_pdf ascii_db length_backend ‹"a.pdf"› fixture_doc ‹"X"› ‹"Y"› =
      Ok [mkSectionOut ‹"a.pdf"› (b_text (sb_block t)) 1 (b_page (sb_block t))
            (clean_refined_text (refine_context (sb_block t) (fst (extract_blocks fixture_doc))))].
Proof.
  assert (H : fst (extract_blocks fixture_doc) <> []) by (vm_compute; discriminate).
  assert (Hw : sizes_within big_d (fst (extract_blocks fixture_doc))).
  { intros b b' Hb Hb'. vm_compute in Hb, Hb'.
    destruct Hb as [<-|[<-|[]]], Hb' as [<-|[<-|[]]]; vm_compute; reflexivity. }
  split; [exact H|split; [exact Hw|]].
  exact (@process_pdf_first_max ascii_db length_backend ‹"a.pdf"› fixture_doc ‹"X"› ‹"Y"› H Hw).
Defined.

Lemma process_pdf_empty_witness :
  fst (extract_blocks fixture_blank_doc) = [] /\
  @process_pdf ascii_db length_backend ‹"empty.pdf"› fixture_blank_doc ‹"X"› ‹"Y"› = Ok [].
Proof.
  assert (H : fst (extract_blocks fixture_blank_doc) = []) by (vm_compute; reflexivity).
  split; [exact H|].
  exact (@process_pdf_empty ascii_db length_backend _ fixture_blank_doc ‹"X"› ‹"Y"› H).
Defined.

Lemma main_loop_ranks_witness :
  exists st, fixture_loop = Ok st /\ rank_inv st.
Proof.
  eexists. assert (H : fixture_loop = Ok _) by (vm_compute; reflexivity).
  split; [exact H|]. exact (@main_loop_ranks ascii_db length_backend _ _ _ _ _ H).
Defined.

(** [b.pdf] comes first in the input, so it has rank 1 and [a.pdf] rank 2,
    whatever their scores. *)
Lemma main_loop_rank_order_witness :
  exists st e, fixture_loop = Ok st /\ nth_error (extracted_sections st) 1 = Some e /\
    es_importance_rank e = 2 /\
    (exists fn, nth_error (filter (doc_emits fixture_fs) fixture_docs) 1 = Some fn /\
       es_document e = path_name fn).
Proof.
  assert (H : fixture_loop = Ok _) by (vm_compute; reflexivity).
  match type of H with _ = Ok ?st =>
    assert (He : nth_error (extracted_sections st) 1 = Some _) by (vm_compute; reflexivity);
    match type of He with _ = Some ?e => exists st, e end
  end.
  split; [exact H|split; [exact He|]].
  exact (@main_loop_rank_order ascii_db length_backend _ _ _ _ _ 1 _ H He).
Defined.

Lemma drive_star_inv_witness :
  exists st, fixture_loop = Ok st /\
    @drive_star ascii_db length_backend fixture_fs ‹"X"› ‹"Y"› (fixture_docs, init_state) ([], st) /\
    rank_inv init_state /\ rank_inv st.
Proof.
  eexists. assert (H : fixture_loop = Ok _) by (vm_compute; reflexivity).
  assert (Hs := @main_loop_star ascii_db length_backend _ _ _ _ _ H).
  assert (Hi : rank_inv init_state) by (repeat split).
  split; [exact H|split; [exact Hs|split; [exact Hi|]]].
  exact (@drive_star_inv ascii_db length_backend _ _ _ _ _ Hs Hi).
Defined.

Lemma main_loop_documents_witness :
  exists st, fixture_loop = Ok st /\
    map es_document (extracted_sections st) =
    map path_name (filter (doc_emits fixture_fs) fixture_docs).
Proof.
  eexists. assert (H : fixture_loop = Ok _) by (vm_compute; reflexivity).
  split; [exact H|]. exact (@main_loop_documents ascii_db length_backend _ _ _ _ _ H).
Defined.

Lemma main_loop_skip_missing_witness :
  fs_exists fixture_fs ‹"missing.pdf"› = false /\
  @main_loop ascii_db length_backend fixture_fs ‹"X"› ‹"Y"›
    ([‹"b.pdf"›] ++ ‹"missing.pdf"› :: [‹"a.pdf"›]) =
  @main_loop ascii_db length_backend fixture_fs ‹"X"› ‹"Y"› ([‹"b.pdf"›] ++ [‹"a.pdf"›]).
Proof.
  assert (H : fs_exists fixture_fs ‹"missing.pdf"› = false) by (vm_compute; reflexivity).
  split; [exact H|].
  exact (@main_loop_skip_missing ascii_db length_backend _ _ _ _ _ _ H).
Defined.

Lemma main_loop_unreadable_aborts_witness :
  exists st,
    fs_exists fixture_fs ‹"bad.pdf"› = true /\ fs_open fixture_fs ‹"bad.pdf"› = None /\
    @main_loop ascii_db length_backend fixture_fs ‹"X"› ‹"Y"› [‹"a.pdf"›] = Ok st /\
    @main_loop ascii_db length_backend fixture_fs ‹"X"› ‹"Y"›
      ([‹"a.pdf"›] ++ ‹"bad.pdf"› :: [‹"b.pdf"›]) = Err (FileDataError ‹"bad.pdf"›).
Proof.
  eexists.
  assert (H1 : fs_exists fixture_fs ‹"bad.pdf"› = true) by (vm_compute; reflexivity).
  assert (H2 : fs_open fixture_fs ‹"bad.pdf"› = None) by (vm_compute; reflexivity).
  assert (H3 : @main_loop ascii_db length_backend fixture_fs ‹"X"› ‹"Y"› [‹"a.pdf"›] = Ok _)
    by (vm_compute; reflexivity).
  split; [exact H1|split; [exact H2|split; [exact H3|]]].
  exact (@main_loop_unreadable_aborts ascii_db length_backend _ _ _ _ _ _ _ H1 H2 H3).
Defined.

(** Every file of [fixture_docs] that exists parses, so the loop runs to
    the end from its first configuration. *)
Lemma drive_completes_witness :
  Forall (parses fixture_fs) fixture_docs /\
  exists st, @drive_star ascii_db length_backend fixture_fs ‹"X"› ‹"Y"› (fixture_docs, init_state) ([], st) /\
    fold_left (@loop_step ascii_db length_backend fixture_fs ‹"X"› ‹"Y"›) fixture_docs (Ok init_state) = Ok st.
Proof.
  assert (Hp : Forall (parses fixture_fs) fixture_docs)
    by (repeat constructor; intros Hex Hop; vm_compute in Hex, Hop; discriminate).
  split; [exact Hp|].
  exact (@drive_completes ascii_db length_backend fixture_fs ‹"X"› ‹"Y"› fixture_docs init_state
           (fixture_docs, init_state) Hp (rt1n_refl _ _ _)).
Defined.

(** [BASE_DIR] is [/srv/app]. *)
Definition fixture_base : list text := [‹"srv"›; ‹"app"›].

(** No component is [..]: decided by evaluation. *)
Ltac no_dotdot := cbn [In]; intros Hin; repeat destruct Hin as [Hin|Hin]; try contradiction;
  vm_compute in Hin; discriminate Hin.

Lemma pdf_path_inside_witness :
  ~ In ‹".."› fixture_base /\ is_absolute ‹"sub/empty.pdf"› = false /\
  ~ In ‹".."› (path_components ‹"sub/empty.pdf"›) /\
  resolve (pdf_path fixture_base ‹"sub/empty.pdf"›) =
    input_pdf_dir fixture_base ++ path_components ‹"sub/empty.pdf"›.
Proof.
  assert (H1 : ~ In ‹".."› fixture_base) by no_dotdot.
  assert (H2 : is_absolute ‹"sub/empty.pdf"› = false) by reflexivity.
  assert (H3 : ~ In ‹".."› (path_components ‹"sub/empty.pdf"›))
    by (change (path_components ‹"sub/empty.pdf"›) with [‹"sub"›; ‹"empty.pdf"›]; no_dotdot).
  split; [exact H1|split; [exact H2|split; [exact H3|]]].
  exact (pdf_path_inside fixture_base _ H1 H2 H3).
Defined.

Lemma pdf_path_escapes_witness :
  ~ In ‹".."› fixture_base /\
  resolve (pdf_path fixture_base ‹"../secret.pdf"›) = fixture_base ++ [‹"secret.pdf"›] /\
  pdf_path fixture_base ‹"/etc/secret.pdf"› = [‹"etc"›; ‹"secret.pdf"›].
Proof.
  assert (H1 : ~ In ‹".."› fixture_base) by no_dotdot.
  split; [exact H1|exact (pdf_path_escapes fixture_base H1)].
Defined.

(** [input.json] in the format of the spec: the persona's role, the
    task, and one [{"filename": ...}] object per document. *)
Definition fixture_input (persona job_task : text) (docs : json) : json :=
  JObj [(‹"persona"›, JObj [(‹"role"›, JStr persona)]);
        (‹"job_to_be_done"›, JObj [(‹"task"›, JStr job_task)]);
        (‹"documents"›, docs)].

Definition fixture_entries (names : list text) : json :=
  JArr (map (fun n => JObj [(‹"filename"›, JStr n)]) names).

Definition fixture_repr (v : json) : text := ‹"?"›.

Definition fixture_now : text := ‹"2026-11-09T00:00:00"›.

Lemma main_refines_witness :
  exists docs,
    read_input (fixture_input ‹"X"› ‹"Y"› (fixture_entries fixture_docs)) =
      Ok (JStr ‹"X"›, JStr ‹"Y"›, docs, map JStr fixture_docs) /\
    @main_decoded ascii_db length_backend fixture_repr fixture_fs
      (fixture_input ‹"X"› ‹"Y"› (fixture_entries fixture_docs)) fixture_now =
    (st <- fixture_loop ;;
     Ok (mkOutput (mkMetadata (map JStr fixture_docs) (JStr ‹"X"›) (JStr ‹"Y"›) fixture_now)
                  (extracted_sections st) (subsection_analysis st))).
Proof.
  assert (H : read_input (fixture_input ‹"X"› ‹"Y"› (fixture_entries fixture_docs)) =
                Ok (JStr ‹"X"›, JStr ‹"Y"›, _, map JStr fixture_docs)) by (vm_compute; reflexivity).
  eexists. split; [exact H|].
  exact (@main_refines ascii_db length_backend fixture_repr fixture_fs _ fixture_now _ _ _ _ H).
Defined.

Lemma main_output_witness :
  exists out p j docs fns,
    read_input (fixture_input ‹"X"› ‹"Y"› (fixture_entries fixture_docs)) = Ok (p, j, docs, fns) /\
    @main_decoded ascii_db length_backend fixture_repr fixture_fs
      (fixture_input ‹"X"› ‹"Y"› (fixture_entries fixture_docs)) fixture_now = Ok out /\
    metadata out = mkMetadata fns p j fixture_now /\
    exists names, fns = map JStr names /\
    map es_importance_rank (out_extracted_sections out) =
      seq 1 (length (out_extracted_sections out)) /\
    map es_document (out_extracted_sections out) =
      map path_name (filter (doc_emits fixture_fs) names) /\
    map es_document (out_extracted_sections out) =
      map sa_document (out_subsection_analysis out).
Proof.
  assert (Hr : read_input (fixture_input ‹"X"› ‹"Y"› (fixture_entries fixture_docs)) = Ok (_, _, _, _))
    by (vm_compute; reflexivity).
  assert (H : @main_decoded ascii_db length_backend fixture_repr fixture_fs
                (fixture_input ‹"X"› ‹"Y"› (fixture_entries fixture_docs)) fixture_now = Ok _)
    by (vm_compute; reflexivity).
  do 5 eexists. split; [exact Hr|split; [exact H|]].
  exact (@main_output ascii_db length_backend fixture_repr _ _ _ _ _ _ _ _ Hr H).
Defined.

(** The second entry names its file under [name], not [filename]. *)
Lemma main_missing_filename_witness :
  let input := fixture_input ‹"X"› ‹"Y"›
                 (JArr [JObj [(‹"filename"›, JStr ‹"a.pdf"›)]; JObj [(‹"name"›, JStr ‹"b.pdf"›)]]) in
  @main_decoded ascii_db length_backend fixture_repr fixture_fs input fixture_now =
    Err (KeyError ‹"filename"›).
Proof.
  intros input.
  assert (Hp : (r <- py_getitem input ‹"persona"› ;; py_getitem r ‹"role"›) = Ok (JStr ‹"X"›))
    by (vm_compute; reflexivity).
  assert (Hj : (t <- py_getitem input ‹"job_to_be_done"› ;; py_getitem t ‹"task"›) = Ok (JStr ‹"Y"›))
    by (vm_compute; reflexivity).
  assert (Hd : py_getitem input ‹"documents"› =
               Ok (JArr ([JObj [(‹"filename"›, JStr ‹"a.pdf"›)]] ++
                         JObj [(‹"name"›, JStr ‹"b.pdf"›)] :: []))) by (vm_compute; reflexivity).
  assert (Hpre : Forall (fun d => exists v, py_getitem d ‹"filename"› = Ok v)
                   [JObj [(‹"filename"›, JStr ‹"a.pdf"›)]])
    by (repeat constructor; eexists; vm_compute; reflexivity).
  assert (Hk : ~ In ‹"filename"› (map fst [(‹"name"›, JStr ‹"b.pdf"›)]))
    by (vm_compute; intros [E|[]]; discriminate).
  exact (@main_missing_filename ascii_db length_backend fixture_repr fixture_fs input fixture_now
           _ _ _ _ _ Hp Hj Hd Hpre Hk).
Defined.

(** [documents] given as an empty object: the run writes an output with
    no input document. *)
Lemma main_documents_not_list_witness :
  let input := fixture_input ‹"X"› ‹"Y"› (JObj []) in
  @main_decoded ascii_db length_backend fixture_repr fixture_fs input fixture_now =
    Ok (mkOutput (mkMetadata [] (JStr ‹"X"›) (JStr ‹"Y"›) fixture_now) [] []).
Proof.
  intros input.
  assert (Hp : (r <- py_getitem input ‹"persona"› ;; py_getitem r ‹"role"›) = Ok (JStr ‹"X"›))
    by (vm_compute; reflexivity).
  assert (Hj : (t <- py_getitem input ‹"job_to_be_done"› ;; py_getitem t ‹"task"›) = Ok (JStr ‹"Y"›))
    by (vm_compute; reflexivity).
  assert (Hd : py_getitem input ‹"documents"› = Ok (JObj [])) by (vm_compute; reflexivity).
  assert (Hnl : forall xs, JObj [] <> JArr xs) by (intros xs; discriminate).
  exact (@main_documents_not_list ascii_db length_backend fixture_repr fixture_fs input fixture_now
           _ _ _ Hp Hj Hd Hnl).
Defined.

(** [bad.pdf] comes first and the parser rejects it; the second entry's
    [filename] is a number.  The run raises the parser's exception, not
    [TypeError]: the entries are checked only when the loop reaches
    them. *)
Lemma main_filename_not_string_witness :
  let input := fixture_input ‹"X"› ‹"Y"›
                 (JArr [JObj [(‹"filename"›, JStr ‹"bad.pdf"›)]; JObj [(‹"filename"›, JInt 7)]]) in
  @main_decoded ascii_db length_backend fixture_repr fixture_fs input fixture_now =
    Err (FileDataError ‹"bad.pdf"›).
Proof.
  intros input.
  assert (Hp : (r <- py_getitem input ‹"persona"› ;; py_getitem r ‹"role"›) = Ok (JStr ‹"X"›))
    by (vm_compute; reflexivity).
  assert (Hj : (t <- py_getitem input ‹"job_to_be_done"› ;; py_getitem t ‹"task"›) = Ok (JStr ‹"Y"›))
    by (vm_compute; reflexivity).
  assert (Hd : py_getitem input ‹"documents"› =
               Ok (JArr ([JObj [(‹"filename"›, JStr ‹"bad.pdf"›)]] ++
                         JObj [(‹"filename"›, JInt 7)] :: []))) by (vm_compute; reflexivity).
  assert (Hf : py_map_result (fun doc => py_getitem doc ‹"filename"›)
                 ([JObj [(‹"filename"›, JStr ‹"bad.pdf"›)]] ++ JObj [(‹"filename"›, JInt 7)] :: []) =
               Ok [JStr ‹"bad.pdf"›; JInt 7]) by (vm_compute; reflexivity).
  assert (Hn : py_map_result entry_filename [JObj [(‹"filename"›, JStr ‹"bad.pdf"›)]] = Ok [‹"bad.pdf"›])
    by (vm_compute; reflexivity).
  assert (Hv : py_getitem (JObj [(‹"filename"›, JInt 7)]) ‹"filename"› = Ok (JInt 7))
    by (vm_compute; reflexivity).
  assert (Hs : forall s, JInt 7 <> JStr s) by (intros s; discriminate).
  rewrite (@main_filename_not_string ascii_db length_backend fixture_repr fixture_fs input fixture_now
           _ _ _ _ _ _ _ _ Hp Hj Hd Hf Hn Hv Hs).
  vm_compute. reflexivity.
Defined.
