(* ===== verification/Main.v ===== *)
(** * [main] from the file it reads to the file it writes (main.py, lines 106-155)

    [Pipeline.main_decoded] is [main] on the value [json.load] returned.
    This file adds both ends of the run: the text of [input.json] is
    decoded by [json_loads] (line 112), and [output_data] (lines
    117-126, with the entries of lines 138-148) becomes the JSON value
    [output_json], which [json_dump] writes to [output.json] (line
    153).  [main] returns the text written, or [None] when [input.json]
    does not exist (lines 107-109); an exception is an [Err] and leaves
    no output file, since the file is opened only after the loop.
    The theorems: the written text is ASCII; it reads back as the JSON
    value of what [main] computed whenever the values copied from
    [input.json] and the PDFs' texts are well formed (through
    [output_valid], shown of every run by tracing texts from the spans
    through [process_pdf] and the loop); a byte-order mark makes [main]
    raise [JSONDecodeError].  [script] is the whole run of [main.py] on
    a [Disk] (the path [OUTPUT_DIR] and [output.json] in it): the
    import-time [mkdir] of line 13, then [main()] (lines 157-158) with
    its write; it leaves [output.json] holding what [main] computed, a
    file at [OUTPUT_DIR] stops it at import, an exception leaves the
    output of an earlier run in place, and a second run is idempotent. *)

From S2P Require Import Prelude PyText Json JsonDump JsonLoad JsonDict JsonRoundtrip.
From S2P Require Import Extract Structure Semantic Select Refine Pipeline.
Close Scope Q_scope.

(** ** [output_data] as a JSON value *)

(** A Python [int] held in a [nat] of the model. *)
Definition json_nat (n : nat) : json := JInt (Z.of_nat n).

(** The dict appended at lines 138-143. *)
Definition extracted_json (e : ExtractedSection) : json :=
  JObj [(‹"document"›, JStr (es_document e));
        (‹"section_title"›, JStr (es_section_title e));
        (‹"importance_rank"›, json_nat (es_importance_rank e));
        (‹"page_number"›, json_nat (es_page_number e))].

(** The dict appended at lines 144-148. *)
Definition subsection_json (s : Subsection) : json :=
  JObj [(‹"document"›, JStr (sa_document s));
        (‹"refined_text"›, JStr (sa_refined_text s));
        (‹"page_number"›, json_nat (sa_page_number s))].

(** The dict of lines 118-123. *)
Definition metadata_json (m : Metadata) : json :=
  JObj [(‹"input_documents"›, JArr (input_documents m));
        (‹"persona"›, md_persona m);
        (‹"job_to_be_done"›, md_job_to_be_done m);
        (‹"processing_timestamp"›, JStr (processing_timestamp m))].

(** [output_data], lines 117-126, with its lists as the loop left them. *)
Definition output_json (out : Output) : json :=
  JObj [(‹"metadata"›, metadata_json (metadata out));
        (‹"extracted_sections"›, JArr (map extracted_json (out_extracted_sections out)));
        (‹"subsection_analysis"›, JArr (map subsection_json (out_subsection_analysis out)))].

(** ** [main] *)

Section Main.
Context `{UnicodeDB} `{EmbeddingBackend}.
Variable repr_other : json -> text.
Variable float_repr : Q -> text.

(** Lines 106-155.  [input_exists] is [INPUT_JSON_PATH.exists()] and
    [input_text] the text of [input.json]; the result is the text
    written to [output.json]. *)
Definition main (fs : FileSystem) (input_exists : bool) (input_text : text) (now : text)
  : result PyExn (option text) :=
  if negb input_exists then Ok None
  else input_data <- json_loads input_text ;;
       out <- main_decoded repr_other fs input_data now ;;
       Ok (Some (json_dump float_repr (output_json out))).

End Main.

(** ** The script: line 13 at import, then [main()] (lines 157-158) *)

(** What is found at the path [OUTPUT_DIR] (line 12). *)
Inductive DirEntry := Missing | IsDir | IsFile.

(** [OUTPUT_DIR] and the file [OUTPUT_DIR / "output.json"] in it. *)
Record Disk := mkDisk { out_dir : DirEntry; out_json : option text }.

(** [OUTPUT_DIR.mkdir(exist_ok=True)] (line 13): [os.mkdir] raises
    [FileExistsError] on a path that exists, and [exist_ok] silences it
    only when the path is a directory; the parent [BASE_DIR] exists,
    since it holds the script. *)
Definition mkdir_exist_ok (d : Disk) : result PyExn Disk :=
  match out_dir d with
  | Missing => Ok (mkDisk IsDir None)
  | IsDir => Ok d
  | IsFile => Err FileExistsError
  end.

(** [with open(output_file, "w") as f: json.dump(...)] (lines 152-153):
    the file is created or truncated and holds the text written. *)
Definition write_output (d : Disk) (t : text) : result PyExn Disk :=
  match out_dir d with
  | IsDir => Ok (mkDisk IsDir (Some t))
  | Missing => Err FileNotFoundError
  | IsFile => Err NotADirectoryError
  end.

Section Script.
Context `{UnicodeDB} `{EmbeddingBackend}.
Variable repr_other : json -> text.
Variable float_repr : Q -> text.

(** Running [main.py]: the module body creates the output directory at
    import (line 13), then [main()] runs (lines 157-158) and writes the
    text it computed.  The disk is threaded through: an exception stops
    the run but keeps what was done before it. *)
Definition script (d : Disk) (fs : FileSystem) (input_exists : bool) (input_text now : text)
  : Disk * result PyExn unit :=
  match mkdir_exist_ok d with
  | Err e => (d, Err e)
  | Ok d1 =>
      match main repr_other float_repr fs input_exists input_text now with
      | Err e => (d1, Err e)
      | Ok None => (d1, Ok tt)
      | Ok (Some w) =>
          match write_output d1 w with
          | Ok d2 => (d2, Ok tt)
          | Err e => (d1, Err e)
          end
      end
  end.

End Script.

(** ** The written file reads back *)

(** What the round trip of [JsonRoundtrip] asks of [output_data]: the
    decoded values it copies from [input.json] have scalar-value strings
    and no finite float, and the texts the run adds are scalar values. *)
Definition output_valid (out : Output) : bool :=
  let m := metadata out in
  forallb dumpable (input_documents m) && dumpable (md_persona m) &&
  dumpable (md_job_to_be_done m) && valid_text (processing_timestamp m) &&
  forallb (fun e => valid_text (es_document e) && valid_text (es_section_title e))
    (out_extracted_sections out) &&
  forallb (fun s => valid_text (sa_document s) && valid_text (sa_refined_text s))
    (out_subsection_analysis out).

(** A [dumpable] goal on a value built by the code: the conjunctions
    of [dumpable] are split through the dicts and lists of literal keys,
    the literal parts are evaluated, and the leaves left are those of
    the hypotheses. *)
Ltac dumpable_parts :=
  repeat (apply andb_true_intro; split); try reflexivity; try assumption.

Lemma forallb_map_dumpable {A} (g : A -> json) (p : A -> bool) (l : list A) :
  (forall x, p x = true -> dumpable (g x) = true) -> forallb p l = true ->
  forallb dumpable (map g l) = true.
Proof.
  intros Hg Hl. apply forallb_forall. intros y Hy. apply in_map_iff in Hy as (x & <- & Hx).
  apply Hg. eapply forallb_forall in Hl; [exact Hl|exact Hx].
Qed.

Lemma output_json_dumpable (out : Output) : output_valid out = true -> dumpable (output_json out) = true.
Proof.
  destruct out as [[docs p j now] es ss]. unfold output_valid. cbn -[dumpable valid_text forallb].
  rewrite !andb_true_iff. intros (((((Hd & Hp) & Hj) & Hn) & He) & Hs).
  unfold output_json, metadata_json. cbn [metadata input_documents md_persona md_job_to_be_done
    processing_timestamp out_extracted_sections out_subsection_analysis].
  dumpable_parts; eapply forallb_map_dumpable; try eassumption;
    intros x Hx; apply andb_true_iff in Hx as [Hx1 Hx2]; dumpable_parts.
Qed.

(** ** Well-formed inputs give a well-formed output *)

(** Every span of the PDF holds a text of Unicode scalar values. *)
Definition doc_texts_valid (doc : Document) : bool :=
  forallb (fun pg => forallb (fun rb => forallb (fun ln =>
    forallb (fun sp => valid_text (span_text sp)) ln) (rb_lines rb)) pg) doc.

(** The texts of the sections and subsections the loop collected. *)
Definition state_valid (st : DriverState) : bool :=
  forallb (fun e => valid_text (es_document e) && valid_text (es_section_title e))
    (extracted_sections st) &&
  forallb (fun s => valid_text (sa_document s) && valid_text (sa_refined_text s))
    (subsection_analysis st).

Definition section_valid (s : SectionOut) : bool :=
  valid_text (so_document s) && valid_text (so_section_title s) && valid_text (so_refined_text s).

Lemma valid_text_infix (a s b : text) : valid_text (a ++ s ++ b) = true -> valid_text s = true.
Proof. unfold valid_text. rewrite !forallb_app, !andb_true_iff. tauto. Qed.

Lemma valid_text_incl (s t : text) : (forall c, In c s -> In c t) -> valid_text t = true -> valid_text s = true.
Proof.
  unfold valid_text. rewrite !forallb_forall. intros Hst Ht c Hc. exact (Ht c (Hst c Hc)).
Qed.

Lemma extract_blocks_valid (doc : Document) (b : Block) :
  doc_texts_valid doc = true -> In b (fst (extract_blocks doc)) -> valid_text (b_text b) = true.
Proof.
  intros Hdoc Hb. rewrite extract_blocks_fst in Hb.
  apply in_spec_blocks in Hb as (pn & pg & rb & ln & sp & Hpg & Hrb & _ & Hln & Hsp & Hb).
  apply in_span_blocks in Hb as [_ ->]. cbn [b_text].
  destruct (strip_infix (span_text sp)) as (a & c & Ha). apply (valid_text_infix a _ c). rewrite <- Ha.
  apply in_enumerate in Hpg as (_ & Hpg).
  unfold doc_texts_valid in Hdoc. repeat (eapply forallb_forall in Hdoc; [|eassumption]). exact Hdoc.
Qed.

Lemma split_slash_incl (s : text) : Forall (fun w => forall c, In c w -> In c s) (split_slash s).
Proof.
  induction s as [|c s IH]; simpl; [constructor; [intros ? []|constructor]|].
  destruct (split_slash s) as [|w ws]; [constructor; [intros d [<-|[]]; left; reflexivity|constructor]|].
  apply Forall_cons_iff in IH as [Hw Hws].
  assert (Hws' : Forall (fun w => forall d, In d w -> In d (c :: s)) ws)
    by (eapply Forall_impl; [|exact Hws]; simpl; auto).
  destruct (c =? 47)%N.
  - constructor; [intros d []|]. constructor; [intros d Hd; right; auto|exact Hws'].
  - constructor; [intros d [<-|Hd]; [left; reflexivity|right; auto]|exact Hws'].
Qed.

Lemma last_cases {A} (l : list A) (d : A) : last l d = d \/ In (last l d) l.
Proof.
  induction l as [|x l IH]; simpl; [auto|]. destruct l as [|y l]; [auto|].
  destruct IH as [->|IH]; auto.
Qed.

(** [pdf_file.name] of a valid file name is valid. *)
Lemma path_name_valid (fn : text) : valid_text fn = true -> valid_text (path_name fn) = true.
Proof.
  intros Hfn. unfold path_name.
  destruct (last_cases (pdf_path [] fn) []) as [->|Hin]; [reflexivity|].
  assert (Hc : forall w, In w (path_components fn) -> valid_text w = true).
  { intros w Hw. unfold path_components in Hw. apply filter_In in Hw as [Hw _].
    pose proof (proj1 (Forall_forall _ _) (split_slash_incl fn) w Hw) as Hincl.
    exact (valid_text_incl _ _ Hincl Hfn). }
  unfold pdf_path, input_pdf_dir in *. destruct (is_absolute fn); [exact (Hc _ Hin)|].
  cbn [app In] in *. destruct Hin as [<-|Hin]; [reflexivity|exact (Hc _ Hin)].
Qed.

(** Cleaned text is printable ASCII, hence valid. *)
Lemma clean_valid (s : text) : valid_text (clean_refined_text s) = true.
Proof.
  unfold valid_text. apply forallb_forall. intros c Hc.
  pose proof (proj1 (Forall_forall _ _) (clean_printable s) c Hc) as Hp. simpl in Hp.
  unfold is_printable_ascii in Hp. apply andb_true_iff in Hp as [_ Hp]. apply N.leb_le in Hp.
  unfold scalar_value. apply andb_true_intro. split; [apply N.ltb_lt; lia|].
  apply negb_true_iff. apply andb_false_iff. left. apply N.leb_gt. lia.
Qed.

Lemma emit_valid (st : DriverState) (s : SectionOut) :
  state_valid st = true -> section_valid s = true -> state_valid (emit st s) = true.
Proof.
  unfold state_valid, section_valid, emit. cbn [extracted_sections subsection_analysis
    es_document es_section_title sa_document sa_refined_text].
  rewrite !forallb_app, !andb_true_iff. cbn [forallb]. rewrite !andb_true_iff. tauto.
Qed.

Section ValidRun.
Context `{UnicodeDB} `{EmbeddingBackend}.
Variable fs : FileSystem.
Hypothesis fs_valid : forall fn doc, fs_open fs fn = Some doc -> doc_texts_valid doc = true.
Variables persona job_task : text.

Lemma process_pdf_valid (name : text) (doc : Document) (best : list SectionOut) :
  valid_text name = true -> doc_texts_valid doc = true ->
  process_pdf name doc persona job_task = Ok best -> forallb section_valid best = true.
Proof.
  intros Hn Hdoc Hp.
  destruct (process_pdf_cases name doc persona job_task)
    as [[_ Hp']|[_ (l & t & _ & Hb & Ht & Hp')]]; rewrite Hp' in Hp; injection Hp as <-; [reflexivity|].
  cbn [forallb]. rewrite andb_true_r. unfold section_valid. cbn [so_document so_section_title so_refined_text].
  rewrite Hn, clean_valid. cbn [andb]. rewrite andb_true_r.
  apply (extract_blocks_valid doc _ Hdoc). rewrite <- Hb. apply in_map, (select_top_in _ _ Ht).
Qed.

Lemma loop_valid (names : list text) (st0 st : DriverState) :
  forallb valid_text names = true -> state_valid st0 = true ->
  fold_left (loop_step fs persona job_task) names (Ok st0) = Ok st -> state_valid st = true.
Proof.
  revert st0. induction names as [|fn names IH]; intros st0 Hn Hst0 Hrun; cbn [fold_left] in Hrun.
  - injection Hrun as <-. exact Hst0.
  - cbn [forallb] in Hn. apply andb_true_iff in Hn as [Hfn Hn].
    unfold loop_step at 2, visit_doc in Hrun. cbn [rbind] in Hrun.
    destruct (negb (fs_exists fs fn)); [exact (IH _ Hn Hst0 Hrun)|].
    destruct (fs_open fs fn) as [doc|] eqn:Hop; [|now rewrite loop_err in Hrun].
    destruct (process_pdf (path_name fn) doc persona job_task) as [best|e] eqn:Hp;
      cbn [rbind] in Hrun; [|now rewrite loop_err in Hrun].
    refine (IH _ Hn _ Hrun).
    pose proof (process_pdf_valid _ _ _ (path_name_valid _ Hfn) (fs_valid _ _ Hop) Hp) as Hb.
    clear - Hst0 Hb. revert st0 Hst0. induction best as [|s best IHb]; intros st0 Hst0; [exact Hst0|].
    cbn [forallb] in Hb. apply andb_true_iff in Hb as [Hs Hb]. apply IHb; [exact Hb|].
    apply emit_valid; assumption.
Qed.

End ValidRun.

Lemma dumpable_strings (l : list text) : forallb dumpable (map JStr l) = forallb valid_text l.
Proof. induction l as [|a l IH]; simpl; [reflexivity|now rewrite IH]. Qed.

(** [main] on a decoded input whose copied values are well formed
    builds an output that [output_valid] accepts. *)
Lemma main_decoded_valid `{UnicodeDB} `{EmbeddingBackend} (fs : FileSystem)
      (repr_other : json -> text) (v : json) (now : text) (out : Output) (p j : json) (docs fns : list json) :
  (forall fn doc, fs_open fs fn = Some doc -> doc_texts_valid doc = true) ->
  read_input v = Ok (p, j, docs, fns) ->
  dumpable p && dumpable j && forallb dumpable fns && valid_text now = true ->
  main_decoded repr_other fs v now = Ok out -> output_valid out = true.
Proof.
  intros Hfs Hr Hin. unfold main_decoded. rewrite Hr.
  destruct (main_entries _ _ _ _) as [st|e] eqn:Hrun; [|discriminate].
  cbn [rbind]. intros E. injection E as <-.
  destruct (loop_entries_ok _ _ _ _ _ _ Hrun) as (names & Hn & Hloop).
  pose proof (filenames_strings _ _ _ (read_input_filenames _ _ _ _ _ Hr) Hn) as ->.
  rewrite dumpable_strings in Hin. rewrite !andb_true_iff in Hin. destruct Hin as (((Hp & Hj) & Hnames) & Hnow).
  assert (Hst : state_valid st = true) by exact (loop_valid fs Hfs _ _ names init_state st Hnames eq_refl Hloop).
  unfold state_valid in Hst. apply andb_true_iff in Hst as [He Hs].
  unfold output_valid. cbn [metadata input_documents md_persona md_job_to_be_done processing_timestamp
    out_extracted_sections out_subsection_analysis].
  rewrite dumpable_strings, Hp, Hj, Hnames, Hnow, He, Hs. reflexivity.
Qed.


Section MainTheory.
Context `{UnicodeDB} `{EmbeddingBackend}.
Variable repr_other : json -> text.
Variable float_repr : Q -> text.

Lemma main_ok (fs : FileSystem) (t now w : text) :
  main repr_other float_repr fs true t now = Ok (Some w) ->
  exists v out, json_loads t = Ok v /\ main_decoded repr_other fs v now = Ok out /\
    w = json_dump float_repr (output_json out).
Proof.
  unfold main. cbn [negb]. destruct (json_loads t) as [v|e]; [|discriminate]. cbn [rbind].
  destruct (main_decoded repr_other fs v now) as [out|e] eqn:Hout; [|discriminate]. cbn [rbind].
  intros E. injection E as <-. exists v, out. auto.
Qed.

(** The file [main] writes reads back as the JSON value of the output
    it computed, when that output is [output_valid]. *)
Lemma main_output_loads (fs : FileSystem) (t now w : text) :
  main repr_other float_repr fs true t now = Ok (Some w) ->
  exists v out, json_loads t = Ok v /\ main_decoded repr_other fs v now = Ok out /\
    (output_valid out = true -> json_loads w = Ok (output_json out)).
Proof.
  intros Hm. destruct (main_ok fs t now w Hm) as (v & out & Hv & Hout & ->).
  exists v, out. split; [exact Hv|split; [exact Hout|]]. intros Hval.
  rewrite <- (app_nil_r (json_dump float_repr (output_json out))).
  apply json_loads_dump; [apply output_json_dumpable, Hval|reflexivity|reflexivity].
Qed.

(** C20: [output.json] reads back: when [main] writes it, [json.load]
    of the written text gives exactly the JSON value of the
    [output_data] that [main] computed from [input.json], provided the
    values it copies from [input.json] (persona, task, file names) have
    scalar-value strings and no finite float, the timestamp is valid,
    and every span of every PDF holds a text of scalar values. *)
Theorem main_output_roundtrip (fs : FileSystem) (t now w : text) (v p j : json) (docs fns : list json) :
  (forall fn doc, fs_open fs fn = Some doc -> doc_texts_valid doc = true) ->
  json_loads t = Ok v -> read_input v = Ok (p, j, docs, fns) ->
  dumpable p && dumpable j && forallb dumpable fns && valid_text now = true ->
  main repr_other float_repr fs true t now = Ok (Some w) ->
  exists out, main_decoded repr_other fs v now = Ok out /\ json_loads w = Ok (output_json out).
Proof.
  intros Hfs Hv Hr Hin Hm. destruct (main_output_loads fs t now w Hm) as (v' & out & Hv' & Hout & Hw).
  rewrite Hv in Hv'. injection Hv' as <-. exists out. split; [exact Hout|].
  apply Hw, (main_decoded_valid fs repr_other v now out p j docs fns Hfs Hr Hin Hout).
Qed.

(** C21: [output.json] is opened with the locale's encoding (line 152),
    and what [json.dump] writes to it is printable ASCII and newlines
    only, whatever the input and the PDFs hold: writing it cannot raise
    [UnicodeEncodeError].  [repr] of a float is ASCII. *)
Theorem main_written_ascii (fs : FileSystem) (exists_ : bool) (t now w : text) :
  (forall q, Forall ascii_out (float_repr q)) ->
  main repr_other float_repr fs exists_ t now = Ok (Some w) -> Forall ascii_out w.
Proof.
  intros Hf Hm. destruct exists_; [|discriminate].
  destruct (main_ok fs t now w Hm) as (v & out & _ & _ & ->).
  apply dump_ascii, Hf.
Qed.

(** [json.load] refuses a leading byte-order mark (line 112): an
    [input.json] saved with one makes [main] raise [JSONDecodeError]
    and write nothing, where the same text without it runs to the end. *)
Theorem main_input_bom (fs : FileSystem) (t now : text) (v : json) (out : Output) :
  json_loads t = Ok v -> main_decoded repr_other fs v now = Ok out ->
  main repr_other float_repr fs true t now = Ok (Some (json_dump float_repr (output_json out))) /\
  main repr_other float_repr fs true (65279%N :: t) now = Err JSONDecodeError.
Proof.
  intros Hv Hout. unfold main. cbn [negb]. rewrite Hv. cbn [rbind]. rewrite Hout.
  split; reflexivity.
Qed.

End MainTheory.

Section ScriptTheory.
Context `{UnicodeDB} `{EmbeddingBackend}.
Variable repr_other : json -> text.
Variable float_repr : Q -> text.
Variable fs : FileSystem.
Variables (input_exists : bool) (t now : text).

Lemma mkdir_exist_ok_dir (d : Disk) : out_dir d <> IsFile ->
  mkdir_exist_ok d = Ok (mkDisk IsDir (match out_dir d with IsDir => out_json d | _ => None end)).
Proof. destruct d as [[] j]; cbn; congruence. Qed.

(** C22: When [OUTPUT_DIR] is free or a directory and [main] returns the
    text [w], the run leaves [output.json] holding [w]. *)
Theorem script_writes (d : Disk) (w : text) : out_dir d <> IsFile ->
  main repr_other float_repr fs input_exists t now = Ok (Some w) ->
  script repr_other float_repr d fs input_exists t now = (mkDisk IsDir (Some w), Ok tt).
Proof. intros Hd Hm. unfold script. rewrite mkdir_exist_ok_dir, Hm by exact Hd. reflexivity. Qed.

(** C23: An exception in [main] leaves [output.json] as it was: the output
    of an earlier run stays in place. *)
Theorem script_error_keeps_output (d : Disk) (e : PyExn) : out_dir d = IsDir ->
  main repr_other float_repr fs input_exists t now = Err e ->
  script repr_other float_repr d fs input_exists t now = (d, Err e).
Proof.
  intros Hd Hm. unfold script. rewrite mkdir_exist_ok_dir, Hm by congruence. rewrite Hd.
  destruct d as [dir j]. cbn in Hd. subst dir. reflexivity.
Qed.

(** A file at the path [OUTPUT_DIR] stops the script at import, before
    [input.json] is read, with [FileExistsError]. *)
Theorem script_blocked (d : Disk) : out_dir d = IsFile ->
  script repr_other float_repr d fs input_exists t now = (d, Err FileExistsError).
Proof. intros Hd. unfold script, mkdir_exist_ok. rewrite Hd. reflexivity. Qed.

(** A second run on the same inputs finds what the first one left and
    leaves it unchanged. *)
Theorem script_rerun (d d' : Disk) :
  script repr_other float_repr d fs input_exists t now = (d', Ok tt) ->
  script repr_other float_repr d' fs input_exists t now = (d', Ok tt).
Proof.
  unfold script. destruct d as [[] j]; cbn [mkdir_exist_ok out_dir out_json];
    destruct (main repr_other float_repr fs input_exists t now) as [[w|]|e];
    cbn [write_output out_dir]; intros E; injection E as <-; try discriminate; reflexivity.
Qed.

End ScriptTheory.

(** ** Witnesses *)

(** [repr] of a float, unused by the fixture (it has no float). *)
Definition fixture_float_repr (q : Q) : text := [].

(** [input.json] of the fixture of [Pipeline], as [json.dump] would
    write it. *)
Definition fixture_input_text : text :=
  json_dump fixture_float_repr (fixture_input ‹"X"› ‹"Y"› (fixture_entries fixture_docs)).

Definition fixture_main (t : text) : result PyExn (option text) :=
  @main ascii_db length_backend fixture_repr fixture_float_repr fixture_fs true t fixture_now.

(** Every document of the fixture's file system holds valid texts. *)
Lemma fixture_fs_valid :
  forall fn doc, fs_open fixture_fs fn = Some doc -> doc_texts_valid doc = true.
Proof.
  intros fn doc. cbn [fs_open fixture_fs].
  repeat match goal with |- context [if ?b then _ else _] => destruct b end;
    intros E; try discriminate; injection E as <-; reflexivity.
Qed.

Lemma main_output_roundtrip_witness :
  exists w out, fixture_main fixture_input_text = Ok (Some w) /\
    @main_decoded ascii_db length_backend fixture_repr fixture_fs
      (fixture_input ‹"X"› ‹"Y"› (fixture_entries fixture_docs)) fixture_now = Ok out /\
    json_loads w = Ok (output_json out).
Proof.
  assert (Hv : json_loads fixture_input_text = Ok (fixture_input ‹"X"› ‹"Y"› (fixture_entries fixture_docs)))
    by (vm_compute; reflexivity).
  assert (Hr : read_input (fixture_input ‹"X"› ‹"Y"› (fixture_entries fixture_docs)) =
                 Ok (JStr ‹"X"›, JStr ‹"Y"›, _, map JStr fixture_docs)) by (vm_compute; reflexivity).
  assert (Hin : dumpable (JStr ‹"X"›) && dumpable (JStr ‹"Y"›) && forallb dumpable (map JStr fixture_docs) &&
                valid_text fixture_now = true) by reflexivity.
  assert (Hm : fixture_main fixture_input_text = Ok (Some _)) by (vm_compute; reflexivity).
  destruct (@main_output_roundtrip ascii_db length_backend fixture_repr fixture_float_repr
              _ _ _ _ _ _ _ _ _ fixture_fs_valid Hv Hr Hin Hm) as (out & Hout & Hw).
  eexists; exists out. split; [exact Hm|split; [exact Hout|exact Hw]].
Defined.

Lemma main_written_ascii_witness :
  exists w, (forall q, Forall ascii_out (fixture_float_repr q)) /\
    fixture_main fixture_input_text = Ok (Some w) /\ Forall ascii_out w.
Proof.
  assert (Hf : forall q, Forall ascii_out (fixture_float_repr q)) by (intros q; constructor).
  assert (H : fixture_main fixture_input_text = Ok (Some _)) by (vm_compute; reflexivity).
  eexists. split; [exact Hf|split; [exact H|]].
  exact (@main_written_ascii ascii_db length_backend fixture_repr fixture_float_repr _ _ _ _ _ Hf H).
Defined.

Lemma main_input_bom_witness :
  exists v out, json_loads fixture_input_text = Ok v /\
    @main_decoded ascii_db length_backend fixture_repr fixture_fs v fixture_now = Ok out /\
    fixture_main fixture_input_text = Ok (Some (json_dump fixture_float_repr (output_json out))) /\
    fixture_main (65279%N :: fixture_input_text) = Err JSONDecodeError.
Proof.
  assert (Hv : json_loads fixture_input_text = Ok _) by (vm_compute; reflexivity).
  assert (Hout : @main_decoded ascii_db length_backend fixture_repr fixture_fs
                   (fixture_input ‹"X"› ‹"Y"› (fixture_entries fixture_docs)) fixture_now = Ok _)
    by (vm_compute; reflexivity).
  do 2 eexists. split; [exact Hv|split; [exact Hout|]].
  exact (@main_input_bom ascii_db length_backend fixture_repr fixture_float_repr _ _ _ _ _ Hv Hout).
Defined.

(** A first run: [OUTPUT_DIR] does not exist yet. *)
Lemma script_writes_witness :
  exists w, out_dir (mkDisk Missing None) <> IsFile /\ fixture_main fixture_input_text = Ok (Some w) /\
    @script ascii_db length_backend fixture_repr fixture_float_repr (mkDisk Missing None) fixture_fs true
      fixture_input_text fixture_now = (mkDisk IsDir (Some w), Ok tt).
Proof.
  assert (Hd : out_dir (mkDisk Missing None) <> IsFile) by discriminate.
  assert (Hm : fixture_main fixture_input_text = Ok (Some _)) by (vm_compute; reflexivity).
  eexists. split; [exact Hd|split; [exact Hm|]].
  exact (@script_writes ascii_db length_backend fixture_repr fixture_float_repr _ _ _ _ _ _ Hd Hm).
Defined.

(** A run on an [input.json] with a byte-order mark, after a run that
    wrote ["old"]: the old output stays. *)
Lemma script_error_keeps_output_witness :
  out_dir (mkDisk IsDir (Some ‹"old"›)) = IsDir /\
  fixture_main (65279%N :: fixture_input_text) = Err JSONDecodeError /\
  @script ascii_db length_backend fixture_repr fixture_float_repr (mkDisk IsDir (Some ‹"old"›)) fixture_fs true
    (65279%N :: fixture_input_text) fixture_now = (mkDisk IsDir (Some ‹"old"›), Err JSONDecodeError).
Proof.
  assert (Hd : out_dir (mkDisk IsDir (Some ‹"old"›)) = IsDir) by reflexivity.
  assert (Hm : fixture_main (65279%N :: fixture_input_text) = Err JSONDecodeError) by (vm_compute; reflexivity).
  split; [exact Hd|split; [exact Hm|]].
  exact (@script_error_keeps_output ascii_db length_backend fixture_repr fixture_float_repr _ _ _ _ _ _ Hd Hm).
Defined.
